(** * Adaptive tickless timer scheduling: kernel/time/tick-sched.c and nohz.c

    A shallow embedding of the dynticks code and the properties its
    specification states about it.  The machine is a 64-bit kernel built
    with CONFIG_NO_HZ and CONFIG_CPUSETS_NO_HZ: [unsigned long], [u64] and
    [s64] are 64 bits wide, [int] and [atomic_t] are 32 bits wide.  Fixed
    width integers are values of [Z] and every C operation that can wrap
    writes its wrap-around out. *)

From Stdlib Require Import ZArith Lia Bool List.
From stdpp Require Import base list.
Import ListNotations.

Local Open Scope Z_scope.

(** ** Machine integers *)

Definition wrap_u64 (z : Z) : Z := z mod 2 ^ 64.
Definition wrap_s64 (z : Z) : Z := (z + 2 ^ 63) mod 2 ^ 64 - 2 ^ 63.
Definition wrap_s32 (z : Z) : Z := (z + 2 ^ 31) mod 2 ^ 32 - 2 ^ 31.

Definition u64_range (z : Z) : Prop := 0 <= z < 2 ^ 64.
Definition s64_range (z : Z) : Prop := - 2 ^ 63 <= z < 2 ^ 63.
Definition s32_range (z : Z) : Prop := - 2 ^ 31 <= z < 2 ^ 31.

(** Modelled from the spec: the limits come from headers that are not
    part of this file.  The spec's unbounded sleep length "MAX" is KTIME_MAX,
    the largest s64; LONG_MAX is the bound from which an elapsed tick count
    is "absurdly large"; (u64)-1 is what the accessors return when the
    subsystem is disabled. *)
Definition KTIME_MAX : Z := 2 ^ 63 - 1.
Definition LONG_MAX : Z := 2 ^ 63 - 1.
Definition U64_MINUS_ONE : Z := 2 ^ 64 - 1.

(** [(long) x] for an [unsigned long] x. *)
Definition as_long (z : Z) : Z := wrap_s64 z.

(** ** ktime_t *)

(** Modelled from the spec: ktime_t and its helpers are declared in
    include/linux/ktime.h, which is not part of this file.  The spec has
    them as "Timestamp" and "Duration" with sums, differences and the
    "integer number of periods in one division"; here they are the scalar
    64-bit versions: the [tv64] member, a signed 64-bit count of
    nanoseconds, with two's complement arithmetic. *)

Definition ktime_t := Z.

Definition ktime_sub (lhs rhs : ktime_t) : ktime_t := wrap_s64 (lhs - rhs).
Definition ktime_add (lhs rhs : ktime_t) : ktime_t := wrap_s64 (lhs + rhs).
Definition ktime_add_ns (kt : ktime_t) (nsval : Z) : ktime_t := wrap_s64 (kt + nsval).
Definition ktime_to_ns (kt : ktime_t) : Z := kt.
Definition ktime_divns (kt : ktime_t) (div : Z) : Z := wrap_u64 (Z.quot kt div).
Definition ktime_equal (a b : ktime_t) : bool := a =? b.

(** Modelled from the spec: [ktime_to_us] is declared in ktime.h; the spec
    has the accessors return microseconds.  The conversion goes through
    [ns_to_timeval], which normalises a negative remainder: the result is
    the floor of the nanoseconds over 1000. *)
Definition ktime_to_us (kt : ktime_t) : Z := kt / 1000.

(** ** Data model *)

(** Modelled from the spec: the enumerations and [struct tick_sched] are
    declared in include/linux/tick.h and the sentinel in tick-internal.h,
    which are not part of this file.  The spec has "TickMode in {Inactive,
    LowRes, HighRes}", "AccountingReason in {None, Idle, User, System}",
    the "NONE sentinel = unassigned" of duty_cpu, which is no CPU number,
    and the fields of PerCpuTickState; the record below has the fields the
    code of this file reads and writes, under the names it uses. *)
Inductive tick_nohz_mode := NOHZ_MODE_INACTIVE | NOHZ_MODE_LOWRES | NOHZ_MODE_HIGHRES.

Inductive tick_saved_jiffies :=
  JIFFIES_SAVED_NONE | JIFFIES_SAVED_IDLE | JIFFIES_SAVED_USER | JIFFIES_SAVED_SYS.

Definition TICK_DO_TIMER_NONE : Z := -1.

Definition tick_nohz_mode_eqb (a b : tick_nohz_mode) : bool :=
  match a, b with
  | NOHZ_MODE_INACTIVE, NOHZ_MODE_INACTIVE
  | NOHZ_MODE_LOWRES, NOHZ_MODE_LOWRES
  | NOHZ_MODE_HIGHRES, NOHZ_MODE_HIGHRES => true
  | _, _ => false
  end.

Definition tick_saved_jiffies_eqb (a b : tick_saved_jiffies) : bool :=
  match a, b with
  | JIFFIES_SAVED_NONE, JIFFIES_SAVED_NONE
  | JIFFIES_SAVED_IDLE, JIFFIES_SAVED_IDLE
  | JIFFIES_SAVED_USER, JIFFIES_SAVED_USER
  | JIFFIES_SAVED_SYS, JIFFIES_SAVED_SYS => true
  | _, _ => false
  end.

(** The part of [struct hrtimer] the tick code looks at. *)
Record hrtimer := { hrt_expires : ktime_t; hrt_active : bool }.

(** [struct tick_sched], the per-CPU nohz control structure.  Flags that
    the code only ever sets to 0 or 1 and tests for truth are booleans. *)
Record tick_sched := {
  sched_timer : hrtimer;
  check_clocks : Z;
  nohz_mode : tick_nohz_mode;
  last_tick : ktime_t;
  inidle : bool;
  tick_stopped : bool;
  saved_jiffies : Z;
  saved_jiffies_whence : tick_saved_jiffies;
  idle_calls : Z;
  idle_sleeps : Z;
  idle_active : bool;
  idle_entrytime : ktime_t;
  idle_waketime : ktime_t;
  idle_exittime : ktime_t;
  idle_sleeptime : ktime_t;
  iowait_sleeptime : ktime_t;
  sleep_length : ktime_t;
  last_jiffies : Z;
  next_jiffies : Z;
  idle_expires : ktime_t;
  do_timer_last : bool;
  user_nohz : bool
}.

(** Everything else that is per CPU: the event device's [next_event], the
    [nohz_task_ext_qs] variable and the TIF_NOHZ flag of the CPU's current
    task. *)
Record percpu := {
  tick_cpu_sched : tick_sched;
  next_event : ktime_t;
  nohz_task_ext_qs : bool;
  tif_nohz : bool
}.

Inductive warn_site :=
  | WARN_nrepeat              (* check_drop_timer_duty: ++nrepeat > 1 *)
  | WARN_nr_negative          (* atomic_add_negative(-1, &nr_cpus_user_nohz) *)
  | WARN_whence_not_none.     (* tick_nohz_cpuset_stop_tick *)

(** Calls into the collaborators (timekeeping, hrtimers, the event device,
    the scheduler's accounting, RCU, the log), recorded in program order. *)
Inductive event :=
  | EvDoTimer (ticks : Z)
  | EvHrtimerStart (cpu : Z) (expires : ktime_t)
  | EvHrtimerCancel (cpu : Z)
  | EvTickProgramEvent (cpu : Z) (expires : ktime_t)
  | EvRaiseTimerSoftirq (cpu : Z)
  | EvPrintkSoftirqPending (cpu : Z) (pending : Z)
  | EvWarn (site : warn_site)
  | EvAccountIdleTicks (cpu : Z) (ticks : Z)
  | EvAccountUserTicks (cpu : Z) (ticks : Z)
  | EvAccountSystemTicks (cpu : Z) (ticks : Z)
  | EvRcuUserEnter (cpu : Z)
  | EvRcuUserExit (cpu : Z)
  | EvSelectNohzLoadBalancer (cpu : Z) (stop_tick : bool).

(** The globals of tick-sched.c and the ones it shares with the rest of
    kernel/time, the per-CPU areas, and the trace of outgoing calls. *)
Record kstate := {
  jiffies_64 : Z;
  last_jiffies_update : ktime_t;
  tick_next_period : ktime_t;
  tick_period : ktime_t;
  tick_do_timer_cpu : Z;
  nr_cpus_user_nohz : Z;
  tick_nohz_enabled : bool;
  ratelimit : Z;
  cpus : list percpu;
  events : list event
}.

(** *** Field updates *)

Definition set_sched_timer (v : hrtimer) (r : tick_sched) : tick_sched :=
  Build_tick_sched v (check_clocks r) (nohz_mode r) (last_tick r) (inidle r) (tick_stopped r)
    (saved_jiffies r) (saved_jiffies_whence r) (idle_calls r) (idle_sleeps r) (idle_active r)
    (idle_entrytime r) (idle_waketime r) (idle_exittime r) (idle_sleeptime r) (iowait_sleeptime
    r) (sleep_length r) (last_jiffies r) (next_jiffies r) (idle_expires r) (do_timer_last r)
    (user_nohz r).
Definition set_check_clocks (v : Z) (r : tick_sched) : tick_sched :=
  Build_tick_sched (sched_timer r) v (nohz_mode r) (last_tick r) (inidle r) (tick_stopped r)
    (saved_jiffies r) (saved_jiffies_whence r) (idle_calls r) (idle_sleeps r) (idle_active r)
    (idle_entrytime r) (idle_waketime r) (idle_exittime r) (idle_sleeptime r) (iowait_sleeptime
    r) (sleep_length r) (last_jiffies r) (next_jiffies r) (idle_expires r) (do_timer_last r)
    (user_nohz r).
Definition set_nohz_mode (v : tick_nohz_mode) (r : tick_sched) : tick_sched :=
  Build_tick_sched (sched_timer r) (check_clocks r) v (last_tick r) (inidle r) (tick_stopped
    r) (saved_jiffies r) (saved_jiffies_whence r) (idle_calls r) (idle_sleeps r) (idle_active r)
    (idle_entrytime r) (idle_waketime r) (idle_exittime r) (idle_sleeptime r) (iowait_sleeptime
    r) (sleep_length r) (last_jiffies r) (next_jiffies r) (idle_expires r) (do_timer_last r)
    (user_nohz r).
Definition set_last_tick (v : ktime_t) (r : tick_sched) : tick_sched :=
  Build_tick_sched (sched_timer r) (check_clocks r) (nohz_mode r) v (inidle r) (tick_stopped
    r) (saved_jiffies r) (saved_jiffies_whence r) (idle_calls r) (idle_sleeps r) (idle_active r)
    (idle_entrytime r) (idle_waketime r) (idle_exittime r) (idle_sleeptime r) (iowait_sleeptime
    r) (sleep_length r) (last_jiffies r) (next_jiffies r) (idle_expires r) (do_timer_last r)
    (user_nohz r).
Definition set_inidle (v : bool) (r : tick_sched) : tick_sched :=
  Build_tick_sched (sched_timer r) (check_clocks r) (nohz_mode r) (last_tick r) v
    (tick_stopped r) (saved_jiffies r) (saved_jiffies_whence r) (idle_calls r) (idle_sleeps r)
    (idle_active r) (idle_entrytime r) (idle_waketime r) (idle_exittime r) (idle_sleeptime r)
    (iowait_sleeptime r) (sleep_length r) (last_jiffies r) (next_jiffies r) (idle_expires r)
    (do_timer_last r) (user_nohz r).
Definition set_tick_stopped (v : bool) (r : tick_sched) : tick_sched :=
  Build_tick_sched (sched_timer r) (check_clocks r) (nohz_mode r) (last_tick r) (inidle r) v
    (saved_jiffies r) (saved_jiffies_whence r) (idle_calls r) (idle_sleeps r) (idle_active r)
    (idle_entrytime r) (idle_waketime r) (idle_exittime r) (idle_sleeptime r) (iowait_sleeptime
    r) (sleep_length r) (last_jiffies r) (next_jiffies r) (idle_expires r) (do_timer_last r)
    (user_nohz r).
Definition set_saved_jiffies (v : Z) (r : tick_sched) : tick_sched :=
  Build_tick_sched (sched_timer r) (check_clocks r) (nohz_mode r) (last_tick r) (inidle r)
    (tick_stopped r) v (saved_jiffies_whence r) (idle_calls r) (idle_sleeps r) (idle_active r)
    (idle_entrytime r) (idle_waketime r) (idle_exittime r) (idle_sleeptime r) (iowait_sleeptime
    r) (sleep_length r) (last_jiffies r) (next_jiffies r) (idle_expires r) (do_timer_last r)
    (user_nohz r).
Definition set_saved_jiffies_whence (v : tick_saved_jiffies) (r : tick_sched) : tick_sched :=
  Build_tick_sched (sched_timer r) (check_clocks r) (nohz_mode r) (last_tick r) (inidle r)
    (tick_stopped r) (saved_jiffies r) v (idle_calls r) (idle_sleeps r) (idle_active r)
    (idle_entrytime r) (idle_waketime r) (idle_exittime r) (idle_sleeptime r) (iowait_sleeptime
    r) (sleep_length r) (last_jiffies r) (next_jiffies r) (idle_expires r) (do_timer_last r)
    (user_nohz r).
Definition set_idle_calls (v : Z) (r : tick_sched) : tick_sched :=
  Build_tick_sched (sched_timer r) (check_clocks r) (nohz_mode r) (last_tick r) (inidle r)
    (tick_stopped r) (saved_jiffies r) (saved_jiffies_whence r) v (idle_sleeps r) (idle_active
    r) (idle_entrytime r) (idle_waketime r) (idle_exittime r) (idle_sleeptime r)
    (iowait_sleeptime r) (sleep_length r) (last_jiffies r) (next_jiffies r) (idle_expires r)
    (do_timer_last r) (user_nohz r).
Definition set_idle_sleeps (v : Z) (r : tick_sched) : tick_sched :=
  Build_tick_sched (sched_timer r) (check_clocks r) (nohz_mode r) (last_tick r) (inidle r)
    (tick_stopped r) (saved_jiffies r) (saved_jiffies_whence r) (idle_calls r) v (idle_active r)
    (idle_entrytime r) (idle_waketime r) (idle_exittime r) (idle_sleeptime r) (iowait_sleeptime
    r) (sleep_length r) (last_jiffies r) (next_jiffies r) (idle_expires r) (do_timer_last r)
    (user_nohz r).
Definition set_idle_active (v : bool) (r : tick_sched) : tick_sched :=
  Build_tick_sched (sched_timer r) (check_clocks r) (nohz_mode r) (last_tick r) (inidle r)
    (tick_stopped r) (saved_jiffies r) (saved_jiffies_whence r) (idle_calls r) (idle_sleeps r) v
    (idle_entrytime r) (idle_waketime r) (idle_exittime r) (idle_sleeptime r) (iowait_sleeptime
    r) (sleep_length r) (last_jiffies r) (next_jiffies r) (idle_expires r) (do_timer_last r)
    (user_nohz r).
Definition set_idle_entrytime (v : ktime_t) (r : tick_sched) : tick_sched :=
  Build_tick_sched (sched_timer r) (check_clocks r) (nohz_mode r) (last_tick r) (inidle r)
    (tick_stopped r) (saved_jiffies r) (saved_jiffies_whence r) (idle_calls r) (idle_sleeps r)
    (idle_active r) v (idle_waketime r) (idle_exittime r) (idle_sleeptime r) (iowait_sleeptime
    r) (sleep_length r) (last_jiffies r) (next_jiffies r) (idle_expires r) (do_timer_last r)
    (user_nohz r).
Definition set_idle_waketime (v : ktime_t) (r : tick_sched) : tick_sched :=
  Build_tick_sched (sched_timer r) (check_clocks r) (nohz_mode r) (last_tick r) (inidle r)
    (tick_stopped r) (saved_jiffies r) (saved_jiffies_whence r) (idle_calls r) (idle_sleeps r)
    (idle_active r) (idle_entrytime r) v (idle_exittime r) (idle_sleeptime r) (iowait_sleeptime
    r) (sleep_length r) (last_jiffies r) (next_jiffies r) (idle_expires r) (do_timer_last r)
    (user_nohz r).
Definition set_idle_exittime (v : ktime_t) (r : tick_sched) : tick_sched :=
  Build_tick_sched (sched_timer r) (check_clocks r) (nohz_mode r) (last_tick r) (inidle r)
    (tick_stopped r) (saved_jiffies r) (saved_jiffies_whence r) (idle_calls r) (idle_sleeps r)
    (idle_active r) (idle_entrytime r) (idle_waketime r) v (idle_sleeptime r) (iowait_sleeptime
    r) (sleep_length r) (last_jiffies r) (next_jiffies r) (idle_expires r) (do_timer_last r)
    (user_nohz r).
Definition set_idle_sleeptime (v : ktime_t) (r : tick_sched) : tick_sched :=
  Build_tick_sched (sched_timer r) (check_clocks r) (nohz_mode r) (last_tick r) (inidle r)
    (tick_stopped r) (saved_jiffies r) (saved_jiffies_whence r) (idle_calls r) (idle_sleeps r)
    (idle_active r) (idle_entrytime r) (idle_waketime r) (idle_exittime r) v (iowait_sleeptime
    r) (sleep_length r) (last_jiffies r) (next_jiffies r) (idle_expires r) (do_timer_last r)
    (user_nohz r).
Definition set_iowait_sleeptime (v : ktime_t) (r : tick_sched) : tick_sched :=
  Build_tick_sched (sched_timer r) (check_clocks r) (nohz_mode r) (last_tick r) (inidle r)
    (tick_stopped r) (saved_jiffies r) (saved_jiffies_whence r) (idle_calls r) (idle_sleeps r)
    (idle_active r) (idle_entrytime r) (idle_waketime r) (idle_exittime r) (idle_sleeptime r) v
    (sleep_length r) (last_jiffies r) (next_jiffies r) (idle_expires r) (do_timer_last r)
    (user_nohz r).
Definition set_sleep_length (v : ktime_t) (r : tick_sched) : tick_sched :=
  Build_tick_sched (sched_timer r) (check_clocks r) (nohz_mode r) (last_tick r) (inidle r)
    (tick_stopped r) (saved_jiffies r) (saved_jiffies_whence r) (idle_calls r) (idle_sleeps r)
    (idle_active r) (idle_entrytime r) (idle_waketime r) (idle_exittime r) (idle_sleeptime r)
    (iowait_sleeptime r) v (last_jiffies r) (next_jiffies r) (idle_expires r) (do_timer_last r)
    (user_nohz r).
Definition set_last_jiffies (v : Z) (r : tick_sched) : tick_sched :=
  Build_tick_sched (sched_timer r) (check_clocks r) (nohz_mode r) (last_tick r) (inidle r)
    (tick_stopped r) (saved_jiffies r) (saved_jiffies_whence r) (idle_calls r) (idle_sleeps r)
    (idle_active r) (idle_entrytime r) (idle_waketime r) (idle_exittime r) (idle_sleeptime r)
    (iowait_sleeptime r) (sleep_length r) v (next_jiffies r) (idle_expires r) (do_timer_last r)
    (user_nohz r).
Definition set_next_jiffies (v : Z) (r : tick_sched) : tick_sched :=
  Build_tick_sched (sched_timer r) (check_clocks r) (nohz_mode r) (last_tick r) (inidle r)
    (tick_stopped r) (saved_jiffies r) (saved_jiffies_whence r) (idle_calls r) (idle_sleeps r)
    (idle_active r) (idle_entrytime r) (idle_waketime r) (idle_exittime r) (idle_sleeptime r)
    (iowait_sleeptime r) (sleep_length r) (last_jiffies r) v (idle_expires r) (do_timer_last r)
    (user_nohz r).
Definition set_idle_expires (v : ktime_t) (r : tick_sched) : tick_sched :=
  Build_tick_sched (sched_timer r) (check_clocks r) (nohz_mode r) (last_tick r) (inidle r)
    (tick_stopped r) (saved_jiffies r) (saved_jiffies_whence r) (idle_calls r) (idle_sleeps r)
    (idle_active r) (idle_entrytime r) (idle_waketime r) (idle_exittime r) (idle_sleeptime r)
    (iowait_sleeptime r) (sleep_length r) (last_jiffies r) (next_jiffies r) v (do_timer_last r)
    (user_nohz r).
Definition set_do_timer_last (v : bool) (r : tick_sched) : tick_sched :=
  Build_tick_sched (sched_timer r) (check_clocks r) (nohz_mode r) (last_tick r) (inidle r)
    (tick_stopped r) (saved_jiffies r) (saved_jiffies_whence r) (idle_calls r) (idle_sleeps r)
    (idle_active r) (idle_entrytime r) (idle_waketime r) (idle_exittime r) (idle_sleeptime r)
    (iowait_sleeptime r) (sleep_length r) (last_jiffies r) (next_jiffies r) (idle_expires r) v
    (user_nohz r).
Definition set_user_nohz (v : bool) (r : tick_sched) : tick_sched :=
  Build_tick_sched (sched_timer r) (check_clocks r) (nohz_mode r) (last_tick r) (inidle r)
    (tick_stopped r) (saved_jiffies r) (saved_jiffies_whence r) (idle_calls r) (idle_sleeps r)
    (idle_active r) (idle_entrytime r) (idle_waketime r) (idle_exittime r) (idle_sleeptime r)
    (iowait_sleeptime r) (sleep_length r) (last_jiffies r) (next_jiffies r) (idle_expires r)
    (do_timer_last r) v.

Definition set_tick_cpu_sched (v : tick_sched) (r : percpu) : percpu :=
  Build_percpu v (next_event r) (nohz_task_ext_qs r) (tif_nohz r).
Definition set_next_event (v : ktime_t) (r : percpu) : percpu :=
  Build_percpu (tick_cpu_sched r) v (nohz_task_ext_qs r) (tif_nohz r).
Definition set_nohz_task_ext_qs (v : bool) (r : percpu) : percpu :=
  Build_percpu (tick_cpu_sched r) (next_event r) v (tif_nohz r).
Definition set_tif_nohz (v : bool) (r : percpu) : percpu :=
  Build_percpu (tick_cpu_sched r) (next_event r) (nohz_task_ext_qs r) v.

Definition set_jiffies_64 (v : Z) (r : kstate) : kstate :=
  Build_kstate v (last_jiffies_update r) (tick_next_period r) (tick_period r)
    (tick_do_timer_cpu r) (nr_cpus_user_nohz r) (tick_nohz_enabled r) (ratelimit r) (cpus r)
    (events r).
Definition set_last_jiffies_update (v : ktime_t) (r : kstate) : kstate :=
  Build_kstate (jiffies_64 r) v (tick_next_period r) (tick_period r) (tick_do_timer_cpu r)
    (nr_cpus_user_nohz r) (tick_nohz_enabled r) (ratelimit r) (cpus r) (events r).
Definition set_tick_next_period (v : ktime_t) (r : kstate) : kstate :=
  Build_kstate (jiffies_64 r) (last_jiffies_update r) v (tick_period r) (tick_do_timer_cpu r)
    (nr_cpus_user_nohz r) (tick_nohz_enabled r) (ratelimit r) (cpus r) (events r).
Definition set_tick_period (v : ktime_t) (r : kstate) : kstate :=
  Build_kstate (jiffies_64 r) (last_jiffies_update r) (tick_next_period r) v
    (tick_do_timer_cpu r) (nr_cpus_user_nohz r) (tick_nohz_enabled r) (ratelimit r) (cpus r)
    (events r).
Definition set_tick_do_timer_cpu (v : Z) (r : kstate) : kstate :=
  Build_kstate (jiffies_64 r) (last_jiffies_update r) (tick_next_period r) (tick_period r) v
    (nr_cpus_user_nohz r) (tick_nohz_enabled r) (ratelimit r) (cpus r) (events r).
Definition set_nr_cpus_user_nohz (v : Z) (r : kstate) : kstate :=
  Build_kstate (jiffies_64 r) (last_jiffies_update r) (tick_next_period r) (tick_period r)
    (tick_do_timer_cpu r) v (tick_nohz_enabled r) (ratelimit r) (cpus r) (events r).
Definition set_tick_nohz_enabled (v : bool) (r : kstate) : kstate :=
  Build_kstate (jiffies_64 r) (last_jiffies_update r) (tick_next_period r) (tick_period r)
    (tick_do_timer_cpu r) (nr_cpus_user_nohz r) v (ratelimit r) (cpus r) (events r).
Definition set_ratelimit (v : Z) (r : kstate) : kstate :=
  Build_kstate (jiffies_64 r) (last_jiffies_update r) (tick_next_period r) (tick_period r)
    (tick_do_timer_cpu r) (nr_cpus_user_nohz r) (tick_nohz_enabled r) v (cpus r) (events r).
Definition set_cpus (v : list percpu) (r : kstate) : kstate :=
  Build_kstate (jiffies_64 r) (last_jiffies_update r) (tick_next_period r) (tick_period r)
    (tick_do_timer_cpu r) (nr_cpus_user_nohz r) (tick_nohz_enabled r) (ratelimit r) v (events
    r).
Definition set_events (v : list event) (r : kstate) : kstate :=
  Build_kstate (jiffies_64 r) (last_jiffies_update r) (tick_next_period r) (tick_period r)
    (tick_do_timer_cpu r) (nr_cpus_user_nohz r) (tick_nohz_enabled r) (ratelimit r) (cpus r) v.


Definition emit (ev : event) (st : kstate) : kstate :=
  set_events (events st ++ [ev]) st.

(** Static per-CPU data starts out zeroed. *)
Definition zero_tick_sched : tick_sched :=
  {| sched_timer := {| hrt_expires := 0; hrt_active := false |};
     check_clocks := 0; nohz_mode := NOHZ_MODE_INACTIVE; last_tick := 0;
     inidle := false; tick_stopped := false; saved_jiffies := 0;
     saved_jiffies_whence := JIFFIES_SAVED_NONE; idle_calls := 0;
     idle_sleeps := 0; idle_active := false; idle_entrytime := 0;
     idle_waketime := 0; idle_exittime := 0; idle_sleeptime := 0;
     iowait_sleeptime := 0; sleep_length := 0; last_jiffies := 0;
     next_jiffies := 0; idle_expires := 0; do_timer_last := false;
     user_nohz := false |}.

Definition zero_percpu : percpu :=
  {| tick_cpu_sched := zero_tick_sched; next_event := 0;
     nohz_task_ext_qs := false; tif_nohz := false |}.

(** [per_cpu(var, cpu)].  An index outside the per-CPU areas has no
    defined meaning in C; the model reads zeroed data there and drops the
    write. *)
Definition per_cpu (st : kstate) (cpu : Z) : percpu :=
  if cpu <? 0 then zero_percpu
  else default zero_percpu (cpus st !! Z.to_nat cpu).

Definition set_per_cpu (cpu : Z) (pc : percpu) (st : kstate) : kstate :=
  if cpu <? 0 then st
  else set_cpus (<[Z.to_nat cpu := pc]> (cpus st)) st.

Definition get_ts (st : kstate) (cpu : Z) : tick_sched :=
  tick_cpu_sched (per_cpu st cpu).

Definition put_ts (cpu : Z) (ts : tick_sched) (st : kstate) : kstate :=
  set_per_cpu cpu (set_tick_cpu_sched ts (per_cpu st cpu)) st.

(** jiffies is the low word of jiffies_64; on this machine it is all of it. *)
Definition jiffies (st : kstate) : Z := jiffies_64 st.

(** ** GlobalTimeBase *)

(** Modelled from the spec: [do_timer] lives in the timekeeping code, which
    is not part of this file; the spec gives its effect on the time base,
    "each whole period consumed increments tick_count by one; the final
    increment count is applied once". *)
Definition do_timer (ticks : Z) (st : kstate) : kstate :=
  emit (EvDoTimer ticks) (set_jiffies_64 (wrap_u64 (jiffies_64 st + ticks)) st).

(** [tick_do_update_jiffies64].  The unlocked quick check and the check
    under xtime_lock read the same memory when nothing runs in between. *)
Definition tick_do_update_jiffies64 (now : ktime_t) (st : kstate) : kstate :=
  let delta := ktime_sub now (last_jiffies_update st) in
  if delta <? tick_period st then st
  else
    let delta := ktime_sub now (last_jiffies_update st) in
    if delta >=? tick_period st then
      let delta := ktime_sub delta (tick_period st) in
      let st := set_last_jiffies_update
                  (ktime_add (last_jiffies_update st) (tick_period st)) st in
      let '(ticks, st) :=
        if delta >=? tick_period st then
          let incr := ktime_to_ns (tick_period st) in
          let ticks := ktime_divns delta incr in
          (ticks,
           set_last_jiffies_update
             (ktime_add_ns (last_jiffies_update st) (wrap_u64 (incr * ticks))) st)
        else (0, st) in
      let ticks := wrap_u64 (ticks + 1) in
      let st := do_timer ticks st in
      set_tick_next_period (ktime_add (last_jiffies_update st) (tick_period st)) st
    else st.

(** ** The collaborators' answers

    What the scheduler, RCU, the timer wheel, the clock and the hardware
    answer during one entry into this file.  An operation is a function of
    these answers and of the kernel state. *)
Record env := {
  ktime_get : ktime_t;                 (* the clock, first reading *)
  ktime_get_late : ktime_t;            (* the clock, read after a failed arming *)
  rearm_clock : list ktime_t;          (* tick_nohz_restart: one reading per failed arming *)
  timer_armed_ok : bool;               (* the timer programmed last lies in the future *)
  rcu_needs_cpu : bool;
  printk_needs_cpu : bool;
  arch_needs_cpu : bool;
  get_next_timer_interrupt : Z -> Z;
  timekeeping_max_deferment : Z;
  is_idle_task : bool;                 (* is_idle_task(current) *)
  cpuset_cpu_adaptive_nohz : bool;     (* of the running CPU *)
  cpuset_adaptive_nohz : bool;
  cpu_online : bool;                   (* of the running CPU *)
  need_resched : bool;
  local_softirq_pending : Z;
  sched_can_stop_tick : bool;
  posix_cpu_timers_running : bool;     (* of current *)
  rcu_pending : bool;
  irq_regs : option bool;              (* get_irq_regs(): NULL, or user_mode(regs) *)
  current_mm : bool;                   (* current->mm != NULL *)
  nr_iowait_cpu : Z
}.

(** Modelled from the spec: the constant is declared in
    include/linux/timer.h, which is not part of this file; a distance of
    this many jiffies or more is the spec's "effectively infinite" expiry. *)
Definition NEXT_TIMER_MAX_DELTA : Z := 2 ^ 30 - 1.

(** ** Idle time statistics *)

(** [update_ts_time_stats]; the second component is what is stored through
    [last_update_time] when that pointer is not NULL. *)
Definition update_ts_time_stats (e : env) (ts : tick_sched) (now : ktime_t)
    (last_update_time : bool) : tick_sched * option Z :=
  let ts :=
    if idle_active ts then
      let delta := ktime_sub now (idle_entrytime ts) in
      let ts :=
        if nr_iowait_cpu e >? 0
        then set_iowait_sleeptime (ktime_add (iowait_sleeptime ts) delta) ts
        else set_idle_sleeptime (ktime_add (idle_sleeptime ts) delta) ts in
      set_idle_entrytime now ts
    else ts in
  (ts, if last_update_time then Some (wrap_u64 (ktime_to_us now)) else None).

(** [get_cpu_idle_time_us]: the returned u64, the store through the
    pointer, the state. *)
Definition get_cpu_idle_time_us (e : env) (cpu : Z) (last_update_time : bool)
    (st : kstate) : Z * option Z * kstate :=
  let ts := get_ts st cpu in
  if negb (tick_nohz_enabled st) then (U64_MINUS_ONE, None, st)
  else
    let now := ktime_get e in
    if last_update_time then
      let '(ts, w) := update_ts_time_stats e ts now last_update_time in
      (wrap_u64 (ktime_to_us (idle_sleeptime ts)), w, put_ts cpu ts st)
    else
      let idle :=
        if idle_active ts && (nr_iowait_cpu e =? 0)
        then ktime_add (idle_sleeptime ts) (ktime_sub now (idle_entrytime ts))
        else idle_sleeptime ts in
      (wrap_u64 (ktime_to_us idle), None, st).

Definition get_cpu_iowait_time_us (e : env) (cpu : Z) (last_update_time : bool)
    (st : kstate) : Z * option Z * kstate :=
  let ts := get_ts st cpu in
  if negb (tick_nohz_enabled st) then (U64_MINUS_ONE, None, st)
  else
    let now := ktime_get e in
    if last_update_time then
      let '(ts, w) := update_ts_time_stats e ts now last_update_time in
      (wrap_u64 (ktime_to_us (iowait_sleeptime ts)), w, put_ts cpu ts st)
    else
      let iowait :=
        if idle_active ts && (nr_iowait_cpu e >? 0)
        then ktime_add (iowait_sleeptime ts) (ktime_sub now (idle_entrytime ts))
        else iowait_sleeptime ts in
      (wrap_u64 (ktime_to_us iowait), None, st).

(** ** DutyRegistry *)

(** Modelled from the spec: the atomic operations are the architecture's;
    the spec has the counter "incremented/decremented atomically" and
    duty_cpu "exchanged with an atomic compare-and-swap".  An atomic_t is
    a 32-bit int. *)
Definition atomic_inc_nr_cpus_user_nohz (st : kstate) : kstate :=
  set_nr_cpus_user_nohz (wrap_s32 (nr_cpus_user_nohz st + 1)) st.

(** [WARN_ON_ONCE(atomic_add_negative(-1, &nr_cpus_user_nohz))].  The trace
    records that the warning condition held; ONCE only limits the printing. *)
Definition atomic_dec_nr_cpus_user_nohz (st : kstate) : kstate :=
  let v := wrap_s32 (nr_cpus_user_nohz st - 1) in
  let st := set_nr_cpus_user_nohz v st in
  if v <? 0 then emit (EvWarn WARN_nr_negative) st else st.

(** [update_do_timer_cpu]: a cmpxchg on tick_do_timer_cpu, returning the
    value found. *)
Definition update_do_timer_cpu (current_handler new_handler : Z) (st : kstate)
    : Z * kstate :=
  let found := tick_do_timer_cpu st in
  (found,
   if found =? current_handler then set_tick_do_timer_cpu new_handler st else st).

(** ** The marker of adaptive CPUs *)

Definition can_stop_adaptive_tick (e : env) (cpu : Z) (st : kstate) : bool * kstate :=
  let ret :=
    if negb (sched_can_stop_tick e) || posix_cpu_timers_running e || rcu_pending e
    then false else true in
  let ts := get_ts st cpu in
  if ret && negb (user_nohz ts) then
    (ret, atomic_inc_nr_cpus_user_nohz (put_ts cpu (set_user_nohz true ts) st))
  else if negb ret && user_nohz ts then
    (ret, atomic_dec_nr_cpus_user_nohz (put_ts cpu (set_user_nohz false ts) st))
  else (ret, st).

Definition tick_nohz_start_idle (e : env) (cpu : Z) (st : kstate) : ktime_t * kstate :=
  let now := ktime_get e in
  let st := put_ts cpu (set_idle_entrytime now (get_ts st cpu)) st in
  let st :=
    if user_nohz (get_ts st cpu) then
      atomic_dec_nr_cpus_user_nohz
        (put_ts cpu (set_user_nohz false (get_ts st cpu)) st)
    else st in
  (now, put_ts cpu (set_idle_active true (get_ts st cpu)) st).

Definition tick_nohz_stop_idle (e : env) (cpu : Z) (now : ktime_t) (st : kstate) : kstate :=
  let ts := fst (update_ts_time_stats e (get_ts st cpu) now false) in
  put_ts cpu (set_idle_active false ts) st.

(** The duty check at the head of the tick handlers ([tick_sched_timer],
    [tick_nohz_handler]): a CPU that takes a tick while nobody has the duty
    assigns it to itself. *)
Definition tick_do_timer_check_handler (cpu : Z) (st : kstate) : kstate :=
  if tick_do_timer_cpu st =? TICK_DO_TIMER_NONE
  then set_tick_do_timer_cpu cpu st else st.

(** ** DutyCoordinator *)

(** What another CPU may do between two accesses of this CPU to the shared
    words [tick_do_timer_cpu] and [nr_cpus_user_nohz]. *)
Inductive remote_op :=
  | RQuiet
  | RCanStopAdaptive (c : Z) (e : env)
  | RStartIdle (c : Z) (e : env)
  | RTickHandler (c : Z).

Definition run_remote (r : remote_op) (st : kstate) : kstate :=
  match r with
  | RQuiet => st
  | RCanStopAdaptive c e => snd (can_stop_adaptive_tick e c st)
  | RStartIdle c e => snd (tick_nohz_start_idle e c st)
  | RTickHandler c => tick_do_timer_check_handler c st
  end.

(** Before each access to a shared word the next remote operation of the
    schedule, if there is one left, takes effect. *)
Definition interfere (sched : list remote_op) (st : kstate) : list remote_op * kstate :=
  match sched with
  | [] => ([], st)
  | r :: sched => (sched, run_remote r st)
  end.

Inductive pass_result :=
  | PassReturn (handler : Z)
  | PassRepeat.

(** One pass through [check_drop_timer_duty], from the label [repeat] to a
    [return] or a [goto repeat]: the block under CONFIG_CPUSETS_NO_HZ, which
    returns at once or settles [curr_handler], [new_handler] and
    [drop_recheck], then the exchange and the statements after it.  The
    counter is read again only when [drop_recheck] is set. *)
Definition check_drop_timer_duty_pass (e : env) (cpu : Z) (sched : list remote_op)
    (st : kstate) : pass_result * list remote_op * kstate :=
  let '(sched, st) := interfere sched st in
  let settled :=
    if nr_cpus_user_nohz st >? 0 then
      let '(sched, st) := interfere sched st in
      let curr_handler := tick_do_timer_cpu st in
      if curr_handler =? cpu then inl (cpu, sched, st)
      else
        let new_handler :=
          if (curr_handler =? TICK_DO_TIMER_NONE)
             || (user_nohz (get_ts st curr_handler)
                 && (is_idle_task e || negb (cpuset_cpu_adaptive_nohz e)))
          then cpu else curr_handler in
        inr (curr_handler, new_handler, false, sched, st)
    else inr (cpu, TICK_DO_TIMER_NONE, true, sched, st) in
  match settled with
  | inl (handler, sched, st) => (PassReturn handler, sched, st)
  | inr (curr_handler, new_handler, drop_recheck, sched, st) =>
      let '(sched, st) := interfere sched st in
      let '(prev_handler, st) := update_do_timer_cpu curr_handler new_handler st in
      let '(again, sched, st) :=
        if drop_recheck then
          let '(sched, st) := interfere sched st in
          (nr_cpus_user_nohz st >? 0, sched, st)
        else (false, sched, st) in
      if again then (PassRepeat, sched, st)
      else if negb (new_handler =? TICK_DO_TIMER_NONE) then
        if prev_handler =? curr_handler
        then (PassReturn new_handler, sched, st)
        else (PassRepeat, sched, st)
      else
        (PassReturn (if prev_handler =? cpu then TICK_DO_TIMER_NONE else prev_handler),
         sched, st)
  end.

(** The loop over the passes.  [nrepeat] is the local counter of the source;
    a pass can only ask for another one after remote operations took effect,
    so one pass more than the schedule is long is always enough. *)
Fixpoint check_drop_timer_duty_loop (fuel : nat) (e : env) (cpu : Z) (nrepeat : Z)
    (sched : list remote_op) (st : kstate) : option (Z * Z * kstate) :=
  match fuel with
  | O => None
  | S fuel =>
      let nrepeat := wrap_s32 (nrepeat + 1) in
      let st := if nrepeat >? 1 then emit (EvWarn WARN_nrepeat) st else st in
      match check_drop_timer_duty_pass e cpu sched st with
      | (PassReturn handler, _, st) => Some (handler, nrepeat, st)
      | (PassRepeat, sched, st) => check_drop_timer_duty_loop fuel e cpu nrepeat sched st
      end
  end.

(** [check_drop_timer_duty] with the final value of [nrepeat] next to the
    returned handler. *)
Definition check_drop_timer_duty_counted (e : env) (cpu : Z) (sched : list remote_op)
    (st : kstate) : option (Z * Z * kstate) :=
  check_drop_timer_duty_loop (S (length sched)) e cpu (-1) sched st.

Definition check_drop_timer_duty (e : env) (cpu : Z) (sched : list remote_op)
    (st : kstate) : option (Z * kstate) :=
  match check_drop_timer_duty_counted e cpu sched st with
  | Some (handler, _, st) => Some (handler, st)
  | None => None
  end.

(** ** The CPU's scheduled timer and its event device *)

Definition hrtimer_get_expires (t : hrtimer) : ktime_t := hrt_expires t.

Definition is_timer_program (ev : event) : bool :=
  match ev with
  | EvHrtimerStart _ _ | EvHrtimerCancel _ | EvTickProgramEvent _ _ => true
  | _ => false
  end.

(** How often the trace programs or cancels a hardware timer. *)
Definition timer_programs (st : kstate) : nat :=
  length (List.filter is_timer_program (events st)).

(** Modelled from the spec: the hrtimer core and the clock event layer are
    not part of this file.  The spec gives them as "program_timer(cpu,
    deadline) -> Result<(),AlreadyPast>", "cancel_timer(cpu)" and
    "timer_is_armed(cpu) -> bool": programming records the deadline as the
    armed expiry of the CPU's device, and the timer is armed afterwards
    unless the deadline was already past ([armed] says which). *)
Definition hrtimer_start (cpu : Z) (expires : ktime_t) (armed : bool) (st : kstate)
    : kstate :=
  let pc := per_cpu st cpu in
  let ts := set_sched_timer {| hrt_expires := expires; hrt_active := armed |}
              (tick_cpu_sched pc) in
  emit (EvHrtimerStart cpu expires)
    (set_per_cpu cpu (set_next_event expires (set_tick_cpu_sched ts pc)) st).

(** Modelled from the spec: "cancel_timer(cpu)"; nothing is armed on the
    device afterwards. *)
Definition hrtimer_cancel (cpu : Z) (st : kstate) : kstate :=
  let pc := per_cpu st cpu in
  let ts := set_sched_timer
              {| hrt_expires := hrt_expires (sched_timer (tick_cpu_sched pc));
                 hrt_active := false |} (tick_cpu_sched pc) in
  emit (EvHrtimerCancel cpu)
    (set_per_cpu cpu (set_next_event KTIME_MAX (set_tick_cpu_sched ts pc)) st).

(** Modelled from the spec: "program_timer(cpu, deadline)" on the event
    device itself; the result is 0 when the deadline lies in the future. *)
Definition tick_program_event (cpu : Z) (expires : ktime_t) (armed : bool) (st : kstate)
    : Z * kstate :=
  (if armed then 0 else -62,
   emit (EvTickProgramEvent cpu expires)
     (set_per_cpu cpu (set_next_event expires (per_cpu st cpu)) st)).

Definition hrtimer_set_expires (cpu : Z) (expires : ktime_t) (st : kstate) : kstate :=
  let ts := get_ts st cpu in
  put_ts cpu
    (set_sched_timer {| hrt_expires := expires; hrt_active := hrt_active (sched_timer ts) |}
       ts) st.

(** Modelled from the spec: [hrtimer_forward] is part of the hrtimer core;
    the spec has the timer forwarded "past now by whole periods": an expiry
    that is not after [now] moves to the first multiple of the interval
    after it that is. *)
Definition hrtimer_forward (cpu : Z) (now interval : ktime_t) (st : kstate) : kstate :=
  let expires := hrt_expires (sched_timer (get_ts st cpu)) in
  let delta := ktime_sub now expires in
  if delta <? 0 then st
  else
    hrtimer_set_expires cpu
      (wrap_s64 (expires + (Z.quot delta interval + 1) * interval)) st.

Definition raise_softirq_irqoff (cpu : Z) (st : kstate) : kstate :=
  emit (EvRaiseTimerSoftirq cpu) st.

(** ** IdleTickController *)

(** The statements at the label [out] of [tick_nohz_stop_sched_tick]. *)
Definition stop_sched_tick_out (cpu : Z) (now : ktime_t) (next_jiffies last_jiffies : Z)
    (ret : ktime_t) (st : kstate) : ktime_t * kstate :=
  let ts := get_ts st cpu in
  let ts := set_next_jiffies next_jiffies ts in
  let ts := set_last_jiffies last_jiffies ts in
  let ts := set_sleep_length (ktime_sub (next_event (per_cpu st cpu)) now) ts in
  (ret, put_ts cpu ts st).

(** The jiffies cached on entry, the next timer and the distance to it. *)
Definition stop_sched_tick_jiffies (e : env) (st : kstate) : Z * Z * Z :=
  let last_jiffies := jiffies st in
  if rcu_needs_cpu e || printk_needs_cpu e || arch_needs_cpu e then
    (last_jiffies, wrap_u64 (last_jiffies + 1), 1)
  else
    let next_jiffies := get_next_timer_interrupt e last_jiffies in
    (last_jiffies, next_jiffies, wrap_u64 (next_jiffies - last_jiffies)).

(** The sleep limit after the duty step, with the update of [do_timer_last]. *)
Definition stop_sched_tick_limit (e : env) (cpu prev_handler new_handler : Z)
    (st : kstate) : Z * kstate :=
  let ts := get_ts st cpu in
  let time_delta := timekeeping_max_deferment e in
  if prev_handler =? cpu then
    (time_delta, put_ts cpu (set_do_timer_last true ts) st)
  else if negb (new_handler =? TICK_DO_TIMER_NONE) then
    (KTIME_MAX, put_ts cpu (set_do_timer_last false ts) st)
  else if negb (do_timer_last ts) then (KTIME_MAX, st)
  else (time_delta, st).

(** The expiry computed from the sleep limit and the distance in jiffies. *)
Definition stop_sched_tick_expires (last_update : ktime_t) (period : ktime_t)
    (time_delta delta_jiffies : Z) : ktime_t :=
  let time_delta :=
    if delta_jiffies <? NEXT_TIMER_MAX_DELTA
    then Z.min time_delta (wrap_u64 (period * delta_jiffies))
    else time_delta in
  if time_delta <? KTIME_MAX then ktime_add_ns last_update time_delta else KTIME_MAX.

(** [tick_nohz_stop_sched_tick(ts, now, cpu)] on the CPU that runs it:
    [ts] is that CPU's structure and [dev] its event device.  [sched] is
    what other CPUs do during the duty step. *)
Definition tick_nohz_stop_sched_tick (e : env) (sched : list remote_op)
    (now : ktime_t) (cpu : Z) (st : kstate) : option (ktime_t * kstate) :=
  let last_update := last_jiffies_update st in
  let '(last_jiffies, next_jiffies, delta_jiffies) := stop_sched_tick_jiffies e st in
  let out := stop_sched_tick_out cpu now next_jiffies last_jiffies in
  if negb (tick_stopped (get_ts st cpu)) && (delta_jiffies =? 1) then Some (out 0 st)
  else if as_long delta_jiffies >=? 1 then
    let prev_handler := tick_do_timer_cpu st in
    match check_drop_timer_duty e cpu sched st with
    | None => None
    | Some (new_handler, st) =>
        if new_handler =? cpu then Some (out 0 st)
        else
          let '(time_delta, st) :=
            stop_sched_tick_limit e cpu prev_handler new_handler st in
          let expires :=
            stop_sched_tick_expires last_update (tick_period st) time_delta delta_jiffies in
          if tick_stopped (get_ts st cpu)
             && ktime_equal expires (next_event (per_cpu st cpu))
          then Some (out 0 st)
          else
            let ret := expires in
            let st :=
              if negb (tick_stopped (get_ts st cpu)) then
                let ts := get_ts st cpu in
                put_ts cpu
                  (set_tick_stopped true
                     (set_last_tick (hrtimer_get_expires (sched_timer ts)) ts)) st
              else st in
            if expires =? KTIME_MAX then
              let st :=
                if tick_nohz_mode_eqb (nohz_mode (get_ts st cpu)) NOHZ_MODE_HIGHRES
                then hrtimer_cancel cpu st else st in
              Some (out ret st)
            else
              let '(armed, st) :=
                if tick_nohz_mode_eqb (nohz_mode (get_ts st cpu)) NOHZ_MODE_HIGHRES then
                  let st := hrtimer_start cpu expires (timer_armed_ok e) st in
                  (hrt_active (sched_timer (get_ts st cpu)), st)
                else
                  let '(err, st) := tick_program_event cpu expires (timer_armed_ok e) st in
                  (err =? 0, st) in
              if armed then Some (out ret st)
              else
                let st := tick_do_update_jiffies64 (ktime_get_late e) st in
                let st := raise_softirq_irqoff cpu st in
                Some (out ret st)
    end
  else Some (out 0 (raise_softirq_irqoff cpu st)).

Definition can_stop_idle_tick (e : env) (cpu : Z) (st : kstate) : bool * kstate :=
  let st :=
    if negb (cpu_online e) && (cpu =? tick_do_timer_cpu st)
    then set_tick_do_timer_cpu TICK_DO_TIMER_NONE st else st in
  if tick_nohz_mode_eqb (nohz_mode (get_ts st cpu)) NOHZ_MODE_INACTIVE then (false, st)
  else if need_resched e then (false, st)
  else if negb (local_softirq_pending e =? 0) && cpu_online e then
    (false,
     if ratelimit st <? 10 then
       set_ratelimit (wrap_s32 (ratelimit st + 1))
         (emit (EvPrintkSoftirqPending cpu (local_softirq_pending e)) st)
     else st)
  else (true, st).

Definition __tick_nohz_idle_enter (e : env) (sched : list remote_op) (cpu : Z)
    (st : kstate) : option kstate :=
  let '(now, st) := tick_nohz_start_idle e cpu st in
  let '(can_stop, st) := can_stop_idle_tick e cpu st in
  if can_stop then
    let was_stopped := tick_stopped (get_ts st cpu) in
    let st := put_ts cpu (set_idle_calls (wrap_u64 (idle_calls (get_ts st cpu) + 1))
                            (get_ts st cpu)) st in
    match tick_nohz_stop_sched_tick e sched now cpu st with
    | None => None
    | Some (expires, st) =>
        let st :=
          if expires >? 0 then
            let ts := get_ts st cpu in
            put_ts cpu (set_idle_expires expires
                          (set_idle_sleeps (wrap_u64 (idle_sleeps ts + 1)) ts)) st
          else st in
        let st :=
          if negb was_stopped && tick_stopped (get_ts st cpu) then
            let ts := get_ts st cpu in
            emit (EvSelectNohzLoadBalancer cpu true)
              (put_ts cpu (set_saved_jiffies_whence JIFFIES_SAVED_IDLE
                             (set_saved_jiffies (last_jiffies ts) ts)) st)
          else st in
        Some st
    end
  else Some st.

(** [tick_nohz_idle_enter]. *)
Definition tick_nohz_idle_enter (e : env) (sched : list remote_op) (cpu : Z)
    (st : kstate) : option kstate :=
  let st := put_ts cpu (set_inidle true (get_ts st cpu)) st in
  __tick_nohz_idle_enter e sched cpu st.

(** ** AdaptiveBusyController *)

Definition tick_nohz_cpuset_stop_tick (e : env) (sched : list remote_op) (cpu : Z)
    (st : kstate) : option kstate :=
  let user := match irq_regs e with Some u => u | None => false end in
  if negb (cpuset_adaptive_nohz e) || is_idle_task e then Some st
  else if negb (tick_stopped (get_ts st cpu))
          && tick_nohz_mode_eqb (nohz_mode (get_ts st cpu)) NOHZ_MODE_INACTIVE
  then Some st
  else
    let '(can_stop, st) := can_stop_adaptive_tick e cpu st in
    if negb can_stop then Some st
    else if negb user && current_mm e then Some st
    else
      let was_stopped := tick_stopped (get_ts st cpu) in
      match tick_nohz_stop_sched_tick e sched (ktime_get e) cpu st with
      | None => None
      | Some (_, st) =>
          if negb was_stopped && tick_stopped (get_ts st cpu) then
            let st :=
              if negb (tick_saved_jiffies_eqb (saved_jiffies_whence (get_ts st cpu))
                         JIFFIES_SAVED_NONE)
              then emit (EvWarn WARN_whence_not_none) st else st in
            let st :=
              if user then
                let st := put_ts cpu (set_saved_jiffies_whence JIFFIES_SAVED_USER
                                        (get_ts st cpu)) st in
                let st := set_per_cpu cpu (set_nohz_task_ext_qs true (per_cpu st cpu)) st in
                emit (EvRcuUserEnter cpu) st
              else if negb (current_mm e) then
                put_ts cpu (set_saved_jiffies_whence JIFFIES_SAVED_SYS (get_ts st cpu)) st
              else st in
            let st := put_ts cpu (set_saved_jiffies (jiffies st) (get_ts st cpu)) st in
            Some (set_per_cpu cpu (set_tif_nohz true (per_cpu st cpu)) st)
          else Some st
      end.

(** [tick_nohz_irq_exit]. *)
Definition tick_nohz_irq_exit (e : env) (sched : list remote_op) (cpu : Z)
    (st : kstate) : option kstate :=
  if inidle (get_ts st cpu) then
    if negb (need_resched e) then __tick_nohz_idle_enter e sched cpu st else Some st
  else tick_nohz_cpuset_stop_tick e sched cpu st.

(** ** Tick restoration *)

(** The loop of [tick_nohz_restart].  Every element of [clock] is one
    arming that came too late, followed by the clock reading taken
    afterwards; the arming after the last of them succeeds. *)
Fixpoint tick_nohz_restart_loop (cpu : Z) (now : ktime_t) (clock : list ktime_t)
    (st : kstate) : kstate :=
  let st := hrtimer_forward cpu now (tick_period st) st in
  let expires := hrtimer_get_expires (sched_timer (get_ts st cpu)) in
  let highres := tick_nohz_mode_eqb (nohz_mode (get_ts st cpu)) NOHZ_MODE_HIGHRES in
  match clock with
  | [] =>
      if highres then hrtimer_start cpu expires true st
      else snd (tick_program_event cpu expires true st)
  | later :: clock =>
      let st :=
        if highres then hrtimer_start cpu expires false st
        else snd (tick_program_event cpu expires false st) in
      let st := tick_do_update_jiffies64 now st in
      tick_nohz_restart_loop cpu later clock st
  end.

Definition tick_nohz_restart (e : env) (cpu : Z) (now : ktime_t) (st : kstate) : kstate :=
  let st := hrtimer_cancel cpu st in
  let st := hrtimer_set_expires cpu (last_tick (get_ts st cpu)) st in
  tick_nohz_restart_loop cpu now (rearm_clock e) st.

Definition __tick_nohz_restart_sched_tick (e : env) (cpu : Z) (now : ktime_t)
    (st : kstate) : kstate :=
  let st := tick_do_update_jiffies64 now st in
  let st := put_ts cpu (set_idle_exittime now
                          (set_tick_stopped false (get_ts st cpu))) st in
  tick_nohz_restart e cpu now st.

Definition tick_nohz_restart_sched_tick (e : env) (cpu : Z) (st : kstate) : kstate :=
  if negb (tick_stopped (get_ts st cpu)) then st
  else __tick_nohz_restart_sched_tick e cpu (ktime_get e) st.

(** ** TickAccountant *)

(** Modelled from the spec: the sinks belong to the scheduler; the spec has
    them as "account_ticks(kind: {Idle,User,System}, cpu_or_task, n: u64)".
    A call is an entry of the trace, and what a sink holds is the sum of
    its entries. *)
Definition account_idle_ticks (cpu ticks : Z) (st : kstate) : kstate :=
  emit (EvAccountIdleTicks cpu ticks) st.
Definition account_user_ticks (cpu ticks : Z) (st : kstate) : kstate :=
  emit (EvAccountUserTicks cpu ticks) st.
Definition account_system_ticks (cpu ticks : Z) (st : kstate) : kstate :=
  emit (EvAccountSystemTicks cpu ticks) st.

Definition is_account (ev : event) : bool :=
  match ev with
  | EvAccountIdleTicks _ _ | EvAccountUserTicks _ _ | EvAccountSystemTicks _ _ => true
  | _ => false
  end.

Definition tick_nohz_account_ticks (cpu : Z) (st : kstate) : kstate :=
  let ts := get_ts st cpu in
  let ticks := wrap_u64 (jiffies st - saved_jiffies ts) in
  if negb (ticks =? 0) && (ticks <? LONG_MAX) then
    match saved_jiffies_whence ts with
    | JIFFIES_SAVED_IDLE => account_idle_ticks cpu ticks st
    | JIFFIES_SAVED_USER => account_user_ticks cpu ticks st
    | JIFFIES_SAVED_SYS => account_system_ticks cpu ticks st
    | JIFFIES_SAVED_NONE => st
    end
  else st.

Definition tick_nohz_flush_current_times (cpu : Z) (restart_tick : bool) (st : kstate)
    : kstate :=
  if tick_stopped (get_ts st cpu) then
    let st := tick_nohz_account_ticks cpu st in
    if restart_tick
    then put_ts cpu (set_saved_jiffies_whence JIFFIES_SAVED_NONE (get_ts st cpu)) st
    else put_ts cpu (set_saved_jiffies (jiffies st) (get_ts st cpu)) st
  else st.

Definition tick_nohz_idle_exit (e : env) (cpu : Z) (st : kstate) : kstate :=
  let st := put_ts cpu (set_inidle false (get_ts st cpu)) st in
  let now := ktime_get e in
  let st := if idle_active (get_ts st cpu) then tick_nohz_stop_idle e cpu now st else st in
  if tick_stopped (get_ts st cpu) then
    let st := emit (EvSelectNohzLoadBalancer cpu false) st in
    let st := __tick_nohz_restart_sched_tick e cpu now st in
    let st := tick_nohz_account_ticks cpu st in
    put_ts cpu (set_saved_jiffies_whence JIFFIES_SAVED_NONE (get_ts st cpu)) st
  else st.

(** ** Leaving adaptive mode *)

Definition tick_nohz_cpu_exit_qs (cpu : Z) (irq : bool) (st : kstate) : kstate :=
  if nohz_task_ext_qs (per_cpu st cpu) then
    let st := emit (EvRcuUserExit cpu) st in
    set_per_cpu cpu (set_nohz_task_ext_qs false (per_cpu st cpu)) st
  else st.

Definition tick_nohz_restart_adaptive (e : env) (cpu : Z) (st : kstate) : kstate :=
  let st := tick_nohz_flush_current_times cpu true st in
  let st :=
    if user_nohz (get_ts st cpu) then
      atomic_dec_nr_cpus_user_nohz
        (put_ts cpu (set_user_nohz false (get_ts st cpu)) st)
    else st in
  let st := tick_nohz_restart_sched_tick e cpu st in
  let st := set_per_cpu cpu (set_tif_nohz false (per_cpu st cpu)) st in
  tick_nohz_cpu_exit_qs cpu true st.

Definition tick_nohz_check_adaptive (e : env) (cpu : Z) (st : kstate) : kstate :=
  if tick_stopped (get_ts st cpu) && negb (is_idle_task e) then
    let '(can_stop, st) := can_stop_adaptive_tick e cpu st in
    if negb can_stop then tick_nohz_restart_adaptive e cpu st else st
  else st.

Definition cpuset_exit_nohz_interrupt (e : env) (cpu : Z) (st : kstate) : kstate :=
  if tick_stopped (get_ts st cpu) && negb (is_idle_task e)
  then tick_nohz_restart_adaptive e cpu st else st.

(** [tick_sched_timer], the high resolution tick. *)
Definition tick_sched_timer (e : env) (cpu : Z) (st : kstate) : kstate :=
  let now := ktime_get e in
  let st := tick_do_timer_check_handler cpu st in
  let st := if tick_do_timer_cpu st =? cpu then tick_do_update_jiffies64 now st else st in
  let st :=
    match irq_regs e with
    | Some _ =>
        if tick_stopped (get_ts st cpu) then
          put_ts cpu (set_saved_jiffies (wrap_u64 (saved_jiffies (get_ts st cpu) + 1))
                        (get_ts st cpu)) st
        else st
    | None => st
    end in
  hrtimer_forward cpu now (tick_period st) st.

(** ** The machine as a whole *)

(** The entry points, each run by one CPU with the collaborators' answers
    of that moment. *)
Inductive op :=
  | OpIdleEnter (cpu : Z) (e : env)
  | OpIrqExit (cpu : Z) (e : env)
  | OpIdleExit (cpu : Z) (e : env)
  | OpCheckAdaptive (cpu : Z) (e : env)
  | OpExitNohzInterrupt (cpu : Z) (e : env)
  | OpCanStopAdaptive (cpu : Z) (e : env)
  | OpStartIdle (cpu : Z) (e : env)
  | OpRestartAdaptive (cpu : Z) (e : env)
  | OpTick (cpu : Z) (e : env)
  | OpUpdateJiffies (now : ktime_t).

Definition op_cpu (o : op) : option Z :=
  match o with
  | OpIdleEnter c _ | OpIrqExit c _ | OpIdleExit c _ | OpCheckAdaptive c _
  | OpExitNohzInterrupt c _ | OpCanStopAdaptive c _ | OpStartIdle c _
  | OpRestartAdaptive c _ | OpTick c _ => Some c
  | OpUpdateJiffies _ => None
  end.

(** Entry points run one after the other. *)
Definition run_op (o : op) (st : kstate) : option kstate :=
  match o with
  | OpIdleEnter c e => tick_nohz_idle_enter e [] c st
  | OpIrqExit c e => tick_nohz_irq_exit e [] c st
  | OpIdleExit c e => Some (tick_nohz_idle_exit e c st)
  | OpCheckAdaptive c e => Some (tick_nohz_check_adaptive e c st)
  | OpExitNohzInterrupt c e => Some (cpuset_exit_nohz_interrupt e c st)
  | OpCanStopAdaptive c e => Some (snd (can_stop_adaptive_tick e c st))
  | OpStartIdle c e => Some (snd (tick_nohz_start_idle e c st))
  | OpRestartAdaptive c e => Some (tick_nohz_restart_adaptive e c st)
  | OpTick c e => Some (tick_sched_timer e c st)
  | OpUpdateJiffies now => Some (tick_do_update_jiffies64 now st)
  end.

(** The state at boot: zeroed per-CPU data, nobody adaptive. *)
Definition boot_state (ncpus : nat) (period : ktime_t) (duty : Z) : kstate :=
  {| jiffies_64 := 0; last_jiffies_update := 0; tick_next_period := 0;
     tick_period := period; tick_do_timer_cpu := duty; nr_cpus_user_nohz := 0;
     tick_nohz_enabled := true; ratelimit := 0;
     cpus := replicate ncpus zero_percpu; events := [] |}.

(** The number of CPUs whose structure carries the marker. *)
Definition count_user_nohz (st : kstate) : Z :=
  Z.of_nat (length (List.filter (fun pc => user_nohz (tick_cpu_sched pc)) (cpus st))).

(** ** nohz.c *)

Record nohz_vars := {
  ncpus_per_dom : Z;
  nohz_on : list Z
}.

Definition per_cpu_nohz_on (v : nohz_vars) (cpu : Z) : Z :=
  if cpu <? 0 then 0 else default 0 (nohz_on v !! Z.to_nat cpu).

Definition cpu_nohz_on (v : nohz_vars) (cpu : Z) : bool := per_cpu_nohz_on v cpu >? 0.

(** [cpu_get_nohz_target]; NR_CPUS is a constant of the build. *)
Definition cpu_get_nohz_target (NR_CPUS : Z) (v : nohz_vars) (cpu : Z) : Z :=
  if (cpu >=? 0) && (cpu <? NR_CPUS) then
    if per_cpu_nohz_on v cpu =? 0 then cpu
    else wrap_s32 (wrap_s32 (Z.quot cpu (ncpus_per_dom v)) * ncpus_per_dom v)
  else cpu.

(** [cpd_set] after the sscanf: only a positive value is stored. *)
Definition cpd_set (val : Z) (v : nohz_vars) : nohz_vars :=
  if val >? 0 then {| ncpus_per_dom := val; nohz_on := nohz_on v |} else v.

Definition nohz_boot_vars (ncpus : nat) : nohz_vars :=
  {| ncpus_per_dom := 4; nohz_on := replicate ncpus 0 |}.

(** ** Sequences of calls *)

(** [advance(now)] once for every reading of the clock, in order. *)
Fixpoint advance_all (nows : list ktime_t) (st : kstate) : kstate :=
  match nows with
  | [] => st
  | now :: nows => advance_all nows (tick_do_update_jiffies64 now st)
  end.

(** Clock readings that never go back, starting at [lo]. *)
Fixpoint increasing_from (lo : Z) (nows : list Z) : Prop :=
  match nows with
  | [] => True
  | now :: nows => lo <= now /\ increasing_from now nows
  end.

(** The whole periods between the last update and [now]. *)
Definition elapsed_periods (now : ktime_t) (st : kstate) : Z :=
  (now - last_jiffies_update st) / tick_period st.

(** The last reading of a sequence that starts at [lo]. *)
Fixpoint final_now (lo : Z) (nows : list Z) : Z :=
  match nows with
  | [] => lo
  | now :: nows => final_now now nows
  end.

(** A kernel shortly after boot with HZ = 1000: the period is a
    millisecond, 7 jiffies have passed, the last update was at 7 ms. *)
Definition sample_timebase : kstate :=
  {| jiffies_64 := 7; last_jiffies_update := 7000000; tick_next_period := 8000000;
     tick_period := 1000000; tick_do_timer_cpu := 0; nr_cpus_user_nohz := 0;
     tick_nohz_enabled := true; ratelimit := 0;
     cpus := [zero_percpu; zero_percpu]; events := [] |}.

(** Eight CPUs in domains of four; CPUs 5 and 6 have nohz switched on. *)
Definition sample_nohz_vars : nohz_vars :=
  {| ncpus_per_dom := 4; nohz_on := [0; 0; 0; 0; 0; 1; 1; 0] |}.

(** What the collaborators answer when nothing is going on: an online CPU
    running a user task in kernel mode, a timer 50 jiffies ahead, 400 ms
    of safe deferment, a programmed timer that lies in the future. *)
Definition calm_env : env :=
  {| ktime_get := 7200000; ktime_get_late := 7300000; rearm_clock := [];
     timer_armed_ok := true; rcu_needs_cpu := false; printk_needs_cpu := false;
     arch_needs_cpu := false; get_next_timer_interrupt := fun j => j + 50;
     timekeeping_max_deferment := 400000000; is_idle_task := false;
     cpuset_cpu_adaptive_nohz := true; cpuset_adaptive_nohz := true;
     cpu_online := true; need_resched := false; local_softirq_pending := 0;
     sched_can_stop_tick := true; posix_cpu_timers_running := false;
     rcu_pending := false; irq_regs := Some false; current_mm := true;
     nr_iowait_cpu := 0 |}.

(** CPU 1 of [sample_timebase] idle since 7.1 ms with 3 ms of idle time and
    1 ms of iowait time on its books. *)
Definition sample_idle_cpu : kstate :=
  put_ts 1
    (set_idle_active true
       (set_idle_entrytime 7100000
          (set_idle_sleeptime 3000000
             (set_iowait_sleeptime 1000000 zero_tick_sched))))
    sample_timebase.

(** The tick of CPU 1 was stopped in user mode at jiffy [saved]. *)
Definition sample_stopped_cpu (saved : Z) (whence : tick_saved_jiffies) : kstate :=
  put_ts 1
    (set_tick_stopped true
       (set_saved_jiffies saved
          (set_saved_jiffies_whence whence
             (set_nohz_mode NOHZ_MODE_HIGHRES zero_tick_sched))))
    sample_timebase.

(** The ticks that passed since the snapshot of a CPU. *)
Definition elapsed_ticks (cpu : Z) (st : kstate) : Z :=
  wrap_u64 (jiffies st - saved_jiffies (get_ts st cpu)).

(** The time base after an advance over [k] whole periods. *)
Definition advanced (st : kstate) (k : Z) : kstate :=
  let last := last_jiffies_update st in
  let period := tick_period st in
  set_tick_next_period (ktime_add (last + k * period) period)
    (emit (EvDoTimer k)
       (set_jiffies_64 (wrap_u64 (jiffies_64 st + k))
          (set_last_jiffies_update (last + k * period) st))).

(** A CPU that has a per-CPU area. *)
Definition valid_cpu (st : kstate) (cpu : Z) : Prop :=
  0 <= cpu < Z.of_nat (length (cpus st)).

Definition is_softirq_printk (ev : event) : bool :=
  match ev with
  | EvPrintkSoftirqPending _ _ => true
  | _ => false
  end.

(** How many "NOHZ: local_softirq_pending" lines the trace holds. *)
Definition softirq_printks (st : kstate) : Z :=
  Z.of_nat (length (List.filter is_softirq_printk (events st))).

(** [can_stop_idle_tick] called again and again, on any CPUs. *)
Fixpoint can_stop_idle_tick_all (calls : list (env * Z)) (st : kstate) : kstate :=
  match calls with
  | [] => st
  | (e, cpu) :: calls => can_stop_idle_tick_all calls (snd (can_stop_idle_tick e cpu st))
  end.

(** CPU 1 of [sample_timebase] in low resolution nohz mode. *)
Definition sample_lowres_cpu : kstate :=
  put_ts 1 (set_nohz_mode NOHZ_MODE_LOWRES zero_tick_sched) sample_timebase.

(** An offline CPU with a soft interrupt pending. *)
Definition offline_softirq_env : env :=
  {| ktime_get := 7200000; ktime_get_late := 7300000; rearm_clock := [];
     timer_armed_ok := true; rcu_needs_cpu := false; printk_needs_cpu := false;
     arch_needs_cpu := false; get_next_timer_interrupt := fun j => j + 50;
     timekeeping_max_deferment := 400000000; is_idle_task := true;
     cpuset_cpu_adaptive_nohz := false; cpuset_adaptive_nohz := false;
     cpu_online := false; need_resched := false; local_softirq_pending := 2;
     sched_can_stop_tick := true; posix_cpu_timers_running := false;
     rcu_pending := false; irq_regs := None; current_mm := false;
     nr_iowait_cpu := 0 |}.

(** An online idle CPU, nothing pending. *)
Definition idle_env : env :=
  {| ktime_get := 7200000; ktime_get_late := 7300000; rearm_clock := [];
     timer_armed_ok := true; rcu_needs_cpu := false; printk_needs_cpu := false;
     arch_needs_cpu := false; get_next_timer_interrupt := fun j => j + 50;
     timekeeping_max_deferment := 400000000; is_idle_task := true;
     cpuset_cpu_adaptive_nohz := false; cpuset_adaptive_nohz := false;
     cpu_online := true; need_resched := false; local_softirq_pending := 0;
     sched_can_stop_tick := true; posix_cpu_timers_running := false;
     rcu_pending := false; irq_regs := None; current_mm := false;
     nr_iowait_cpu := 0 |}.

(** The outcome of the duty protocol when no other CPU interferes: the
    duty is retained, taken, left with its holder, or dropped. *)
Definition duty_step_quiet (e : env) (cpu : Z) (st : kstate) : Z * kstate :=
  let holder := tick_do_timer_cpu st in
  if nr_cpus_user_nohz st >? 0 then
    if holder =? cpu then (cpu, st)
    else if (holder =? TICK_DO_TIMER_NONE)
            || (user_nohz (get_ts st holder)
                && (is_idle_task e || negb (cpuset_cpu_adaptive_nohz e)))
    then (cpu, set_tick_do_timer_cpu cpu st)
    else (holder, st)
  else if holder =? cpu then (TICK_DO_TIMER_NONE, set_tick_do_timer_cpu TICK_DO_TIMER_NONE st)
  else (holder, st).

(** The markers of all CPUs, in CPU order. *)
Definition marks (st : kstate) : list bool :=
  map (fun pc => user_nohz (tick_cpu_sched pc)) (cpus st).

(** [st'] has the markers and the counter of [st]. *)
Definition same_adaptive (st st' : kstate) : Prop :=
  marks st' = marks st /\ nr_cpus_user_nohz st' = nr_cpus_user_nohz st.

(** A second runnable task on the CPU: the scheduler cannot stop the tick. *)
Definition busy_env : env :=
  {| ktime_get := 7200000; ktime_get_late := 7300000; rearm_clock := [];
     timer_armed_ok := true; rcu_needs_cpu := false; printk_needs_cpu := false;
     arch_needs_cpu := false; get_next_timer_interrupt := fun j => j + 50;
     timekeeping_max_deferment := 400000000; is_idle_task := false;
     cpuset_cpu_adaptive_nohz := true; cpuset_adaptive_nohz := true;
     cpu_online := true; need_resched := false; local_softirq_pending := 0;
     sched_can_stop_tick := false; posix_cpu_timers_running := false;
     rcu_pending := false; irq_regs := Some false; current_mm := true;
     nr_iowait_cpu := 0 |}.

(** While CPU 0 runs the duty protocol, CPU 1 becomes fit for adaptive
    mode, loses that again and regains it: three calls of
    [can_stop_adaptive_tick] on CPU 1, placed before the re-read of the
    counter in the first pass, before the first read in the second pass and
    before the re-read in the second pass. *)
Definition racing_schedule : list remote_op :=
  [RQuiet; RQuiet; RCanStopAdaptive 1 calm_env;
   RCanStopAdaptive 1 busy_env; RQuiet; RCanStopAdaptive 1 calm_env].

(** The expiry that [tick_nohz_stop_sched_tick] computes and compares with
    the armed one, when it gets that far with nobody interfering. *)
Definition stop_sched_tick_computed (e : env) (cpu : Z) (st : kstate) : option ktime_t :=
  let '(last_jiffies, next_jiffies, delta_jiffies) := stop_sched_tick_jiffies e st in
  if negb (tick_stopped (get_ts st cpu)) && (delta_jiffies =? 1) then None
  else if as_long delta_jiffies >=? 1 then
    match check_drop_timer_duty e cpu [] st with
    | Some (new_handler, st1) =>
        if new_handler =? cpu then None
        else
          let '(time_delta, st2) :=
            stop_sched_tick_limit e cpu (tick_do_timer_cpu st) new_handler st1 in
          Some (stop_sched_tick_expires (last_jiffies_update st) (tick_period st2)
                  time_delta delta_jiffies)
    | None => None
    end
  else None.

(** The second scenario of the spec: jiffies at 100, the next timer at
    150, CPUs 2 and 3 adaptive (so the counter is 2), nobody has the duty,
    and CPU 0, in high resolution mode with its tick running, goes idle. *)
Definition adaptive_tick_sched : tick_sched := set_user_nohz true zero_tick_sched.

Definition adaptive_scenario : kstate :=
  {| jiffies_64 := 100; last_jiffies_update := 100000000; tick_next_period := 101000000;
     tick_period := 1000000; tick_do_timer_cpu := TICK_DO_TIMER_NONE;
     nr_cpus_user_nohz := 2; tick_nohz_enabled := true; ratelimit := 0;
     cpus := [ set_tick_cpu_sched (set_nohz_mode NOHZ_MODE_HIGHRES zero_tick_sched)
                 (set_next_event 101000000 zero_percpu);
               zero_percpu;
               set_tick_cpu_sched adaptive_tick_sched zero_percpu;
               set_tick_cpu_sched adaptive_tick_sched zero_percpu ];
     events := [] |}.

(** The first scenario of the spec: the same clock, no adaptive CPU, and
    the idle CPU 0 holds the duty. *)
Definition idle_scenario : kstate :=
  {| jiffies_64 := 100; last_jiffies_update := 100000000; tick_next_period := 101000000;
     tick_period := 1000000; tick_do_timer_cpu := 0;
     nr_cpus_user_nohz := 0; tick_nohz_enabled := true; ratelimit := 0;
     cpus := [ set_tick_cpu_sched (set_nohz_mode NOHZ_MODE_HIGHRES zero_tick_sched)
                 (set_next_event 101000000 zero_percpu);
               zero_percpu ];
     events := [] |}.

(** The duty step and the sleep limit together, with nobody interfering:
    the new handler, the limit, the state. *)
Definition stop_sched_tick_duty (e : env) (cpu : Z) (st : kstate) : Z * Z * kstate :=
  let '(new_handler, st1) := duty_step_quiet e cpu st in
  let '(time_delta, st2) :=
    stop_sched_tick_limit e cpu (tick_do_timer_cpu st) new_handler st1 in
  (new_handler, time_delta, st2).

(** The state [idle_scenario] leaves behind once CPU 0 has stopped its
    tick: stopped, armed at the timer 50 jiffies ahead, the duty dropped. *)
Definition armed_scenario : kstate :=
  match tick_nohz_stop_sched_tick idle_env [] 100200000 0 idle_scenario with
  | Some (_, st) => st
  | None => idle_scenario
  end.

(** [user_mode(regs)] of the interrupted context, 0 without registers. *)
Definition interrupted_user (e : env) : bool :=
  match irq_regs e with Some u => u | None => false end.

(** A CPU of an adaptive cpuset interrupted in user mode. *)
Definition user_env : env :=
  {| ktime_get := 100200000; ktime_get_late := 100300000; rearm_clock := [];
     timer_armed_ok := true; rcu_needs_cpu := false; printk_needs_cpu := false;
     arch_needs_cpu := false; get_next_timer_interrupt := fun j => j + 50;
     timekeeping_max_deferment := 400000000; is_idle_task := false;
     cpuset_cpu_adaptive_nohz := true; cpuset_adaptive_nohz := true;
     cpu_online := true; need_resched := false; local_softirq_pending := 0;
     sched_can_stop_tick := true; posix_cpu_timers_running := false;
     rcu_pending := false; irq_regs := Some true; current_mm := true;
     nr_iowait_cpu := 0 |}.

(** The same CPU interrupted in the kernel, on behalf of a user task. *)
Definition syscall_env : env :=
  {| ktime_get := 100200000; ktime_get_late := 100300000; rearm_clock := [];
     timer_armed_ok := true; rcu_needs_cpu := false; printk_needs_cpu := false;
     arch_needs_cpu := false; get_next_timer_interrupt := fun j => j + 50;
     timekeeping_max_deferment := 400000000; is_idle_task := false;
     cpuset_cpu_adaptive_nohz := true; cpuset_adaptive_nohz := true;
     cpu_online := true; need_resched := false; local_softirq_pending := 0;
     sched_can_stop_tick := true; posix_cpu_timers_running := false;
     rcu_pending := false; irq_regs := Some false; current_mm := true;
     nr_iowait_cpu := 0 |}.

(** The adaptive bookkeeping is consistent on a machine of [ncpus] CPUs:
    the counter is the number of markers. *)
Definition adaptive_consistent (ncpus : nat) (st : kstate) : Prop :=
  length (cpus st) = ncpus /\ nr_cpus_user_nohz st = count_user_nohz st.

Definition bool_to_Z (b : bool) : Z := if b then 1 else 0.


(** CPU 1 losing and regaining its fitness for adaptive mode [k] times,
    each time around one pass of the protocol on another CPU. *)
Fixpoint toggling (k : nat) : list remote_op :=
  match k with
  | O => []
  | S k => RCanStopAdaptive 1 busy_env :: RQuiet :: RCanStopAdaptive 1 calm_env :: toggling k
  end.

(** CPU 1 is the one adaptive CPU. *)
Definition one_adaptive (st : kstate) : Prop :=
  valid_cpu st 1 /\ nr_cpus_user_nohz st = 1 /\ user_nohz (get_ts st 1) = true.

(** ** The other entry points of tick-sched.c *)

(** [tick_init_jiffy_update]: the value returned and the state. *)
Definition tick_init_jiffy_update (st : kstate) : ktime_t * kstate :=
  let st :=
    if last_jiffies_update st =? 0
    then set_last_jiffies_update (tick_next_period st) st else st in
  (last_jiffies_update st, st).

From Stdlib Require String.

Section CommandLine.
Import String.

(** [setup_tick_nohz]: [str] is what follows "nohz=" on the command line,
    the C string up to its terminator. *)
Definition setup_tick_nohz (str : String.string) (st : kstate) : Z * kstate :=
  if String.eqb str "off" then (1, set_tick_nohz_enabled false st)
  else if String.eqb str "on" then (1, set_tick_nohz_enabled true st)
  else (0, st).

End CommandLine.

(** *** Interrupt entry *)

(** [tick_nohz_update_jiffies], run by [cpu]. *)
Definition tick_nohz_update_jiffies (cpu : Z) (now : ktime_t) (st : kstate) : kstate :=
  let st := put_ts cpu (set_idle_waketime now (get_ts st cpu)) st in
  tick_do_update_jiffies64 now st.

(** [tick_nohz_kick_tick]: its body is compiled out. *)
Definition tick_nohz_kick_tick (cpu : Z) (now : ktime_t) (st : kstate) : kstate := st.

Definition tick_check_nohz (e : env) (cpu : Z) (st : kstate) : kstate :=
  let ts := get_ts st cpu in
  if negb (idle_active ts) && negb (tick_stopped ts) then st
  else
    let now := ktime_get e in
    let st := if idle_active (get_ts st cpu) then tick_nohz_stop_idle e cpu now st else st in
    if tick_stopped (get_ts st cpu) then
      let st := tick_nohz_update_jiffies cpu now st in
      tick_nohz_kick_tick cpu now st
    else st.

(** [tick_check_idle], called from irq_enter on the CPU it names.  The
    broadcast check it starts with belongs to the broadcast code and writes
    nothing of this file. *)
Definition tick_check_idle (e : env) (cpu : Z) (st : kstate) : kstate :=
  tick_check_nohz e cpu st.

Definition tick_nohz_get_sleep_length (cpu : Z) (st : kstate) : ktime_t :=
  sleep_length (get_ts st cpu).

(** *** The low resolution tick *)

(** [tick_nohz_reprogram]; [armed] says whether the event programmed lies
    in the future. *)
Definition tick_nohz_reprogram (cpu : Z) (now : ktime_t) (armed : bool) (st : kstate)
    : Z * kstate :=
  let st := hrtimer_forward cpu now (tick_period st) st in
  tick_program_event cpu (hrtimer_get_expires (sched_timer (get_ts st cpu))) armed st.

(** The loop at the end of [tick_nohz_handler].  Every element of [clock]
    is one programming that came too late, followed by the clock reading
    taken afterwards; the programming after the last of them succeeds. *)
Fixpoint tick_nohz_handler_loop (cpu : Z) (now : ktime_t) (clock : list ktime_t)
    (st : kstate) : kstate :=
  match clock with
  | [] => snd (tick_nohz_reprogram cpu now true st)
  | later :: clock =>
      let st := snd (tick_nohz_reprogram cpu now false st) in
      let st := tick_do_update_jiffies64 later st in
      tick_nohz_handler_loop cpu later clock st
  end.

(** [tick_nohz_handler], the low resolution tick.  The process time
    accounting and the profiling it calls belong to the scheduler. *)
Definition tick_nohz_handler (e : env) (cpu : Z) (st : kstate) : kstate :=
  let now := ktime_get e in
  let st := set_per_cpu cpu (set_next_event KTIME_MAX (per_cpu st cpu)) st in
  let st := tick_do_timer_check_handler cpu st in
  let st := if tick_do_timer_cpu st =? cpu then tick_do_update_jiffies64 now st else st in
  let st :=
    if tick_stopped (get_ts st cpu) then
      put_ts cpu (set_saved_jiffies (wrap_u64 (saved_jiffies (get_ts st cpu) + 1))
                    (get_ts st cpu)) st
    else st in
  tick_nohz_handler_loop cpu now (rearm_clock e) st.

(** *** Switching the tick mode *)

(** What the clock event layer and the timekeeping answer when a CPU asks
    for the one-shot mode. *)
Record oneshot_env := {
  timekeeping_valid_for_hres : bool;
  tick_is_oneshot_available : bool;
  tick_switch_to_oneshot : Z;          (* 0, or an error *)
  late_programs : nat                  (* programmings that came too late *)
}.

(** Modelled from the spec: [hrtimer_init] is part of the hrtimer core; of
    the spec's "timer_is_armed(cpu) -> bool" it leaves false, a timer that
    was just initialised is not queued. *)
Definition hrtimer_init (cpu : Z) (st : kstate) : kstate :=
  put_ts cpu (set_sched_timer {| hrt_expires := 0; hrt_active := false |} (get_ts st cpu)) st.

(** The loop of [tick_nohz_switch_to_nohz]: [late] programmings come too
    late, the one after them succeeds. *)
Fixpoint tick_nohz_switch_to_nohz_loop (cpu : Z) (next : ktime_t) (late : nat)
    (st : kstate) : kstate :=
  let st := hrtimer_set_expires cpu next st in
  match late with
  | O => snd (tick_program_event cpu next true st)
  | S late =>
      let st := snd (tick_program_event cpu next false st) in
      tick_nohz_switch_to_nohz_loop cpu (ktime_add next (tick_period st)) late st
  end.

Definition tick_nohz_switch_to_nohz (o : oneshot_env) (cpu : Z) (st : kstate) : kstate :=
  if negb (tick_nohz_enabled st) then st
  else if negb (tick_switch_to_oneshot o =? 0) then st
  else
    let st := put_ts cpu (set_nohz_mode NOHZ_MODE_LOWRES (get_ts st cpu)) st in
    let st := hrtimer_init cpu st in
    let '(next, st) := tick_init_jiffy_update st in
    tick_nohz_switch_to_nohz_loop cpu next (late_programs o) st.

(** The loop of [tick_setup_sched_timer]; [clock] as in
    [tick_nohz_restart_loop]. *)
Fixpoint tick_setup_sched_timer_loop (cpu : Z) (now : ktime_t) (clock : list ktime_t)
    (st : kstate) : kstate :=
  let st := hrtimer_forward cpu now (tick_period st) st in
  let expires := hrtimer_get_expires (sched_timer (get_ts st cpu)) in
  match clock with
  | [] => hrtimer_start cpu expires true st
  | later :: clock =>
      tick_setup_sched_timer_loop cpu later clock (hrtimer_start cpu expires false st)
  end.

Definition tick_setup_sched_timer (e : env) (cpu : Z) (st : kstate) : kstate :=
  let now := ktime_get e in
  let st := hrtimer_init cpu st in
  let '(next, st) := tick_init_jiffy_update st in
  let st := hrtimer_set_expires cpu next st in
  let st := tick_setup_sched_timer_loop cpu now (rearm_clock e) st in
  if tick_nohz_enabled st
  then put_ts cpu (set_nohz_mode NOHZ_MODE_HIGHRES (get_ts st cpu)) st
  else st.

(** [tick_cancel_sched_timer]; [has_base] says whether [sched_timer.base]
    is set, which it is once the timer was initialised. *)
Definition tick_cancel_sched_timer (cpu : Z) (has_base : bool) (st : kstate) : kstate :=
  let st := if has_base then hrtimer_cancel cpu st else st in
  put_ts cpu (set_nohz_mode NOHZ_MODE_INACTIVE (get_ts st cpu)) st.

(** [set_bit] and [test_and_clear_bit] on an unsigned long. *)
Definition set_bit (nr : Z) (word : Z) : Z := Z.lor word (Z.shiftl 1 nr).

Definition test_and_clear_bit (nr : Z) (word : Z) : bool * Z :=
  (Z.testbit word nr, Z.land word (Z.lnot (Z.shiftl 1 nr))).

(** [tick_clock_notify]: every possible CPU has a per-CPU area. *)
Definition tick_clock_notify (st : kstate) : kstate :=
  set_cpus
    (map (fun pc =>
            set_tick_cpu_sched
              (set_check_clocks (set_bit 0 (check_clocks (tick_cpu_sched pc)))
                 (tick_cpu_sched pc)) pc)
       (cpus st)) st.

Definition tick_oneshot_notify (cpu : Z) (st : kstate) : kstate :=
  let ts := get_ts st cpu in
  put_ts cpu (set_check_clocks (set_bit 0 (check_clocks ts)) ts) st.

Definition tick_check_oneshot_change (o : oneshot_env) (cpu : Z) (allow_nohz : bool)
    (st : kstate) : Z * kstate :=
  let ts := get_ts st cpu in
  let '(was_set, word) := test_and_clear_bit 0 (check_clocks ts) in
  let st := put_ts cpu (set_check_clocks word ts) st in
  if negb was_set then (0, st)
  else if negb (tick_nohz_mode_eqb (nohz_mode (get_ts st cpu)) NOHZ_MODE_INACTIVE)
  then (0, st)
  else if negb (timekeeping_valid_for_hres o) || negb (tick_is_oneshot_available o)
  then (0, st)
  else if negb allow_nohz then (1, st)
  else (0, tick_nohz_switch_to_nohz o cpu st).

(** *** The boundary between user and kernel *)

(** [tick_nohz_exit_kernel]; the first component says whether the
    condition of its WARN_ON_ONCE held. *)
Definition tick_nohz_exit_kernel (cpu : Z) (st : kstate) : bool * kstate :=
  let ts := get_ts st cpu in
  if negb (tick_stopped ts) then (false, st)
  else
    let warned :=
      negb (tick_saved_jiffies_eqb (saved_jiffies_whence ts) JIFFIES_SAVED_SYS) in
    let delta_jiffies := wrap_u64 (jiffies st - saved_jiffies ts) in
    let st := account_system_ticks cpu delta_jiffies st in
    let st := put_ts cpu (set_saved_jiffies (jiffies st) (get_ts st cpu)) st in
    let st := put_ts cpu (set_saved_jiffies_whence JIFFIES_SAVED_USER (get_ts st cpu)) st in
    let st := set_per_cpu cpu (set_nohz_task_ext_qs true (per_cpu st cpu)) st in
    (warned, emit (EvRcuUserEnter cpu) st).

(** [tick_nohz_enter_kernel], with the same first component. *)
Definition tick_nohz_enter_kernel (cpu : Z) (st : kstate) : bool * kstate :=
  if negb (tick_stopped (get_ts st cpu)) then (false, st)
  else
    let st :=
      if nohz_task_ext_qs (per_cpu st cpu) then
        emit (EvRcuUserExit cpu)
          (set_per_cpu cpu (set_nohz_task_ext_qs false (per_cpu st cpu)) st)
      else st in
    let ts := get_ts st cpu in
    let warned :=
      negb (tick_saved_jiffies_eqb (saved_jiffies_whence ts) JIFFIES_SAVED_USER) in
    let delta_jiffies := wrap_u64 (jiffies st - saved_jiffies ts) in
    let st := account_user_ticks cpu delta_jiffies st in
    let st := put_ts cpu (set_saved_jiffies (jiffies st) (get_ts st cpu)) st in
    let st := put_ts cpu (set_saved_jiffies_whence JIFFIES_SAVED_SYS (get_ts st cpu)) st in
    (warned, st).

(** [tick_nohz_enter_exception] and [tick_nohz_exit_exception]; [user] is
    [user_mode(regs)]. *)
Definition tick_nohz_enter_exception (cpu : Z) (user : bool) (st : kstate)
    : bool * kstate :=
  if user then tick_nohz_enter_kernel cpu st else (false, st).

Definition tick_nohz_exit_exception (cpu : Z) (user : bool) (st : kstate)
    : bool * kstate :=
  if user then tick_nohz_exit_kernel cpu st else (false, st).

(** *** Context switches *)

Definition tick_nohz_pre_schedule (cpu : Z) (st : kstate) : kstate :=
  if tick_stopped (get_ts st cpu) then
    let st := tick_nohz_flush_current_times cpu true st in
    set_per_cpu cpu (set_tif_nohz false (per_cpu st cpu)) st
  else st.

Definition tick_nohz_post_schedule (e : env) (cpu : Z) (st : kstate) : kstate :=
  if tick_stopped (get_ts st cpu) then
    if is_idle_task e then
      let st := put_ts cpu (set_saved_jiffies (jiffies st) (get_ts st cpu)) st in
      put_ts cpu (set_saved_jiffies_whence JIFFIES_SAVED_IDLE (get_ts st cpu)) st
    else tick_nohz_restart_sched_tick e cpu st
  else st.

(** ** The other functions of nohz.c *)

(** [get_cpu_tick_period]; [tick_nohz_period] is the global of nohz.c. *)
Definition get_cpu_tick_period (v : nohz_vars) (tick_nohz_period : ktime_t) (st : kstate)
    (cpu : Z) : ktime_t :=
  if per_cpu_nohz_on v cpu >? 0 then tick_nohz_period else tick_period st.

(** [cpd_set] once for every value written to the attribute, in order. *)
Fixpoint cpd_set_all (vals : list Z) (v : nohz_vars) : nohz_vars :=
  match vals with
  | [] => v
  | val :: vals => cpd_set_all vals (cpd_set val v)
  end.

(** ** Sequences of calls, continued *)

(** The counters of [cpu] read through the accessors, each time with a
    place for the update time: [true] reads the idle time, [false] the
    iowait time. *)
Fixpoint sample_times (cpu : Z) (samples : list (bool * env)) (st : kstate) : kstate :=
  match samples with
  | [] => st
  | (idle, e) :: samples =>
      sample_times cpu samples
        (snd (if idle : bool then get_cpu_idle_time_us e cpu true st
              else get_cpu_iowait_time_us e cpu true st))
  end.

(** The clock readings of a list of samples. *)
Definition sample_clock (samples : list (bool * env)) : list ktime_t :=
  map (fun s => ktime_get (snd s)) samples.

(** Idle time and iowait time together. *)
Definition sleeptime (ts : tick_sched) : Z := idle_sleeptime ts + iowait_sleeptime ts.

(** The collaborators' answers of [calm_env] at another clock reading and
    with another number of tasks waiting for I/O. *)
Definition env_at (now : ktime_t) (iowait : Z) : env :=
  {| ktime_get := now; ktime_get_late := ktime_get_late calm_env;
     rearm_clock := rearm_clock calm_env; timer_armed_ok := timer_armed_ok calm_env;
     rcu_needs_cpu := rcu_needs_cpu calm_env; printk_needs_cpu := printk_needs_cpu calm_env;
     arch_needs_cpu := arch_needs_cpu calm_env;
     get_next_timer_interrupt := get_next_timer_interrupt calm_env;
     timekeeping_max_deferment := timekeeping_max_deferment calm_env;
     is_idle_task := is_idle_task calm_env;
     cpuset_cpu_adaptive_nohz := cpuset_cpu_adaptive_nohz calm_env;
     cpuset_adaptive_nohz := cpuset_adaptive_nohz calm_env;
     cpu_online := cpu_online calm_env; need_resched := need_resched calm_env;
     local_softirq_pending := local_softirq_pending calm_env;
     sched_can_stop_tick := sched_can_stop_tick calm_env;
     posix_cpu_timers_running := posix_cpu_timers_running calm_env;
     rcu_pending := rcu_pending calm_env; irq_regs := irq_regs calm_env;
     current_mm := current_mm calm_env; nr_iowait_cpu := iowait |}.

(** The fields of the structure that [tick_nohz_stop_sched_tick] has no
    business with are the same in [ts] and [ts']. *)
Definition stop_tick_keeps (ts ts' : tick_sched) : Prop :=
  check_clocks ts' = check_clocks ts
  /\ nohz_mode ts' = nohz_mode ts
  /\ inidle ts' = inidle ts
  /\ saved_jiffies ts' = saved_jiffies ts
  /\ saved_jiffies_whence ts' = saved_jiffies_whence ts
  /\ idle_calls ts' = idle_calls ts
  /\ idle_sleeps ts' = idle_sleeps ts
  /\ idle_active ts' = idle_active ts
  /\ idle_entrytime ts' = idle_entrytime ts
  /\ idle_waketime ts' = idle_waketime ts
  /\ idle_exittime ts' = idle_exittime ts
  /\ idle_sleeptime ts' = idle_sleeptime ts
  /\ iowait_sleeptime ts' = iowait_sleeptime ts
  /\ idle_expires ts' = idle_expires ts
  /\ user_nohz ts' = user_nohz ts.

(** The statements of [tick_nohz_stop_sched_tick] from [ret = expires] to
    the label [out]: the tick is marked stopped, and the timer is cancelled
    or programmed for [expires]. *)
Definition stop_sched_tick_arm (e : env) (cpu : Z) (expires : ktime_t) (st : kstate)
    : kstate :=
  let st :=
    if negb (tick_stopped (get_ts st cpu)) then
      let ts := get_ts st cpu in
      put_ts cpu
        (set_tick_stopped true
           (set_last_tick (hrtimer_get_expires (sched_timer ts)) ts)) st
    else st in
  if expires =? KTIME_MAX then
    if tick_nohz_mode_eqb (nohz_mode (get_ts st cpu)) NOHZ_MODE_HIGHRES
    then hrtimer_cancel cpu st else st
  else
    let '(armed, st) :=
      if tick_nohz_mode_eqb (nohz_mode (get_ts st cpu)) NOHZ_MODE_HIGHRES then
        let st := hrtimer_start cpu expires (timer_armed_ok e) st in
        (hrt_active (sched_timer (get_ts st cpu)), st)
      else
        let '(err, st) := tick_program_event cpu expires (timer_armed_ok e) st in
        (err =? 0, st) in
    if armed then st
    else raise_softirq_irqoff cpu (tick_do_update_jiffies64 (ktime_get_late e) st).

(** The entries of the trace that come from keeping time and from
    programming timers. *)
Definition is_timer_event (ev : event) : bool :=
  match ev with
  | EvDoTimer _ | EvHrtimerStart _ _ | EvHrtimerCancel _ | EvTickProgramEvent _ _
  | EvRaiseTimerSoftirq _ => true
  | _ => false
  end.

(** From [st0] to [st] the trace has only grown, by entries of that kind. *)
Definition timer_trace (st0 st : kstate) : Prop :=
  exists l, events st = events st0 ++ l /\ forallb is_timer_event l = true.

(** The entry that programming the timer of [cpu] for [expires] leaves in
    the trace, in high resolution mode and in low resolution mode. *)
Definition program_event (mode : tick_nohz_mode) (cpu : Z) (expires : ktime_t) : event :=
  if tick_nohz_mode_eqb mode NOHZ_MODE_HIGHRES
  then EvHrtimerStart cpu expires else EvTickProgramEvent cpu expires.

(** The expiry a trace entry programs, if it programs one. *)
Definition programmed_expiry (ev : event) : option ktime_t :=
  match ev with
  | EvHrtimerStart _ expires | EvTickProgramEvent _ expires => Some expires
  | _ => None
  end.

(** Two states with the same time base. *)
Definition same_timebase (st st' : kstate) : Prop :=
  jiffies_64 st' = jiffies_64 st
  /\ last_jiffies_update st' = last_jiffies_update st
  /\ tick_next_period st' = tick_next_period st
  /\ tick_period st' = tick_period st.

(** The collaborators' answers of [e] with other answers of RCU and of the
    hardware. *)
Definition env_with_rcu_needs_cpu (b : bool) (e : env) : env :=
  {| ktime_get := ktime_get e; ktime_get_late := ktime_get_late e;
     rearm_clock := rearm_clock e; timer_armed_ok := timer_armed_ok e;
     rcu_needs_cpu := b; printk_needs_cpu := printk_needs_cpu e;
     arch_needs_cpu := arch_needs_cpu e;
     get_next_timer_interrupt := get_next_timer_interrupt e;
     timekeeping_max_deferment := timekeeping_max_deferment e;
     is_idle_task := is_idle_task e;
     cpuset_cpu_adaptive_nohz := cpuset_cpu_adaptive_nohz e;
     cpuset_adaptive_nohz := cpuset_adaptive_nohz e;
     cpu_online := cpu_online e; need_resched := need_resched e;
     local_softirq_pending := local_softirq_pending e;
     sched_can_stop_tick := sched_can_stop_tick e;
     posix_cpu_timers_running := posix_cpu_timers_running e;
     rcu_pending := rcu_pending e; irq_regs := irq_regs e;
     current_mm := current_mm e; nr_iowait_cpu := nr_iowait_cpu e |}.

(** [e] with a programmed timer that turns out to lie in the past, the
    clock reading [late] after that, and the readings [clock] while a tick
    is re-armed. *)
Definition env_with_late_timer (late : ktime_t) (clock : list ktime_t) (e : env) : env :=
  {| ktime_get := ktime_get e; ktime_get_late := late;
     rearm_clock := clock; timer_armed_ok := false;
     rcu_needs_cpu := rcu_needs_cpu e; printk_needs_cpu := printk_needs_cpu e;
     arch_needs_cpu := arch_needs_cpu e;
     get_next_timer_interrupt := get_next_timer_interrupt e;
     timekeeping_max_deferment := timekeeping_max_deferment e;
     is_idle_task := is_idle_task e;
     cpuset_cpu_adaptive_nohz := cpuset_cpu_adaptive_nohz e;
     cpuset_adaptive_nohz := cpuset_adaptive_nohz e;
     cpu_online := cpu_online e; need_resched := need_resched e;
     local_softirq_pending := local_softirq_pending e;
     sched_can_stop_tick := sched_can_stop_tick e;
     posix_cpu_timers_running := posix_cpu_timers_running e;
     rcu_pending := rcu_pending e; irq_regs := irq_regs e;
     current_mm := current_mm e; nr_iowait_cpu := nr_iowait_cpu e |}.

(** CPU 0 of [idle_scenario] stops its tick, but by the time the timer is
    programmed for jiffy 150 the clock stands at 152.3 ms. *)
Definition late_idle_env : env := env_with_late_timer 152300000 [] idle_env.

Definition late_scenario : kstate :=
  match tick_nohz_stop_sched_tick late_idle_env [] 100200000 0 idle_scenario with
  | Some (_, st) => st
  | None => idle_scenario
  end.

(** From [st] to [st'] nothing of the area of CPU [c] but its scheduled
    timer and the event armed on its device has changed, and the duty, the
    counter of adaptive CPUs, the period and the switch are as they were. *)
Definition timer_only (c : Z) (st st' : kstate) : Prop :=
  valid_cpu st' c
  /\ get_ts st' c = set_sched_timer (sched_timer (get_ts st' c)) (get_ts st c)
  /\ nohz_task_ext_qs (per_cpu st' c) = nohz_task_ext_qs (per_cpu st c)
  /\ tif_nohz (per_cpu st' c) = tif_nohz (per_cpu st c)
  /\ tick_do_timer_cpu st' = tick_do_timer_cpu st
  /\ nr_cpus_user_nohz st' = nr_cpus_user_nohz st
  /\ tick_period st' = tick_period st
  /\ tick_nohz_enabled st' = tick_nohz_enabled st.

(** The entries of the trace that are warnings, log lines, time keeping or
    timer programming: everything but the accounting, RCU and the load
    balancer. *)
Definition is_housekeeping_event (ev : event) : bool :=
  match ev with
  | EvWarn _ | EvPrintkSoftirqPending _ _ => true
  | _ => is_timer_event ev
  end.

Definition housekeeping_trace (st0 st : kstate) : Prop :=
  exists l, events st = events st0 ++ l /\ forallb is_housekeeping_event l = true.

(** The accounting entries of the trace, in order. *)
Definition accounted (st : kstate) : list event := List.filter is_account (events st).

Definition is_load_balancer (ev : event) : bool :=
  match ev with
  | EvSelectNohzLoadBalancer _ _ => true
  | _ => false
  end.

(** The entry that accounts [ticks] ticks to the bucket [whence], if the
    count is plausible and the bucket is one. *)
Definition account_entry (cpu : Z) (whence : tick_saved_jiffies) (ticks : Z) : list event :=
  if negb (ticks =? 0) && (ticks <? LONG_MAX) then
    match whence with
    | JIFFIES_SAVED_IDLE => [EvAccountIdleTicks cpu ticks]
    | JIFFIES_SAVED_USER => [EvAccountUserTicks cpu ticks]
    | JIFFIES_SAVED_SYS => [EvAccountSystemTicks cpu ticks]
    | JIFFIES_SAVED_NONE => []
    end
  else [].

(** The collaborators' answers of [e] at the clock reading [now]. *)
Definition env_with_clock (now : ktime_t) (e : env) : env :=
  {| ktime_get := now; ktime_get_late := ktime_get_late e;
     rearm_clock := rearm_clock e; timer_armed_ok := timer_armed_ok e;
     rcu_needs_cpu := rcu_needs_cpu e; printk_needs_cpu := printk_needs_cpu e;
     arch_needs_cpu := arch_needs_cpu e;
     get_next_timer_interrupt := get_next_timer_interrupt e;
     timekeeping_max_deferment := timekeeping_max_deferment e;
     is_idle_task := is_idle_task e;
     cpuset_cpu_adaptive_nohz := cpuset_cpu_adaptive_nohz e;
     cpuset_adaptive_nohz := cpuset_adaptive_nohz e;
     cpu_online := cpu_online e; need_resched := need_resched e;
     local_softirq_pending := local_softirq_pending e;
     sched_can_stop_tick := sched_can_stop_tick e;
     posix_cpu_timers_running := posix_cpu_timers_running e;
     rcu_pending := rcu_pending e; irq_regs := irq_regs e;
     current_mm := current_mm e; nr_iowait_cpu := nr_iowait_cpu e |}.

(** CPU 0 of [idle_scenario] has entered the idle loop at 100.2 ms and
    stopped its tick. *)
Definition idle_stopped_scenario : kstate :=
  match tick_nohz_idle_enter (env_with_clock 100200000 idle_env) [] 0 idle_scenario with
  | Some st => st
  | None => idle_scenario
  end.

Definition is_rcu_event (ev : event) : bool :=
  match ev with
  | EvRcuUserEnter _ | EvRcuUserExit _ => true
  | _ => false
  end.

(** CPU 1 of [sample_timebase] runs a system call of a task whose tick is
    stopped: the snapshot was taken at jiffy 5 with the system bucket. *)
Definition sample_syscall_cpu : kstate := sample_stopped_cpu 5 JIFFIES_SAVED_SYS.

(** The three conditions of [can_stop_adaptive_tick] together. *)
Definition adaptive_eligible (e : env) : bool :=
  sched_can_stop_tick e && negb (posix_cpu_timers_running e) && negb (rcu_pending e).

(** CPU 2 of [adaptive_scenario] runs its user task with the tick stopped
    since jiffy 97. *)
Definition adaptive_stopped_scenario : kstate :=
  set_per_cpu 2
    (set_tif_nohz true
       (set_nohz_task_ext_qs true
          (set_tick_cpu_sched
             (set_tick_stopped true
                (set_saved_jiffies 97
                   (set_saved_jiffies_whence JIFFIES_SAVED_USER
                      (set_nohz_mode NOHZ_MODE_HIGHRES adaptive_tick_sched))))
             zero_percpu)))
    adaptive_scenario.


(** Whether a tick taken by [cpu] updates the time base: the CPU has the
    duty, or takes it because nobody has it. *)
Definition tick_has_duty (cpu : Z) (st : kstate) : bool :=
  (tick_do_timer_cpu st =? TICK_DO_TIMER_NONE) || (tick_do_timer_cpu st =? cpu).

(** From [st] to [st'] the tick of CPU [c] was not touched: it is stopped
    or running as before, in the same mode, the timer and the event armed
    on the device are the same, no attempt to stop it was counted, the time
    base stands where it stood, and nothing about time keeping or timers
    was added to the trace. *)
Definition tick_untouched (c : Z) (st st' : kstate) : Prop :=
  valid_cpu st' c
  /\ tick_stopped (get_ts st' c) = tick_stopped (get_ts st c)
  /\ nohz_mode (get_ts st' c) = nohz_mode (get_ts st c)
  /\ sched_timer (get_ts st' c) = sched_timer (get_ts st c)
  /\ next_event (per_cpu st' c) = next_event (per_cpu st c)
  /\ idle_calls (get_ts st' c) = idle_calls (get_ts st c)
  /\ same_timebase st st'
  /\ List.filter is_timer_event (events st') = List.filter is_timer_event (events st)
  /\ accounted st' = accounted st.

(** [x] is [base] or lies a whole number of steps of [period] after it. *)
Definition on_grid (period base x : Z) : Prop :=
  base <= x /\ (x - base) mod period = 0.

(** A reading of the clock after which a tick of [period] can be armed
    without leaving the range of ktime_t. *)
Definition clock_ok (period : Z) (now : ktime_t) : Prop :=
  0 <= now /\ now + period <= KTIME_MAX.

(** The expiry of the tick timer of [cpu]. *)
Definition tick_expiry (cpu : Z) (st : kstate) : ktime_t :=
  hrtimer_get_expires (sched_timer (get_ts st cpu)).

(** The last reading of a clock that starts with [now]. *)
Definition last_reading (now : ktime_t) (clock : list ktime_t) : ktime_t :=
  List.last clock now.

(** The tick of [c] is armed in [st] for a point after [now] of the grid
    through [base], and the device is programmed for that point. *)
Definition armed_after (c : Z) (period base now : Z) (st : kstate) : Prop :=
  now < tick_expiry c st <= KTIME_MAX
  /\ on_grid period base (tick_expiry c st)
  /\ next_event (per_cpu st c) = tick_expiry c st.

(** ** The tick modes of all CPUs *)

(** The mode of the tick and whether it is stopped, for all CPUs in CPU
    order. *)
Definition tick_modes (st : kstate) : list (tick_nohz_mode * bool) :=
  map (fun pc => (nohz_mode (tick_cpu_sched pc), tick_stopped (tick_cpu_sched pc)))
    (cpus st).

(** [st'] has the switch and the tick modes of [st]. *)
Definition same_modes (st st' : kstate) : Prop :=
  tick_modes st' = tick_modes st /\ tick_nohz_enabled st' = tick_nohz_enabled st.

(** nohz is switched off, no CPU is in a dynamic mode and every tick runs. *)
Definition nohz_off (st : kstate) : Prop :=
  tick_nohz_enabled st = false
  /\ Forall (fun m => m = (NOHZ_MODE_INACTIVE, false)) (tick_modes st).

(** The entry points of tick-sched.c that the rest of the kernel calls once
    the system runs: the ones of [op], and the ones that set the tick up,
    take it down, react to notifications and interrupts, stand at the
    boundary between user and kernel and around context switches, and read
    the idle counters. *)
Inductive entry_point :=
  | EpOp (o : op)
  | EpSetupSchedTimer (cpu : Z) (e : env)
  | EpCancelSchedTimer (cpu : Z) (has_base : bool)
  | EpClockNotify
  | EpOneshotNotify (cpu : Z)
  | EpCheckOneshotChange (cpu : Z) (o : oneshot_env) (allow_nohz : bool)
  | EpCheckIdle (cpu : Z) (e : env)
  | EpHandler (cpu : Z) (e : env)
  | EpExitKernel (cpu : Z)
  | EpEnterKernel (cpu : Z)
  | EpEnterException (cpu : Z) (user : bool)
  | EpExitException (cpu : Z) (user : bool)
  | EpPreSchedule (cpu : Z)
  | EpPostSchedule (cpu : Z) (e : env)
  | EpGetIdleTime (cpu : Z) (e : env) (last_update_time : bool)
  | EpGetIowaitTime (cpu : Z) (e : env) (last_update_time : bool).

Definition run_entry_point (ep : entry_point) (st : kstate) : option kstate :=
  match ep with
  | EpOp o => run_op o st
  | EpSetupSchedTimer c e => Some (tick_setup_sched_timer e c st)
  | EpCancelSchedTimer c has_base => Some (tick_cancel_sched_timer c has_base st)
  | EpClockNotify => Some (tick_clock_notify st)
  | EpOneshotNotify c => Some (tick_oneshot_notify c st)
  | EpCheckOneshotChange c o allow_nohz =>
      Some (snd (tick_check_oneshot_change o c allow_nohz st))
  | EpCheckIdle c e => Some (tick_check_idle e c st)
  | EpHandler c e => Some (tick_nohz_handler e c st)
  | EpExitKernel c => Some (snd (tick_nohz_exit_kernel c st))
  | EpEnterKernel c => Some (snd (tick_nohz_enter_kernel c st))
  | EpEnterException c user => Some (snd (tick_nohz_enter_exception c user st))
  | EpExitException c user => Some (snd (tick_nohz_exit_exception c user st))
  | EpPreSchedule c => Some (tick_nohz_pre_schedule c st)
  | EpPostSchedule c e => Some (tick_nohz_post_schedule e c st)
  | EpGetIdleTime c e last_update_time =>
      Some (snd (get_cpu_idle_time_us e c last_update_time st))
  | EpGetIowaitTime c e last_update_time =>
      Some (snd (get_cpu_iowait_time_us e c last_update_time st))
  end.

Fixpoint run_entry_points (eps : list entry_point) (st : kstate) : option kstate :=
  match eps with
  | [] => Some st
  | ep :: eps =>
      match run_entry_point ep st with
      | Some st => run_entry_points eps st
      | None => None
      end
  end.

Section BootArguments.
Import String.

(** The state after "nohz=off" on the command line. *)
Definition boot_nohz_off (st : kstate) : kstate := snd (setup_tick_nohz "off" st).

End BootArguments.

(** The entry point is run by a CPU of a machine with [ncpus] CPUs. *)
Definition entry_point_ok (ncpus : nat) (ep : entry_point) : Prop :=
  match ep with
  | EpOp o => forall c, op_cpu o = Some c -> 0 <= c < Z.of_nat ncpus
  | _ => True
  end.






(** * Properties *)

(** ** Machine integers *)

Lemma wrap_s64_id z : s64_range z -> wrap_s64 z = z.
Proof.
  unfold s64_range, wrap_s64. intros H.
  rewrite Z.mod_small by lia. lia.
Qed.

Lemma wrap_u64_id z : u64_range z -> wrap_u64 z = z.
Proof. unfold u64_range, wrap_u64. intros H. now rewrite Z.mod_small. Qed.

Lemma wrap_s32_id z : s32_range z -> wrap_s32 z = z.
Proof.
  unfold s32_range, wrap_s32. intros H.
  rewrite Z.mod_small by lia. lia.
Qed.

Lemma wrap_u64_add_l a b : wrap_u64 (wrap_u64 a + b) = wrap_u64 (a + b).
Proof. unfold wrap_u64. now rewrite Zplus_mod_idemp_l. Qed.

Lemma wrap_u64_range z : u64_range (wrap_u64 z).
Proof. unfold u64_range, wrap_u64. apply Z.mod_pos_bound. lia. Qed.

(** ** GlobalTimeBase: [tick_do_update_jiffies64] *)

Section Advance.

Variable now : ktime_t.
Variable st : kstate.

Let last := last_jiffies_update st.
Let period := tick_period st.

Hypothesis period_pos : 0 < period.
Hypothesis period_range : s64_range period.
Hypothesis last_range : s64_range last.
Hypothesis now_range : s64_range now.
Hypothesis delta_range : s64_range (now - last).

(** Less than one period since the last update: nothing happens. *)
Lemma advance_early :
  now - last < period -> tick_do_update_jiffies64 now st = st.
Proof.
  intros Hlt. unfold tick_do_update_jiffies64, ktime_sub.
  fold last period. rewrite wrap_s64_id by assumption.
  destruct (Z.ltb_spec (now - last) period); [reflexivity | lia].
Qed.

Lemma advance_late :
  period <= now - last ->
  tick_do_update_jiffies64 now st = advanced st ((now - last) / period).
Proof.
  intros Hge. unfold tick_do_update_jiffies64, ktime_sub.
  fold last period. rewrite (wrap_s64_id (now - last)) by assumption.
  destruct (Z.ltb_spec (now - last) period); [lia |].
  destruct (Z.geb_spec (now - last) period); [| lia].
  unfold s64_range in *.
  rewrite (wrap_s64_id (now - last - period)) by (unfold s64_range; lia).
  cbn [tick_period set_last_jiffies_update last_jiffies_update].
  fold last period.
  assert (Hadd : ktime_add last period = last + period).
  { unfold ktime_add. apply wrap_s64_id. unfold s64_range. lia. }
  rewrite Hadd.
  assert (Hk : (now - last) / period = (now - last - period) / period + 1).
  { replace (now - last) with ((now - last - period) + 1 * period) at 1 by lia.
    rewrite Z.div_add by lia. lia. }
  destruct (Z.geb_spec (now - last - period) period) as [Hslow | Hfast].
  - (* the slow path: one division for the rest *)
    set (q := (now - last - period) / period) in *.
    assert (Hq : 1 <= q) by (apply Z.div_le_lower_bound; lia).
    assert (Hqp : q * period <= now - last - period).
    { rewrite Z.mul_comm. apply Z.mul_div_le. lia. }
    assert (Hqle : q <= now - last - period) by nia.
    unfold ktime_divns, ktime_to_ns, ktime_add_ns.
    rewrite Z.quot_div_nonneg by lia. fold q.
    rewrite (wrap_u64_id q) by (unfold u64_range; lia).
    rewrite (wrap_u64_id (period * q)) by (unfold u64_range; nia).
    rewrite (wrap_s64_id (last + period + period * q)) by (unfold s64_range; nia).
    rewrite (wrap_u64_id (q + 1)) by (unfold u64_range; lia).
    rewrite Hk. unfold advanced, do_timer, emit. cbn. fold last period.
    replace (last + period + period * q) with (last + (q + 1) * period) by lia.
    reflexivity.
  - (* exactly one period *)
    assert (Hq0 : (now - last - period) / period = 0) by (apply Z.div_small; lia).
    rewrite Hk, Hq0. change (0 + 1) with 1.
    rewrite (wrap_u64_id 1) by (unfold u64_range; lia).
    unfold advanced, do_timer, emit. cbn. fold last period.
    replace (last + 1 * period) with (last + period) by lia.
    reflexivity.
Qed.

(** In both cases: the last update moves by the elapsed whole periods and
    the counter by as many ticks, when the clock is not behind it. *)
Lemma advance_last_update :
  last <= now ->
  last_jiffies_update (tick_do_update_jiffies64 now st)
    = last + elapsed_periods now st * period.
Proof.
  intros Hle. unfold elapsed_periods. fold last period.
  destruct (Z.lt_ge_cases (now - last) period) as [Hlt | Hge].
  - rewrite advance_early by assumption.
    rewrite Z.div_small by lia. fold last. lia.
  - rewrite advance_late by assumption. reflexivity.
Qed.

Lemma advance_jiffies :
  last <= now ->
  jiffies_64 (tick_do_update_jiffies64 now st)
    = wrap_u64 (jiffies_64 st + elapsed_periods now st) \/
  (elapsed_periods now st = 0 /\
   jiffies_64 (tick_do_update_jiffies64 now st) = jiffies_64 st).
Proof.
  intros Hle. unfold elapsed_periods. fold last period.
  destruct (Z.lt_ge_cases (now - last) period) as [Hlt | Hge].
  - right. rewrite advance_early by assumption.
    rewrite Z.div_small by lia. auto.
  - left. rewrite advance_late by assumption. reflexivity.
Qed.

Lemma advance_period :
  tick_period (tick_do_update_jiffies64 now st) = period.
Proof.
  destruct (Z.lt_ge_cases (now - last) period) as [Hlt | Hge].
  - now rewrite advance_early.
  - now rewrite advance_late.
Qed.

End Advance.

(** *** Sequences of advances *)

Lemma increasing_from_final lo nows : increasing_from lo nows -> lo <= final_now lo nows.
Proof.
  revert lo. induction nows as [| now nows IH]; intros lo H; cbn in *.
  - lia.
  - destruct H as [H1 H2]. specialize (IH _ H2). lia.
Qed.

Lemma increasing_from_app lo l1 l2 :
  increasing_from lo (l1 ++ l2) ->
  increasing_from lo l1 /\ increasing_from (final_now lo l1) l2.
Proof.
  revert lo. induction l1 as [| now l1 IH]; intros lo H; cbn in *.
  - auto.
  - destruct H as [H1 H2]. destruct (IH _ H2). auto.
Qed.

Lemma final_now_app lo l1 l2 :
  final_now lo (l1 ++ l2) = final_now (final_now lo l1) l2.
Proof. revert lo. induction l1 as [| now l1 IH]; intros lo; cbn; auto. Qed.

Lemma final_now_bound lo nows :
  lo <= KTIME_MAX -> Forall (fun now => now <= KTIME_MAX) nows ->
  final_now lo nows <= KTIME_MAX.
Proof.
  revert lo. induction nows as [| now nows IH]; intros lo Hlo H; cbn.
  - assumption.
  - inversion H; subst. apply IH; assumption.
Qed.

(** After any increasing sequence of readings the time base stands at the
    whole periods between its start and the last reading. *)
Lemma advance_all_total nows : forall st,
  0 < tick_period st <= KTIME_MAX ->
  0 <= last_jiffies_update st ->
  u64_range (jiffies_64 st) ->
  increasing_from (last_jiffies_update st) nows ->
  Forall (fun now => now <= KTIME_MAX) nows ->
  let final := final_now (last_jiffies_update st) nows in
  last_jiffies_update (advance_all nows st)
    = last_jiffies_update st + elapsed_periods final st * tick_period st
  /\ jiffies_64 (advance_all nows st)
    = wrap_u64 (jiffies_64 st + elapsed_periods final st)
  /\ tick_period (advance_all nows st) = tick_period st.
Proof.
  unfold KTIME_MAX.
  induction nows as [| now nows IH]; intros st Hp Hl Hj Hinc Hall; cbn zeta.
  - cbn [advance_all final_now]. unfold elapsed_periods.
    rewrite Z.sub_diag, Z.div_0_l by lia.
    rewrite !Z.add_0_r, (wrap_u64_id _ Hj). auto.
  - cbn [advance_all final_now]. cbn in Hinc. destruct Hinc as [Hle Hinc].
    inversion Hall as [| ? ? Hnow Hall']; subst.
    set (st1 := tick_do_update_jiffies64 now st).
    assert (Hr1 : s64_range (tick_period st)) by (unfold s64_range; lia).
    assert (Hr2 : s64_range (last_jiffies_update st)) by (unfold s64_range; lia).
    assert (Hr3 : s64_range now) by (unfold s64_range; lia).
    assert (Hr4 : s64_range (now - last_jiffies_update st)) by (unfold s64_range; lia).
    assert (Hp0 : 0 < tick_period st) by lia.
    assert (Hlast : last_jiffies_update (tick_do_update_jiffies64 now st)
                    = last_jiffies_update st + elapsed_periods now st * tick_period st)
      by (apply advance_last_update; assumption).
    assert (Hper : tick_period (tick_do_update_jiffies64 now st) = tick_period st)
      by (apply advance_period; assumption).
    assert (Hjif : jiffies_64 st1 = wrap_u64 (jiffies_64 st + elapsed_periods now st)).
    { destruct (advance_jiffies now st) as [H | [H0 H]]; try assumption.
      unfold st1. rewrite H, H0, Z.add_0_r. symmetry. now apply wrap_u64_id. }
    fold st1 in Hlast, Hper.
    set (k1 := elapsed_periods now st) in *.
    assert (Hk1 : 0 <= k1 /\ k1 * tick_period st <= now - last_jiffies_update st).
    { unfold k1, elapsed_periods. split.
      - apply Z.div_pos; lia.
      - rewrite Z.mul_comm. apply Z.mul_div_le. lia. }
    destruct nows as [| now2 rest].
    + cbn [advance_all final_now]. fold st1. rewrite Hlast, Hjif, Hper. auto.
    + assert (Hinc1 : increasing_from (last_jiffies_update st1) (now2 :: rest)).
      { cbn in Hinc |- *. destruct Hinc. split; [rewrite Hlast; lia | assumption]. }
      destruct (IH st1) as (IH1 & IH2 & IH3).
      * rewrite Hper. lia.
      * rewrite Hlast. lia.
      * rewrite Hjif. apply wrap_u64_range.
      * exact Hinc1.
      * exact Hall'.
      * cbn [final_now] in IH1, IH2 |- *.
        set (f := final_now now2 rest) in *.
        assert (He : elapsed_periods f st1 = elapsed_periods f st - k1).
        { unfold elapsed_periods. rewrite Hlast, Hper.
          replace (f - (last_jiffies_update st + k1 * tick_period st))
            with (f - last_jiffies_update st + (- k1) * tick_period st) by lia.
          rewrite Z.div_add by lia. lia. }
        rewrite IH1, IH2, IH3, He, Hlast, Hjif, Hper, wrap_u64_add_l.
        repeat split; try lia. f_equal. lia.
Qed.

(** C1.  An advance with at least one period elapsed adds the elapsed
    whole periods floor((now - last_update) / tick_period) to the tick
    counter through one [do_timer] call, moves the last update by that many
    periods and recomputes the next period from it; with less than a period
    elapsed the state stays as it is; over an increasing sequence of
    readings the counter ends at the whole periods between the start and
    the last reading, each counted once, and never goes back. *)
Theorem advance_counts_elapsed_periods (st : kstate) :
  0 < tick_period st <= KTIME_MAX ->
  0 <= last_jiffies_update st <= KTIME_MAX ->
  u64_range (jiffies_64 st) ->
  (forall now, 0 <= now <= KTIME_MAX ->
     (tick_period st <= now - last_jiffies_update st ->
        let k := elapsed_periods now st in
        let st' := tick_do_update_jiffies64 now st in
        jiffies_64 st' = wrap_u64 (jiffies_64 st + k)
        /\ events st' = events st ++ [EvDoTimer k]
        /\ last_jiffies_update st' = last_jiffies_update st + k * tick_period st
        /\ tick_next_period st' = ktime_add (last_jiffies_update st') (tick_period st))
     /\ (now - last_jiffies_update st < tick_period st ->
        tick_do_update_jiffies64 now st = st))
  /\ (forall nows,
        increasing_from (last_jiffies_update st) nows ->
        Forall (fun now => now <= KTIME_MAX) nows ->
        let total := elapsed_periods (final_now (last_jiffies_update st) nows) st in
        jiffies_64 (advance_all nows st) = wrap_u64 (jiffies_64 st + total)
        /\ (jiffies_64 st + total < 2 ^ 64 ->
            forall l1 l2, nows = l1 ++ l2 ->
              jiffies_64 st <= jiffies_64 (advance_all l1 st)
                            <= jiffies_64 (advance_all nows st))).
Proof.
  unfold KTIME_MAX. intros Hp Hl Hj. split.
  - intros now Hnow.
    assert (Hr1 : s64_range (tick_period st)) by (unfold s64_range; lia).
    assert (Hr2 : s64_range (last_jiffies_update st)) by (unfold s64_range; lia).
    assert (Hr3 : s64_range now) by (unfold s64_range; lia).
    assert (Hr4 : s64_range (now - last_jiffies_update st)) by (unfold s64_range; lia).
    assert (Hp0 : 0 < tick_period st) by lia.
    split.
    + intros Hge. cbn zeta.
      rewrite advance_late by assumption.
      unfold advanced, elapsed_periods. cbn. auto.
    + apply advance_early; assumption.
  - intros nows Hinc Hall. cbn zeta.
    destruct (advance_all_total nows st) as (_ & Htot & _);
      try assumption; try (unfold KTIME_MAX; lia).
    split; [exact Htot |].
    intros Hno l1 l2 ->.
    destruct (increasing_from_app _ _ _ Hinc) as [Hinc1 Hinc2].
    apply Forall_app in Hall. destruct Hall as [Hall1 Hall2].
    destruct (advance_all_total l1 st) as (_ & Htot1 & _);
      try assumption; try (unfold KTIME_MAX; lia).
    rewrite Htot, Htot1.
    rewrite final_now_app in Hno |- *.
    set (lo := last_jiffies_update st) in *.
    pose proof (increasing_from_final _ _ Hinc1) as H1.
    pose proof (increasing_from_final _ _ Hinc2) as H2.
    set (f1 := final_now lo l1) in *. set (f2 := final_now f1 l2) in *.
    assert (He1 : 0 <= elapsed_periods f1 st).
    { unfold elapsed_periods. apply Z.div_pos; fold lo; lia. }
    assert (He2 : elapsed_periods f1 st <= elapsed_periods f2 st).
    { unfold elapsed_periods. apply Z.div_le_mono; fold lo; lia. }
    unfold u64_range in Hj.
    rewrite !wrap_u64_id by (unfold u64_range; lia). lia.
Qed.

Lemma advance_counts_elapsed_periods_witness :
  jiffies_64 (tick_do_update_jiffies64 10500000 sample_timebase) = 10
  /\ events (tick_do_update_jiffies64 10500000 sample_timebase) = [EvDoTimer 3]
  /\ tick_do_update_jiffies64 7999999 sample_timebase = sample_timebase
  /\ jiffies_64 (advance_all [7500000; 9000000; 9000000; 12100000] sample_timebase) = 12.
Proof.
  assert (H1 : 0 < tick_period sample_timebase <= KTIME_MAX) by (vm_compute; intuition congruence).
  assert (H2 : 0 <= last_jiffies_update sample_timebase <= KTIME_MAX)
    by (vm_compute; intuition congruence).
  assert (H3 : u64_range (jiffies_64 sample_timebase)) by (vm_compute; intuition congruence).
  destruct (advance_counts_elapsed_periods sample_timebase H1 H2 H3) as [Hone Hseq].
  destruct (Hone 10500000) as [Hlate _]; [vm_compute; intuition congruence |].
  destruct Hlate as (Ha & Hb & _); [vm_compute; congruence |].
  destruct (Hone 7999999) as [_ Hearly]; [vm_compute; intuition congruence |].
  destruct (Hseq [7500000; 9000000; 9000000; 12100000]) as [Hc _].
  { vm_compute. intuition congruence. }
  { repeat constructor; vm_compute; congruence. }
  split; [rewrite Ha; reflexivity |].
  split; [rewrite Hb; reflexivity |].
  split; [apply Hearly; vm_compute; reflexivity |].
  rewrite Hc. reflexivity.
Defined.

(** ** nohz.c: the target CPU of a domain *)

(** C10.  For a CPU in [0, NR_CPUS): the CPU itself when its nohz flag is
    zero, otherwise the first CPU of its domain, (cpu / ncpus_per_dom) *
    ncpus_per_dom, which is at most cpu when ncpus_per_dom is positive;
    outside that range the argument comes back as it is. *)
Theorem cpu_get_nohz_target_spec (NR_CPUS : Z) (v : nohz_vars) (cpu : Z) :
  s32_range cpu ->
  (0 <= cpu < NR_CPUS -> per_cpu_nohz_on v cpu = 0 ->
     cpu_get_nohz_target NR_CPUS v cpu = cpu)
  /\ (0 <= cpu < NR_CPUS -> per_cpu_nohz_on v cpu <> 0 -> 0 < ncpus_per_dom v ->
     cpu_get_nohz_target NR_CPUS v cpu = cpu / ncpus_per_dom v * ncpus_per_dom v
     /\ cpu_get_nohz_target NR_CPUS v cpu <= cpu)
  /\ (~ 0 <= cpu < NR_CPUS -> cpu_get_nohz_target NR_CPUS v cpu = cpu).
Proof.
  intros Hcpu. unfold cpu_get_nohz_target, s32_range in *.
  split; [| split].
  - intros Hin Hoff.
    destruct (Z.geb_spec cpu 0); [| lia]. destruct (Z.ltb_spec cpu NR_CPUS); [| lia].
    cbn [andb]. rewrite Hoff. reflexivity.
  - intros Hin Hon Hpos.
    destruct (Z.geb_spec cpu 0); [| lia]. destruct (Z.ltb_spec cpu NR_CPUS); [| lia].
    cbn [andb]. destruct (Z.eqb_spec (per_cpu_nohz_on v cpu) 0); [contradiction |].
    set (d := ncpus_per_dom v) in *.
    rewrite Z.quot_div_nonneg by lia.
    assert (Hq : 0 <= cpu / d <= cpu).
    { split; [apply Z.div_pos; lia |]. apply Z.div_le_upper_bound; nia. }
    assert (Hm : d * (cpu / d) <= cpu) by (apply Z.mul_div_le; lia).
    rewrite (wrap_s32_id (cpu / d)) by (unfold s32_range; lia).
    rewrite wrap_s32_id by (unfold s32_range; nia). split; lia.
  - intros Hout.
    destruct (Z.geb_spec cpu 0); destruct (Z.ltb_spec cpu NR_CPUS);
      cbn [andb]; try reflexivity. lia.
Qed.

Lemma cpu_get_nohz_target_spec_witness :
  cpu_get_nohz_target 8 sample_nohz_vars 3 = 3
  /\ cpu_get_nohz_target 8 sample_nohz_vars 6 = 4
  /\ cpu_get_nohz_target 8 sample_nohz_vars 11 = 11.
Proof.
  assert (R3 : s32_range 3) by (vm_compute; intuition congruence).
  assert (R6 : s32_range 6) by (vm_compute; intuition congruence).
  assert (R11 : s32_range 11) by (vm_compute; intuition congruence).
  destruct (cpu_get_nohz_target_spec 8 sample_nohz_vars 3 R3) as (H3 & _ & _).
  destruct (cpu_get_nohz_target_spec 8 sample_nohz_vars 6 R6) as (_ & H6 & _).
  destruct (cpu_get_nohz_target_spec 8 sample_nohz_vars 11 R11) as (_ & _ & H11).
  split; [| split].
  - apply H3; [lia | reflexivity].
  - destruct H6 as [H6 _]; [lia | vm_compute; congruence | vm_compute; reflexivity |].
    rewrite H6. reflexivity.
  - apply H11. lia.
Defined.

(** The sysfs store keeps ncpus_per_dom positive. *)
Lemma cpd_set_positive val v :
  0 < ncpus_per_dom v -> 0 < ncpus_per_dom (cpd_set val v).
Proof.
  intros Hpos. unfold cpd_set. destruct (Z.gtb_spec val 0); [cbn; lia | assumption].
Qed.

(** ** The idle time accessors *)

(** C9.  With tickless operation disabled both accessors return (u64)-1
    and leave the state alone, whatever the pointer; enabled and called
    with a NULL pointer they return, in microseconds, the accumulator plus
    the idle interval in progress (the time since idle entry, when the CPU
    is idle and the interval belongs to that accumulator) and leave the
    state alone. *)
Theorem get_cpu_time_us_spec (e : env) (cpu : Z) (st : kstate) :
  (tick_nohz_enabled st = false ->
     forall last_update_time,
       get_cpu_idle_time_us e cpu last_update_time st = (U64_MINUS_ONE, None, st)
       /\ get_cpu_iowait_time_us e cpu last_update_time st = (U64_MINUS_ONE, None, st))
  /\ (tick_nohz_enabled st = true ->
      let ts := get_ts st cpu in
      let in_progress := ktime_sub (ktime_get e) (idle_entrytime ts) in
      get_cpu_idle_time_us e cpu false st
        = (wrap_u64 (ktime_to_us
             (if idle_active ts && (nr_iowait_cpu e =? 0)
              then ktime_add (idle_sleeptime ts) in_progress
              else idle_sleeptime ts)), None, st)
      /\ get_cpu_iowait_time_us e cpu false st
        = (wrap_u64 (ktime_to_us
             (if idle_active ts && (nr_iowait_cpu e >? 0)
              then ktime_add (iowait_sleeptime ts) in_progress
              else iowait_sleeptime ts)), None, st)).
Proof.
  split.
  - intros Hoff p. unfold get_cpu_idle_time_us, get_cpu_iowait_time_us.
    rewrite Hoff. auto.
  - intros Hon. unfold get_cpu_idle_time_us, get_cpu_iowait_time_us.
    rewrite Hon. cbn [negb]. auto.
Qed.

Lemma get_cpu_time_us_spec_witness :
  get_cpu_idle_time_us calm_env 1 true (set_tick_nohz_enabled false sample_idle_cpu)
    = (U64_MINUS_ONE, None, set_tick_nohz_enabled false sample_idle_cpu)
  /\ get_cpu_idle_time_us calm_env 1 false sample_idle_cpu = (3100, None, sample_idle_cpu)
  /\ get_cpu_iowait_time_us calm_env 1 false sample_idle_cpu = (1000, None, sample_idle_cpu).
Proof.
  destruct (get_cpu_time_us_spec calm_env 1 (set_tick_nohz_enabled false sample_idle_cpu))
    as [Hoff _].
  destruct (get_cpu_time_us_spec calm_env 1 sample_idle_cpu) as [_ Hon].
  destruct (Hoff eq_refl true) as [H1 _].
  destruct (Hon eq_refl) as [H2 H3].
  split; [exact H1 |]. split; [rewrite H2 | rewrite H3]; reflexivity.
Defined.

(** ** TickAccountant *)

(** C8, as the code has it.  The flush computes elapsed = jiffies -
    saved_jiffies and hands exactly that many ticks, in one call, to the
    sink that saved_jiffies_whence selects; it accounts nothing when
    elapsed is zero, when elapsed is LONG_MAX or more, or when the reason
    is NONE.  In these cases the state, trace included, stays as it is:
    nothing is logged. *)
Theorem tick_nohz_account_ticks_spec (cpu : Z) (st : kstate) :
  let ticks := elapsed_ticks cpu st in
  let st' := tick_nohz_account_ticks cpu st in
  st' = set_events (events st') st
  /\ (ticks <> 0 -> ticks < LONG_MAX ->
      events st' = events st ++
        match saved_jiffies_whence (get_ts st cpu) with
        | JIFFIES_SAVED_IDLE => [EvAccountIdleTicks cpu ticks]
        | JIFFIES_SAVED_USER => [EvAccountUserTicks cpu ticks]
        | JIFFIES_SAVED_SYS => [EvAccountSystemTicks cpu ticks]
        | JIFFIES_SAVED_NONE => []
        end)
  /\ (ticks = 0 \/ LONG_MAX <= ticks
      \/ saved_jiffies_whence (get_ts st cpu) = JIFFIES_SAVED_NONE ->
      st' = st).
Proof.
  cbn zeta. unfold tick_nohz_account_ticks, elapsed_ticks.
  set (ticks := wrap_u64 (jiffies st - saved_jiffies (get_ts st cpu))).
  destruct st as [j lu np p d nr en rl cs evs].
  destruct (Z.eqb_spec ticks 0) as [Hz | Hnz]; cbn [negb andb].
  - repeat split; try reflexivity. intros Hn. contradiction.
  - destruct (Z.ltb_spec ticks LONG_MAX) as [Hlt | Hge].
    + destruct (saved_jiffies_whence _) eqn:Hw; cbn;
        repeat split; try reflexivity; intros; rewrite ?app_nil_r; try reflexivity;
        try (intuition (try lia; try congruence)).
    + repeat split; try reflexivity. intros _ Hlt. lia.
Qed.

(** C8 as the spec words it asks for a log entry when the elapsed count is
    implausible.  Here the snapshot lies one jiffy after the counter, the
    elapsed count is 2^64 - 1, and the flush leaves the trace empty. *)
Lemma tick_nohz_account_ticks_logs_nothing :
  let st := sample_stopped_cpu 8 JIFFIES_SAVED_USER in
  LONG_MAX <= elapsed_ticks 1 st
  /\ events st = []
  /\ events (tick_nohz_account_ticks 1 st) = [].
Proof. vm_compute. intuition congruence. Qed.

Lemma tick_nohz_account_ticks_spec_witness :
  events (tick_nohz_account_ticks 1 (sample_stopped_cpu 4 JIFFIES_SAVED_USER))
    = [EvAccountUserTicks 1 3]
  /\ tick_nohz_account_ticks 1 (sample_stopped_cpu 7 JIFFIES_SAVED_SYS)
    = sample_stopped_cpu 7 JIFFIES_SAVED_SYS.
Proof.
  split.
  - destruct (tick_nohz_account_ticks_spec 1 (sample_stopped_cpu 4 JIFFIES_SAVED_USER))
      as (_ & H & _).
    rewrite H; [reflexivity | vm_compute; congruence | vm_compute; reflexivity].
  - destruct (tick_nohz_account_ticks_spec 1 (sample_stopped_cpu 7 JIFFIES_SAVED_SYS))
      as (_ & _ & H).
    apply H. left. reflexivity.
Defined.

(** ** Per-CPU areas *)

Lemma set_cpus_id st : set_cpus (cpus st) st = st.
Proof. now destruct st. Qed.

Lemma per_cpu_set_eq st c pc : valid_cpu st c -> per_cpu (set_per_cpu c pc st) c = pc.
Proof.
  unfold valid_cpu, per_cpu, set_per_cpu. intros [H0 H1].
  destruct (Z.ltb_spec c 0); [lia |]. cbn [cpus set_cpus].
  rewrite list_lookup_insert_eq by lia. reflexivity.
Qed.

Lemma per_cpu_set_ne st c c' pc : c <> c' -> per_cpu (set_per_cpu c pc st) c' = per_cpu st c'.
Proof.
  unfold per_cpu, set_per_cpu. intros Hne.
  destruct (Z.ltb_spec c 0); [reflexivity |].
  destruct (Z.ltb_spec c' 0); [reflexivity |]. cbn [cpus set_cpus].
  rewrite list_lookup_insert_ne by lia. reflexivity.
Qed.

Lemma set_per_cpu_twice st c pc1 pc2 :
  set_per_cpu c pc2 (set_per_cpu c pc1 st) = set_per_cpu c pc2 st.
Proof.
  unfold set_per_cpu. destruct (Z.ltb_spec c 0); [reflexivity |].
  destruct st; cbn. now rewrite list_insert_insert_eq.
Qed.

Lemma set_per_cpu_same st c : set_per_cpu c (per_cpu st c) st = st.
Proof.
  unfold set_per_cpu, per_cpu. destruct (Z.ltb_spec c 0); [reflexivity |].
  destruct (cpus st !! Z.to_nat c) as [pc |] eqn:Hl; cbn [default].
  - rewrite list_insert_id by exact Hl. apply set_cpus_id.
  - rewrite list_insert_ge by (now apply lookup_ge_None). apply set_cpus_id.
Qed.

Lemma valid_cpu_set_per_cpu st c pc c' :
  valid_cpu (set_per_cpu c pc st) c' <-> valid_cpu st c'.
Proof.
  unfold valid_cpu, set_per_cpu. destruct (Z.ltb_spec c 0); [reflexivity |].
  cbn [cpus set_cpus]. now rewrite length_insert.
Qed.

Lemma get_ts_put_ts_eq st c ts : valid_cpu st c -> get_ts (put_ts c ts st) c = ts.
Proof. intros H. unfold get_ts, put_ts. now rewrite per_cpu_set_eq. Qed.

Lemma get_ts_put_ts_ne st c c' ts : c <> c' -> get_ts (put_ts c ts st) c' = get_ts st c'.
Proof. intros H. unfold get_ts, put_ts. now rewrite per_cpu_set_ne. Qed.

Lemma put_ts_twice st c ts1 ts2 : put_ts c ts2 (put_ts c ts1 st) = put_ts c ts2 st.
Proof.
  unfold put_ts. rewrite set_per_cpu_twice.
  destruct (Z.ltb_spec c 0) as [Hneg | Hpos].
  - unfold set_per_cpu. destruct (Z.ltb_spec c 0); [reflexivity | lia].
  - destruct (Z.lt_ge_cases c (Z.of_nat (length (cpus st)))) as [Hin | Hout].
    + rewrite per_cpu_set_eq by (unfold valid_cpu; lia). reflexivity.
    + unfold set_per_cpu. destruct (Z.ltb_spec c 0); [lia |].
      rewrite !list_insert_ge by (cbn [cpus set_cpus]; rewrite ?length_insert; lia).
      reflexivity.
Qed.

Lemma put_ts_same st c : put_ts c (get_ts st c) st = st.
Proof.
  unfold put_ts, get_ts.
  replace (set_tick_cpu_sched (tick_cpu_sched (per_cpu st c)) (per_cpu st c))
    with (per_cpu st c) by now destruct (per_cpu st c).
  apply set_per_cpu_same.
Qed.

Lemma valid_cpu_put_ts st c ts c' : valid_cpu (put_ts c ts st) c' <-> valid_cpu st c'.
Proof. unfold put_ts. apply valid_cpu_set_per_cpu. Qed.

(** ** The duty protocol without interference *)

Lemma set_tick_do_timer_cpu_id st : set_tick_do_timer_cpu (tick_do_timer_cpu st) st = st.
Proof. now destruct st. Qed.

(** Alone on the machine a pass returns. *)
Lemma check_drop_timer_duty_pass_quiet e cpu st :
  0 <= cpu ->
  check_drop_timer_duty_pass e cpu [] st
  = (PassReturn (fst (duty_step_quiet e cpu st)), [], snd (duty_step_quiet e cpu st)).
Proof.
  intros Hcpu.
  unfold check_drop_timer_duty_pass, duty_step_quiet, interfere, update_do_timer_cpu,
    TICK_DO_TIMER_NONE.
  destruct (Z.gtb_spec (nr_cpus_user_nohz st) 0) as [Hnr | Hnr].
  - destruct (Z.eqb_spec (tick_do_timer_cpu st) cpu) as [Hh | Hh]; [reflexivity |].
    rewrite Z.eqb_refl.
    destruct (Z.eqb_spec (tick_do_timer_cpu st) (-1)) as [Hn | Hn]; cbn [orb].
    + destruct (Z.eqb_spec cpu (-1)); [lia |]. reflexivity.
    + destruct (user_nohz (get_ts st (tick_do_timer_cpu st))
                && (is_idle_task e || negb (cpuset_cpu_adaptive_nohz e))).
      * destruct (Z.eqb_spec cpu (-1)); [lia |]. reflexivity.
      * destruct (Z.eqb_spec (tick_do_timer_cpu st) (-1)); [lia |]. cbn.
        now rewrite set_tick_do_timer_cpu_id.
  - destruct (Z.eqb_spec (tick_do_timer_cpu st) cpu) as [Hh | Hh]; cbn.
    + destruct (Z.gtb_spec (nr_cpus_user_nohz st) 0); [lia | reflexivity].
    + destruct (Z.gtb_spec (nr_cpus_user_nohz st) 0); [lia | reflexivity].
Qed.

(** Alone on the machine the protocol needs one pass. *)
Lemma check_drop_timer_duty_counted_quiet e cpu st :
  0 <= cpu ->
  check_drop_timer_duty_counted e cpu [] st
    = Some (fst (duty_step_quiet e cpu st), 0, snd (duty_step_quiet e cpu st)).
Proof.
  intros Hcpu.
  unfold check_drop_timer_duty_counted, check_drop_timer_duty_loop.
  change (wrap_s32 (-1 + 1)) with 0. change (0 >? 1) with false. cbn iota.
  now rewrite check_drop_timer_duty_pass_quiet.
Qed.

Lemma check_drop_timer_duty_quiet e cpu st :
  0 <= cpu -> check_drop_timer_duty e cpu [] st = Some (duty_step_quiet e cpu st).
Proof.
  intros Hcpu. unfold check_drop_timer_duty.
  rewrite check_drop_timer_duty_counted_quiet by assumption.
  now destruct (duty_step_quiet e cpu st).
Qed.

(** With nobody interfering [tick_nohz_stop_sched_tick] returns. *)
Lemma tick_nohz_stop_sched_tick_returns e now cpu st :
  0 <= cpu -> exists r, tick_nohz_stop_sched_tick e [] now cpu st = Some r.
Proof.
  intros Hcpu. unfold tick_nohz_stop_sched_tick.
  rewrite check_drop_timer_duty_quiet by assumption.
  destruct (stop_sched_tick_jiffies e st) as [[lj nj] dj].
  destruct (duty_step_quiet e cpu st) as [h st1].
  destruct (stop_sched_tick_limit e cpu (tick_do_timer_cpu st) h st1) as [td st2].
  repeat match goal with
         | |- context [if ?b then _ else _] => destruct b
         | |- context [let '(_, _) := ?p in _] => destruct p
         end; eauto.
Qed.

(** ** What leaves the adaptive bookkeeping alone

    Most of the file never touches [user_nohz] or [nr_cpus_user_nohz].  The
    lemmas are stated so that they chain along a sequence of updates. *)

Lemma same_adaptive_refl st : same_adaptive st st.
Proof. split; reflexivity. Qed.

Lemma same_adaptive_trans st1 st2 st3 :
  same_adaptive st1 st2 -> same_adaptive st2 st3 -> same_adaptive st1 st3.
Proof. intros [H1 H2] [H3 H4]. split; congruence. Qed.

Lemma same_adaptive_valid st st' c : same_adaptive st st' -> valid_cpu st c -> valid_cpu st' c.
Proof.
  intros [Hm _]. unfold valid_cpu.
  assert (Hlen : length (cpus st') = length (cpus st)).
  { apply (f_equal (@length bool)) in Hm. unfold marks in Hm.
    now rewrite !length_map in Hm. }
  now rewrite Hlen.
Qed.

Lemma marks_set_per_cpu st c pc :
  user_nohz (tick_cpu_sched pc) = user_nohz (get_ts st c) ->
  marks (set_per_cpu c pc st) = marks st.
Proof.
  unfold marks, set_per_cpu, get_ts, per_cpu. intros Hu.
  destruct (Z.ltb_spec c 0); [reflexivity |]. cbn [cpus set_cpus].
  rewrite list_fmap_insert.
  destruct (cpus st !! Z.to_nat c) as [old |] eqn:Hl.
  - apply list_insert_id. rewrite list_lookup_fmap, Hl. cbn in *. congruence.
  - apply list_insert_ge. rewrite length_fmap. now apply lookup_ge_None.
Qed.

Section Chain.

Variable st0 : kstate.

Lemma sa_emit ev st : same_adaptive st0 st -> same_adaptive st0 (emit ev st).
Proof. intros [? ?]. split; assumption. Qed.

Lemma sa_set_jiffies_64 v st :
  same_adaptive st0 st -> same_adaptive st0 (set_jiffies_64 v st).
Proof. intros [? ?]. split; assumption. Qed.

Lemma sa_set_last_jiffies_update v st :
  same_adaptive st0 st -> same_adaptive st0 (set_last_jiffies_update v st).
Proof. intros [? ?]. split; assumption. Qed.

Lemma sa_set_tick_next_period v st :
  same_adaptive st0 st -> same_adaptive st0 (set_tick_next_period v st).
Proof. intros [? ?]. split; assumption. Qed.

Lemma sa_set_tick_do_timer_cpu v st :
  same_adaptive st0 st -> same_adaptive st0 (set_tick_do_timer_cpu v st).
Proof. intros [? ?]. split; assumption. Qed.

Lemma sa_set_ratelimit v st :
  same_adaptive st0 st -> same_adaptive st0 (set_ratelimit v st).
Proof. intros [? ?]. split; assumption. Qed.

Lemma sa_set_per_cpu c pc st :
  same_adaptive st0 st ->
  user_nohz (tick_cpu_sched pc) = user_nohz (get_ts st c) ->
  same_adaptive st0 (set_per_cpu c pc st).
Proof.
  intros [Hm Hn] Hu. split.
  - now rewrite marks_set_per_cpu.
  - rewrite <- Hn. unfold set_per_cpu. now destruct (c <? 0).
Qed.

Lemma sa_put_ts c ts st :
  same_adaptive st0 st ->
  user_nohz ts = user_nohz (get_ts st c) ->
  same_adaptive st0 (put_ts c ts st).
Proof. intros H Hu. unfold put_ts. apply sa_set_per_cpu; assumption. Qed.

End Chain.

Create HintDb adaptive.

#[local] Hint Resolve same_adaptive_refl sa_emit sa_set_jiffies_64
  sa_set_last_jiffies_update sa_set_tick_next_period sa_set_tick_do_timer_cpu
  sa_set_ratelimit sa_set_per_cpu sa_put_ts : adaptive.

(** Split on every test in the goal, then chain. *)
Ltac split_tests :=
  repeat match goal with
         | |- context [if ?b then _ else _] => destruct b
         | |- context [match ?x with _ => _ end] => destruct x
         end.

Ltac chain := split_tests; cbn [fst snd]; auto 20 with adaptive.

Section ChainOps.

Variable st0 : kstate.

Lemma sa_do_timer ticks st : same_adaptive st0 st -> same_adaptive st0 (do_timer ticks st).
Proof. intros H. unfold do_timer. chain. Qed.

Lemma sa_tick_do_update_jiffies64 now st :
  same_adaptive st0 st -> same_adaptive st0 (tick_do_update_jiffies64 now st).
Proof.
  intros H. unfold tick_do_update_jiffies64.
  destruct (_ <? _); [assumption |]. destruct (_ >=? _); [| assumption].
  destruct (_ >=? _); cbn iota beta; apply sa_set_tick_next_period, sa_do_timer;
    auto with adaptive.
Qed.

Lemma sa_hrtimer_start c expires armed st :
  same_adaptive st0 st -> same_adaptive st0 (hrtimer_start c expires armed st).
Proof. intros H. unfold hrtimer_start. chain. Qed.

Lemma sa_hrtimer_cancel c st :
  same_adaptive st0 st -> same_adaptive st0 (hrtimer_cancel c st).
Proof. intros H. unfold hrtimer_cancel. chain. Qed.

Lemma sa_tick_program_event c expires armed st :
  same_adaptive st0 st ->
  same_adaptive st0 (snd (tick_program_event c expires armed st)).
Proof. intros H. unfold tick_program_event. chain. Qed.

Lemma sa_hrtimer_set_expires c expires st :
  same_adaptive st0 st -> same_adaptive st0 (hrtimer_set_expires c expires st).
Proof. intros H. unfold hrtimer_set_expires. chain. Qed.

Lemma sa_hrtimer_forward c now interval st :
  same_adaptive st0 st -> same_adaptive st0 (hrtimer_forward c now interval st).
Proof.
  intros H. unfold hrtimer_forward. destruct (_ <? _); [assumption |].
  now apply sa_hrtimer_set_expires.
Qed.

Lemma sa_raise_softirq_irqoff c st :
  same_adaptive st0 st -> same_adaptive st0 (raise_softirq_irqoff c st).
Proof. intros H. unfold raise_softirq_irqoff. chain. Qed.

Lemma sa_duty_step_quiet e c st :
  same_adaptive st0 st -> same_adaptive st0 (snd (duty_step_quiet e c st)).
Proof. intros H. unfold duty_step_quiet. chain. Qed.

Lemma sa_stop_sched_tick_out c now nj lj ret st :
  same_adaptive st0 st ->
  same_adaptive st0 (snd (stop_sched_tick_out c now nj lj ret st)).
Proof. intros H. unfold stop_sched_tick_out. chain. Qed.

Lemma sa_stop_sched_tick_limit e c prev new st :
  same_adaptive st0 st ->
  same_adaptive st0 (snd (stop_sched_tick_limit e c prev new st)).
Proof. intros H. unfold stop_sched_tick_limit. chain. Qed.

Lemma sa_tick_nohz_account_ticks c st :
  same_adaptive st0 st -> same_adaptive st0 (tick_nohz_account_ticks c st).
Proof.
  intros H. unfold tick_nohz_account_ticks, account_idle_ticks,
    account_user_ticks, account_system_ticks. chain.
Qed.

Lemma sa_tick_do_timer_check_handler c st :
  same_adaptive st0 st -> same_adaptive st0 (tick_do_timer_check_handler c st).
Proof. intros H. unfold tick_do_timer_check_handler. chain. Qed.

Lemma sa_can_stop_idle_tick e c st :
  same_adaptive st0 st -> same_adaptive st0 (snd (can_stop_idle_tick e c st)).
Proof. intros H. unfold can_stop_idle_tick. chain. Qed.

Lemma sa_tick_nohz_stop_idle e c now st :
  same_adaptive st0 st -> same_adaptive st0 (tick_nohz_stop_idle e c now st).
Proof.
  intros H. unfold tick_nohz_stop_idle, update_ts_time_stats.
  apply sa_put_ts; [assumption |]. now split_tests.
Qed.

End ChainOps.

#[local] Hint Resolve sa_do_timer sa_tick_do_update_jiffies64 sa_hrtimer_start
  sa_hrtimer_cancel sa_tick_program_event sa_hrtimer_set_expires sa_hrtimer_forward
  sa_raise_softirq_irqoff sa_duty_step_quiet sa_stop_sched_tick_out
  sa_stop_sched_tick_limit sa_tick_nohz_account_ticks sa_tick_do_timer_check_handler
  sa_can_stop_idle_tick sa_tick_nohz_stop_idle : adaptive.

Lemma sa_tick_nohz_stop_sched_tick st0 e now c st r :
  0 <= c ->
  same_adaptive st0 st ->
  tick_nohz_stop_sched_tick e [] now c st = Some r ->
  same_adaptive st0 (snd r).
Proof.
  intros Hc H. unfold tick_nohz_stop_sched_tick.
  rewrite check_drop_timer_duty_quiet by assumption.
  destruct (stop_sched_tick_jiffies e st) as [[lj nj] dj].
  pose proof (sa_duty_step_quiet st0 e c st H) as H1.
  destruct (duty_step_quiet e c st) as [h st1]. cbn [snd] in H1.
  pose proof (sa_stop_sched_tick_limit st0 e c (tick_do_timer_cpu st) h st1 H1) as H2.
  destruct (stop_sched_tick_limit e c (tick_do_timer_cpu st) h st1) as [td st2].
  cbn [snd] in H2. unfold tick_program_event.
  split_tests; intros [= <-]; auto 20 with adaptive.
Qed.

(** ** Reading a per-CPU area after updates *)

Lemma valid_cpu_set_per_cpu_eq st c pc c' :
  valid_cpu (set_per_cpu c pc st) c' = valid_cpu st c'.
Proof.
  unfold valid_cpu, set_per_cpu. destruct (Z.ltb_spec c 0); [reflexivity |].
  cbn [cpus set_cpus]. now rewrite length_insert.
Qed.

Lemma valid_cpu_put_ts_eq st c ts c' : valid_cpu (put_ts c ts st) c' = valid_cpu st c'.
Proof. unfold put_ts. apply valid_cpu_set_per_cpu_eq. Qed.

Lemma per_cpu_emit ev st c : per_cpu (emit ev st) c = per_cpu st c.
Proof. reflexivity. Qed.
Lemma per_cpu_set_jiffies_64 v st c : per_cpu (set_jiffies_64 v st) c = per_cpu st c.
Proof. reflexivity. Qed.
Lemma per_cpu_set_last_jiffies_update v st c :
  per_cpu (set_last_jiffies_update v st) c = per_cpu st c.
Proof. reflexivity. Qed.
Lemma per_cpu_set_tick_next_period v st c :
  per_cpu (set_tick_next_period v st) c = per_cpu st c.
Proof. reflexivity. Qed.
Lemma per_cpu_set_tick_do_timer_cpu v st c :
  per_cpu (set_tick_do_timer_cpu v st) c = per_cpu st c.
Proof. reflexivity. Qed.
Lemma per_cpu_set_nr_cpus_user_nohz v st c :
  per_cpu (set_nr_cpus_user_nohz v st) c = per_cpu st c.
Proof. reflexivity. Qed.
Lemma per_cpu_set_ratelimit v st c : per_cpu (set_ratelimit v st) c = per_cpu st c.
Proof. reflexivity. Qed.

Lemma get_ts_emit ev st c : get_ts (emit ev st) c = get_ts st c.
Proof. reflexivity. Qed.
Lemma get_ts_set_jiffies_64 v st c : get_ts (set_jiffies_64 v st) c = get_ts st c.
Proof. reflexivity. Qed.
Lemma get_ts_set_last_jiffies_update v st c :
  get_ts (set_last_jiffies_update v st) c = get_ts st c.
Proof. reflexivity. Qed.
Lemma get_ts_set_tick_next_period v st c :
  get_ts (set_tick_next_period v st) c = get_ts st c.
Proof. reflexivity. Qed.
Lemma get_ts_set_tick_do_timer_cpu v st c :
  get_ts (set_tick_do_timer_cpu v st) c = get_ts st c.
Proof. reflexivity. Qed.
Lemma get_ts_set_nr_cpus_user_nohz v st c :
  get_ts (set_nr_cpus_user_nohz v st) c = get_ts st c.
Proof. reflexivity. Qed.
Lemma get_ts_set_ratelimit v st c : get_ts (set_ratelimit v st) c = get_ts st c.
Proof. reflexivity. Qed.

Lemma valid_cpu_emit ev st c : valid_cpu (emit ev st) c = valid_cpu st c.
Proof. reflexivity. Qed.
Lemma valid_cpu_set_jiffies_64 v st c : valid_cpu (set_jiffies_64 v st) c = valid_cpu st c.
Proof. reflexivity. Qed.
Lemma valid_cpu_set_last_jiffies_update v st c :
  valid_cpu (set_last_jiffies_update v st) c = valid_cpu st c.
Proof. reflexivity. Qed.
Lemma valid_cpu_set_tick_next_period v st c :
  valid_cpu (set_tick_next_period v st) c = valid_cpu st c.
Proof. reflexivity. Qed.
Lemma valid_cpu_set_tick_do_timer_cpu v st c :
  valid_cpu (set_tick_do_timer_cpu v st) c = valid_cpu st c.
Proof. reflexivity. Qed.
Lemma valid_cpu_set_nr_cpus_user_nohz v st c :
  valid_cpu (set_nr_cpus_user_nohz v st) c = valid_cpu st c.
Proof. reflexivity. Qed.
Lemma valid_cpu_set_ratelimit v st c : valid_cpu (set_ratelimit v st) c = valid_cpu st c.
Proof. reflexivity. Qed.

Lemma get_ts_set_per_cpu_eq st c pc :
  valid_cpu st c -> get_ts (set_per_cpu c pc st) c = tick_cpu_sched pc.
Proof. intros H. unfold get_ts. now rewrite per_cpu_set_eq. Qed.

Lemma atomic_dec_per_cpu st c : per_cpu (atomic_dec_nr_cpus_user_nohz st) c = per_cpu st c.
Proof. unfold atomic_dec_nr_cpus_user_nohz. now destruct (_ <? _). Qed.

Lemma atomic_dec_get_ts st c : get_ts (atomic_dec_nr_cpus_user_nohz st) c = get_ts st c.
Proof. unfold get_ts. now rewrite atomic_dec_per_cpu. Qed.

Lemma atomic_dec_valid st c : valid_cpu (atomic_dec_nr_cpus_user_nohz st) c = valid_cpu st c.
Proof. unfold atomic_dec_nr_cpus_user_nohz. now destruct (_ <? _). Qed.

Lemma atomic_inc_get_ts st c : get_ts (atomic_inc_nr_cpus_user_nohz st) c = get_ts st c.
Proof. reflexivity. Qed.

Lemma atomic_inc_per_cpu st c : per_cpu (atomic_inc_nr_cpus_user_nohz st) c = per_cpu st c.
Proof. reflexivity. Qed.

Lemma atomic_inc_valid st c : valid_cpu (atomic_inc_nr_cpus_user_nohz st) c = valid_cpu st c.
Proof. reflexivity. Qed.

Create Rewrite HintDb percpu.

#[local] Hint Rewrite
  valid_cpu_set_per_cpu_eq valid_cpu_put_ts_eq
  per_cpu_emit per_cpu_set_jiffies_64 per_cpu_set_last_jiffies_update
  per_cpu_set_tick_next_period per_cpu_set_tick_do_timer_cpu
  per_cpu_set_nr_cpus_user_nohz per_cpu_set_ratelimit
  get_ts_emit get_ts_set_jiffies_64 get_ts_set_last_jiffies_update
  get_ts_set_tick_next_period get_ts_set_tick_do_timer_cpu
  get_ts_set_nr_cpus_user_nohz get_ts_set_ratelimit
  valid_cpu_emit valid_cpu_set_jiffies_64 valid_cpu_set_last_jiffies_update
  valid_cpu_set_tick_next_period valid_cpu_set_tick_do_timer_cpu
  valid_cpu_set_nr_cpus_user_nohz valid_cpu_set_ratelimit
  atomic_dec_per_cpu atomic_dec_get_ts atomic_dec_valid
  atomic_inc_get_ts atomic_inc_per_cpu atomic_inc_valid : percpu.

Lemma per_cpu_put_ts_eq st c ts :
  valid_cpu st c -> per_cpu (put_ts c ts st) c = set_tick_cpu_sched ts (per_cpu st c).
Proof. intros Hv. unfold put_ts. now rewrite per_cpu_set_eq. Qed.

#[local] Hint Rewrite get_ts_put_ts_eq per_cpu_set_eq get_ts_set_per_cpu_eq
  per_cpu_put_ts_eq using (autorewrite with percpu; assumption) : percpu.

Lemma events_set_per_cpu c pc st : events (set_per_cpu c pc st) = events st.
Proof. unfold set_per_cpu. now destruct (c <? 0). Qed.

Lemma events_put_ts c ts st : events (put_ts c ts st) = events st.
Proof. apply events_set_per_cpu. Qed.

Lemma timer_programs_set_per_cpu c pc st :
  timer_programs (set_per_cpu c pc st) = timer_programs st.
Proof. unfold timer_programs. now rewrite events_set_per_cpu. Qed.

Lemma timer_programs_put_ts c ts st : timer_programs (put_ts c ts st) = timer_programs st.
Proof. apply timer_programs_set_per_cpu. Qed.

Lemma timer_programs_emit ev st :
  timer_programs (emit ev st)
  = (timer_programs st + if is_timer_program ev then 1 else 0)%nat.
Proof.
  unfold timer_programs, emit. cbn [events set_events].
  rewrite List.filter_app, length_app. cbn [List.filter].
  now destruct (is_timer_program ev).
Qed.

#[local] Hint Rewrite events_set_per_cpu events_put_ts timer_programs_set_per_cpu
  timer_programs_put_ts timer_programs_emit : percpu.

(** Normalise reads of the area of a valid CPU. *)
Ltac percpu :=
  repeat (autorewrite with percpu;
          cbn [tick_cpu_sched next_event nohz_task_ext_qs tif_nohz set_tick_cpu_sched
               set_next_event set_nohz_task_ext_qs set_tif_nohz]).

(** Read a field of a structure written with the field updates. *)
Ltac fields :=
  cbn [sched_timer check_clocks nohz_mode last_tick inidle tick_stopped saved_jiffies
       saved_jiffies_whence idle_calls idle_sleeps idle_active idle_entrytime
       idle_waketime idle_exittime idle_sleeptime iowait_sleeptime sleep_length
       last_jiffies next_jiffies idle_expires do_timer_last user_nohz
       set_sched_timer set_check_clocks set_nohz_mode set_last_tick set_inidle
       set_tick_stopped set_saved_jiffies set_saved_jiffies_whence set_idle_calls
       set_idle_sleeps set_idle_active set_idle_entrytime set_idle_waketime
       set_idle_exittime set_idle_sleeptime set_iowait_sleeptime set_sleep_length
       set_last_jiffies set_next_jiffies set_idle_expires set_do_timer_last
       set_user_nohz hrt_expires hrt_active].

(** *** Idle entry keeps the tick mode *)

Lemma tick_nohz_start_idle_fst e c st : fst (tick_nohz_start_idle e c st) = ktime_get e.
Proof. reflexivity. Qed.

Lemma tick_nohz_start_idle_valid e c st c' :
  valid_cpu (snd (tick_nohz_start_idle e c st)) c' = valid_cpu st c'.
Proof.
  unfold tick_nohz_start_idle. cbn [snd].
  destruct (user_nohz _); now percpu.
Qed.

Lemma tick_nohz_start_idle_mode e c st :
  valid_cpu st c ->
  nohz_mode (get_ts (snd (tick_nohz_start_idle e c st)) c) = nohz_mode (get_ts st c).
Proof.
  intros Hv. unfold tick_nohz_start_idle. cbn [snd].
  destruct (user_nohz _); percpu; reflexivity.
Qed.

(** ** IdleTickController: [can_stop_idle_tick] *)

Lemma can_stop_idle_tick_false_iff e cpu st :
  fst (can_stop_idle_tick e cpu st) = false <->
  nohz_mode (get_ts st cpu) = NOHZ_MODE_INACTIVE \/ need_resched e = true
  \/ (local_softirq_pending e <> 0 /\ cpu_online e = true).
Proof.
  unfold can_stop_idle_tick.
  assert (Hm : forall st1,
             get_ts (if negb (cpu_online e) && (cpu =? tick_do_timer_cpu st)
                     then set_tick_do_timer_cpu TICK_DO_TIMER_NONE st else st1) cpu
             = get_ts (if negb (cpu_online e) && (cpu =? tick_do_timer_cpu st)
                       then st else st1) cpu).
  { intros st1. now destruct (_ && _). }
  rewrite Hm. replace (if negb (cpu_online e) && (cpu =? tick_do_timer_cpu st)
                       then st else st) with st by now destruct (_ && _).
  destruct (nohz_mode (get_ts st cpu)) eqn:Hmode; cbn [tick_nohz_mode_eqb fst].
  - tauto.
  - destruct (need_resched e); cbn [fst]; [tauto |].
    destruct (Z.eqb_spec (local_softirq_pending e) 0) as [Hp | Hp];
      destruct (cpu_online e); cbn [negb andb fst];
      intuition congruence.
  - destruct (need_resched e); cbn [fst]; [tauto |].
    destruct (Z.eqb_spec (local_softirq_pending e) 0) as [Hp | Hp];
      destruct (cpu_online e); cbn [negb andb fst];
      intuition congruence.
Qed.

Lemma softirq_printks_emit ev st :
  softirq_printks (emit ev st)
  = softirq_printks st + (if is_softirq_printk ev then 1 else 0).
Proof.
  unfold softirq_printks, emit. cbn [events set_events].
  rewrite List.filter_app, length_app.
  destruct ev; cbn; lia.
Qed.

(** The refusal is logged while the static counter is below 10, and each
    line moves the counter. *)
Lemma can_stop_idle_tick_ratelimit e cpu st :
  0 <= ratelimit st <= 10 ->
  let st' := snd (can_stop_idle_tick e cpu st) in
  0 <= ratelimit st' <= 10
  /\ softirq_printks st' - ratelimit st' = softirq_printks st - ratelimit st.
Proof.
  intros Hr. cbn zeta. unfold can_stop_idle_tick.
  set (st1 := if negb (cpu_online e) && (cpu =? tick_do_timer_cpu st)
              then set_tick_do_timer_cpu TICK_DO_TIMER_NONE st else st).
  assert (H1 : ratelimit st1 = ratelimit st /\ softirq_printks st1 = softirq_printks st).
  { unfold st1. now destruct (_ && _). }
  destruct H1 as [H1 H2]. rewrite <- H1, <- H2 in *. clearbody st1.
  destruct (tick_nohz_mode_eqb _ _); cbn [snd]; [lia |].
  destruct (need_resched e); cbn [snd]; [lia |].
  destruct (_ && _); cbn [snd]; [| lia].
  destruct (Z.ltb_spec (ratelimit st1) 10); [| lia].
  cbn [ratelimit set_ratelimit].
  replace (softirq_printks (set_ratelimit _ _))
    with (softirq_printks (emit (EvPrintkSoftirqPending cpu (local_softirq_pending e)) st1))
    by reflexivity.
  rewrite softirq_printks_emit. cbn [is_softirq_printk].
  change (ratelimit (emit _ st1)) with (ratelimit st1).
  rewrite wrap_s32_id by (unfold s32_range; lia). lia.
Qed.

Lemma can_stop_idle_tick_all_bounded calls : forall st,
  0 <= ratelimit st <= 10 ->
  softirq_printks (can_stop_idle_tick_all calls st)
    <= softirq_printks st + (10 - ratelimit st).
Proof.
  induction calls as [| [e cpu] calls IH]; intros st Hr; cbn [can_stop_idle_tick_all].
  - lia.
  - destruct (can_stop_idle_tick_ratelimit e cpu st Hr) as [Hr' Heq].
    specialize (IH _ Hr'). lia.
Qed.

Lemma can_stop_idle_tick_valid e c st c' :
  valid_cpu (snd (can_stop_idle_tick e c st)) c' = valid_cpu st c'.
Proof. unfold can_stop_idle_tick. split_tests; reflexivity. Qed.

(** C5, as the code has it.  [can_stop_idle_tick] returns false exactly
    when the tick mode is INACTIVE, or the scheduler wants to reschedule,
    or a soft interrupt is pending on a CPU that is online, and true
    otherwise; the refusal for a pending soft interrupt is logged a bounded
    number of times: over any sequence of calls run one after another, on
    whatever CPUs, the log grows by no more than what is left of the
    allowance of 10 kept in [ratelimit]; and when it returns true on idle
    entry, the idle path calls [tick_nohz_stop_sched_tick] and returns. *)
Theorem can_stop_idle_tick_spec (e : env) (cpu : Z) (st : kstate) :
  (fst (can_stop_idle_tick e cpu st) = false <->
   nohz_mode (get_ts st cpu) = NOHZ_MODE_INACTIVE \/ need_resched e = true
   \/ (local_softirq_pending e <> 0 /\ cpu_online e = true))
  /\ (0 <= ratelimit st <= 10 ->
      forall calls,
        softirq_printks (can_stop_idle_tick_all calls st)
          <= softirq_printks st + (10 - ratelimit st))
  /\ (valid_cpu st cpu ->
      nohz_mode (get_ts st cpu) <> NOHZ_MODE_INACTIVE ->
      need_resched e = false ->
      local_softirq_pending e = 0 \/ cpu_online e = false ->
      let st1 := snd (tick_nohz_start_idle e cpu st) in
      let st2 := snd (can_stop_idle_tick e cpu st1) in
      let st_in :=
        put_ts cpu (set_idle_calls (wrap_u64 (idle_calls (get_ts st2 cpu) + 1))
                      (get_ts st2 cpu)) st2 in
      fst (can_stop_idle_tick e cpu st1) = true
      /\ exists expires st_out st',
           tick_nohz_stop_sched_tick e [] (ktime_get e) cpu st_in = Some (expires, st_out)
           /\ __tick_nohz_idle_enter e [] cpu st = Some st'
           /\ timer_programs st' = timer_programs st_out
           /\ tick_stopped (get_ts st' cpu) = tick_stopped (get_ts st_out cpu)).
Proof.
  split; [apply can_stop_idle_tick_false_iff |].
  split; [intros Hr calls; now apply can_stop_idle_tick_all_bounded |].
  intros Hv Hmode Hres Hsoft. cbn zeta.
  set (st1 := snd (tick_nohz_start_idle e cpu st)).
  assert (Htrue : fst (can_stop_idle_tick e cpu st1) = true).
  { destruct (fst (can_stop_idle_tick e cpu st1)) eqn:Hf; [reflexivity |].
    apply can_stop_idle_tick_false_iff in Hf.
    unfold st1 in Hf. rewrite tick_nohz_start_idle_mode in Hf by assumption.
    destruct Hf as [Hf | [Hf | [Hf1 Hf2]]]; try congruence.
    destruct Hsoft; congruence. }
  split; [exact Htrue |].
  assert (Hv2 : valid_cpu (snd (can_stop_idle_tick e cpu st1)) cpu).
  { unfold st1. now rewrite can_stop_idle_tick_valid, tick_nohz_start_idle_valid. }
  unfold __tick_nohz_idle_enter.
  change (tick_nohz_start_idle e cpu st) with (ktime_get e, st1).
  cbn iota beta.
  destruct (can_stop_idle_tick e cpu st1) as [r st2] eqn:Hcs.
  cbn [fst snd] in *. subst r.
  set (st_in := put_ts cpu _ st2).
  assert (Hcpu : 0 <= cpu) by (unfold valid_cpu in Hv; lia).
  destruct (tick_nohz_stop_sched_tick_returns e (ktime_get e) cpu st_in Hcpu)
    as [[expires st_out] Hstop].
  assert (Hv_in : valid_cpu st_in cpu).
  { unfold st_in. now rewrite valid_cpu_put_ts_eq. }
  assert (Hv_out : valid_cpu st_out cpu).
  { apply (same_adaptive_valid st_in); [| exact Hv_in].
    exact (sa_tick_nohz_stop_sched_tick st_in e _ cpu st_in _ Hcpu
             (same_adaptive_refl _) Hstop). }
  rewrite Hstop.
  eexists expires, st_out, _. split; [reflexivity |]. split; [reflexivity |].
  split.
  - destruct (expires >? 0); destruct (negb _ && _); percpu;
      cbn [is_timer_program]; lia.
  - destruct (expires >? 0); percpu.
    + destruct (negb _ && _); percpu; reflexivity.
    + destruct (negb _ && _); percpu; reflexivity.
Qed.

(** C5 as the spec words it counts every pending soft interrupt as a
    reason to refuse.  On a CPU that is offline the test is skipped: with
    a soft interrupt pending, low resolution mode and no reschedule wanted,
    the answer is true. *)
Lemma can_stop_idle_tick_offline_softirq :
  local_softirq_pending offline_softirq_env <> 0
  /\ nohz_mode (get_ts sample_lowres_cpu 1) <> NOHZ_MODE_INACTIVE
  /\ need_resched offline_softirq_env = false
  /\ fst (can_stop_idle_tick offline_softirq_env 1 sample_lowres_cpu) = true.
Proof. vm_compute. repeat split; congruence. Qed.

Lemma can_stop_idle_tick_spec_witness :
  fst (can_stop_idle_tick idle_env 1 sample_timebase) = false
  /\ fst (can_stop_idle_tick idle_env 1
            (snd (tick_nohz_start_idle idle_env 1 sample_lowres_cpu))) = true.
Proof.
  destruct (can_stop_idle_tick_spec idle_env 1 sample_timebase) as (Hiff & _ & _).
  destruct (can_stop_idle_tick_spec idle_env 1 sample_lowres_cpu) as (_ & _ & Hgo).
  split.
  - apply Hiff. left. reflexivity.
  - apply Hgo.
    + vm_compute. intuition congruence.
    + vm_compute. congruence.
    + reflexivity.
    + left. reflexivity.
Defined.

(** ** DutyCoordinator: the retry loop *)

(** A pass that asks for another one has seen a remote operation. *)
Lemma interfere_length sched st : (length (fst (interfere sched st)) <= length sched)%nat.
Proof. destruct sched; cbn; lia. Qed.

Lemma check_drop_timer_duty_pass_shrinks e cpu sched st sched' st' :
  0 <= cpu ->
  check_drop_timer_duty_pass e cpu sched st = (PassRepeat, sched', st') ->
  (length sched' < length sched)%nat.
Proof.
  intros Hcpu.
  destruct sched as [| r1 rest].
  - (* nobody interferes: the pass returns *)
    rewrite check_drop_timer_duty_pass_quiet by assumption. discriminate.
  - (* the first remote operation is consumed, none comes back *)
    unfold check_drop_timer_duty_pass, update_do_timer_cpu.
    cbn [interfere length]. cbv beta iota.
    repeat first
      [ match goal with
        | |- context [interfere ?s ?x] =>
            let H := fresh "Hlen" in
            pose proof (interfere_length s x) as H;
            destruct (interfere s x); cbn [fst] in H; cbv beta iota
        end
      | match goal with
        | |- context [if ?b then _ else _] => destruct b; cbv beta iota
        end ];
      intros [= <- <-]; lia.
Qed.

(** Finitely many remote operations cannot keep the loop going: it
    returns. *)
Lemma check_drop_timer_duty_loop_returns e cpu fuel : forall sched nrepeat st,
  0 <= cpu -> (length sched < fuel)%nat ->
  exists r, check_drop_timer_duty_loop fuel e cpu nrepeat sched st = Some r.
Proof.
  induction fuel as [| fuel IH]; intros sched nrepeat st Hcpu Hlen; [lia |].
  cbn [check_drop_timer_duty_loop].
  set (st1 := if _ >? 1 then _ else st).
  destruct (check_drop_timer_duty_pass e cpu sched st1) as [[[h |] sched'] st'] eqn:Hp.
  - eauto.
  - apply check_drop_timer_duty_pass_shrinks in Hp; [| assumption].
    apply IH; [assumption | lia].
Qed.

Lemma check_drop_timer_duty_returns e cpu sched st :
  0 <= cpu -> exists r, check_drop_timer_duty e cpu sched st = Some r.
Proof.
  intros Hcpu. unfold check_drop_timer_duty, check_drop_timer_duty_counted.
  destruct (check_drop_timer_duty_loop_returns e cpu (S (length sched)) sched (-1) st)
    as [[[h n] st'] Hr]; [assumption | lia |].
  rewrite Hr. eauto.
Qed.

(** C3, on the code.  The protocol is meant to retry once; the source
    only warns when [nrepeat] exceeds 1 and jumps back all the same.  With
    CPU 1 changing its mind about adaptive mode as in [racing_schedule],
    CPU 0 goes through three passes: it returns with [nrepeat] at 2, the
    warning in the trace, and the duty taken. *)
Theorem check_drop_timer_duty_third_pass :
  exists st',
    check_drop_timer_duty_counted idle_env 0 racing_schedule sample_lowres_cpu
      = Some (0, 2, st')
    /\ events st' = [EvWarn WARN_nrepeat]
    /\ tick_do_timer_cpu st' = 0
    /\ nr_cpus_user_nohz st' = 1.
Proof. eexists. vm_compute. repeat split; reflexivity. Qed.

(** Left alone, or disturbed once, the loop stays within the one retry. *)
Lemma check_drop_timer_duty_one_retry :
  (forall e cpu st, 0 <= cpu ->
     exists h st', check_drop_timer_duty_counted e cpu [] st = Some (h, 0, st'))
  /\ exists st',
       check_drop_timer_duty_counted idle_env 0
         [RQuiet; RQuiet; RCanStopAdaptive 1 calm_env] sample_lowres_cpu
       = Some (0, 1, st') /\ events st' = [].
Proof.
  split.
  - intros e cpu st Hcpu. rewrite check_drop_timer_duty_counted_quiet by assumption.
    eauto.
  - eexists. vm_compute. split; reflexivity.
Qed.

(** ** IdleTickController: [tick_nohz_stop_sched_tick] and the duty *)

Lemma duty_step_quiet_per_cpu e c st c' :
  per_cpu (snd (duty_step_quiet e c st)) c' = per_cpu st c'.
Proof. unfold duty_step_quiet. split_tests; reflexivity. Qed.

Lemma duty_step_quiet_get_ts e c st c' :
  get_ts (snd (duty_step_quiet e c st)) c' = get_ts st c'.
Proof. unfold get_ts. now rewrite duty_step_quiet_per_cpu. Qed.

Lemma duty_step_quiet_events e c st : events (snd (duty_step_quiet e c st)) = events st.
Proof. unfold duty_step_quiet. split_tests; reflexivity. Qed.

Lemma duty_step_quiet_valid e c st c' :
  valid_cpu (snd (duty_step_quiet e c st)) c' = valid_cpu st c'.
Proof. unfold duty_step_quiet. split_tests; reflexivity. Qed.

Lemma duty_step_quiet_timebase e c st :
  jiffies_64 (snd (duty_step_quiet e c st)) = jiffies_64 st
  /\ last_jiffies_update (snd (duty_step_quiet e c st)) = last_jiffies_update st
  /\ tick_period (snd (duty_step_quiet e c st)) = tick_period st
  /\ nr_cpus_user_nohz (snd (duty_step_quiet e c st)) = nr_cpus_user_nohz st.
Proof. unfold duty_step_quiet. split_tests; auto. Qed.

#[local] Hint Rewrite duty_step_quiet_per_cpu duty_step_quiet_get_ts
  duty_step_quiet_events duty_step_quiet_valid : percpu.

Lemma timer_programs_events st st' : events st' = events st -> timer_programs st' = timer_programs st.
Proof. unfold timer_programs. now intros ->. Qed.

(** What the statements at [out] leave of the structure. *)
Lemma stop_sched_tick_out_ts c now nj lj ret st :
  valid_cpu st c ->
  get_ts (snd (stop_sched_tick_out c now nj lj ret st)) c
  = set_sleep_length (ktime_sub (next_event (per_cpu st c)) now)
      (set_last_jiffies lj (set_next_jiffies nj (get_ts st c))).
Proof. intros Hv. unfold stop_sched_tick_out. cbn [snd]. now percpu. Qed.

Lemma stop_sched_tick_out_next_event c now nj lj ret st :
  valid_cpu st c ->
  next_event (per_cpu (snd (stop_sched_tick_out c now nj lj ret st)) c)
  = next_event (per_cpu st c).
Proof.
  intros Hv. unfold stop_sched_tick_out, put_ts. cbn [snd]. now percpu.
Qed.

Lemma stop_sched_tick_out_events c now nj lj ret st :
  events (snd (stop_sched_tick_out c now nj lj ret st)) = events st.
Proof. unfold stop_sched_tick_out. cbn [snd]. now percpu. Qed.

(** A CPU that comes out of the duty step with the duty does not stop its
    tick in this call. *)
Lemma stop_sched_tick_with_duty e now cpu st st1 :
  valid_cpu st cpu ->
  check_drop_timer_duty e cpu [] st = Some (cpu, st1) ->
  exists st',
    tick_nohz_stop_sched_tick e [] now cpu st = Some (0, st')
    /\ timer_programs st' = timer_programs st
    /\ tick_stopped (get_ts st' cpu) = tick_stopped (get_ts st cpu)
    /\ sched_timer (get_ts st' cpu) = sched_timer (get_ts st cpu)
    /\ last_tick (get_ts st' cpu) = last_tick (get_ts st cpu)
    /\ next_event (per_cpu st' cpu) = next_event (per_cpu st cpu).
Proof.
  intros Hv Hduty.
  assert (Hcpu : 0 <= cpu) by (unfold valid_cpu in Hv; lia).
  unfold tick_nohz_stop_sched_tick. rewrite Hduty, Z.eqb_refl.
  rewrite check_drop_timer_duty_quiet in Hduty by assumption.
  assert (Hst1 : st1 = snd (duty_step_quiet e cpu st)).
  { injection Hduty as Hd. now rewrite Hd. }
  destruct (stop_sched_tick_jiffies e st) as [[lj nj] dj].
  assert (Hv1 : valid_cpu st1 cpu) by (subst st1; now percpu).
  assert (Hvr : valid_cpu (raise_softirq_irqoff cpu st) cpu) by exact Hv.
  destruct (negb _ && _); [| destruct (_ >=? _)].
  - exists (snd (stop_sched_tick_out cpu now nj lj 0 st)). split; [reflexivity |].
    rewrite stop_sched_tick_out_ts, stop_sched_tick_out_next_event by assumption.
    rewrite (timer_programs_events st) by apply stop_sched_tick_out_events. auto.
  - exists (snd (stop_sched_tick_out cpu now nj lj 0 st1)). split; [reflexivity |].
    rewrite stop_sched_tick_out_ts, stop_sched_tick_out_next_event by assumption.
    rewrite (timer_programs_events st)
      by (rewrite stop_sched_tick_out_events; subst st1; now percpu).
    subst st1. percpu. auto.
  - exists (snd (stop_sched_tick_out cpu now nj lj 0 (raise_softirq_irqoff cpu st))).
    split; [reflexivity |].
    rewrite stop_sched_tick_out_ts, stop_sched_tick_out_next_event by assumption.
    rewrite (timer_programs_events (raise_softirq_irqoff cpu st))
      by apply stop_sched_tick_out_events.
    unfold raise_softirq_irqoff. percpu. cbn [is_timer_program].
    repeat split; try reflexivity. lia.
Qed.

(** *** The structure across the timer primitives *)

Lemma tick_do_timer_cpu_set_per_cpu c pc st :
  tick_do_timer_cpu (set_per_cpu c pc st) = tick_do_timer_cpu st.
Proof. unfold set_per_cpu. now destruct (c <? 0). Qed.

Lemma tick_do_timer_cpu_put_ts c ts st :
  tick_do_timer_cpu (put_ts c ts st) = tick_do_timer_cpu st.
Proof. apply tick_do_timer_cpu_set_per_cpu. Qed.

Lemma jiffies_64_set_per_cpu c pc st : jiffies_64 (set_per_cpu c pc st) = jiffies_64 st.
Proof. unfold set_per_cpu. now destruct (c <? 0). Qed.

Lemma jiffies_64_put_ts c ts st : jiffies_64 (put_ts c ts st) = jiffies_64 st.
Proof. apply jiffies_64_set_per_cpu. Qed.

Lemma nr_set_per_cpu c pc st :
  nr_cpus_user_nohz (set_per_cpu c pc st) = nr_cpus_user_nohz st.
Proof. unfold set_per_cpu. now destruct (c <? 0). Qed.

Lemma nr_put_ts c ts st : nr_cpus_user_nohz (put_ts c ts st) = nr_cpus_user_nohz st.
Proof. apply nr_set_per_cpu. Qed.

Lemma tick_period_set_per_cpu c pc st : tick_period (set_per_cpu c pc st) = tick_period st.
Proof. unfold set_per_cpu. now destruct (c <? 0). Qed.

Lemma tick_period_put_ts c ts st : tick_period (put_ts c ts st) = tick_period st.
Proof. apply tick_period_set_per_cpu. Qed.

Lemma last_jiffies_update_set_per_cpu c pc st :
  last_jiffies_update (set_per_cpu c pc st) = last_jiffies_update st.
Proof. unfold set_per_cpu. now destruct (c <? 0). Qed.

Lemma last_jiffies_update_put_ts c ts st :
  last_jiffies_update (put_ts c ts st) = last_jiffies_update st.
Proof. apply last_jiffies_update_set_per_cpu. Qed.

Lemma tick_do_update_jiffies64_per_cpu now st c :
  per_cpu (tick_do_update_jiffies64 now st) c = per_cpu st c.
Proof. unfold tick_do_update_jiffies64. split_tests; reflexivity. Qed.

Lemma tick_do_update_jiffies64_get_ts now st c :
  get_ts (tick_do_update_jiffies64 now st) c = get_ts st c.
Proof. unfold get_ts. now rewrite tick_do_update_jiffies64_per_cpu. Qed.

Lemma tick_do_update_jiffies64_valid now st c :
  valid_cpu (tick_do_update_jiffies64 now st) c = valid_cpu st c.
Proof. unfold tick_do_update_jiffies64. split_tests; reflexivity. Qed.

Lemma tick_do_update_jiffies64_duty now st :
  tick_do_timer_cpu (tick_do_update_jiffies64 now st) = tick_do_timer_cpu st.
Proof. unfold tick_do_update_jiffies64. split_tests; reflexivity. Qed.

Lemma tick_do_update_jiffies64_timer_programs now st :
  timer_programs (tick_do_update_jiffies64 now st) = timer_programs st.
Proof.
  unfold tick_do_update_jiffies64.
  destruct (_ <? _); [reflexivity |]. destruct (_ >=? _); [| reflexivity].
  destruct (_ >=? _); cbn iota beta; unfold do_timer;
    change (timer_programs (set_tick_next_period ?v ?s)) with (timer_programs s);
    rewrite timer_programs_emit; cbn [is_timer_program]; rewrite Nat.add_0_r; reflexivity.
Qed.

Lemma hrtimer_start_get_ts c expires armed st :
  valid_cpu st c ->
  get_ts (hrtimer_start c expires armed st) c
  = set_sched_timer {| hrt_expires := expires; hrt_active := armed |} (get_ts st c).
Proof. intros Hv. unfold hrtimer_start. now percpu. Qed.

Lemma hrtimer_start_valid c expires armed st c' :
  valid_cpu (hrtimer_start c expires armed st) c' = valid_cpu st c'.
Proof. unfold hrtimer_start. now percpu. Qed.

Lemma hrtimer_start_duty c expires armed st :
  tick_do_timer_cpu (hrtimer_start c expires armed st) = tick_do_timer_cpu st.
Proof. unfold hrtimer_start. cbn. apply tick_do_timer_cpu_set_per_cpu. Qed.

Lemma hrtimer_cancel_get_ts c st :
  valid_cpu st c ->
  get_ts (hrtimer_cancel c st) c
  = set_sched_timer {| hrt_expires := hrt_expires (sched_timer (get_ts st c));
                       hrt_active := false |} (get_ts st c).
Proof. intros Hv. unfold hrtimer_cancel. now percpu. Qed.

Lemma hrtimer_cancel_valid c st c' : valid_cpu (hrtimer_cancel c st) c' = valid_cpu st c'.
Proof. unfold hrtimer_cancel. now percpu. Qed.

Lemma hrtimer_cancel_duty c st :
  tick_do_timer_cpu (hrtimer_cancel c st) = tick_do_timer_cpu st.
Proof. unfold hrtimer_cancel. cbn. apply tick_do_timer_cpu_set_per_cpu. Qed.

Lemma tick_program_event_get_ts c expires armed st :
  valid_cpu st c ->
  get_ts (snd (tick_program_event c expires armed st)) c = get_ts st c.
Proof. intros Hv. unfold tick_program_event. cbn [snd]. now percpu. Qed.

Lemma tick_program_event_valid c expires armed st c' :
  valid_cpu (snd (tick_program_event c expires armed st)) c' = valid_cpu st c'.
Proof. unfold tick_program_event. cbn [snd]. now percpu. Qed.

Lemma tick_program_event_duty c expires armed st :
  tick_do_timer_cpu (snd (tick_program_event c expires armed st)) = tick_do_timer_cpu st.
Proof. unfold tick_program_event. cbn. apply tick_do_timer_cpu_set_per_cpu. Qed.

Lemma tick_do_timer_cpu_emit ev st : tick_do_timer_cpu (emit ev st) = tick_do_timer_cpu st.
Proof. reflexivity. Qed.

Lemma jiffies_64_emit ev st : jiffies_64 (emit ev st) = jiffies_64 st.
Proof. reflexivity. Qed.

Lemma nr_emit ev st : nr_cpus_user_nohz (emit ev st) = nr_cpus_user_nohz st.
Proof. reflexivity. Qed.

Lemma timer_programs_set_nr v st :
  timer_programs (set_nr_cpus_user_nohz v st) = timer_programs st.
Proof. reflexivity. Qed.

Lemma timer_programs_set_duty v st :
  timer_programs (set_tick_do_timer_cpu v st) = timer_programs st.
Proof. reflexivity. Qed.

Lemma jiffies_64_set_nr v st : jiffies_64 (set_nr_cpus_user_nohz v st) = jiffies_64 st.
Proof. reflexivity. Qed.

Lemma events_set_nr v st : events (set_nr_cpus_user_nohz v st) = events st.
Proof. reflexivity. Qed.

#[local] Hint Rewrite tick_do_timer_cpu_emit jiffies_64_emit nr_emit
  timer_programs_set_nr timer_programs_set_duty jiffies_64_set_nr events_set_nr : percpu.

#[local] Hint Rewrite tick_do_timer_cpu_set_per_cpu tick_do_timer_cpu_put_ts
  jiffies_64_set_per_cpu jiffies_64_put_ts nr_set_per_cpu nr_put_ts
  tick_period_set_per_cpu tick_period_put_ts
  last_jiffies_update_set_per_cpu last_jiffies_update_put_ts
  tick_do_update_jiffies64_per_cpu tick_do_update_jiffies64_get_ts
  tick_do_update_jiffies64_valid tick_do_update_jiffies64_duty
  tick_do_update_jiffies64_timer_programs
  hrtimer_start_valid hrtimer_start_duty hrtimer_cancel_valid hrtimer_cancel_duty
  tick_program_event_valid tick_program_event_duty : percpu.

#[local] Hint Rewrite hrtimer_start_get_ts hrtimer_cancel_get_ts tick_program_event_get_ts
  using (autorewrite with percpu; assumption) : percpu.

(** ** IdleTickController: the unchanged expiry *)

Lemma set_do_timer_last_same b ts : do_timer_last ts = b -> set_do_timer_last b ts = ts.
Proof. destruct ts. cbn. now intros ->. Qed.

Lemma stop_sched_tick_limit_events e c prev new st :
  events (snd (stop_sched_tick_limit e c prev new st)) = events st.
Proof. unfold stop_sched_tick_limit. split_tests; cbn [snd]; now percpu. Qed.

Lemma stop_sched_tick_limit_valid e c prev new st c' :
  valid_cpu (snd (stop_sched_tick_limit e c prev new st)) c' = valid_cpu st c'.
Proof. unfold stop_sched_tick_limit. split_tests; cbn [snd]; now percpu. Qed.

Lemma stop_sched_tick_limit_timebase e c prev new st :
  jiffies_64 (snd (stop_sched_tick_limit e c prev new st)) = jiffies_64 st
  /\ last_jiffies_update (snd (stop_sched_tick_limit e c prev new st)) = last_jiffies_update st
  /\ tick_period (snd (stop_sched_tick_limit e c prev new st)) = tick_period st.
Proof. unfold stop_sched_tick_limit. split_tests; cbn [snd]; now percpu. Qed.

Lemma stop_sched_tick_limit_tick_stopped e c prev new st :
  valid_cpu st c ->
  tick_stopped (get_ts (snd (stop_sched_tick_limit e c prev new st)) c)
  = tick_stopped (get_ts st c).
Proof. intros Hv. unfold stop_sched_tick_limit. split_tests; cbn [snd]; now percpu. Qed.

Lemma stop_sched_tick_limit_next_event e c prev new st :
  valid_cpu st c ->
  next_event (per_cpu (snd (stop_sched_tick_limit e c prev new st)) c)
  = next_event (per_cpu st c).
Proof. intros Hv. unfold stop_sched_tick_limit. split_tests; cbn [snd]; now percpu. Qed.

Lemma stop_sched_tick_out_twice c now nj lj r r' st :
  valid_cpu st c ->
  snd (stop_sched_tick_out c now nj lj r (snd (stop_sched_tick_out c now nj lj r' st)))
  = snd (stop_sched_tick_out c now nj lj r' st).
Proof.
  intros Hv. unfold stop_sched_tick_out. cbn [snd]. percpu.
  rewrite put_ts_twice. reflexivity.
Qed.

Lemma stop_sched_tick_out_timebase c now nj lj r st :
  jiffies_64 (snd (stop_sched_tick_out c now nj lj r st)) = jiffies_64 st
  /\ last_jiffies_update (snd (stop_sched_tick_out c now nj lj r st)) = last_jiffies_update st
  /\ tick_period (snd (stop_sched_tick_out c now nj lj r st)) = tick_period st
  /\ tick_do_timer_cpu (snd (stop_sched_tick_out c now nj lj r st)) = tick_do_timer_cpu st
  /\ nr_cpus_user_nohz (snd (stop_sched_tick_out c now nj lj r st)) = nr_cpus_user_nohz st.
Proof. unfold stop_sched_tick_out. cbn [snd]. now percpu. Qed.

Lemma stop_sched_tick_out_valid c now nj lj r st c' :
  valid_cpu (snd (stop_sched_tick_out c now nj lj r st)) c' = valid_cpu st c'.
Proof. unfold stop_sched_tick_out. cbn [snd]. now percpu. Qed.

Lemma stop_sched_tick_out_other c now nj lj r st c' :
  c <> c' -> get_ts (snd (stop_sched_tick_out c now nj lj r st)) c' = get_ts st c'.
Proof. intros Hne. unfold stop_sched_tick_out. cbn [snd]. now apply get_ts_put_ts_ne. Qed.

Lemma stop_sched_tick_jiffies_ext e st st' :
  jiffies_64 st' = jiffies_64 st ->
  stop_sched_tick_jiffies e st' = stop_sched_tick_jiffies e st.
Proof. unfold stop_sched_tick_jiffies, jiffies. now intros ->. Qed.

(** Once the duty step has left the duty with somebody else, running it
    again on the state it produced (whatever [out] recorded meanwhile)
    finds the same limit and changes nothing. *)
Lemma stop_sched_tick_duty_stable e cpu st h td st2 now nj lj r :
  valid_cpu st cpu ->
  stop_sched_tick_duty e cpu st = (h, td, st2) ->
  h <> cpu ->
  let st3 := snd (stop_sched_tick_out cpu now nj lj r st2) in
  exists h', h' <> cpu /\ stop_sched_tick_duty e cpu st3 = (h', td, st3).
Proof.
  intros Hv HD Hh. cbn zeta.
  assert (Hcpu : 0 <= cpu) by (unfold valid_cpu in Hv; lia).
  set (st3 := snd (stop_sched_tick_out cpu now nj lj r st2)).
  destruct (stop_sched_tick_out_timebase cpu now nj lj r st2) as (_ & _ & _ & Hd3 & Hn3).
  fold st3 in Hd3, Hn3.
  unfold stop_sched_tick_duty, duty_step_quiet in HD.
  unfold stop_sched_tick_duty, duty_step_quiet. rewrite Hd3, Hn3.
  destruct (Z.gtb_spec (nr_cpus_user_nohz st) 0) as [Hnr | Hnr].
  - (* adaptive CPUs around *)
    destruct (Z.eqb_spec (tick_do_timer_cpu st) cpu) as [Hd | Hd].
    { cbn in HD. destruct (stop_sched_tick_limit _ _ _ _ _). congruence. }
    destruct (Z.eqb_spec (tick_do_timer_cpu st) TICK_DO_TIMER_NONE) as [Hnone | Hnone];
      cbn [orb] in HD.
    { destruct (stop_sched_tick_limit _ _ _ _ _). congruence. }
    destruct (user_nohz (get_ts st (tick_do_timer_cpu st))
              && (is_idle_task e || negb (cpuset_cpu_adaptive_nohz e))) eqn:Htake.
    { destruct (stop_sched_tick_limit _ _ _ _ _). congruence. }
    unfold stop_sched_tick_limit in HD.
    destruct (Z.eqb_spec (tick_do_timer_cpu st) cpu); [contradiction |].
    destruct (Z.eqb_spec (tick_do_timer_cpu st) TICK_DO_TIMER_NONE); [contradiction |].
    cbn [negb] in HD. injection HD as <- <- <-.
    assert (Hv2 : valid_cpu (put_ts cpu (set_do_timer_last false (get_ts st cpu)) st) cpu)
      by now percpu.
    assert (Hts3 : get_ts st3 (tick_do_timer_cpu st) = get_ts st (tick_do_timer_cpu st)).
    { unfold st3. rewrite stop_sched_tick_out_other by congruence.
      apply get_ts_put_ts_ne. congruence. }
    exists (tick_do_timer_cpu st). split; [assumption |].
    percpu.
    destruct (Z.gtb_spec (nr_cpus_user_nohz st) 0); [| lia].
    destruct (Z.eqb_spec (tick_do_timer_cpu st) cpu); [contradiction |].
    destruct (Z.eqb_spec (tick_do_timer_cpu st) TICK_DO_TIMER_NONE); [contradiction |].
    cbn [orb]. rewrite Hts3, Htake.
    unfold stop_sched_tick_limit.
    destruct (Z.eqb_spec (tick_do_timer_cpu st) cpu); [contradiction |].
    destruct (Z.eqb_spec (tick_do_timer_cpu st) TICK_DO_TIMER_NONE); [contradiction |].
    cbn [negb]. f_equal.
    rewrite set_do_timer_last_same; [apply put_ts_same |].
    unfold st3. rewrite stop_sched_tick_out_ts by assumption. percpu. reflexivity.
  - (* no adaptive CPU *)
    destruct (Z.eqb_spec (tick_do_timer_cpu st) cpu) as [Hd | Hd].
    + (* the duty is dropped *)
      unfold stop_sched_tick_limit in HD. rewrite Hd, Z.eqb_refl in HD.
      injection HD as <- <- <-.
      set (st1 := set_tick_do_timer_cpu TICK_DO_TIMER_NONE st) in *.
      assert (Hv1 : valid_cpu st1 cpu) by exact Hv.
      assert (Hv2 : valid_cpu (put_ts cpu (set_do_timer_last true (get_ts st1 cpu)) st1) cpu)
        by now percpu.
      exists TICK_DO_TIMER_NONE. split; [assumption |].
      percpu. change (nr_cpus_user_nohz st1) with (nr_cpus_user_nohz st).
      change (tick_do_timer_cpu st1) with TICK_DO_TIMER_NONE.
      destruct (Z.gtb_spec (nr_cpus_user_nohz st) 0); [lia |].
      destruct (Z.eqb_spec TICK_DO_TIMER_NONE cpu); [congruence |].
      unfold stop_sched_tick_limit.
      destruct (Z.eqb_spec TICK_DO_TIMER_NONE cpu); [congruence |].
      rewrite Z.eqb_refl. cbn [negb].
      assert (Hl : do_timer_last (get_ts st3 cpu) = true).
      { unfold st3. rewrite stop_sched_tick_out_ts by assumption. percpu. reflexivity. }
      rewrite Hl. reflexivity.
    + (* somebody else, or nobody, has it *)
      unfold stop_sched_tick_limit in HD.
      destruct (Z.eqb_spec (tick_do_timer_cpu st) cpu); [contradiction |].
      exists (tick_do_timer_cpu st). split; [assumption |].
      destruct (Z.gtb_spec (nr_cpus_user_nohz st2) 0) as [Hnr2 | Hnr2].
      { exfalso. revert Hnr2.
        destruct (negb _); [| destruct (negb _)]; injection HD as <- <- <-;
          percpu; lia. }
      assert (Hd2 : tick_do_timer_cpu st2 = tick_do_timer_cpu st).
      { destruct (negb _); [| destruct (negb _)]; injection HD as <- <- <-;
          now percpu. }
      rewrite Hd2.
      destruct (Z.eqb_spec (tick_do_timer_cpu st) cpu); [contradiction |].
      unfold stop_sched_tick_limit.
      destruct (Z.eqb_spec (tick_do_timer_cpu st) cpu); [contradiction |].
      destruct (Z.eqb_spec (tick_do_timer_cpu st) TICK_DO_TIMER_NONE) as [Hnone | Hnone];
        cbn [negb] in HD |- *.
      * assert (Hl : do_timer_last (get_ts st3 cpu) = do_timer_last (get_ts st cpu)).
        { unfold st3. destruct (negb _); injection HD as <- <- <-;
            rewrite stop_sched_tick_out_ts by assumption; reflexivity. }
        rewrite Hl. destruct (negb _); injection HD as <- <- <-; reflexivity.
      * injection HD as <- <- <-.
        assert (Hv2 : valid_cpu (put_ts cpu (set_do_timer_last false (get_ts st cpu)) st) cpu)
          by now percpu.
        f_equal.
        rewrite set_do_timer_last_same; [apply put_ts_same |].
        unfold st3. rewrite stop_sched_tick_out_ts by assumption. percpu. reflexivity.
Qed.

Lemma stop_sched_tick_duty_facts e cpu st h td st2 :
  valid_cpu st cpu ->
  stop_sched_tick_duty e cpu st = (h, td, st2) ->
  valid_cpu st2 cpu
  /\ events st2 = events st
  /\ jiffies_64 st2 = jiffies_64 st
  /\ last_jiffies_update st2 = last_jiffies_update st
  /\ tick_period st2 = tick_period st
  /\ tick_stopped (get_ts st2 cpu) = tick_stopped (get_ts st cpu)
  /\ next_event (per_cpu st2 cpu) = next_event (per_cpu st cpu).
Proof.
  intros Hv HD. unfold stop_sched_tick_duty in HD.
  pose proof (duty_step_quiet_timebase e cpu st) as (Hj & Hl & Hp & _).
  pose proof (duty_step_quiet_events e cpu st) as Hev.
  pose proof (duty_step_quiet_valid e cpu st cpu) as Hval.
  pose proof (duty_step_quiet_per_cpu e cpu st cpu) as Hpc.
  pose proof (duty_step_quiet_get_ts e cpu st cpu) as Hts.
  destruct (duty_step_quiet e cpu st) as [h1 st1]. cbn [snd] in *.
  assert (Hv1 : valid_cpu st1 cpu) by now rewrite Hval.
  pose proof (stop_sched_tick_limit_timebase e cpu (tick_do_timer_cpu st) h1 st1)
    as (Hj2 & Hl2 & Hp2).
  pose proof (stop_sched_tick_limit_events e cpu (tick_do_timer_cpu st) h1 st1) as Hev2.
  pose proof (stop_sched_tick_limit_valid e cpu (tick_do_timer_cpu st) h1 st1 cpu) as Hval2.
  pose proof (stop_sched_tick_limit_tick_stopped e cpu (tick_do_timer_cpu st) h1 st1 Hv1)
    as Hts2.
  pose proof (stop_sched_tick_limit_next_event e cpu (tick_do_timer_cpu st) h1 st1 Hv1)
    as Hne2.
  destruct (stop_sched_tick_limit e cpu (tick_do_timer_cpu st) h1 st1) as [td1 st2'].
  cbn [snd] in *. injection HD as <- <- <-.
  rewrite Hval2, Hev2, Hj2, Hl2, Hp2, Hts2, Hne2. rewrite <- Hts, <- Hpc. auto 10.
Qed.

(** The skip of the reprogramming: the tick is stopped and the expiry
    computed is the one that is armed. *)
Lemma stop_sched_tick_skip e now cpu st h td st2 :
  valid_cpu st cpu ->
  tick_stopped (get_ts st cpu) = true ->
  stop_sched_tick_duty e cpu st = (h, td, st2) ->
  h <> cpu ->
  1 <= as_long (snd (stop_sched_tick_jiffies e st)) ->
  stop_sched_tick_expires (last_jiffies_update st) (tick_period st) td
    (snd (stop_sched_tick_jiffies e st)) = next_event (per_cpu st cpu) ->
  tick_nohz_stop_sched_tick e [] now cpu st
  = Some (stop_sched_tick_out cpu now (snd (fst (stop_sched_tick_jiffies e st)))
            (fst (fst (stop_sched_tick_jiffies e st))) 0 st2).
Proof.
  intros Hv Hstop HD Hh Hdj Hexp.
  assert (Hcpu : 0 <= cpu) by (unfold valid_cpu in Hv; lia).
  destruct (stop_sched_tick_duty_facts e cpu st h td st2 Hv HD)
    as (Hv2 & _ & _ & _ & Hp2 & Hts2 & Hne2).
  unfold tick_nohz_stop_sched_tick.
  rewrite check_drop_timer_duty_quiet by assumption.
  unfold stop_sched_tick_duty in HD.
  destruct (stop_sched_tick_jiffies e st) as [[lj nj] dj]. cbn [fst snd] in *.
  rewrite Hstop. cbn [negb andb].
  destruct (Z.geb_spec (as_long dj) 1); [| lia].
  destruct (duty_step_quiet e cpu st) as [h1 st1].
  destruct (stop_sched_tick_limit e cpu (tick_do_timer_cpu st) h1 st1) as [td1 st2'].
  injection HD as -> -> ->.
  destruct (Z.eqb_spec h cpu); [contradiction |].
  rewrite Hts2, Hstop, Hp2, Hexp, Hne2. unfold ktime_equal. rewrite Z.eqb_refl.
  reflexivity.
Qed.

Lemma stop_sched_tick_computed_some e cpu st x :
  valid_cpu st cpu ->
  tick_stopped (get_ts st cpu) = true ->
  stop_sched_tick_computed e cpu st = Some x ->
  exists h td st2,
    stop_sched_tick_duty e cpu st = (h, td, st2)
    /\ h <> cpu
    /\ 1 <= as_long (snd (stop_sched_tick_jiffies e st))
    /\ x = stop_sched_tick_expires (last_jiffies_update st) (tick_period st) td
             (snd (stop_sched_tick_jiffies e st)).
Proof.
  intros Hv Hstop Hc.
  assert (Hcpu : 0 <= cpu) by (unfold valid_cpu in Hv; lia).
  unfold stop_sched_tick_computed in Hc.
  rewrite check_drop_timer_duty_quiet in Hc by assumption.
  destruct (stop_sched_tick_duty e cpu st) as [[h td] st2] eqn:HD.
  destruct (stop_sched_tick_duty_facts e cpu st h td st2 Hv HD)
    as (_ & _ & _ & _ & Hp2 & _ & _).
  unfold stop_sched_tick_duty in HD.
  destruct (stop_sched_tick_jiffies e st) as [[lj nj] dj]. cbn [fst snd] in *.
  rewrite Hstop in Hc. cbn [negb andb] in Hc.
  destruct (Z.geb_spec (as_long dj) 1); [| discriminate].
  destruct (duty_step_quiet e cpu st) as [h1 st1].
  destruct (stop_sched_tick_limit e cpu (tick_do_timer_cpu st) h1 st1) as [td1 st2'].
  injection HD as -> -> ->.
  destruct (Z.eqb_spec h cpu); [discriminate |].
  injection Hc as <-. rewrite Hp2. eauto 10.
Qed.

(** One call programs the hardware at most once. *)
Lemma tick_nohz_stop_sched_tick_programs_once e now cpu st r st' :
  0 <= cpu ->
  tick_nohz_stop_sched_tick e [] now cpu st = Some (r, st') ->
  (timer_programs st' <= timer_programs st + 1)%nat.
Proof.
  intros Hcpu. unfold tick_nohz_stop_sched_tick.
  rewrite check_drop_timer_duty_quiet by assumption.
  destruct (stop_sched_tick_jiffies e st) as [[lj nj] dj].
  pose proof (duty_step_quiet_events e cpu st) as Hev1.
  destruct (duty_step_quiet e cpu st) as [h st1]. cbn [snd] in Hev1.
  pose proof (stop_sched_tick_limit_events e cpu (tick_do_timer_cpu st) h st1) as Hev2.
  destruct (stop_sched_tick_limit e cpu (tick_do_timer_cpu st) h st1) as [td st2].
  cbn [snd] in Hev2.
  assert (H1 : timer_programs st1 = timer_programs st) by now apply timer_programs_events.
  assert (H2 : timer_programs st2 = timer_programs st)
    by (rewrite <- H1; now apply timer_programs_events).
  unfold stop_sched_tick_out, tick_program_event, hrtimer_start, hrtimer_cancel,
    raise_softirq_irqoff.
  split_tests; intros [= <- <-]; percpu; cbn [is_timer_program]; lia.
Qed.

Lemma stop_sched_tick_limit_ts e c prev new st :
  valid_cpu st c ->
  let st2 := snd (stop_sched_tick_limit e c prev new st) in
  get_ts st2 c = set_do_timer_last (do_timer_last (get_ts st2 c)) (get_ts st c).
Proof.
  intros Hv. cbn zeta. unfold stop_sched_tick_limit.
  split_tests; cbn [snd]; percpu; fields;
    solve [reflexivity | symmetry; now apply set_do_timer_last_same].
Qed.

Lemma stop_sched_tick_out_pair c now nj lj st :
  stop_sched_tick_out c now nj lj 0 st = (0, snd (stop_sched_tick_out c now nj lj 0 st)).
Proof. reflexivity. Qed.

(** C6, as the code has it.  With the tick stopped and the newly computed
    expiry equal to the one armed on the device,
    [tick_nohz_stop_sched_tick] returns 0 and programs nothing: the trace,
    the armed expiry and the structure stay as they are, apart from the
    snapshot that every call takes at [out] (next_jiffies, last_jiffies,
    sleep_length) and [do_timer_last]; these receive the values they
    already hold when the call is repeated with the same inputs, so that a
    second call on the resulting state returns that very state.  A call
    programs the timer at most once, so two calls of which the second meets
    the condition program it at most once. *)
Theorem stop_tick_idempotent (e : env) (now : ktime_t) (cpu : Z) (st : kstate) :
  valid_cpu st cpu ->
  tick_stopped (get_ts st cpu) = true ->
  stop_sched_tick_computed e cpu st = Some (next_event (per_cpu st cpu)) ->
  exists st1,
    tick_nohz_stop_sched_tick e [] now cpu st = Some (0, st1)
    /\ events st1 = events st
    /\ timer_programs st1 = timer_programs st
    /\ next_event (per_cpu st1 cpu) = next_event (per_cpu st cpu)
    /\ get_ts st1 cpu
       = set_sleep_length (sleep_length (get_ts st1 cpu))
           (set_last_jiffies (last_jiffies (get_ts st1 cpu))
              (set_next_jiffies (next_jiffies (get_ts st1 cpu))
                 (set_do_timer_last (do_timer_last (get_ts st1 cpu)) (get_ts st cpu))))
    /\ tick_nohz_stop_sched_tick e [] now cpu st1 = Some (0, st1)
    /\ (forall e0 now0 st0 r0,
          tick_nohz_stop_sched_tick e0 [] now0 cpu st0 = Some (r0, st) ->
          (timer_programs st1 <= timer_programs st0 + 1)%nat).
Proof.
  intros Hv Hstop Hc.
  assert (Hcpu : 0 <= cpu) by (unfold valid_cpu in Hv; lia).
  destruct (stop_sched_tick_computed_some e cpu st _ Hv Hstop Hc)
    as (h & td & st2 & HD & Hh & Hdj & Hx).
  destruct (stop_sched_tick_duty_facts e cpu st h td st2 Hv HD)
    as (Hv2 & Hev2 & Hj2 & Hl2 & Hp2 & Hts2 & Hne2).
  pose proof (stop_sched_tick_skip e now cpu st h td st2 Hv Hstop HD Hh Hdj (eq_sym Hx))
    as Hcall.
  set (lj := fst (fst (stop_sched_tick_jiffies e st))) in *.
  set (nj := snd (fst (stop_sched_tick_jiffies e st))) in *.
  set (st1 := snd (stop_sched_tick_out cpu now nj lj 0 st2)).
  assert (Hev1 : events st1 = events st).
  { unfold st1. now rewrite stop_sched_tick_out_events. }
  assert (Hne1 : next_event (per_cpu st1 cpu) = next_event (per_cpu st cpu)).
  { unfold st1. now rewrite stop_sched_tick_out_next_event. }
  assert (Hts1 : get_ts st1 cpu
                 = set_sleep_length (ktime_sub (next_event (per_cpu st2 cpu)) now)
                     (set_last_jiffies lj (set_next_jiffies nj (get_ts st2 cpu)))).
  { unfold st1. now rewrite stop_sched_tick_out_ts. }
  exists st1. split; [exact Hcall |]. split; [exact Hev1 |].
  split; [now apply timer_programs_events |]. split; [exact Hne1 |].
  split; [| split].
  - rewrite Hts1. fields.
    assert (Hlim : get_ts st2 cpu
                   = set_do_timer_last (do_timer_last (get_ts st2 cpu)) (get_ts st cpu)).
    { unfold stop_sched_tick_duty in HD.
      pose proof (duty_step_quiet_get_ts e cpu st cpu) as Hg.
      pose proof (duty_step_quiet_valid e cpu st cpu) as Hval.
      destruct (duty_step_quiet e cpu st) as [h1 s1]. cbn [snd] in *.
      assert (Hv1 : valid_cpu s1 cpu) by now rewrite Hval.
      pose proof (stop_sched_tick_limit_ts e cpu (tick_do_timer_cpu st) h1 s1 Hv1) as Hl.
      cbn zeta in Hl.
      destruct (stop_sched_tick_limit e cpu (tick_do_timer_cpu st) h1 s1) as [td1 s2].
      cbn [snd] in Hl. injection HD as <- <- <-. now rewrite <- Hg. }
    rewrite Hlim at 1. reflexivity.
  - (* the second call *)
    destruct (stop_sched_tick_duty_stable e cpu st h td st2 now nj lj 0 Hv HD Hh)
      as (h' & Hh' & HD'). fold st1 in HD'.
    destruct (stop_sched_tick_out_timebase cpu now nj lj 0 st2) as (Hj & Hl & Hp & _ & _).
    fold st1 in Hj, Hl, Hp.
    assert (Hjif : stop_sched_tick_jiffies e st1 = stop_sched_tick_jiffies e st).
    { apply stop_sched_tick_jiffies_ext. congruence. }
    assert (Hv1 : valid_cpu st1 cpu).
    { unfold st1. now rewrite stop_sched_tick_out_valid. }
    rewrite (stop_sched_tick_skip e now cpu st1 h' td st1); try assumption.
    + rewrite Hjif. fold lj nj. rewrite stop_sched_tick_out_pair. unfold st1.
      now rewrite stop_sched_tick_out_twice.
    + rewrite Hts1. fields. congruence.
    + now rewrite Hjif.
    + rewrite Hjif, Hne1, Hl, Hp, Hl2, Hp2. now symmetry.
  - intros e0 now0 st0 r0 Hfirst.
    rewrite (timer_programs_events st st1) by assumption.
    now apply (tick_nohz_stop_sched_tick_programs_once e0 now0 cpu st0 r0 st).
Qed.

Lemma stop_tick_idempotent_witness :
  exists st1,
    tick_nohz_stop_sched_tick idle_env [] 100300000 0 armed_scenario = Some (0, st1)
    /\ timer_programs st1 = 1%nat
    /\ tick_nohz_stop_sched_tick idle_env [] 100300000 0 st1 = Some (0, st1).
Proof.
  destruct (stop_tick_idempotent idle_env 100300000 0 armed_scenario)
    as (st1 & Hcall & _ & Hprog & _ & _ & Hagain & _).
  - vm_compute. intuition congruence.
  - reflexivity.
  - vm_compute. reflexivity.
  - exists st1. split; [exact Hcall |]. split; [| exact Hagain].
    rewrite Hprog. reflexivity.
Defined.

(** The second call is not silent on the per-CPU structure.  CPU 0 of
    [idle_scenario] stops its tick at 100.2 ms, which leaves
    [armed_scenario]: the tick stopped and the device armed at 150 ms.  The
    call repeated at 100.3 ms, with nothing changed in between, computes
    that same expiry, returns 0 and programs nothing, and still stores a
    new [sleep_length]: 49.7 ms where the structure held 49.8 ms. *)
Lemma stop_tick_second_call_writes_sleep_length :
  valid_cpu armed_scenario 0
  /\ tick_stopped (get_ts armed_scenario 0) = true
  /\ stop_sched_tick_computed idle_env 0 armed_scenario
     = Some (next_event (per_cpu armed_scenario 0))
  /\ exists st1,
       tick_nohz_stop_sched_tick idle_env [] 100300000 0 armed_scenario = Some (0, st1)
       /\ timer_programs st1 = timer_programs armed_scenario
       /\ sleep_length (get_ts armed_scenario 0) = 49800000
       /\ sleep_length (get_ts st1 0) = 49700000
       /\ get_ts st1 0 <> get_ts armed_scenario 0.
Proof.
  split; [vm_compute; intuition congruence |].
  split; [reflexivity |]. split; [vm_compute; reflexivity |].
  eexists. split; [vm_compute; reflexivity |].
  split; [reflexivity |]. split; [reflexivity |]. split; [reflexivity |].
  intros H. apply (f_equal sleep_length) in H. vm_compute in H. discriminate H.
Qed.

(** ** AdaptiveBusyController: [tick_nohz_cpuset_stop_tick] *)

Lemma can_stop_adaptive_tick_valid e c st c' :
  valid_cpu (snd (can_stop_adaptive_tick e c st)) c' = valid_cpu st c'.
Proof. unfold can_stop_adaptive_tick. split_tests; cbn [snd]; now percpu. Qed.

Lemma can_stop_adaptive_tick_ts e c st :
  valid_cpu st c ->
  let st' := snd (can_stop_adaptive_tick e c st) in
  get_ts st' c = set_user_nohz (user_nohz (get_ts st' c)) (get_ts st c).
Proof.
  intros Hv. cbn zeta. unfold can_stop_adaptive_tick.
  assert (Hid : get_ts st c = set_user_nohz (user_nohz (get_ts st c)) (get_ts st c))
    by now destruct (get_ts st c).
  split_tests; cbn [snd]; percpu; fields; solve [reflexivity | exact Hid].
Qed.

Lemma can_stop_adaptive_tick_percpu e c st :
  valid_cpu st c ->
  let st' := snd (can_stop_adaptive_tick e c st) in
  next_event (per_cpu st' c) = next_event (per_cpu st c)
  /\ nohz_task_ext_qs (per_cpu st' c) = nohz_task_ext_qs (per_cpu st c)
  /\ tif_nohz (per_cpu st' c) = tif_nohz (per_cpu st c)
  /\ timer_programs st' = timer_programs st
  /\ jiffies_64 st' = jiffies_64 st.
Proof.
  intros Hv. cbn zeta. unfold can_stop_adaptive_tick, atomic_dec_nr_cpus_user_nohz,
    atomic_inc_nr_cpus_user_nohz.
  split_tests; cbn [snd]; percpu; cbn [is_timer_program];
    rewrite ?Nat.add_0_r; auto 10.
Qed.

Lemma set_user_nohz_same ts : ts = set_user_nohz (user_nohz ts) ts.
Proof. now destruct ts. Qed.

(** C7, as the code has it.  [tick_nohz_cpuset_stop_tick] returns, and
    it stops the tick only when the interrupted context is user mode or the
    current task is a kernel thread without an address space.  On a first
    stop it tags the reason USER (user mode) or SYS (kernel thread), takes
    the snapshot of jiffies and sets TIF_NOHZ.  In any other context it
    stops nothing: [tick_stopped], the saved reason and snapshot, the timer,
    the armed expiry and TIF_NOHZ are unchanged.  The eligibility check
    runs before the context test, so the call may still have marked the CPU
    adaptive and counted it: the state is the one on entry or the one
    [can_stop_adaptive_tick] leaves. *)
Theorem tick_nohz_cpuset_stop_tick_spec (e : env) (cpu : Z) (st : kstate) :
  valid_cpu st cpu ->
  exists st',
    tick_nohz_cpuset_stop_tick e [] cpu st = Some st'
    /\ (interrupted_user e = false -> current_mm e = true ->
        (st' = st \/ st' = snd (can_stop_adaptive_tick e cpu st))
        /\ get_ts st' cpu = set_user_nohz (user_nohz (get_ts st' cpu)) (get_ts st cpu)
        /\ next_event (per_cpu st' cpu) = next_event (per_cpu st cpu)
        /\ tif_nohz (per_cpu st' cpu) = tif_nohz (per_cpu st cpu)
        /\ timer_programs st' = timer_programs st)
    /\ (tick_stopped (get_ts st cpu) = false ->
        tick_stopped (get_ts st' cpu) = true ->
        (interrupted_user e = true \/ current_mm e = false)
        /\ saved_jiffies_whence (get_ts st' cpu)
           = (if interrupted_user e then JIFFIES_SAVED_USER else JIFFIES_SAVED_SYS)
        /\ saved_jiffies (get_ts st' cpu) = jiffies st'
        /\ tif_nohz (per_cpu st' cpu) = true).
Proof.
  intros Hv.
  assert (Hcpu : 0 <= cpu) by (unfold valid_cpu in Hv; lia).
  unfold tick_nohz_cpuset_stop_tick. fold (interrupted_user e).
  assert (Hsame : forall s, s = st ->
            (s = st \/ s = snd (can_stop_adaptive_tick e cpu st))
            /\ get_ts s cpu = set_user_nohz (user_nohz (get_ts s cpu)) (get_ts st cpu)
            /\ next_event (per_cpu s cpu) = next_event (per_cpu st cpu)
            /\ tif_nohz (per_cpu s cpu) = tif_nohz (per_cpu st cpu)
            /\ timer_programs s = timer_programs st).
  { intros s ->. split; [now left |]. split; [apply set_user_nohz_same | auto]. }
  destruct (negb (cpuset_adaptive_nohz e) || is_idle_task e).
  { exists st. split; [reflexivity |]. split; [intros; now apply Hsame | congruence]. }
  destruct (negb (tick_stopped (get_ts st cpu)) && _).
  { exists st. split; [reflexivity |]. split; [intros; now apply Hsame | congruence]. }
  pose proof (can_stop_adaptive_tick_valid e cpu st cpu) as Hva.
  pose proof (can_stop_adaptive_tick_ts e cpu st Hv) as Htsa.
  pose proof (can_stop_adaptive_tick_percpu e cpu st Hv) as (Hne & _ & Htif & Hprog & _).
  cbn zeta in Htsa, Hne, Htif, Hprog.
  assert (Hadapt : forall s, s = snd (can_stop_adaptive_tick e cpu st) ->
            (s = st \/ s = snd (can_stop_adaptive_tick e cpu st))
            /\ get_ts s cpu = set_user_nohz (user_nohz (get_ts s cpu)) (get_ts st cpu)
            /\ next_event (per_cpu s cpu) = next_event (per_cpu st cpu)
            /\ tif_nohz (per_cpu s cpu) = tif_nohz (per_cpu st cpu)
            /\ timer_programs s = timer_programs st).
  { intros s ->. auto 10. }
  assert (Hrun : tick_stopped (get_ts (snd (can_stop_adaptive_tick e cpu st)) cpu)
                 = tick_stopped (get_ts st cpu)) by now rewrite Htsa.
  destruct (can_stop_adaptive_tick e cpu st) as [can_stop st_a]. cbn [snd] in *.
  assert (Hv_a : valid_cpu st_a cpu) by now rewrite Hva.
  destruct (negb can_stop).
  { exists st_a. split; [reflexivity |]. split; [intros; now apply Hadapt | congruence]. }
  destruct (negb (interrupted_user e) && current_mm e) eqn:Hctx.
  { exists st_a. split; [reflexivity |]. split; [intros; now apply Hadapt | congruence]. }
  assert (Hnot : ~ (interrupted_user e = false /\ current_mm e = true)).
  { intros [H1 H2]. rewrite H1, H2 in Hctx. discriminate. }
  assert (Hor : interrupted_user e = true \/ current_mm e = false).
  { destruct (interrupted_user e); [now left |]. destruct (current_mm e); [| now right].
    discriminate. }
  destruct (tick_nohz_stop_sched_tick_returns e (ktime_get e) cpu st_a Hcpu)
    as [[r st_s] Hs].
  rewrite Hs.
  assert (Hv_s : valid_cpu st_s cpu).
  { apply (same_adaptive_valid st_a); [| exact Hv_a].
    exact (sa_tick_nohz_stop_sched_tick st_a e _ cpu st_a _ Hcpu
             (same_adaptive_refl _) Hs). }
  destruct (negb (tick_stopped (get_ts st_a cpu)) && tick_stopped (get_ts st_s cpu))
    eqn:Hfirst.
  - eexists. split; [reflexivity |]. split; [intros H1 H2; exfalso; auto |].
    intros _ _. split; [exact Hor |].
    destruct (negb (tick_saved_jiffies_eqb _ _));
      destruct (interrupted_user e) eqn:Hu; [| destruct Hor as [? | Hmm]; [congruence |]
                                             | | destruct Hor as [? | Hmm]; [congruence |]];
      try rewrite Hmm; cbn [negb]; percpu; fields; unfold jiffies; percpu; auto.
  - exists st_s. split; [reflexivity |]. split; [intros H1 H2; exfalso; auto |].
    intros Hwas Hnow. rewrite Hrun, Hwas, Hnow in Hfirst. discriminate.
Qed.

(** C7 as the spec words it leaves the tick state alone in every other
    context.  Interrupted in the kernel on behalf of a user task, the call
    stops nothing, yet the structure of the CPU comes back marked adaptive
    and the counter has moved. *)
Lemma tick_nohz_cpuset_stop_tick_marks_in_kernel :
  exists st',
    tick_nohz_cpuset_stop_tick syscall_env [] 1 sample_lowres_cpu = Some st'
    /\ interrupted_user syscall_env = false
    /\ current_mm syscall_env = true
    /\ tick_stopped (get_ts st' 1) = false
    /\ user_nohz (get_ts sample_lowres_cpu 1) = false
    /\ user_nohz (get_ts st' 1) = true
    /\ nr_cpus_user_nohz sample_lowres_cpu = 0
    /\ nr_cpus_user_nohz st' = 1.
Proof. eexists. vm_compute. repeat split; reflexivity. Qed.

Lemma tick_nohz_cpuset_stop_tick_spec_witness :
  exists st',
    tick_nohz_cpuset_stop_tick user_env [] 1 sample_lowres_cpu = Some st'
    /\ saved_jiffies_whence (get_ts st' 1) = JIFFIES_SAVED_USER
    /\ saved_jiffies (get_ts st' 1) = 7
    /\ tif_nohz (per_cpu st' 1) = true.
Proof.
  assert (Hv : valid_cpu sample_lowres_cpu 1) by (vm_compute; intuition congruence).
  destruct (tick_nohz_cpuset_stop_tick_spec user_env 1 sample_lowres_cpu Hv)
    as (st' & Hcall & _ & Hfirst).
  assert (Hst : tick_stopped (get_ts st' 1) = true /\ jiffies st' = 7).
  { pose proof Hcall as Hc. vm_compute in Hc. injection Hc as <-. split; reflexivity. }
  destruct Hst as [Hst Hj].
  destruct (Hfirst eq_refl Hst) as (_ & Hw & Hs & Ht).
  exists st'. split; [exact Hcall |]. split; [exact Hw |]. split; [| exact Ht].
  rewrite Hs. exact Hj.
Defined.

(** ** DutyRegistry: the counter of adaptive CPUs *)

Lemma count_user_nohz_split st c :
  valid_cpu st c ->
  exists a b,
    0 <= a /\ 0 <= b /\ a + b = Z.of_nat (length (cpus st)) - 1
    /\ (exists ma mb, 0 <= ma <= a /\ 0 <= mb <= b
        /\ count_user_nohz st = ma + bool_to_Z (user_nohz (get_ts st c)) + mb
        /\ forall pc,
             count_user_nohz (set_per_cpu c pc st)
             = ma + bool_to_Z (user_nohz (tick_cpu_sched pc)) + mb).
Proof.
  unfold valid_cpu. intros [H0 H1].
  assert (Hlt : (Z.to_nat c < length (cpus st))%nat) by lia.
  destruct (lookup_lt_is_Some_2 _ _ Hlt) as [old Hold].
  pose proof (take_drop_middle _ _ _ Hold) as Hmid.
  set (l1 := take (Z.to_nat c) (cpus st)) in *.
  set (l2 := drop (S (Z.to_nat c)) (cpus st)) in *.
  set (p := fun pc => user_nohz (tick_cpu_sched pc)).
  exists (Z.of_nat (length l1)), (Z.of_nat (length l2)).
  split; [lia |]. split; [lia |]. split.
  { rewrite <- Hmid at 1. rewrite length_app. cbn [length]. lia. }
  exists (Z.of_nat (length (List.filter p l1))), (Z.of_nat (length (List.filter p l2))).
  pose proof (filter_length_le p l1). pose proof (filter_length_le p l2).
  split; [lia |]. split; [lia |]. split.
  - unfold count_user_nohz, get_ts, per_cpu. fold p.
    destruct (Z.ltb_spec c 0); [lia |]. rewrite Hold. cbn [default].
    rewrite <- Hmid at 1. rewrite List.filter_app, length_app. cbn [List.filter].
    change (user_nohz (tick_cpu_sched (id old))) with (p old).
    destruct (p old); cbn [length bool_to_Z]; lia.
  - intros pc. unfold count_user_nohz, set_per_cpu. fold p.
    destruct (Z.ltb_spec c 0); [lia |]. cbn [cpus set_cpus].
    rewrite insert_take_drop by exact Hlt. fold l1 l2.
    rewrite List.filter_app, length_app. cbn [List.filter].
    change (user_nohz (tick_cpu_sched pc)) with (p pc).
    destruct (p pc); cbn [length bool_to_Z]; lia.
Qed.

Lemma count_user_nohz_marks st st' : marks st' = marks st -> count_user_nohz st' = count_user_nohz st.
Proof.
  unfold marks, count_user_nohz. intros Hm. f_equal.
  assert (Hgen : forall l : list percpu,
             length (List.filter (fun pc => user_nohz (tick_cpu_sched pc)) l)
             = length (List.filter (fun b : bool => b)
                         (map (fun pc => user_nohz (tick_cpu_sched pc)) l))).
  { induction l as [| pc l IH]; [reflexivity |]. cbn.
    destruct (user_nohz (tick_cpu_sched pc)); cbn; now rewrite IH. }
  now rewrite !Hgen, Hm.
Qed.

Lemma adaptive_consistent_same n st st' :
  adaptive_consistent n st -> same_adaptive st st' -> adaptive_consistent n st'.
Proof.
  intros [Hlen Hnr] [Hm Hn]. split.
  - apply (f_equal (@length bool)) in Hm. unfold marks in Hm.
    rewrite !length_map in Hm. congruence.
  - rewrite Hn, Hnr. symmetry. now apply count_user_nohz_marks.
Qed.

(** Setting the marker with the increment, clearing it with the
    decrement: the counter follows, stays within the number of CPUs and
    the decrement never finds it at zero. *)
Lemma adaptive_consistent_mark n st c :
  Z.of_nat n < 2 ^ 31 -> valid_cpu st c -> adaptive_consistent n st ->
  user_nohz (get_ts st c) = false ->
  adaptive_consistent n
    (atomic_inc_nr_cpus_user_nohz (put_ts c (set_user_nohz true (get_ts st c)) st)).
Proof.
  intros Hn Hv [Hlen Hnr] Hoff.
  destruct (count_user_nohz_split st c Hv)
    as (a & b & Ha & Hb & Hab & ma & mb & Hma & Hmb & Hc & Hset).
  split.
  - cbn. unfold put_ts, set_per_cpu. destruct (c <? 0); [assumption |].
    cbn [cpus set_cpus]. now rewrite length_insert.
  - unfold atomic_inc_nr_cpus_user_nohz.
    change (count_user_nohz (set_nr_cpus_user_nohz ?v ?s)) with (count_user_nohz s).
    cbn [nr_cpus_user_nohz set_nr_cpus_user_nohz]. percpu.
    unfold put_ts. rewrite Hset, Hnr, Hc, Hoff. cbn [tick_cpu_sched set_tick_cpu_sched].
    fields. cbn [bool_to_Z]. rewrite wrap_s32_id by (unfold s32_range; lia). lia.
Qed.

Lemma adaptive_consistent_unmark n st c :
  Z.of_nat n < 2 ^ 31 -> valid_cpu st c -> adaptive_consistent n st ->
  user_nohz (get_ts st c) = true ->
  let st' := atomic_dec_nr_cpus_user_nohz
               (put_ts c (set_user_nohz false (get_ts st c)) st) in
  adaptive_consistent n st' /\ events st' = events st.
Proof.
  intros Hn Hv [Hlen Hnr] Hon. cbn zeta.
  destruct (count_user_nohz_split st c Hv)
    as (a & b & Ha & Hb & Hab & ma & mb & Hma & Hmb & Hc & Hset).
  unfold atomic_dec_nr_cpus_user_nohz. percpu.
  assert (Hw : wrap_s32 (nr_cpus_user_nohz st - 1) = ma + mb).
  { rewrite Hnr, Hc, Hon. cbn [bool_to_Z].
    replace (ma + 1 + mb - 1) with (ma + mb) by lia.
    apply wrap_s32_id. unfold s32_range. lia. }
  rewrite Hw. destruct (Z.ltb_spec (ma + mb) 0); [lia |].
  split; [| now percpu]. split.
  - cbn. unfold put_ts, set_per_cpu. destruct (c <? 0); [assumption |].
    cbn [cpus set_cpus]. now rewrite length_insert.
  - change (count_user_nohz (set_nr_cpus_user_nohz ?v ?s)) with (count_user_nohz s).
    cbn [nr_cpus_user_nohz set_nr_cpus_user_nohz].
    unfold put_ts. rewrite Hset. cbn [tick_cpu_sched set_tick_cpu_sched].
    fields. cbn [bool_to_Z]. lia.
Qed.

(** *** The operations that leave the bookkeeping alone *)

Lemma sa_tick_nohz_restart_loop st0 c clock : forall now st,
  same_adaptive st0 st -> same_adaptive st0 (tick_nohz_restart_loop c now clock st).
Proof.
  induction clock as [| later clock IH]; intros now st H; cbn [tick_nohz_restart_loop].
  - destruct (tick_nohz_mode_eqb _ _); auto with adaptive.
  - apply IH. destruct (tick_nohz_mode_eqb _ _); auto 10 with adaptive.
Qed.

Lemma sa_tick_nohz_restart st0 e c now st :
  same_adaptive st0 st -> same_adaptive st0 (tick_nohz_restart e c now st).
Proof.
  intros H. unfold tick_nohz_restart. apply sa_tick_nohz_restart_loop.
  auto with adaptive.
Qed.

Lemma sa_tick_nohz_restart_sched_tick_body st0 e c now st :
  same_adaptive st0 st ->
  same_adaptive st0 (__tick_nohz_restart_sched_tick e c now st).
Proof.
  intros H. unfold __tick_nohz_restart_sched_tick.
  apply sa_tick_nohz_restart. apply sa_put_ts; [auto with adaptive | reflexivity].
Qed.

Lemma sa_tick_nohz_restart_sched_tick st0 e c st :
  same_adaptive st0 st -> same_adaptive st0 (tick_nohz_restart_sched_tick e c st).
Proof.
  intros H. unfold tick_nohz_restart_sched_tick. destruct (negb _); [assumption |].
  now apply sa_tick_nohz_restart_sched_tick_body.
Qed.

Lemma sa_tick_nohz_flush_current_times st0 c restart st :
  same_adaptive st0 st -> same_adaptive st0 (tick_nohz_flush_current_times c restart st).
Proof.
  intros H. unfold tick_nohz_flush_current_times.
  destruct (tick_stopped _); [| assumption].
  destruct restart; apply sa_put_ts; auto with adaptive.
Qed.

Lemma sa_tick_nohz_cpu_exit_qs st0 c irq st :
  same_adaptive st0 st -> same_adaptive st0 (tick_nohz_cpu_exit_qs c irq st).
Proof.
  intros H. unfold tick_nohz_cpu_exit_qs. destruct (nohz_task_ext_qs _); [| assumption].
  apply sa_set_per_cpu; [auto with adaptive | reflexivity].
Qed.

Lemma sa_tick_sched_timer st0 e c st :
  same_adaptive st0 st -> same_adaptive st0 (tick_sched_timer e c st).
Proof.
  intros H. unfold tick_sched_timer. apply sa_hrtimer_forward.
  set (st1 := tick_do_timer_check_handler c st).
  assert (H1 : same_adaptive st0 st1) by (unfold st1; auto with adaptive).
  set (st2 := if _ =? c then _ else st1).
  assert (H2 : same_adaptive st0 st2)
    by (unfold st2; destruct (_ =? c); auto with adaptive).
  clearbody st2. destruct (irq_regs e); [| assumption].
  destruct (tick_stopped _); [| assumption].
  apply sa_put_ts; [assumption | reflexivity].
Qed.

Lemma sa_tick_nohz_idle_exit st0 e c st :
  same_adaptive st0 st -> same_adaptive st0 (tick_nohz_idle_exit e c st).
Proof.
  intros H. unfold tick_nohz_idle_exit.
  set (st1 := put_ts c _ st).
  assert (H1 : same_adaptive st0 st1) by (unfold st1; now apply sa_put_ts).
  set (st2 := if idle_active _ then _ else st1).
  assert (H2 : same_adaptive st0 st2)
    by (unfold st2; destruct (idle_active _); auto with adaptive).
  clearbody st2. destruct (tick_stopped _); [| assumption].
  apply sa_put_ts; [| reflexivity].
  apply sa_tick_nohz_account_ticks, sa_tick_nohz_restart_sched_tick_body.
  auto with adaptive.
Qed.

(** *** The operations that set or clear the marker *)

Section Consistent.

Variable n : nat.
Hypothesis n_small : Z.of_nat n < 2 ^ 31.

Lemma consistent_valid st c :
  adaptive_consistent n st -> 0 <= c < Z.of_nat n -> valid_cpu st c.
Proof. intros [Hlen _] Hc. unfold valid_cpu. now rewrite Hlen. Qed.

Lemma consistent_can_stop_adaptive_tick e c st :
  adaptive_consistent n st -> 0 <= c < Z.of_nat n ->
  adaptive_consistent n (snd (can_stop_adaptive_tick e c st)).
Proof.
  intros Hinv Hc. pose proof (consistent_valid st c Hinv Hc) as Hv.
  unfold can_stop_adaptive_tick.
  destruct (user_nohz (get_ts st c)) eqn:Hu;
    destruct (negb (sched_can_stop_tick e) || posix_cpu_timers_running e || rcu_pending e);
    cbn [negb andb snd]; try assumption.
  - now apply adaptive_consistent_unmark.
  - now apply adaptive_consistent_mark.
Qed.

Lemma consistent_unmark_if st c :
  adaptive_consistent n st -> 0 <= c < Z.of_nat n ->
  adaptive_consistent n
    (if user_nohz (get_ts st c)
     then atomic_dec_nr_cpus_user_nohz (put_ts c (set_user_nohz false (get_ts st c)) st)
     else st).
Proof.
  intros Hinv Hc. pose proof (consistent_valid st c Hinv Hc) as Hv.
  destruct (user_nohz (get_ts st c)) eqn:Hu; [| assumption].
  now apply adaptive_consistent_unmark.
Qed.

Lemma consistent_tick_nohz_start_idle e c st :
  adaptive_consistent n st -> 0 <= c < Z.of_nat n ->
  adaptive_consistent n (snd (tick_nohz_start_idle e c st)).
Proof.
  intros Hinv Hc. unfold tick_nohz_start_idle. cbn [snd].
  set (st1 := put_ts c (set_idle_entrytime (ktime_get e) (get_ts st c)) st).
  assert (H1 : adaptive_consistent n st1).
  { apply (adaptive_consistent_same n st); [assumption |].
    unfold st1. apply sa_put_ts; [apply same_adaptive_refl | reflexivity]. }
  pose proof (consistent_unmark_if st1 c H1 Hc) as H2.
  set (st2 := if user_nohz (get_ts st1 c) then _ else st1) in *.
  apply (adaptive_consistent_same n st2); [assumption |].
  apply sa_put_ts; [apply same_adaptive_refl | reflexivity].
Qed.

Lemma consistent_tick_nohz_restart_adaptive e c st :
  adaptive_consistent n st -> 0 <= c < Z.of_nat n ->
  adaptive_consistent n (tick_nohz_restart_adaptive e c st).
Proof.
  intros Hinv Hc. unfold tick_nohz_restart_adaptive.
  set (st1 := tick_nohz_flush_current_times c true st).
  assert (H1 : adaptive_consistent n st1).
  { apply (adaptive_consistent_same n st); [assumption |].
    unfold st1. apply sa_tick_nohz_flush_current_times, same_adaptive_refl. }
  pose proof (consistent_unmark_if st1 c H1 Hc) as H2.
  set (st2 := if user_nohz (get_ts st1 c) then _ else st1) in *.
  apply (adaptive_consistent_same n st2); [assumption |].
  apply sa_tick_nohz_cpu_exit_qs. apply sa_set_per_cpu; [| reflexivity].
  apply sa_tick_nohz_restart_sched_tick, same_adaptive_refl.
Qed.

Lemma consistent_tick_nohz_idle_enter_body e c st st' :
  adaptive_consistent n st -> 0 <= c < Z.of_nat n ->
  __tick_nohz_idle_enter e [] c st = Some st' ->
  adaptive_consistent n st'.
Proof.
  intros Hinv Hc. unfold __tick_nohz_idle_enter.
  pose proof (consistent_tick_nohz_start_idle e c st Hinv Hc) as H1.
  destruct (tick_nohz_start_idle e c st) as [now st1]. cbn [snd] in H1.
  pose proof (sa_can_stop_idle_tick st1 e c st1 (same_adaptive_refl _)) as H2.
  destruct (can_stop_idle_tick e c st1) as [can_stop st2]. cbn [snd] in H2.
  pose proof (adaptive_consistent_same n st1 st2 H1 H2) as Hinv2.
  destruct can_stop; [| now intros [= <-]].
  set (st3 := put_ts c _ st2).
  assert (H3 : same_adaptive st2 st3)
    by (unfold st3; apply sa_put_ts; [apply same_adaptive_refl | reflexivity]).
  destruct (tick_nohz_stop_sched_tick e [] now c st3) as [[expires st4] |] eqn:Hs;
    [| discriminate].
  assert (H4 : same_adaptive st2 st4).
  { exact (sa_tick_nohz_stop_sched_tick st2 e now c st3 _ (proj1 Hc) H3 Hs). }
  intros [= <-]. apply (adaptive_consistent_same n st2); [assumption |].
  set (st5 := if expires >? 0 then _ else st4).
  assert (H5 : same_adaptive st2 st5).
  { unfold st5. destruct (expires >? 0); [| assumption].
    apply sa_put_ts; [assumption | reflexivity]. }
  clearbody st5. destruct (negb _ && _); [| assumption].
  apply sa_emit, sa_put_ts; [assumption | reflexivity].
Qed.

Lemma consistent_tick_nohz_cpuset_stop_tick e c st st' :
  adaptive_consistent n st -> 0 <= c < Z.of_nat n ->
  tick_nohz_cpuset_stop_tick e [] c st = Some st' ->
  adaptive_consistent n st'.
Proof.
  intros Hinv Hc. unfold tick_nohz_cpuset_stop_tick.
  destruct (negb (cpuset_adaptive_nohz e) || is_idle_task e); [now intros [= <-] |].
  destruct (negb (tick_stopped (get_ts st c)) && _); [now intros [= <-] |].
  pose proof (consistent_can_stop_adaptive_tick e c st Hinv Hc) as H1.
  destruct (can_stop_adaptive_tick e c st) as [can_stop st1]. cbn [snd] in H1.
  destruct (negb can_stop); [now intros [= <-] |].
  destruct (negb _ && current_mm e); [now intros [= <-] |].
  destruct (tick_nohz_stop_sched_tick e [] (ktime_get e) c st1) as [[r st2] |] eqn:Hs;
    [| discriminate].
  assert (H2 : same_adaptive st1 st2).
  { exact (sa_tick_nohz_stop_sched_tick st1 e _ c st1 _ (proj1 Hc)
             (same_adaptive_refl _) Hs). }
  cbn [snd]. intros Hret. apply (adaptive_consistent_same n st1); [assumption |].
  destruct (negb _ && tick_stopped (get_ts st2 c)); injection Hret as <-;
    [| assumption].
  apply sa_set_per_cpu; [| reflexivity].
  apply sa_put_ts; [| reflexivity].
  set (st3 := if negb _ then _ else st2).
  assert (H3 : same_adaptive st1 st3)
    by (unfold st3; destruct (negb _); auto with adaptive).
  clearbody st3.
  destruct (match irq_regs e with Some u => u | None => false end).
  - apply sa_emit, sa_set_per_cpu; [| percpu; reflexivity].
    apply sa_put_ts; [assumption | reflexivity].
  - destruct (negb (current_mm e)); [| assumption].
    apply sa_put_ts; [assumption | reflexivity].
Qed.

(** Every entry point keeps the counter equal to the number of markers. *)
Lemma consistent_run_op o st st' :
  adaptive_consistent n st ->
  (forall c, op_cpu o = Some c -> 0 <= c < Z.of_nat n) ->
  run_op o st = Some st' ->
  adaptive_consistent n st'.
Proof.
  intros Hinv Hcpu.
  destruct o as [c e | c e | c e | c e | c e | c e | c e | c e | c e | now];
    cbn [run_op op_cpu] in *; try specialize (Hcpu c eq_refl).
  - unfold tick_nohz_idle_enter. intros Hr.
    eapply (consistent_tick_nohz_idle_enter_body e c); [| assumption | exact Hr].
    apply (adaptive_consistent_same n st); [assumption |].
    apply sa_put_ts; [apply same_adaptive_refl | reflexivity].
  - unfold tick_nohz_irq_exit. destruct (inidle _).
    + destruct (negb (need_resched e)); [| now intros [= <-]].
      now apply consistent_tick_nohz_idle_enter_body.
    + now apply consistent_tick_nohz_cpuset_stop_tick.
  - intros [= <-]. apply (adaptive_consistent_same n st); [assumption |].
    apply sa_tick_nohz_idle_exit, same_adaptive_refl.
  - intros [= <-]. unfold tick_nohz_check_adaptive.
    destruct (tick_stopped _ && _); [| assumption].
    pose proof (consistent_can_stop_adaptive_tick e c st Hinv Hcpu) as H1.
    destruct (can_stop_adaptive_tick e c st) as [can_stop st1]. cbn [snd] in H1.
    destruct (negb can_stop); [| assumption].
    now apply consistent_tick_nohz_restart_adaptive.
  - intros [= <-]. unfold cpuset_exit_nohz_interrupt.
    destruct (tick_stopped _ && _); [| assumption].
    now apply consistent_tick_nohz_restart_adaptive.
  - intros [= <-]. now apply consistent_can_stop_adaptive_tick.
  - intros [= <-]. now apply consistent_tick_nohz_start_idle.
  - intros [= <-]. now apply consistent_tick_nohz_restart_adaptive.
  - intros [= <-]. apply (adaptive_consistent_same n st); [assumption |].
    apply sa_tick_sched_timer, same_adaptive_refl.
  - intros [= <-]. apply (adaptive_consistent_same n st); [assumption |].
    apply sa_tick_do_update_jiffies64, same_adaptive_refl.
Qed.

End Consistent.

(** *** The counter moves with the marker *)




Section Follows.

Variable n : nat.
Hypothesis n_small : Z.of_nat n < 2 ^ 31.





End Follows.


Lemma count_user_nohz_bounds st :
  0 <= count_user_nohz st <= Z.of_nat (length (cpus st)).
Proof.
  unfold count_user_nohz.
  pose proof (filter_length_le (fun pc => user_nohz (tick_cpu_sched pc)) (cpus st)). lia.
Qed.

(** ** DutyCoordinator: no bound on the passes *)

(** One round of CPU 1 changing its mind costs CPU 0 a pass and leaves the
    machine as it was for the next round. *)
Lemma check_drop_timer_duty_pass_toggled e rest st :
  one_adaptive st ->
  exists st',
    check_drop_timer_duty_pass e 0
      (RCanStopAdaptive 1 busy_env :: RQuiet :: RCanStopAdaptive 1 calm_env :: rest) st
    = (PassRepeat, rest, st')
    /\ one_adaptive st'.
Proof.
  intros (Hv & Hnr & Hu).
  unfold check_drop_timer_duty_pass, interfere, run_remote.
  (* CPU 1 is no longer fit: the marker and the counter go *)
  assert (Hoff : snd (can_stop_adaptive_tick busy_env 1 st)
                 = set_nr_cpus_user_nohz 0
                     (put_ts 1 (set_user_nohz false (get_ts st 1)) st)).
  { unfold can_stop_adaptive_tick, atomic_dec_nr_cpus_user_nohz.
    rewrite Hu. cbn [busy_env sched_can_stop_tick negb orb andb snd]. percpu.
    rewrite Hnr. reflexivity. }
  rewrite Hoff. set (st1 := set_nr_cpus_user_nohz 0 _).
  assert (Hv1 : valid_cpu st1 1) by (unfold st1; now percpu).
  change (nr_cpus_user_nohz st1 >? 0) with false. cbn iota.
  unfold update_do_timer_cpu.
  set (st2 := if tick_do_timer_cpu st1 =? 0 then _ else st1).
  assert (H2 : valid_cpu st2 1 /\ nr_cpus_user_nohz st2 = 0
               /\ user_nohz (get_ts st2 1) = false).
  { unfold st2. destruct (_ =? 0); unfold st1; percpu; fields; auto. }
  destruct H2 as (Hv2 & Hnr2 & Hu2). clearbody st2.
  (* CPU 1 is fit again: the marker and the counter come back *)
  assert (Hon : snd (can_stop_adaptive_tick calm_env 1 st2)
                = set_nr_cpus_user_nohz 1
                    (put_ts 1 (set_user_nohz true (get_ts st2 1)) st2)).
  { unfold can_stop_adaptive_tick, atomic_inc_nr_cpus_user_nohz.
    rewrite Hu2. cbn [calm_env sched_can_stop_tick posix_cpu_timers_running
                      rcu_pending negb orb andb snd]. percpu.
    rewrite Hnr2. reflexivity. }
  rewrite Hon. set (st3 := set_nr_cpus_user_nohz 1 _).
  change (nr_cpus_user_nohz st3 >? 0) with true. cbn iota.
  exists st3. split; [reflexivity |].
  unfold one_adaptive, st3. percpu. fields. auto.
Qed.

Lemma check_drop_timer_duty_loop_toggled e k : forall fuel nrepeat st,
  one_adaptive st -> (k < fuel)%nat ->
  -1 <= nrepeat -> nrepeat + Z.of_nat k + 1 < 2 ^ 31 ->
  exists h st',
    check_drop_timer_duty_loop fuel e 0 nrepeat (toggling k) st
    = Some (h, nrepeat + Z.of_nat k + 1, st').
Proof.
  induction k as [| k IH]; intros fuel nrepeat st Hone Hfuel Hlo Hhi;
    (destruct fuel as [| fuel]; [lia |]); cbn [check_drop_timer_duty_loop toggling].
  - rewrite wrap_s32_id by (unfold s32_range; lia).
    rewrite check_drop_timer_duty_pass_quiet by lia.
    eexists _, _. f_equal. f_equal. f_equal. lia.
  - rewrite wrap_s32_id by (unfold s32_range; lia).
    set (st1 := if nrepeat + 1 >? 1 then _ else st).
    assert (Hone1 : one_adaptive st1).
    { unfold st1. destruct (_ >? 1); [| assumption]. exact Hone. }
    destruct (check_drop_timer_duty_pass_toggled e (toggling k) st1 Hone1)
      as (st2 & Hpass & Hone2).
    rewrite Hpass.
    destruct (IH fuel (nrepeat + 1) st2 Hone2) as (h & st' & Hloop); try lia.
    exists h, st'. rewrite Hloop. f_equal. f_equal. f_equal. lia.
Qed.

(** Whatever number of retries one names, a schedule of CPU 1 makes the
    protocol on CPU 0 take that many. *)
Lemma check_drop_timer_duty_unbounded e k st :
  one_adaptive st -> Z.of_nat k < 2 ^ 31 ->
  exists h st',
    check_drop_timer_duty_counted e 0 (toggling k) st = Some (h, Z.of_nat k, st').
Proof.
  intros Hone Hk. unfold check_drop_timer_duty_counted.
  destruct (check_drop_timer_duty_loop_toggled e k (S (length (toggling k))) (-1) st)
    as (h & st' & Hloop); try lia; try assumption.
  - assert (Hlen : length (toggling k) = (3 * k)%nat).
    { induction k as [| j IHj]; [reflexivity |]. cbn [toggling length].
      rewrite IHj by lia. lia. }
    lia.
  - exists h, st'. rewrite Hloop. f_equal. f_equal. f_equal. lia.
Qed.

(** * Further properties *)

(** Split a conjunction into its parts, without unfolding anything. *)
Ltac splits := repeat match goal with |- _ /\ _ => split end.

(** Discharge the premises of [H] by evaluating them on closed terms. *)
Ltac discharge H :=
  cbn zeta in H;
  repeat match type of H with
         | ?P -> _ =>
             let HP := fresh "HP" in
             assert (HP : P) by (vm_compute; intuition congruence);
             specialize (H HP); clear HP; cbn zeta in H
         end.

(** ** Idle time statistics: the two ways to read a counter *)

(** X1.  With a number of waiting tasks that is not negative, as an
    unsigned long is, [get_cpu_idle_time_us] and [get_cpu_iowait_time_us]
    return the same value whether they are given a place for the update
    time or NULL: the counters folded by [update_ts_time_stats] are what
    the NULL branch computes on the side.  With a place, the time stored
    there is the clock reading in microseconds. *)
Theorem get_cpu_time_us_pointer_independent (e : env) (cpu : Z) (st : kstate) :
  0 <= nr_iowait_cpu e ->
  fst (fst (get_cpu_idle_time_us e cpu true st))
    = fst (fst (get_cpu_idle_time_us e cpu false st))
  /\ fst (fst (get_cpu_iowait_time_us e cpu true st))
    = fst (fst (get_cpu_iowait_time_us e cpu false st))
  /\ (tick_nohz_enabled st = true ->
      snd (fst (get_cpu_idle_time_us e cpu true st))
        = Some (wrap_u64 (ktime_to_us (ktime_get e)))
      /\ snd (fst (get_cpu_iowait_time_us e cpu true st))
        = Some (wrap_u64 (ktime_to_us (ktime_get e)))).
Proof.
  intros Hio.
  unfold get_cpu_idle_time_us, get_cpu_iowait_time_us, update_ts_time_stats.
  destruct (tick_nohz_enabled st); cbn [negb fst snd];
    [| splits; [reflexivity | reflexivity | discriminate]].
  destruct (idle_active (get_ts st cpu)); cbn [andb fst snd].
  - destruct (Z.gtb_spec (nr_iowait_cpu e) 0), (Z.eqb_spec (nr_iowait_cpu e) 0);
      try lia; fields; auto 10.
  - auto 10.
Qed.

Lemma get_cpu_time_us_pointer_independent_witness :
  fst (fst (get_cpu_idle_time_us calm_env 1 true sample_idle_cpu)) = 3100
  /\ fst (fst (get_cpu_idle_time_us calm_env 1 false sample_idle_cpu)) = 3100.
Proof.
  assert (Hio : 0 <= nr_iowait_cpu calm_env) by (vm_compute; discriminate).
  destruct (get_cpu_time_us_pointer_independent calm_env 1 sample_idle_cpu Hio)
    as (H & _ & _).
  split; [rewrite H |]; vm_compute; reflexivity.
Defined.

(** ** Idle time statistics: every nanosecond once *)

Lemma ktime_sub_id a b : s64_range (a - b) -> ktime_sub a b = a - b.
Proof. apply wrap_s64_id. Qed.

Lemma ktime_add_id a b : s64_range (a + b) -> ktime_add a b = a + b.
Proof. apply wrap_s64_id. Qed.

(** One update of the counters of an idle CPU. *)
Lemma update_ts_time_stats_sum e ts now p :
  idle_active ts = true ->
  idle_entrytime ts <= now ->
  0 <= idle_sleeptime ts -> 0 <= iowait_sleeptime ts ->
  sleeptime ts + (now - idle_entrytime ts) < 2 ^ 63 ->
  let ts' := fst (update_ts_time_stats e ts now p) in
  sleeptime ts' = sleeptime ts + (now - idle_entrytime ts)
  /\ idle_entrytime ts' = now
  /\ idle_active ts' = true
  /\ idle_sleeptime ts <= idle_sleeptime ts'
  /\ iowait_sleeptime ts <= iowait_sleeptime ts'
  /\ (idle_sleeptime ts' = idle_sleeptime ts \/ iowait_sleeptime ts' = iowait_sleeptime ts).
Proof.
  intros Hact Hle Hi Hw Hsum. cbn zeta. unfold update_ts_time_stats, sleeptime in *.
  rewrite Hact. cbn [fst].
  rewrite ktime_sub_id by (unfold s64_range; lia).
  destruct (nr_iowait_cpu e >? 0); fields;
    rewrite ktime_add_id by (unfold s64_range; lia); rewrite Hact; lia.
Qed.

(** The invariant of a run of samples: what the counters hold and the
    time not yet folded into them add up to the same total. *)
Lemma sample_times_invariant cpu samples : forall st total,
  valid_cpu st cpu ->
  let ts := get_ts st cpu in
  idle_active ts = true ->
  increasing_from (idle_entrytime ts) (sample_clock samples) ->
  0 <= idle_sleeptime ts -> 0 <= iowait_sleeptime ts ->
  sleeptime ts + (final_now (idle_entrytime ts) (sample_clock samples) - idle_entrytime ts)
    = total ->
  total < 2 ^ 63 ->
  let st' := sample_times cpu samples st in
  let ts' := get_ts st' cpu in
  valid_cpu st' cpu
  /\ idle_active ts' = true
  /\ idle_sleeptime ts <= idle_sleeptime ts'
  /\ iowait_sleeptime ts <= iowait_sleeptime ts'
  /\ idle_entrytime ts <= idle_entrytime ts'
     <= final_now (idle_entrytime ts) (sample_clock samples)
  /\ sleeptime ts'
     + (final_now (idle_entrytime ts) (sample_clock samples) - idle_entrytime ts') = total
  /\ (tick_nohz_enabled st = true ->
      idle_entrytime ts' = final_now (idle_entrytime ts) (sample_clock samples))
  /\ tick_nohz_enabled st' = tick_nohz_enabled st.
Proof.
  induction samples as [| [idle e] samples IH]; intros st total Hv; cbn zeta;
    intros Hact Hinc Hi Hw Htot Hlt.
  - cbn [sample_times sample_clock map final_now] in *.
    splits; try assumption; try reflexivity; try lia.
  - cbn [sample_clock map final_now increasing_from snd] in Hinc, Htot |- *.
    destruct Hinc as [Hle Hinc]. cbn [sample_times].
    fold (sample_clock samples) in *.
    pose proof (increasing_from_final _ _ Hinc) as Hfin.
    set (T := final_now (ktime_get e) (sample_clock samples)) in *.
    set (st1 := snd (if idle then get_cpu_idle_time_us e cpu true st
                     else get_cpu_iowait_time_us e cpu true st)).
    destruct (tick_nohz_enabled st) eqn:Hen.
    + (* the sample folds the time up to its clock reading *)
      assert (Hst1 : st1 = put_ts cpu
                (fst (update_ts_time_stats e (get_ts st cpu) (ktime_get e) true)) st).
      { unfold st1, get_cpu_idle_time_us, get_cpu_iowait_time_us. rewrite Hen.
        cbn [negb]. destruct (update_ts_time_stats _ _ _ _). now destruct idle. }
      destruct (update_ts_time_stats_sum e (get_ts st cpu) (ktime_get e) true)
        as (Hs & He & Ha & Hi1 & Hw1 & _); try assumption; [lia |].
      set (ts1 := fst (update_ts_time_stats e (get_ts st cpu) (ktime_get e) true)) in *.
      assert (Hv1 : valid_cpu st1 cpu) by (rewrite Hst1; now percpu).
      assert (Hts1 : get_ts st1 cpu = ts1) by (rewrite Hst1; now percpu).
      assert (Hen1 : tick_nohz_enabled st1 = true).
      { rewrite Hst1. unfold put_ts, set_per_cpu. now destruct (cpu <? 0). }
      specialize (IH st1 total Hv1). cbn zeta in IH. rewrite Hts1, He in IH.
      destruct IH as (Hv' & Ha' & Hi' & Hw' & He' & Hs' & Hen' & Hen2);
        try assumption; try lia.
      splits; try assumption; try reflexivity; try lia.
      * intros _. now apply Hen'.
      * now rewrite Hen2.
    + (* the accessors of a disabled subsystem write nothing *)
      assert (Hst1 : st1 = st).
      { unfold st1, get_cpu_idle_time_us, get_cpu_iowait_time_us. rewrite Hen.
        now destruct idle. }
      rewrite Hst1 in *. clear st1 Hst1.
      assert (Hdis : forall l s, tick_nohz_enabled s = false -> sample_times cpu l s = s).
      { clear. induction l as [| [i e] l IHl]; intros s Hs; cbn [sample_times];
          [reflexivity |].
        unfold get_cpu_idle_time_us, get_cpu_iowait_time_us. rewrite Hs. cbn [negb snd].
        destruct i; cbn [snd]; now apply IHl. }
      rewrite (Hdis samples st Hen).
      splits; try assumption; try reflexivity; try lia; try discriminate.
Qed.

(** X2.  However often and through whichever accessor the counters of an
    idle CPU are sampled, at clock readings that do not go back, no time is
    lost and none is counted twice: after the last sample the idle and the
    iowait time together have grown by exactly the time from the start of
    the idle period to that sample, neither counter has gone down, and the
    period is measured from the last sample on. *)
Theorem idle_time_sampled_once (cpu : Z) (samples : list (bool * env)) (st : kstate) :
  valid_cpu st cpu ->
  tick_nohz_enabled st = true ->
  let ts := get_ts st cpu in
  let last := final_now (idle_entrytime ts) (sample_clock samples) in
  idle_active ts = true ->
  increasing_from (idle_entrytime ts) (sample_clock samples) ->
  0 <= idle_sleeptime ts -> 0 <= iowait_sleeptime ts ->
  sleeptime ts + (last - idle_entrytime ts) < 2 ^ 63 ->
  let ts' := get_ts (sample_times cpu samples st) cpu in
  sleeptime ts' = sleeptime ts + (last - idle_entrytime ts)
  /\ idle_sleeptime ts <= idle_sleeptime ts'
  /\ iowait_sleeptime ts <= iowait_sleeptime ts'
  /\ idle_entrytime ts' = last
  /\ idle_active ts' = true.
Proof.
  intros Hv Hen. cbn zeta. intros Hact Hinc Hi Hw Hlt.
  destruct (sample_times_invariant cpu samples st _ Hv Hact Hinc Hi Hw eq_refl Hlt)
    as (_ & Ha & Hi' & Hw' & _ & Hs & He & _).
  specialize (He Hen). rewrite He in Hs. splits; try assumption. lia.
Qed.

Lemma idle_time_sampled_once_witness :
  let st' := sample_times 1 [(true, env_at 7200000 0); (false, env_at 7500000 2);
                             (true, env_at 7500000 0)] sample_idle_cpu in
  sleeptime (get_ts st' 1) = 4400000
  /\ idle_sleeptime (get_ts st' 1) = 3100000
  /\ iowait_sleeptime (get_ts st' 1) = 1300000.
Proof.
  cbn zeta.
  pose proof (idle_time_sampled_once 1
                [(true, env_at 7200000 0); (false, env_at 7500000 2);
                 (true, env_at 7500000 0)] sample_idle_cpu) as H.
  discharge H. destruct H as (Hs & _).
  split; [rewrite Hs |]; vm_compute; auto.
Defined.

Lemma tick_nohz_start_idle_ts e c st :
  valid_cpu st c ->
  get_ts (snd (tick_nohz_start_idle e c st)) c
  = set_idle_active true
      (set_user_nohz false (set_idle_entrytime (ktime_get e) (get_ts st c))).
Proof.
  intros Hv. unfold tick_nohz_start_idle. cbn [snd].
  rewrite (get_ts_put_ts_eq st c _ Hv). fields.
  destruct (user_nohz (get_ts st c)) eqn:Hu; percpu; fields; [reflexivity |].
  destruct (get_ts st c); cbn in *; now subst.
Qed.

(** X3.  An idle period from [tick_nohz_start_idle] to
    [tick_nohz_stop_idle] adds its length, the difference of the two clock
    readings, to the idle and the iowait time together, whatever samples
    are taken in between and whether or not the subsystem is enabled; the
    CPU is not marked idle afterwards and neither counter has gone down. *)
Theorem idle_period_accounted (e0 e1 : env) (cpu : Z) (samples : list (bool * env))
    (now : ktime_t) (st : kstate) :
  valid_cpu st cpu ->
  let ts := get_ts st cpu in
  increasing_from (ktime_get e0) (sample_clock samples ++ [now]) ->
  0 <= idle_sleeptime ts -> 0 <= iowait_sleeptime ts ->
  sleeptime ts + (now - ktime_get e0) < 2 ^ 63 ->
  let st1 := snd (tick_nohz_start_idle e0 cpu st) in
  let st3 := tick_nohz_stop_idle e1 cpu now (sample_times cpu samples st1) in
  sleeptime (get_ts st3 cpu) = sleeptime ts + (now - ktime_get e0)
  /\ idle_sleeptime ts <= idle_sleeptime (get_ts st3 cpu)
  /\ iowait_sleeptime ts <= iowait_sleeptime (get_ts st3 cpu)
  /\ idle_active (get_ts st3 cpu) = false.
Proof.
  intros Hv. cbn zeta. intros Hinc Hi Hw Hlt.
  destruct (increasing_from_app _ _ _ Hinc) as [Hinc1 Hinc2].
  cbn [increasing_from] in Hinc2. destruct Hinc2 as [Hlast _].
  set (st1 := snd (tick_nohz_start_idle e0 cpu st)).
  assert (Hv1 : valid_cpu st1 cpu) by (unfold st1; now rewrite tick_nohz_start_idle_valid).
  assert (Hts1 : get_ts st1 cpu
                 = set_idle_active true
                     (set_user_nohz false (set_idle_entrytime (ktime_get e0) (get_ts st cpu))))
    by now apply tick_nohz_start_idle_ts.
  assert (Hsl : sleeptime (get_ts st1 cpu) = sleeptime (get_ts st cpu))
    by now rewrite Hts1.
  pose proof (increasing_from_final _ _ Hinc1) as Hfin.
  destruct (sample_times_invariant cpu samples st1
              (sleeptime (get_ts st cpu)
               + (final_now (ktime_get e0) (sample_clock samples) - ktime_get e0)) Hv1)
    as (Hv2 & Ha2 & Hi2 & Hw2 & He2 & Hs2 & _); rewrite ?Hts1; fields;
    try assumption; try reflexivity; try lia.
  rewrite Hts1 in Hi2, Hw2, He2, Hs2. unfold sleeptime in *.
  cbn [idle_sleeptime iowait_sleeptime idle_entrytime set_idle_active set_user_nohz
       set_idle_entrytime] in Hi2, Hw2, He2, Hs2.
  set (st2 := sample_times cpu samples st1) in *.
  unfold tick_nohz_stop_idle.
  destruct (update_ts_time_stats_sum e1 (get_ts st2 cpu) now false)
    as (Hs3 & _ & _ & Hi3 & Hw3 & _); try assumption; try lia.
  { unfold sleeptime in *. lia. }
  percpu. fields. unfold sleeptime in *. fields.
  splits; try lia.
Qed.

Lemma idle_period_accounted_witness :
  let st3 := tick_nohz_stop_idle (env_at 9000000 1) 1 9000000
               (sample_times 1 [(true, env_at 8000000 0)]
                  (snd (tick_nohz_start_idle (env_at 7500000 0) 1 sample_idle_cpu))) in
  sleeptime (get_ts st3 1) = 5500000 /\ idle_active (get_ts st3 1) = false.
Proof.
  cbn zeta.
  pose proof (idle_period_accounted (env_at 7500000 0) (env_at 9000000 1) 1
                [(true, env_at 8000000 0)] 9000000 sample_idle_cpu) as H.
  discharge H. destruct H as (Hs & _ & _ & Ha).
  split; [rewrite Hs; vm_compute; reflexivity | exact Ha].
Defined.

(** ** DutyCoordinator: the contract of [check_drop_timer_duty] *)

(** X4.  Left alone, [check_drop_timer_duty] does what the comment above
    it promises: it returns the new value of tick_do_timer_cpu and writes
    nothing else.  While adaptive CPUs exist the duty never ends up
    unassigned: a holder keeps it, a vacant duty is taken, a regular holder
    is left alone.  Without adaptive CPUs the caller never keeps it: a
    caller that had the duty drops it, anybody else's is not touched. *)
Theorem check_drop_timer_duty_contract (e : env) (cpu : Z) (st : kstate) :
  0 <= cpu ->
  exists h,
    check_drop_timer_duty e cpu [] st = Some (h, set_tick_do_timer_cpu h st)
    /\ (0 < nr_cpus_user_nohz st -> h <> TICK_DO_TIMER_NONE)
    /\ (0 < nr_cpus_user_nohz st -> tick_do_timer_cpu st = cpu -> h = cpu)
    /\ (0 < nr_cpus_user_nohz st -> tick_do_timer_cpu st = TICK_DO_TIMER_NONE -> h = cpu)
    /\ (0 < nr_cpus_user_nohz st ->
        user_nohz (get_ts st (tick_do_timer_cpu st)) = false ->
        tick_do_timer_cpu st <> TICK_DO_TIMER_NONE -> h = tick_do_timer_cpu st)
    /\ (nr_cpus_user_nohz st <= 0 -> h <> cpu)
    /\ (nr_cpus_user_nohz st <= 0 -> tick_do_timer_cpu st = cpu -> h = TICK_DO_TIMER_NONE)
    /\ (nr_cpus_user_nohz st <= 0 -> tick_do_timer_cpu st <> cpu -> h = tick_do_timer_cpu st).
Proof.
  intros Hcpu. rewrite check_drop_timer_duty_quiet by assumption.
  unfold duty_step_quiet.
  destruct (Z.gtb_spec (nr_cpus_user_nohz st) 0) as [Hnr | Hnr].
  - destruct (Z.eqb_spec (tick_do_timer_cpu st) cpu) as [Hd | Hd].
    + exists cpu. rewrite <- Hd at 3. rewrite set_tick_do_timer_cpu_id.
      unfold TICK_DO_TIMER_NONE. splits; intros; try reflexivity; lia.
    + destruct (Z.eqb_spec (tick_do_timer_cpu st) TICK_DO_TIMER_NONE) as [Hn | Hn];
        cbn [orb].
      * exists cpu. unfold TICK_DO_TIMER_NONE in *.
        splits; intros; try reflexivity; lia.
      * destruct (user_nohz (get_ts st (tick_do_timer_cpu st))) eqn:Hu; cbn [andb].
        -- destruct (is_idle_task e || negb (cpuset_cpu_adaptive_nohz e)).
           ++ exists cpu. unfold TICK_DO_TIMER_NONE in *.
              splits; intros; try reflexivity; try lia; discriminate.
           ++ exists (tick_do_timer_cpu st). rewrite set_tick_do_timer_cpu_id.
              splits; intros; try reflexivity; try assumption; try lia; congruence.
        -- exists (tick_do_timer_cpu st). rewrite set_tick_do_timer_cpu_id.
           splits; intros; try reflexivity; try assumption; try lia; congruence.
  - destruct (Z.eqb_spec (tick_do_timer_cpu st) cpu) as [Hd | Hd].
    + exists TICK_DO_TIMER_NONE. unfold TICK_DO_TIMER_NONE.
      splits; intros; try reflexivity; lia.
    + exists (tick_do_timer_cpu st). rewrite set_tick_do_timer_cpu_id.
      splits; intros; try reflexivity; try assumption; try lia; congruence.
Qed.

Lemma check_drop_timer_duty_contract_witness :
  check_drop_timer_duty idle_env 0 [] adaptive_scenario
    = Some (0, set_tick_do_timer_cpu 0 adaptive_scenario)
  /\ check_drop_timer_duty idle_env 0 [] idle_scenario
    = Some (TICK_DO_TIMER_NONE, set_tick_do_timer_cpu TICK_DO_TIMER_NONE idle_scenario).
Proof.
  assert (H0 : 0 <= 0) by lia.
  destruct (check_drop_timer_duty_contract idle_env 0 adaptive_scenario H0)
    as (h1 & Hr1 & _ & _ & Hvac & _).
  destruct (check_drop_timer_duty_contract idle_env 0 idle_scenario H0)
    as (h2 & Hr2 & _ & _ & _ & _ & _ & Hdrop & _).
  rewrite Hvac in Hr1 by (vm_compute; reflexivity).
  rewrite Hdrop in Hr2 by (vm_compute; intuition congruence).
  split; assumption.
Defined.

(** ** DutyCoordinator: retries need interference *)

Lemma check_drop_timer_duty_loop_counts e cpu fuel : forall sched nrepeat st,
  0 <= cpu -> (length sched < fuel)%nat ->
  -1 <= nrepeat -> nrepeat + Z.of_nat (length sched) + 1 < 2 ^ 31 ->
  exists h n st',
    check_drop_timer_duty_loop fuel e cpu nrepeat sched st = Some (h, n, st')
    /\ nrepeat + 1 <= n <= nrepeat + 1 + Z.of_nat (length sched).
Proof.
  induction fuel as [| fuel IH]; intros sched nrepeat st Hcpu Hlen Hlo Hhi; [lia |].
  cbn [check_drop_timer_duty_loop].
  rewrite (wrap_s32_id (nrepeat + 1)) by (unfold s32_range; lia).
  set (st1 := if _ >? 1 then _ else st).
  destruct (check_drop_timer_duty_pass e cpu sched st1) as [[[h |] sched'] st'] eqn:Hp.
  - exists h, (nrepeat + 1), st'. split; [reflexivity | lia].
  - apply check_drop_timer_duty_pass_shrinks in Hp; [| assumption].
    destruct (IH sched' (nrepeat + 1) st') as (h & n & st'' & Hr & Hn);
      try assumption; try lia.
    exists h, n, st''. split; [exact Hr | lia].
Qed.

(** X5.  Whatever finitely many operations other CPUs run in between,
    [check_drop_timer_duty] returns, and it jumps back to [repeat] at most
    once for every remote operation that took effect: the final [nrepeat]
    lies between 0 and the length of the schedule. *)
Theorem check_drop_timer_duty_retries_bounded (e : env) (cpu : Z)
    (sched : list remote_op) (st : kstate) :
  0 <= cpu ->
  Z.of_nat (length sched) < 2 ^ 31 ->
  exists h n st',
    check_drop_timer_duty_counted e cpu sched st = Some (h, n, st')
    /\ check_drop_timer_duty e cpu sched st = Some (h, st')
    /\ 0 <= n <= Z.of_nat (length sched).
Proof.
  intros Hcpu Hlen. unfold check_drop_timer_duty.
  destruct (check_drop_timer_duty_loop_counts e cpu (S (length sched)) sched (-1) st)
    as (h & n & st' & Hr & Hn); try assumption; try lia.
  unfold check_drop_timer_duty_counted. rewrite Hr.
  exists h, n, st'. splits; try reflexivity; lia.
Qed.

Lemma check_drop_timer_duty_retries_bounded_witness :
  exists h n st',
    check_drop_timer_duty_counted idle_env 0 racing_schedule sample_lowres_cpu
      = Some (h, n, st')
    /\ 0 <= n <= 6.
Proof.
  assert (H0 : 0 <= 0) by lia.
  assert (Hlen : Z.of_nat (length racing_schedule) < 2 ^ 31) by (vm_compute; reflexivity).
  destruct (check_drop_timer_duty_retries_bounded idle_env 0 racing_schedule
              sample_lowres_cpu H0 Hlen) as (h & n & st' & Hr & _ & Hn).
  exists h, n, st'. split; [exact Hr | exact Hn].
Defined.

(** ** IdleTickController: what a call leaves behind *)

Lemma stop_tick_keeps_refl ts : stop_tick_keeps ts ts.
Proof. unfold stop_tick_keeps. splits; reflexivity. Qed.

Lemma stop_tick_keeps_trans ts1 ts2 ts3 :
  stop_tick_keeps ts1 ts2 -> stop_tick_keeps ts2 ts3 -> stop_tick_keeps ts1 ts3.
Proof. unfold stop_tick_keeps. intuition congruence. Qed.

(** The stages of a call that nobody interferes with. *)
Lemma tick_nohz_stop_sched_tick_stages e now cpu st :
  0 <= cpu ->
  tick_nohz_stop_sched_tick e [] now cpu st
  = let '(lj, nj, dj) := stop_sched_tick_jiffies e st in
    let out := stop_sched_tick_out cpu now nj lj in
    if negb (tick_stopped (get_ts st cpu)) && (dj =? 1) then Some (out 0 st)
    else if as_long dj >=? 1 then
      let '(h, td, st2) := stop_sched_tick_duty e cpu st in
      if h =? cpu then Some (out 0 (snd (duty_step_quiet e cpu st)))
      else
        let expires :=
          stop_sched_tick_expires (last_jiffies_update st) (tick_period st2) td dj in
        if tick_stopped (get_ts st2 cpu)
           && ktime_equal expires (next_event (per_cpu st2 cpu))
        then Some (out 0 st2)
        else Some (out expires (stop_sched_tick_arm e cpu expires st2))
    else Some (out 0 (raise_softirq_irqoff cpu st)).
Proof.
  intros Hcpu. unfold tick_nohz_stop_sched_tick, stop_sched_tick_duty, stop_sched_tick_arm.
  rewrite check_drop_timer_duty_quiet by assumption.
  destruct (stop_sched_tick_jiffies e st) as [[lj nj] dj].
  destruct (duty_step_quiet e cpu st) as [h st1]. cbn [snd].
  destruct (stop_sched_tick_limit e cpu (tick_do_timer_cpu st) h st1) as [td st2].
  destruct (negb _ && _); [reflexivity |].
  destruct (_ >=? _); [| reflexivity].
  destruct (h =? cpu); [reflexivity |].
  destruct (tick_stopped (get_ts st2 cpu) && _); [reflexivity |].
  destruct (negb (tick_stopped (get_ts st2 cpu))); cbv zeta;
    destruct (_ =? KTIME_MAX); try reflexivity;
    destruct (tick_nohz_mode_eqb _ _); try reflexivity;
    try (destruct (hrt_active _); reflexivity);
    destruct (tick_program_event _ _ _ _) as [err st3]; destruct (err =? 0); reflexivity.
Qed.

Lemma set_tick_stopped_same ts :
  tick_stopped ts = true -> set_tick_stopped true (set_last_tick (last_tick ts) ts) = ts.
Proof. destruct ts. cbn. now intros ->. Qed.

Lemma set_sched_timer_same ts : set_sched_timer (sched_timer ts) ts = ts.
Proof. now destruct ts. Qed.

Lemma tick_do_update_jiffies64_nr now st :
  nr_cpus_user_nohz (tick_do_update_jiffies64 now st) = nr_cpus_user_nohz st.
Proof. unfold tick_do_update_jiffies64. split_tests; reflexivity. Qed.

Lemma tick_do_update_jiffies64_enabled now st :
  tick_nohz_enabled (tick_do_update_jiffies64 now st) = tick_nohz_enabled st.
Proof. unfold tick_do_update_jiffies64. split_tests; reflexivity. Qed.

Lemma tick_do_update_jiffies64_period now st :
  tick_period (tick_do_update_jiffies64 now st) = tick_period st.
Proof. unfold tick_do_update_jiffies64. split_tests; reflexivity. Qed.

#[local] Hint Rewrite tick_do_update_jiffies64_nr tick_do_update_jiffies64_enabled
  tick_do_update_jiffies64_period : percpu.

(** Marking the tick stopped and programming the timer. *)
Lemma stop_sched_tick_arm_ts e cpu x st :
  valid_cpu st cpu ->
  let ts := get_ts st cpu in
  let st3 := stop_sched_tick_arm e cpu x st in
  valid_cpu st3 cpu
  /\ get_ts st3 cpu
     = set_sched_timer (sched_timer (get_ts st3 cpu))
         (set_tick_stopped true
            (set_last_tick (if tick_stopped ts then last_tick ts
                            else hrt_expires (sched_timer ts)) ts))
  /\ nohz_task_ext_qs (per_cpu st3 cpu) = nohz_task_ext_qs (per_cpu st cpu)
  /\ tif_nohz (per_cpu st3 cpu) = tif_nohz (per_cpu st cpu)
  /\ tick_do_timer_cpu st3 = tick_do_timer_cpu st
  /\ nr_cpus_user_nohz st3 = nr_cpus_user_nohz st.
Proof.
  intros Hv. cbn zeta. unfold stop_sched_tick_arm, hrtimer_get_expires.
  destruct (tick_stopped (get_ts st cpu)) eqn:Hstop; cbn [negb].
  - (* stopped before *)
    pose proof (set_tick_stopped_same _ Hstop) as Hsame.
    unfold tick_program_event, hrtimer_start, hrtimer_cancel, raise_softirq_irqoff.
    destruct (x =? KTIME_MAX); destruct (tick_nohz_mode_eqb _ _);
      try destruct (timer_armed_ok e); cbn [fst snd Z.eqb]; percpu; fields;
      rewrite ?Hsame, ?set_sched_timer_same; percpu; fields;
      rewrite ?Hsame, ?set_sched_timer_same; splits; try reflexivity; try assumption.
  - (* stopped by this call *)
    set (ts1 := set_tick_stopped true (set_last_tick _ (get_ts st cpu))).
    assert (Hv1 : valid_cpu (put_ts cpu ts1 st) cpu) by now percpu.
    unfold tick_program_event, hrtimer_start, hrtimer_cancel, raise_softirq_irqoff.
    destruct (x =? KTIME_MAX); destruct (tick_nohz_mode_eqb _ _);
      try destruct (timer_armed_ok e); cbn [fst snd Z.eqb]; percpu; fields;
      rewrite ?set_sched_timer_same; percpu; fields;
      rewrite ?set_sched_timer_same; splits; try reflexivity; try assumption.
Qed.

(** The duty step and the sleep limit write [do_timer_last] and nothing
    else of the CPU's area. *)
Lemma stop_sched_tick_duty_ts e cpu st h td st2 :
  valid_cpu st cpu ->
  stop_sched_tick_duty e cpu st = (h, td, st2) ->
  get_ts st2 cpu = set_do_timer_last (do_timer_last (get_ts st2 cpu)) (get_ts st cpu)
  /\ nohz_task_ext_qs (per_cpu st2 cpu) = nohz_task_ext_qs (per_cpu st cpu)
  /\ tif_nohz (per_cpu st2 cpu) = tif_nohz (per_cpu st cpu)
  /\ nr_cpus_user_nohz st2 = nr_cpus_user_nohz st
  /\ (td = timekeeping_max_deferment e \/ td = KTIME_MAX)
  /\ (tick_do_timer_cpu st = cpu -> td = timekeeping_max_deferment e).
Proof.
  intros Hv HD. unfold stop_sched_tick_duty in HD.
  pose proof (duty_step_quiet_get_ts e cpu st cpu) as Hts1.
  pose proof (duty_step_quiet_per_cpu e cpu st cpu) as Hpc1.
  pose proof (duty_step_quiet_valid e cpu st cpu) as Hv1.
  pose proof (duty_step_quiet_timebase e cpu st) as (_ & _ & _ & Hnr1).
  destruct (duty_step_quiet e cpu st) as [h1 st1]. cbn [snd] in *.
  rewrite <- Hv1 in Hv.
  pose proof (stop_sched_tick_limit_ts e cpu (tick_do_timer_cpu st) h1 st1 Hv) as Hts2.
  cbn zeta in Hts2. revert HD Hts2.
  unfold stop_sched_tick_limit.
  destruct (Z.eqb_spec (tick_do_timer_cpu st) cpu);
    [| destruct (negb (h1 =? TICK_DO_TIMER_NONE));
       [| destruct (negb (do_timer_last (get_ts st1 cpu)))]];
    cbn [snd]; intros [= <- <- <-] Hts2; rewrite Hts2 at 1; percpu;
    rewrite Hts1, Hpc1, Hnr1; splits; auto; try reflexivity; try contradiction.
Qed.

(** With nobody interfering, a call leaves the fields it has no business
    with alone, takes its snapshot at [out], and never restarts a stopped
    tick or moves the expiry saved when the tick was stopped. *)
Lemma stop_sched_tick_frame e now cpu st r st' :
  valid_cpu st cpu ->
  tick_nohz_stop_sched_tick e [] now cpu st = Some (r, st') ->
  let ts := get_ts st cpu in
  let ts' := get_ts st' cpu in
  valid_cpu st' cpu
  /\ stop_tick_keeps ts ts'
  /\ nohz_task_ext_qs (per_cpu st' cpu) = nohz_task_ext_qs (per_cpu st cpu)
  /\ tif_nohz (per_cpu st' cpu) = tif_nohz (per_cpu st cpu)
  /\ nr_cpus_user_nohz st' = nr_cpus_user_nohz st
  /\ sleep_length ts' = ktime_sub (next_event (per_cpu st' cpu)) now
  /\ last_jiffies ts' = jiffies st
  /\ next_jiffies ts' = snd (fst (stop_sched_tick_jiffies e st))
  /\ (tick_stopped ts = true -> tick_stopped ts' = true /\ last_tick ts' = last_tick ts)
  /\ (tick_stopped ts = false -> tick_stopped ts' = true ->
      last_tick ts' = hrt_expires (sched_timer ts))
  /\ (r <> 0 -> tick_stopped ts' = true).
Proof.
  intros Hv.
  assert (Hcpu : 0 <= cpu) by (unfold valid_cpu in Hv; lia).
  rewrite tick_nohz_stop_sched_tick_stages by assumption.
  assert (Hlj : fst (fst (stop_sched_tick_jiffies e st)) = jiffies st)
    by (unfold stop_sched_tick_jiffies; now destruct (_ || _)).
  destruct (stop_sched_tick_jiffies e st) as [[lj nj] dj]. cbn [fst snd] in *. subst lj.
  destruct (stop_sched_tick_duty e cpu st) as [[h td] st2] eqn:HD.
  destruct (stop_sched_tick_duty_facts e cpu st h td st2 Hv HD) as (Hv2 & _).
  destruct (stop_sched_tick_duty_ts e cpu st h td st2 Hv HD) as (Hts2 & Hq2 & Hf2 & Hn2 & _).
  remember (do_timer_last (get_ts st2 cpu)) as b eqn:Hb. clear Hb.
  pose proof (duty_step_quiet_get_ts e cpu st cpu) as Hts1.
  pose proof (duty_step_quiet_per_cpu e cpu st cpu) as Hpc1.
  pose proof (duty_step_quiet_valid e cpu st cpu) as Hv1.
  pose proof (duty_step_quiet_timebase e cpu st) as (_ & _ & _ & Hn1).
  assert (Hv1' : valid_cpu (snd (duty_step_quiet e cpu st)) cpu) by now rewrite Hv1.
  assert (Hvr : valid_cpu (raise_softirq_irqoff cpu st) cpu) by exact Hv.
  destruct (stop_sched_tick_arm_ts e cpu
              (stop_sched_tick_expires (last_jiffies_update st) (tick_period st2) td dj)
              st2 Hv2) as (Hv3 & Hts3 & Hq3 & Hf3 & _ & Hn3).
  cbn zeta in Hts3.
  remember (sched_timer (get_ts (stop_sched_tick_arm e cpu _ st2) cpu)) as T eqn:HT.
  clear HT.
  cbn zeta. unfold stop_tick_keeps.
  destruct (tick_stopped (get_ts st cpu)) eqn:Hstop.
  all: destruct (negb _ && _); [| destruct (_ >=? _);
         [destruct (h =? cpu); [| destruct (tick_stopped (get_ts st2 cpu) && _) eqn:Hskip] |]];
    intros [= <- <-]; unfold raise_softirq_irqoff; percpu;
    rewrite ?Hts3, ?Hq3, ?Hf3, ?Hn3, ?Hts2, ?Hq2, ?Hf2, ?Hn2, ?Hts1, ?Hpc1, ?Hn1;
    fields; rewrite ?Hstop;
    splits; try reflexivity; try assumption; try discriminate;
    try (intros; congruence); try (intros; split; reflexivity).
Qed.

(** ** The trace of the timer code *)

Create HintDb trace.

Lemma timer_trace_refl st : timer_trace st st.
Proof. exists []. now rewrite app_nil_r. Qed.

Lemma timer_trace_trans st1 st2 st3 :
  timer_trace st1 st2 -> timer_trace st2 st3 -> timer_trace st1 st3.
Proof.
  intros (l1 & H1 & F1) (l2 & H2 & F2). exists (l1 ++ l2).
  rewrite H2, H1, app_assoc, forallb_app, F1, F2. auto.
Qed.

Lemma timer_trace_events st0 st st' :
  timer_trace st0 st -> events st' = events st -> timer_trace st0 st'.
Proof. intros (l & H & F) He. exists l. now rewrite He. Qed.

Lemma tt_emit st0 ev st :
  is_timer_event ev = true -> timer_trace st0 st -> timer_trace st0 (emit ev st).
Proof.
  intros Hev (l & H & F). exists (l ++ [ev]). unfold emit. cbn [events set_events].
  rewrite H, app_assoc, forallb_app, F. cbn. now rewrite Hev.
Qed.

Lemma tt_set_per_cpu st0 c pc st :
  timer_trace st0 st -> timer_trace st0 (set_per_cpu c pc st).
Proof. intros H. apply (timer_trace_events st0 st); [assumption | now percpu]. Qed.

Lemma tt_put_ts st0 c ts st : timer_trace st0 st -> timer_trace st0 (put_ts c ts st).
Proof. apply tt_set_per_cpu. Qed.

Lemma tt_set_tick_do_timer_cpu st0 v st :
  timer_trace st0 st -> timer_trace st0 (set_tick_do_timer_cpu v st).
Proof. intros H. now apply (timer_trace_events st0 st). Qed.

Lemma tick_do_update_jiffies64_events now st :
  events (tick_do_update_jiffies64 now st) = events st
  \/ exists k, events (tick_do_update_jiffies64 now st) = events st ++ [EvDoTimer k].
Proof.
  unfold tick_do_update_jiffies64.
  destruct (_ <? _); [now left |]. destruct (_ >=? _); [| now left].
  right. destruct (_ >=? _); cbn iota beta; unfold do_timer, emit; cbn; eauto.
Qed.

Lemma tt_tick_do_update_jiffies64 st0 now st :
  timer_trace st0 st -> timer_trace st0 (tick_do_update_jiffies64 now st).
Proof.
  intros H. destruct (tick_do_update_jiffies64_events now st) as [He | [k He]].
  - now apply (timer_trace_events st0 st).
  - apply (timer_trace_trans st0 st); [assumption |]. now exists [EvDoTimer k].
Qed.

Lemma tt_hrtimer_start st0 c x armed st :
  timer_trace st0 st -> timer_trace st0 (hrtimer_start c x armed st).
Proof. intros H. unfold hrtimer_start. now apply tt_emit, tt_set_per_cpu. Qed.

Lemma tt_hrtimer_cancel st0 c st :
  timer_trace st0 st -> timer_trace st0 (hrtimer_cancel c st).
Proof. intros H. unfold hrtimer_cancel. now apply tt_emit, tt_set_per_cpu. Qed.

Lemma tt_tick_program_event st0 c x armed st :
  timer_trace st0 st -> timer_trace st0 (snd (tick_program_event c x armed st)).
Proof. intros H. unfold tick_program_event. cbn [snd]. now apply tt_emit, tt_set_per_cpu. Qed.

Lemma tt_hrtimer_set_expires st0 c x st :
  timer_trace st0 st -> timer_trace st0 (hrtimer_set_expires c x st).
Proof. intros H. unfold hrtimer_set_expires. now apply tt_put_ts. Qed.

Lemma tt_hrtimer_forward st0 c now interval st :
  timer_trace st0 st -> timer_trace st0 (hrtimer_forward c now interval st).
Proof.
  intros H. unfold hrtimer_forward. destruct (_ <? _); [assumption |].
  now apply tt_hrtimer_set_expires.
Qed.

Lemma tt_raise_softirq_irqoff st0 c st :
  timer_trace st0 st -> timer_trace st0 (raise_softirq_irqoff c st).
Proof. intros H. unfold raise_softirq_irqoff. now apply tt_emit. Qed.

#[local] Hint Resolve timer_trace_refl tt_emit tt_set_per_cpu tt_put_ts
  tt_set_tick_do_timer_cpu tt_tick_do_update_jiffies64 tt_hrtimer_start tt_hrtimer_cancel
  tt_tick_program_event tt_hrtimer_set_expires tt_hrtimer_forward
  tt_raise_softirq_irqoff : trace.

(** A trace that only grew by timer entries holds the accounting entries
    it held. *)
Lemma timer_trace_filter (p : event -> bool) st0 st :
  (forall ev, is_timer_event ev = true -> p ev = false) ->
  timer_trace st0 st ->
  List.filter p (events st) = List.filter p (events st0).
Proof.
  intros Hp (l & H & F). rewrite H, List.filter_app.
  assert (Hl : List.filter p l = []).
  { clear H. induction l as [| ev l IH]; [reflexivity |]. cbn in F |- *.
    apply andb_prop in F as [Fev Fl]. rewrite (Hp ev Fev). now apply IH. }
  rewrite Hl. apply app_nil_r.
Qed.

Lemma timer_trace_account st0 st :
  timer_trace st0 st ->
  List.filter is_account (events st) = List.filter is_account (events st0).
Proof. apply timer_trace_filter. now intros []. Qed.

(** What the arming block adds to the trace. *)
Lemma stop_sched_tick_arm_events e cpu x st :
  valid_cpu st cpu ->
  let mode := nohz_mode (get_ts st cpu) in
  (x = KTIME_MAX ->
   events (stop_sched_tick_arm e cpu x st)
   = events st ++ if tick_nohz_mode_eqb mode NOHZ_MODE_HIGHRES
                  then [EvHrtimerCancel cpu] else [])
  /\ (x <> KTIME_MAX -> timer_armed_ok e = true ->
      events (stop_sched_tick_arm e cpu x st) = events st ++ [program_event mode cpu x])
  /\ (x <> KTIME_MAX -> timer_armed_ok e = false ->
      exists l,
        events (stop_sched_tick_arm e cpu x st)
        = events st ++ [program_event mode cpu x] ++ l ++ [EvRaiseTimerSoftirq cpu]
        /\ (l = [] \/ exists k, l = [EvDoTimer k])).
Proof.
  intros Hv. cbn zeta. unfold stop_sched_tick_arm, program_event.
  set (st1 := if negb _ then _ else st).
  assert (Hv1 : valid_cpu st1 cpu) by (unfold st1; destruct (negb _); now percpu).
  assert (Hev1 : events st1 = events st) by (unfold st1; destruct (negb _); now percpu).
  assert (Hm1 : nohz_mode (get_ts st1 cpu) = nohz_mode (get_ts st cpu))
    by (unfold st1; destruct (negb _); now percpu).
  rewrite Hm1. clearbody st1.
  splits.
  - intros ->. rewrite Z.eqb_refl. destruct (tick_nohz_mode_eqb _ _).
    + unfold hrtimer_cancel, emit. cbn [events set_events]. percpu. now rewrite Hev1.
    + now rewrite app_nil_r.
  - intros Hx Hok. destruct (Z.eqb_spec x KTIME_MAX); [contradiction |]. rewrite Hok.
    destruct (tick_nohz_mode_eqb _ _).
    + rewrite hrtimer_start_get_ts by assumption.
      cbn [hrt_active sched_timer set_sched_timer].
      unfold hrtimer_start, emit. cbn [events set_events]. percpu. now rewrite Hev1.
    + unfold tick_program_event, emit. cbn [Z.eqb events set_events]. percpu.
      now rewrite Hev1.
  - intros Hx Hok. destruct (Z.eqb_spec x KTIME_MAX); [contradiction |]. rewrite Hok.
    destruct (tick_nohz_mode_eqb _ _).
    + rewrite hrtimer_start_get_ts by assumption.
      cbn [hrt_active sched_timer set_sched_timer].
      unfold raise_softirq_irqoff, emit at 1. cbn [events set_events].
      destruct (tick_do_update_jiffies64_events (ktime_get_late e)
                  (hrtimer_start cpu x false st1)) as [He | [k He]];
        rewrite He; unfold hrtimer_start, emit; cbn [events set_events]; percpu;
        rewrite Hev1; [exists [] | exists [EvDoTimer k]];
        rewrite <- ?app_assoc; cbn [app]; eauto.
    + unfold tick_program_event at 1. cbn [Z.eqb].
      unfold raise_softirq_irqoff, emit at 1. cbn [events set_events].
      destruct (tick_do_update_jiffies64_events (ktime_get_late e)
                  (snd (tick_program_event cpu x false st1))) as [He | [k He]];
        cbn [snd] in He |- *; unfold tick_program_event in He |- *; cbn [snd] in He |- *;
        rewrite He; unfold emit; cbn [events set_events]; percpu;
        rewrite Hev1; [exists [] | exists [EvDoTimer k]];
        rewrite <- ?app_assoc; cbn [app]; eauto.
Qed.

Lemma tt_stop_sched_tick_arm st0 e cpu x st :
  timer_trace st0 st -> timer_trace st0 (stop_sched_tick_arm e cpu x st).
Proof.
  intros H. unfold stop_sched_tick_arm, tick_program_event.
  split_tests; cbn [fst snd]; auto 10 with trace.
Qed.

Lemma stop_sched_tick_out_some c now nj lj r st r' st' :
  Some (stop_sched_tick_out c now nj lj r st) = Some (r', st') ->
  r' = r /\ st' = snd (stop_sched_tick_out c now nj lj r st).
Proof. unfold stop_sched_tick_out. cbn [snd]. intros [= <- <-]. auto. Qed.

(** The two ways a call can end: without a new expiry, having programmed
    nothing, or with the expiry computed from the duty step, having gone
    through the arming block. *)
Lemma stop_sched_tick_cases e now cpu st r st' :
  valid_cpu st cpu ->
  tick_nohz_stop_sched_tick e [] now cpu st = Some (r, st') ->
  let lj := fst (fst (stop_sched_tick_jiffies e st)) in
  let nj := snd (fst (stop_sched_tick_jiffies e st)) in
  let dj := snd (stop_sched_tick_jiffies e st) in
  (r = 0 /\ (events st' = events st \/ events st' = events st ++ [EvRaiseTimerSoftirq cpu]))
  \/ exists h td st2,
       stop_sched_tick_duty e cpu st = (h, td, st2)
       /\ h <> cpu
       /\ 1 <= as_long dj
       /\ r = stop_sched_tick_expires (last_jiffies_update st) (tick_period st) td dj
       /\ st' = snd (stop_sched_tick_out cpu now nj lj r (stop_sched_tick_arm e cpu r st2)).
Proof.
  intros Hv.
  assert (Hcpu : 0 <= cpu) by (unfold valid_cpu in Hv; lia).
  rewrite tick_nohz_stop_sched_tick_stages by assumption. cbn zeta.
  destruct (stop_sched_tick_jiffies e st) as [[lj nj] dj]. cbn [fst snd].
  destruct (stop_sched_tick_duty e cpu st) as [[h td] st2] eqn:HD.
  destruct (stop_sched_tick_duty_facts e cpu st h td st2 Hv HD)
    as (Hv2 & Hev2 & _ & _ & Hp2 & _).
  pose proof (duty_step_quiet_events e cpu st) as Hev1.
  destruct (negb _ && _).
  { intros Heq; apply stop_sched_tick_out_some in Heq as [-> ->]. left. rewrite stop_sched_tick_out_events. auto. }
  destruct (Z.geb_spec (as_long dj) 1).
  - destruct (Z.eqb_spec h cpu).
    { intros Heq; apply stop_sched_tick_out_some in Heq as [-> ->]. left. rewrite stop_sched_tick_out_events, Hev1. auto. }
    destruct (tick_stopped (get_ts st2 cpu) && _).
    { intros Heq; apply stop_sched_tick_out_some in Heq as [-> ->]. left. rewrite stop_sched_tick_out_events, Hev2. auto. }
    intros Heq; apply stop_sched_tick_out_some in Heq as [-> ->]. right. exists h, td, st2. rewrite Hp2. auto 10.
  - intros Heq; apply stop_sched_tick_out_some in Heq as [-> ->]. left. rewrite stop_sched_tick_out_events. auto.
Qed.

Lemma tt_tick_nohz_stop_sched_tick e now cpu st r st' :
  valid_cpu st cpu ->
  tick_nohz_stop_sched_tick e [] now cpu st = Some (r, st') ->
  timer_trace st st'.
Proof.
  intros Hv Hr.
  destruct (stop_sched_tick_cases e now cpu st r st' Hv Hr)
    as [(_ & [He | He]) | (h & td & st2 & HD & _ & _ & _ & ->)].
  - apply (timer_trace_events st st); [apply timer_trace_refl | assumption].
  - exists [EvRaiseTimerSoftirq cpu]. auto.
  - destruct (stop_sched_tick_duty_facts e cpu st h td st2 Hv HD) as (_ & Hev2 & _).
    apply (timer_trace_events st (stop_sched_tick_arm e cpu r st2));
      [| apply stop_sched_tick_out_events].
    apply tt_stop_sched_tick_arm.
    apply (timer_trace_events st st); [apply timer_trace_refl | assumption].
Qed.

(** ** IdleTickController: when the tick keeps running *)

(** X6.  A running tick is not stopped when the next event is one jiffy
    away, which is also what a CPU that RCU, printk or the architecture
    needs is told, or when it is already due.  Whatever other CPUs do
    meanwhile, the call then returns 0 without entering the duty protocol:
    the tick still runs, the duty is where it was, nothing is programmed,
    and only a timer that is already due makes it raise TIMER_SOFTIRQ. *)
Theorem stop_sched_tick_keeps_running (e : env) (sched : list remote_op)
    (now : ktime_t) (cpu : Z) (st : kstate) :
  valid_cpu st cpu ->
  tick_stopped (get_ts st cpu) = false ->
  let dj := snd (stop_sched_tick_jiffies e st) in
  ((rcu_needs_cpu e || printk_needs_cpu e || arch_needs_cpu e) = true -> dj = 1)
  /\ (dj = 1 \/ as_long dj < 1 ->
      exists st',
        tick_nohz_stop_sched_tick e sched now cpu st = Some (0, st')
        /\ tick_stopped (get_ts st' cpu) = false
        /\ tick_do_timer_cpu st' = tick_do_timer_cpu st
        /\ sched_timer (get_ts st' cpu) = sched_timer (get_ts st cpu)
        /\ next_event (per_cpu st' cpu) = next_event (per_cpu st cpu)
        /\ events st' = events st ++ (if dj =? 1 then [] else [EvRaiseTimerSoftirq cpu])).
Proof.
  intros Hv Hrun. cbn zeta. split.
  - intros Hneed. unfold stop_sched_tick_jiffies. now rewrite Hneed.
  - unfold tick_nohz_stop_sched_tick.
    destruct (stop_sched_tick_jiffies e st) as [[lj nj] dj]. cbn [snd].
    rewrite Hrun. cbn [negb andb].
    assert (Hvr : valid_cpu (raise_softirq_irqoff cpu st) cpu) by exact Hv.
    intros [Hone | Hdue].
    + subst dj. cbn [Z.eqb Pos.eqb].
      exists (snd (stop_sched_tick_out cpu now nj lj 0 st)). split; [reflexivity |].
      rewrite stop_sched_tick_out_ts, stop_sched_tick_out_next_event,
        stop_sched_tick_out_events by assumption.
      destruct (stop_sched_tick_out_timebase cpu now nj lj 0 st) as (_ & _ & _ & Hd & _).
      rewrite Hd, app_nil_r. fields. auto.
    + destruct (Z.eqb_spec dj 1) as [-> | Hne]; [vm_compute in Hdue; discriminate |].
      destruct (Z.geb_spec (as_long dj) 1); [lia |].
      exists (snd (stop_sched_tick_out cpu now nj lj 0 (raise_softirq_irqoff cpu st))).
      split; [reflexivity |].
      rewrite stop_sched_tick_out_ts, stop_sched_tick_out_next_event,
        stop_sched_tick_out_events by assumption.
      destruct (stop_sched_tick_out_timebase cpu now nj lj 0 (raise_softirq_irqoff cpu st))
        as (_ & _ & _ & Hd & _).
      rewrite Hd. unfold raise_softirq_irqoff. percpu. fields. auto.
Qed.

Lemma stop_sched_tick_keeps_running_witness :
  exists st',
    tick_nohz_stop_sched_tick (env_with_rcu_needs_cpu true idle_env) [] 100200000 0
      idle_scenario = Some (0, st')
    /\ tick_stopped (get_ts st' 0) = false
    /\ tick_do_timer_cpu st' = 0
    /\ events st' = [].
Proof.
  pose proof (stop_sched_tick_keeps_running (env_with_rcu_needs_cpu true idle_env) []
                100200000 0 idle_scenario) as H.
  discharge H. destruct H as [Hone H].
  destruct H as (st' & Hr & Hs & Hd & _ & _ & He).
  { left. apply Hone. reflexivity. }
  exists st'. splits; assumption.
Defined.

(** ** IdleTickController: the snapshot and the sleep length *)

(** X7.  With nobody interfering, a call of [tick_nohz_stop_sched_tick]
    records on every path the jiffies it read and the next timer it was
    told, and the sleep length [tick_nohz_get_sleep_length] hands out
    afterwards is the distance from [now] to the event armed on the device
    when the call returns.  The call writes the scheduled timer,
    [last_tick], [tick_stopped], [do_timer_last] and that snapshot, and
    nothing else of the CPU's area; it never restarts a stopped tick, keeps
    the expiry saved when the tick was stopped, and a return value other
    than 0 means the tick is stopped. *)
Theorem tick_nohz_get_sleep_length_after_stop (e : env) (now : ktime_t) (cpu : Z)
    (st : kstate) (r : ktime_t) (st' : kstate) :
  valid_cpu st cpu ->
  tick_nohz_stop_sched_tick e [] now cpu st = Some (r, st') ->
  tick_nohz_get_sleep_length cpu st' = ktime_sub (next_event (per_cpu st' cpu)) now
  /\ last_jiffies (get_ts st' cpu) = jiffies st
  /\ next_jiffies (get_ts st' cpu)
     = (if rcu_needs_cpu e || printk_needs_cpu e || arch_needs_cpu e
        then wrap_u64 (jiffies st + 1) else get_next_timer_interrupt e (jiffies st))
  /\ stop_tick_keeps (get_ts st cpu) (get_ts st' cpu)
  /\ nohz_task_ext_qs (per_cpu st' cpu) = nohz_task_ext_qs (per_cpu st cpu)
  /\ tif_nohz (per_cpu st' cpu) = tif_nohz (per_cpu st cpu)
  /\ (tick_stopped (get_ts st cpu) = true ->
      tick_stopped (get_ts st' cpu) = true
      /\ last_tick (get_ts st' cpu) = last_tick (get_ts st cpu))
  /\ (r <> 0 -> tick_stopped (get_ts st' cpu) = true).
Proof.
  intros Hv Hr.
  destruct (stop_sched_tick_frame e now cpu st r st' Hv Hr)
    as (_ & Hk & Hq & Hf & _ & Hsl & Hlj & Hnj & Hst & _ & Hr0).
  unfold tick_nohz_get_sleep_length. splits; try assumption.
  rewrite Hnj. unfold stop_sched_tick_jiffies. now destruct (_ || _).
Qed.

Lemma tick_nohz_get_sleep_length_after_stop_witness :
  tick_nohz_get_sleep_length 0 armed_scenario = 49800000
  /\ last_jiffies (get_ts armed_scenario 0) = 100
  /\ next_jiffies (get_ts armed_scenario 0) = 150.
Proof.
  assert (Hv : valid_cpu idle_scenario 0) by (vm_compute; intuition congruence).
  assert (Hr : tick_nohz_stop_sched_tick idle_env [] 100200000 0 idle_scenario
               = Some (150000000, armed_scenario)) by (vm_compute; reflexivity).
  destruct (tick_nohz_get_sleep_length_after_stop idle_env 100200000 0 idle_scenario
              150000000 armed_scenario Hv Hr) as (Hsl & Hlj & Hnj & _).
  rewrite Hsl, Hlj, Hnj. vm_compute. auto.
Defined.

(** ** The time base as a function of itself *)

Lemma same_timebase_refl st : same_timebase st st.
Proof. unfold same_timebase. auto. Qed.

Lemma same_timebase_sym st st' : same_timebase st st' -> same_timebase st' st.
Proof. unfold same_timebase. intuition congruence. Qed.

Lemma same_timebase_trans st1 st2 st3 :
  same_timebase st1 st2 -> same_timebase st2 st3 -> same_timebase st1 st3.
Proof. unfold same_timebase. intuition congruence. Qed.

Lemma same_timebase_set_per_cpu c pc st : same_timebase st (set_per_cpu c pc st).
Proof. unfold same_timebase, set_per_cpu. now destruct (c <? 0). Qed.

Lemma same_timebase_put_ts c ts st : same_timebase st (put_ts c ts st).
Proof. apply same_timebase_set_per_cpu. Qed.

Lemma same_timebase_emit ev st : same_timebase st (emit ev st).
Proof. unfold same_timebase. auto. Qed.

(** The update of the time base reads and writes the time base only. *)
Lemma tick_do_update_jiffies64_ext now st st' :
  same_timebase st st' ->
  same_timebase (tick_do_update_jiffies64 now st) (tick_do_update_jiffies64 now st').
Proof.
  intros (Hj & Hl & Hn & Hp). unfold same_timebase, tick_do_update_jiffies64.
  destruct st as [j l n p d nr en rl cp ev], st' as [j' l' n' p' d' nr' en' rl' cp' ev'].
  cbn [jiffies_64 last_jiffies_update tick_next_period tick_period] in *.
  subst. unfold do_timer, emit, ktime_to_ns.
  cbn [jiffies_64 tick_period last_jiffies_update tick_next_period events
       set_last_jiffies_update set_jiffies_64 set_events set_tick_next_period].
  destruct (_ <? _); [auto |]. destruct (_ >=? _); [| auto].
  destruct (_ >=? _);
    cbn [jiffies_64 tick_period last_jiffies_update tick_next_period events
         set_last_jiffies_update set_jiffies_64 set_events set_tick_next_period];
    auto.
Qed.

Section TimebaseChain.

Variable st0 : kstate.

Lemma tb_set_per_cpu c pc st :
  same_timebase st0 st -> same_timebase st0 (set_per_cpu c pc st).
Proof. intros H. eapply same_timebase_trans; [exact H | apply same_timebase_set_per_cpu]. Qed.

Lemma tb_put_ts c ts st : same_timebase st0 st -> same_timebase st0 (put_ts c ts st).
Proof. apply tb_set_per_cpu. Qed.

Lemma tb_emit ev st : same_timebase st0 st -> same_timebase st0 (emit ev st).
Proof. intros H. eapply same_timebase_trans; [exact H | apply same_timebase_emit]. Qed.

Lemma tb_set_tick_do_timer_cpu v st :
  same_timebase st0 st -> same_timebase st0 (set_tick_do_timer_cpu v st).
Proof. now intros H. Qed.

Lemma tb_set_nr_cpus_user_nohz v st :
  same_timebase st0 st -> same_timebase st0 (set_nr_cpus_user_nohz v st).
Proof. now intros H. Qed.

Lemma tb_hrtimer_start c x armed st :
  same_timebase st0 st -> same_timebase st0 (hrtimer_start c x armed st).
Proof. intros H. unfold hrtimer_start. now apply tb_emit, tb_set_per_cpu. Qed.

Lemma tb_hrtimer_cancel c st :
  same_timebase st0 st -> same_timebase st0 (hrtimer_cancel c st).
Proof. intros H. unfold hrtimer_cancel. now apply tb_emit, tb_set_per_cpu. Qed.

Lemma tb_tick_program_event c x armed st :
  same_timebase st0 st -> same_timebase st0 (snd (tick_program_event c x armed st)).
Proof. intros H. unfold tick_program_event. cbn [snd]. now apply tb_emit, tb_set_per_cpu. Qed.

Lemma tb_hrtimer_set_expires c x st :
  same_timebase st0 st -> same_timebase st0 (hrtimer_set_expires c x st).
Proof. intros H. unfold hrtimer_set_expires. now apply tb_put_ts. Qed.

Lemma tb_hrtimer_forward c now interval st :
  same_timebase st0 st -> same_timebase st0 (hrtimer_forward c now interval st).
Proof.
  intros H. unfold hrtimer_forward. destruct (_ <? _); [assumption |].
  now apply tb_hrtimer_set_expires.
Qed.

Lemma tb_raise_softirq_irqoff c st :
  same_timebase st0 st -> same_timebase st0 (raise_softirq_irqoff c st).
Proof. intros H. unfold raise_softirq_irqoff. now apply tb_emit. Qed.

End TimebaseChain.

Create HintDb timebase.

#[local] Hint Resolve same_timebase_refl tb_set_per_cpu tb_put_ts tb_emit
  tb_set_tick_do_timer_cpu tb_set_nr_cpus_user_nohz tb_hrtimer_start tb_hrtimer_cancel
  tb_tick_program_event tb_hrtimer_set_expires tb_hrtimer_forward
  tb_raise_softirq_irqoff : timebase.

Lemma stop_sched_tick_duty_timebase e cpu st h td st2 :
  valid_cpu st cpu ->
  stop_sched_tick_duty e cpu st = (h, td, st2) -> same_timebase st st2.
Proof.
  intros Hv HD. unfold stop_sched_tick_duty in HD. revert HD.
  unfold duty_step_quiet, stop_sched_tick_limit.
  split_tests; intros [= <- <- <-]; auto 10 with timebase.
Qed.

(** The time base and the armed event after the arming block. *)
Lemma stop_sched_tick_arm_timebase e cpu x st :
  valid_cpu st cpu ->
  (x = KTIME_MAX \/ timer_armed_ok e = true ->
   same_timebase st (stop_sched_tick_arm e cpu x st))
  /\ (x <> KTIME_MAX -> timer_armed_ok e = false ->
      same_timebase (tick_do_update_jiffies64 (ktime_get_late e) st)
        (stop_sched_tick_arm e cpu x st))
  /\ (x <> KTIME_MAX -> next_event (per_cpu (stop_sched_tick_arm e cpu x st) cpu) = x).
Proof.
  intros Hv. unfold stop_sched_tick_arm.
  set (st1 := if negb _ then _ else st).
  assert (Hv1 : valid_cpu st1 cpu) by (unfold st1; destruct (negb _); now percpu).
  assert (Htb : same_timebase st st1)
    by (unfold st1; destruct (negb _); auto with timebase).
  clearbody st1. splits.
  - intros [-> | Hok].
    + rewrite Z.eqb_refl. destruct (tick_nohz_mode_eqb _ _); auto with timebase.
    + rewrite Hok. destruct (x =? KTIME_MAX); destruct (tick_nohz_mode_eqb _ _);
        rewrite ?hrtimer_start_get_ts by assumption; unfold tick_program_event;
        cbn [hrt_active sched_timer set_sched_timer Z.eqb]; auto 10 with timebase.
  - intros Hx Hok. destruct (Z.eqb_spec x KTIME_MAX); [contradiction |]. rewrite Hok.
    destruct (tick_nohz_mode_eqb _ _);
      rewrite ?hrtimer_start_get_ts by assumption; unfold tick_program_event;
      cbn [hrt_active sched_timer set_sched_timer Z.eqb];
      unfold raise_softirq_irqoff; apply tb_emit, tick_do_update_jiffies64_ext;
      auto 10 with timebase.
  - intros Hx. destruct (Z.eqb_spec x KTIME_MAX); [contradiction |].
    destruct (tick_nohz_mode_eqb _ _).
    + rewrite hrtimer_start_get_ts by assumption.
      cbn [hrt_active sched_timer set_sched_timer].
      unfold raise_softirq_irqoff, hrtimer_start.
      destruct (timer_armed_ok e); percpu; reflexivity.
    + unfold tick_program_event, raise_softirq_irqoff.
      destruct (timer_armed_ok e); cbn [Z.eqb]; percpu; reflexivity.
Qed.

(** ** IdleTickController: a programmed expiry that is already past *)

(** X8.  When a call stops the tick at an expiry [r] short of the end of
    time it programs the timer exactly once, for [r], and [r] is what is
    armed on the device when it returns.  If the hardware accepts the
    expiry, that is all it leaves in the trace.  If the expiry turns out
    to be past already, the call does not leave the CPU waiting for it: it
    brings the time base up to the clock and raises TIMER_SOFTIRQ. *)
Theorem stop_sched_tick_arming_late (e : env) (now : ktime_t) (cpu : Z) (st : kstate)
    (r : ktime_t) (st' : kstate) :
  valid_cpu st cpu ->
  tick_nohz_stop_sched_tick e [] now cpu st = Some (r, st') ->
  r <> 0 -> r <> KTIME_MAX ->
  let p := program_event (nohz_mode (get_ts st cpu)) cpu r in
  tick_stopped (get_ts st' cpu) = true
  /\ next_event (per_cpu st' cpu) = r
  /\ (timer_armed_ok e = true ->
      events st' = events st ++ [p] /\ same_timebase st st')
  /\ (timer_armed_ok e = false ->
      (exists l,
         events st' = events st ++ [p] ++ l ++ [EvRaiseTimerSoftirq cpu]
         /\ (l = [] \/ exists k, l = [EvDoTimer k]))
      /\ same_timebase (tick_do_update_jiffies64 (ktime_get_late e) st) st').
Proof.
  intros Hv Hr Hr0 Hrmax. cbn zeta.
  destruct (stop_sched_tick_frame e now cpu st r st' Hv Hr)
    as (_ & _ & _ & _ & _ & _ & _ & _ & _ & _ & Hstop).
  destruct (stop_sched_tick_cases e now cpu st r st' Hv Hr)
    as [(H0 & _) | (h & td & st2 & HD & _ & _ & _ & Hst')]; [contradiction |].
  destruct (stop_sched_tick_duty_facts e cpu st h td st2 Hv HD) as (Hv2 & Hev2 & _).
  destruct (stop_sched_tick_duty_ts e cpu st h td st2 Hv HD) as (Hts2 & _).
  pose proof (stop_sched_tick_duty_timebase e cpu st h td st2 Hv HD) as Htb2.
  assert (Hm2 : nohz_mode (get_ts st2 cpu) = nohz_mode (get_ts st cpu))
    by now rewrite Hts2.
  destruct (stop_sched_tick_arm_events e cpu r st2 Hv2) as (_ & Hok & Hlate).
  destruct (stop_sched_tick_arm_timebase e cpu r st2 Hv2) as (Htbok & Htblate & Hne).
  destruct (stop_sched_tick_arm_ts e cpu r st2 Hv2) as (Hv3 & _).
  cbn zeta in Hok, Hlate. rewrite Hm2, Hev2 in Hok, Hlate.
  set (st3 := stop_sched_tick_arm e cpu r st2) in *.
  assert (Htb3 : same_timebase st3 st')
    by (rewrite Hst'; unfold stop_sched_tick_out; cbn [snd]; apply same_timebase_put_ts).
  splits.
  - now apply Hstop.
  - rewrite Hst', stop_sched_tick_out_next_event by assumption. now apply Hne.
  - intros Hto. rewrite Hst', stop_sched_tick_out_events. split; [now apply Hok |].
    apply (same_timebase_trans st st2); [assumption |].
    apply (same_timebase_trans st2 st3); [| now rewrite <- Hst'].
    apply Htbok. now right.
  - intros Hto. rewrite Hst', stop_sched_tick_out_events. split; [now apply Hlate |].
    rewrite <- Hst'.
    apply (same_timebase_trans _ st3); [| assumption].
    apply (same_timebase_trans _ (tick_do_update_jiffies64 (ktime_get_late e) st2));
      [now apply tick_do_update_jiffies64_ext | now apply Htblate].
Qed.

Lemma stop_sched_tick_arming_late_witness :
  tick_stopped (get_ts late_scenario 0) = true
  /\ next_event (per_cpu late_scenario 0) = 150000000
  /\ (exists l,
        events late_scenario
        = [EvHrtimerStart 0 150000000] ++ l ++ [EvRaiseTimerSoftirq 0]
        /\ (l = [] \/ exists k, l = [EvDoTimer k]))
  /\ jiffies_64 late_scenario = 152.
Proof.
  assert (Hv : valid_cpu idle_scenario 0) by (vm_compute; intuition congruence).
  assert (Hr : tick_nohz_stop_sched_tick late_idle_env [] 100200000 0 idle_scenario
               = Some (150000000, late_scenario)) by (vm_compute; reflexivity).
  assert (H0 : 150000000 <> 0) by discriminate.
  assert (Hm : 150000000 <> KTIME_MAX) by discriminate.
  destruct (stop_sched_tick_arming_late late_idle_env 100200000 0 idle_scenario
              150000000 late_scenario Hv Hr H0 Hm) as (Hs & Hn & _ & Hlate).
  destruct (Hlate eq_refl) as (Hev & Hj & _).
  splits; [exact Hs | exact Hn | exact Hev | rewrite Hj; vm_compute; reflexivity].
Defined.

(** ** IdleTickController: how long a CPU may sleep *)

Lemma stop_sched_tick_jiffies_nonneg e st : 0 <= snd (stop_sched_tick_jiffies e st).
Proof.
  unfold stop_sched_tick_jiffies. destruct (_ || _); cbn [snd]; [lia |].
  unfold wrap_u64. apply Z.mod_pos_bound. lia.
Qed.

(** X9.  The expiry a call returns is never later than the next timer of
    the CPU, as long as that timer is near enough to be expressed in
    nanoseconds, and a CPU that held the duty when it entered the call is
    never told to sleep longer than the timekeeping can defer.  Nothing
    else than the returned expiry is programmed. *)
Theorem stop_sched_tick_never_oversleeps (e : env) (now : ktime_t) (cpu : Z)
    (st : kstate) (r : ktime_t) (st' : kstate) :
  valid_cpu st cpu ->
  tick_nohz_stop_sched_tick e [] now cpu st = Some (r, st') ->
  0 <= last_jiffies_update st -> 0 < tick_period st ->
  0 <= timekeeping_max_deferment e ->
  let last_update := last_jiffies_update st in
  let dj := snd (stop_sched_tick_jiffies e st) in
  (dj < NEXT_TIMER_MAX_DELTA -> last_update + tick_period st * dj < 2 ^ 63 ->
   r <= last_update + tick_period st * dj)
  /\ (tick_do_timer_cpu st = cpu ->
      last_update + timekeeping_max_deferment e < KTIME_MAX ->
      r <= last_update + timekeeping_max_deferment e)
  /\ exists l,
       events st' = events st ++ l
       /\ forall ev x, In ev l -> programmed_expiry ev = Some x -> x = r.
Proof.
  intros Hv Hr Hlu Hp Hmd. cbn zeta.
  pose proof (stop_sched_tick_jiffies_nonneg e st) as Hdj.
  destruct (stop_sched_tick_cases e now cpu st r st' Hv Hr)
    as [(-> & Hev) | (h & td & st2 & HD & Hh & Hlong & Hrx & Hst')].
  - splits.
    + intros _ _. nia.
    + intros _ _. lia.
    + destruct Hev as [Hev | Hev]; [exists [] | exists [EvRaiseTimerSoftirq cpu]];
        (split; [now rewrite ?app_nil_r |]); intros ev x Hin; cbn in Hin;
        intuition subst; discriminate.
  - destruct (stop_sched_tick_duty_facts e cpu st h td st2 Hv HD) as (Hv2 & Hev2 & _).
    destruct (stop_sched_tick_duty_ts e cpu st h td st2 Hv HD)
      as (_ & _ & _ & _ & Htd & Hprev).
    cbn zeta in Hrx.
    set (dj := snd (stop_sched_tick_jiffies e st)) in *.
    splits.
    + intros Hnear Hfit. rewrite Hrx. unfold stop_sched_tick_expires, ktime_add_ns.
      destruct (Z.ltb_spec dj NEXT_TIMER_MAX_DELTA); [| lia].
      rewrite (wrap_u64_id (tick_period st * dj)) by (unfold u64_range; nia).
      unfold KTIME_MAX in *.
      destruct (Z.ltb_spec (Z.min td (tick_period st * dj)) (2 ^ 63 - 1)); [| lia].
      rewrite wrap_s64_id; [lia |]. unfold s64_range.
      assert (0 <= tick_period st * dj) by nia.
      destruct Htd as [-> | ->]; lia.
    + intros Hduty Hfit. specialize (Hprev Hduty). subst td.
      rewrite Hrx. unfold stop_sched_tick_expires, ktime_add_ns.
      pose proof (wrap_u64_range (tick_period st * dj)) as Hw. unfold u64_range in Hw.
      unfold KTIME_MAX in *.
      destruct (dj <? NEXT_TIMER_MAX_DELTA).
      * destruct (Z.ltb_spec
                    (Z.min (timekeeping_max_deferment e) (wrap_u64 (tick_period st * dj)))
                    (2 ^ 63 - 1)); [| lia].
        rewrite wrap_s64_id; [lia |]. unfold s64_range. lia.
      * destruct (Z.ltb_spec (timekeeping_max_deferment e) (2 ^ 63 - 1)); [| lia].
        rewrite wrap_s64_id; [lia |]. unfold s64_range. lia.
    + destruct (stop_sched_tick_arm_events e cpu r st2 Hv2) as (Hmax & Hok & Hlate).
      cbn zeta in Hmax, Hok, Hlate. rewrite Hst', stop_sched_tick_out_events.
      rewrite Hev2 in Hmax, Hok, Hlate.
      destruct (Z.eq_dec r KTIME_MAX) as [Hm | Hm].
      * eexists. split; [now apply Hmax |].
        intros ev x Hin. destruct (tick_nohz_mode_eqb _ _); cbn in Hin;
          intuition subst; discriminate.
      * destruct (timer_armed_ok e) eqn:Harm.
        -- eexists. split; [now apply Hok |].
           intros ev x Hin. unfold program_event in Hin.
           destruct (tick_nohz_mode_eqb _ _); cbn in Hin;
             intuition subst; cbn in *; congruence.
        -- destruct (Hlate Hm eq_refl) as (l & Hl & Hcase).
           eexists. split; [exact Hl |].
           intros ev x Hin. unfold program_event in Hin.
           destruct Hcase as [-> | [k ->]];
             destruct (tick_nohz_mode_eqb _ _); cbn in Hin;
             intuition subst; cbn in *; congruence.
Qed.

Lemma stop_sched_tick_never_oversleeps_witness :
  exists r st',
    tick_nohz_stop_sched_tick idle_env [] 100200000 0 idle_scenario = Some (r, st')
    /\ r <= 150000000
    /\ r <= 500000000.
Proof.
  assert (Hr : tick_nohz_stop_sched_tick idle_env [] 100200000 0 idle_scenario
               = Some (150000000, armed_scenario)) by (vm_compute; reflexivity).
  pose proof (stop_sched_tick_never_oversleeps idle_env 100200000 0 idle_scenario
                150000000 armed_scenario) as H.
  discharge H. destruct H as (Hnext & Hdefer & _).
  exists 150000000, armed_scenario. splits; [exact Hr | |].
  - apply Hnext; vm_compute; reflexivity.
  - apply Hdefer; vm_compute; reflexivity.
Defined.

(** ** IdleTickController: the CPU that has the duty *)

(** The duty step of a CPU that holds the duty while no CPU is adaptive:
    it drops the duty and notes that it had it last; the sleep is limited
    to what the timekeeping can defer. *)
Lemma stop_sched_tick_duty_dropped e cpu st :
  tick_do_timer_cpu st = cpu ->
  nr_cpus_user_nohz st <= 0 ->
  stop_sched_tick_duty e cpu st
  = (TICK_DO_TIMER_NONE, timekeeping_max_deferment e,
     put_ts cpu (set_do_timer_last true (get_ts st cpu))
       (set_tick_do_timer_cpu TICK_DO_TIMER_NONE st)).
Proof.
  intros Hd Hn. unfold stop_sched_tick_duty, duty_step_quiet.
  destruct (Z.gtb_spec (nr_cpus_user_nohz st) 0); [lia |].
  rewrite Hd, Z.eqb_refl. unfold stop_sched_tick_limit. rewrite Z.eqb_refl.
  reflexivity.
Qed.

Lemma stop_sched_tick_out_duty c now nj lj ret st :
  tick_do_timer_cpu (snd (stop_sched_tick_out c now nj lj ret st)) = tick_do_timer_cpu st.
Proof.
  unfold stop_sched_tick_out, put_ts, set_per_cpu. cbn [snd].
  now destruct (c <? 0).
Qed.

(** A CPU that had the duty and drops it, with no adaptive CPU around,
    stops its tick; the device is programmed once, for the time base plus
    the sleep, and the sleep is no longer than the timekeeping allows. *)
Lemma stop_sched_tick_drops_duty e now cpu st :
  valid_cpu st cpu ->
  tick_do_timer_cpu st = cpu ->
  nr_cpus_user_nohz st <= 0 ->
  tick_stopped (get_ts st cpu) = false ->
  let delta_jiffies := snd (stop_sched_tick_jiffies e st) in
  delta_jiffies <> 1 ->
  1 <= as_long delta_jiffies ->
  0 <= last_jiffies_update st ->
  0 <= timekeeping_max_deferment e ->
  last_jiffies_update st + timekeeping_max_deferment e < KTIME_MAX ->
  let sleep :=
    if delta_jiffies <? NEXT_TIMER_MAX_DELTA
    then Z.min (timekeeping_max_deferment e) (wrap_u64 (tick_period st * delta_jiffies))
    else timekeeping_max_deferment e in
  let expires := last_jiffies_update st + sleep in
  0 <= sleep <= timekeeping_max_deferment e
  /\ exists st',
       tick_nohz_stop_sched_tick e [] now cpu st = Some (expires, st')
       /\ tick_stopped (get_ts st' cpu) = true
       /\ tick_do_timer_cpu st' = TICK_DO_TIMER_NONE
       /\ do_timer_last (get_ts st' cpu) = true
       /\ last_tick (get_ts st' cpu) = hrt_expires (sched_timer (get_ts st cpu))
       /\ next_event (per_cpu st' cpu) = expires
       /\ sleep_length (get_ts st' cpu) = ktime_sub expires now
       /\ timer_programs st' = S (timer_programs st)
       /\ (timer_armed_ok e = true ->
           events st'
           = events st ++ [program_event (nohz_mode (get_ts st cpu)) cpu expires]).
Proof.
  intros Hv Hduty Hnr Hrun. cbn zeta. intros Hd1 Hd Hlu Hmd Hfit.
  assert (Hcpu : 0 <= cpu) by (unfold valid_cpu in Hv; lia).
  rewrite tick_nohz_stop_sched_tick_stages by assumption.
  destruct (stop_sched_tick_jiffies e st) as [[lj nj] dj]. cbn [snd] in *.
  set (sleep := if dj <? NEXT_TIMER_MAX_DELTA then _ else _).
  assert (Hsleep : 0 <= sleep <= timekeeping_max_deferment e).
  { unfold sleep. pose proof (wrap_u64_range (tick_period st * dj)) as Hw.
    unfold u64_range in Hw. destruct (dj <? NEXT_TIMER_MAX_DELTA); lia. }
  split; [exact Hsleep |].
  rewrite (stop_sched_tick_duty_dropped e cpu st Hduty Hnr).
  pose proof (stop_sched_tick_duty_facts e cpu st _ _ _ Hv
                (stop_sched_tick_duty_dropped e cpu st Hduty Hnr))
    as (Hv2 & Hev2 & _ & _ & _ & Hs2 & _).
  set (st2 := put_ts cpu (set_do_timer_last true (get_ts st cpu))
                (set_tick_do_timer_cpu TICK_DO_TIMER_NONE st)) in *.
  assert (Hts2 : get_ts st2 cpu = set_do_timer_last true (get_ts st cpu))
    by (unfold st2; now percpu).
  assert (Hper2 : tick_period st2 = tick_period st)
    by (unfold st2, put_ts, set_per_cpu; now destruct (cpu <? 0)).
  assert (Hduty2 : tick_do_timer_cpu st2 = TICK_DO_TIMER_NONE)
    by (unfold st2, put_ts, set_per_cpu; now destruct (cpu <? 0)).
  rewrite Hrun. destruct (Z.eqb_spec dj 1); [contradiction |]. cbn [negb andb].
  destruct (Z.geb_spec (as_long dj) 1); [| lia].
  unfold TICK_DO_TIMER_NONE at 1. destruct (Z.eqb_spec (-1) cpu); [lia |].
  rewrite Hs2, Hrun. cbn [andb].
  assert (Hx : stop_sched_tick_expires (last_jiffies_update st) (tick_period st2)
                 (timekeeping_max_deferment e) dj
               = last_jiffies_update st + sleep).
  { unfold stop_sched_tick_expires. rewrite Hper2. fold sleep.
    unfold KTIME_MAX in *. destruct (Z.ltb_spec sleep (2 ^ 63 - 1)); [| lia].
    unfold ktime_add_ns. apply wrap_s64_id. unfold s64_range. lia. }
  rewrite Hx. set (expires := last_jiffies_update st + sleep).
  assert (Hmax : expires <> KTIME_MAX) by (unfold expires; lia).
  destruct (stop_sched_tick_arm_ts e cpu expires st2 Hv2) as (Hv3 & Hts3 & _ & _ & Hd3 & _).
  destruct (stop_sched_tick_arm_events e cpu expires st2 Hv2) as (_ & Hok & Hlate).
  destruct (stop_sched_tick_arm_timebase e cpu expires st2 Hv2) as (_ & _ & Hne).
  cbn zeta in Hts3, Hok, Hlate.
  rewrite Hts2 in Hts3, Hok, Hlate. rewrite Hev2 in Hok, Hlate.
  cbn [nohz_mode tick_stopped set_do_timer_last] in Hts3, Hok, Hlate.
  rewrite Hrun in Hts3.
  set (st3 := stop_sched_tick_arm e cpu expires st2) in *.
  exists (snd (stop_sched_tick_out cpu now nj lj expires st3)).
  split; [reflexivity |].
  rewrite stop_sched_tick_out_duty, stop_sched_tick_out_next_event,
    stop_sched_tick_out_events, stop_sched_tick_out_ts by assumption.
  rewrite (Hne Hmax), Hd3, Hts3. fields.
  splits; try reflexivity; try assumption.
  - unfold timer_programs. rewrite stop_sched_tick_out_events.
    assert (Hp : is_timer_program
                   (program_event (nohz_mode (get_ts st cpu)) cpu expires) = true)
      by (unfold program_event; now destruct (tick_nohz_mode_eqb _ _)).
    destruct (timer_armed_ok e) eqn:Harmed.
    + rewrite (Hok Hmax eq_refl), List.filter_app, length_app. cbn [List.filter].
      rewrite Hp. cbn [length]. lia.
    + destruct (Hlate Hmax eq_refl) as (l & -> & Hl).
      rewrite !List.filter_app, !length_app. cbn [List.filter]. rewrite Hp.
      destruct Hl as [-> | [k ->]]; cbn; lia.
  - intros Harmed. now apply Hok.
Qed.

(** C2, as the code has it.  When the duty step ends with this CPU
    claiming or retaining the duty, [tick_nohz_stop_sched_tick] does not
    stop the tick in that call: it returns 0, programs no timer and leaves
    [tick_stopped], the scheduled timer, the saved tick and the armed
    expiry as they were, so that a tick that was running keeps running.
    The cap of the sleep length to the maximum deferment is for the CPU
    that had the duty on entry and dropped it, no CPU being adaptive: its
    tick is stopped with the expiry last_jiffies_update + sleep, where
    sleep is the smaller of timekeeping_max_deferment() and the distance to
    the next timer (tick_period * delta_jiffies as a u64; the deferment
    alone when that timer is NEXT_TIMER_MAX_DELTA jiffies away or more),
    hence never more than the deferment after the last update.  That
    expiry is what the call returns, what it programs, once, and what is
    armed on the device afterwards.  The second part supposes that
    last_jiffies_update and the deferment are not negative and that their
    sum lies below KTIME_MAX. *)
Theorem stop_tick_duty_spec (e : env) (now : ktime_t) (cpu : Z) (st : kstate) :
  valid_cpu st cpu ->
  (forall st1,
     check_drop_timer_duty e cpu [] st = Some (cpu, st1) ->
     exists st',
       tick_nohz_stop_sched_tick e [] now cpu st = Some (0, st')
       /\ timer_programs st' = timer_programs st
       /\ tick_stopped (get_ts st' cpu) = tick_stopped (get_ts st cpu)
       /\ (tick_stopped (get_ts st cpu) = false -> tick_stopped (get_ts st' cpu) = false)
       /\ sched_timer (get_ts st' cpu) = sched_timer (get_ts st cpu)
       /\ last_tick (get_ts st' cpu) = last_tick (get_ts st cpu)
       /\ next_event (per_cpu st' cpu) = next_event (per_cpu st cpu))
  /\ (tick_do_timer_cpu st = cpu ->
      nr_cpus_user_nohz st <= 0 ->
      tick_stopped (get_ts st cpu) = false ->
      let delta_jiffies := snd (stop_sched_tick_jiffies e st) in
      delta_jiffies <> 1 ->
      1 <= as_long delta_jiffies ->
      0 <= last_jiffies_update st ->
      0 <= timekeeping_max_deferment e ->
      last_jiffies_update st + timekeeping_max_deferment e < KTIME_MAX ->
      let sleep :=
        if delta_jiffies <? NEXT_TIMER_MAX_DELTA
        then Z.min (timekeeping_max_deferment e)
               (wrap_u64 (tick_period st * delta_jiffies))
        else timekeeping_max_deferment e in
      let expires := last_jiffies_update st + sleep in
      0 <= sleep <= timekeeping_max_deferment e
      /\ exists st',
           tick_nohz_stop_sched_tick e [] now cpu st = Some (expires, st')
           /\ tick_stopped (get_ts st' cpu) = true
           /\ tick_do_timer_cpu st' = TICK_DO_TIMER_NONE
           /\ do_timer_last (get_ts st' cpu) = true
           /\ last_tick (get_ts st' cpu) = hrt_expires (sched_timer (get_ts st cpu))
           /\ next_event (per_cpu st' cpu) = expires
           /\ sleep_length (get_ts st' cpu) = ktime_sub expires now
           /\ timer_programs st' = S (timer_programs st)
           /\ (timer_armed_ok e = true ->
               events st'
               = events st ++ [program_event (nohz_mode (get_ts st cpu)) cpu expires])).
Proof.
  intros Hv. split.
  - intros st1 Hduty.
    destruct (stop_sched_tick_with_duty e now cpu st st1 Hv Hduty)
      as (st' & Hret & Hprog & Hstop & Htimer & Hlast & Hnext).
    exists st'. splits; try assumption. intros Hrun. now rewrite Hstop.
  - intros Hduty Hnr Hrun. cbn zeta. intros Hd1 Hd Hlu Hmd Hfit.
    exact (stop_sched_tick_drops_duty e now cpu st Hv Hduty Hnr Hrun Hd1 Hd Hlu Hmd Hfit).
Qed.

(** C2 as the spec words it, in the spec's own scenario: two adaptive
    CPUs, nobody has the duty, CPU 0 goes idle with the next timer 50
    jiffies away.  CPU 0 claims the duty, and its tick is not stopped:
    nothing is programmed and the call returns 0. *)
Lemma stop_tick_claiming_duty_not_stopped :
  exists st1 st',
    check_drop_timer_duty idle_env 0 [] adaptive_scenario = Some (0, st1)
    /\ tick_nohz_stop_sched_tick idle_env [] 100200000 0 adaptive_scenario = Some (0, st')
    /\ tick_do_timer_cpu st' = 0
    /\ tick_stopped (get_ts st' 0) = false
    /\ timer_programs st' = 0%nat
    /\ next_event (per_cpu st' 0) = 101000000.
Proof. eexists _, _. vm_compute. repeat split; reflexivity. Qed.

Lemma stop_tick_duty_spec_witness :
  (exists st',
     tick_nohz_stop_sched_tick idle_env [] 100200000 0 adaptive_scenario = Some (0, st')
     /\ tick_stopped (get_ts st' 0) = false)
  /\ (exists st',
        tick_nohz_stop_sched_tick idle_env [] 100200000 0 idle_scenario
          = Some (150000000, st')
        /\ tick_stopped (get_ts st' 0) = true
        /\ tick_do_timer_cpu st' = TICK_DO_TIMER_NONE
        /\ next_event (per_cpu st' 0) = 150000000
        /\ events st' = [EvHrtimerStart 0 150000000]).
Proof.
  assert (Hva : valid_cpu adaptive_scenario 0) by (vm_compute; intuition congruence).
  assert (Hvi : valid_cpu idle_scenario 0) by (vm_compute; intuition congruence).
  destruct (stop_tick_duty_spec idle_env 100200000 0 adaptive_scenario Hva) as [Hkeep _].
  destruct (stop_tick_duty_spec idle_env 100200000 0 idle_scenario Hvi) as [_ Hdrop].
  split.
  - destruct (Hkeep (set_tick_do_timer_cpu 0 adaptive_scenario))
      as (st' & H1 & _ & _ & H2 & _).
    + vm_compute. reflexivity.
    + exists st'. split; [exact H1 |]. apply H2. reflexivity.
  - discharge Hdrop.
    destruct Hdrop as (_ & st' & H1 & H2 & H3 & _ & _ & H4 & _ & _ & H5).
    exists st'. splits; [exact H1 | exact H2 | exact H3 | exact H4 | exact (H5 eq_refl)].
Defined.

(** ** Tick restoration: what it leaves alone *)

Lemma set_sched_timer_twice t1 t2 ts :
  set_sched_timer t2 (set_sched_timer t1 ts) = set_sched_timer t2 ts.
Proof. reflexivity. Qed.

Lemma timer_only_refl c st : valid_cpu st c -> timer_only c st st.
Proof.
  intros Hv. unfold timer_only. splits; try reflexivity; try assumption.
  now rewrite set_sched_timer_same.
Qed.

Lemma timer_only_trans c st1 st2 st3 :
  timer_only c st1 st2 -> timer_only c st2 st3 -> timer_only c st1 st3.
Proof.
  unfold timer_only.
  intros (_ & Ht1 & Hq1 & Hf1 & Hd1 & Hn1 & Hp1 & He1)
         (Hv2 & Ht2 & Hq2 & Hf2 & Hd2 & Hn2 & Hp2 & He2).
  splits; try congruence. rewrite Ht2 at 1. rewrite Ht1. reflexivity.
Qed.

Section TimerOnlyChain.

Variable c : Z.
Variable st0 : kstate.

Lemma to_emit ev st : timer_only c st0 st -> timer_only c st0 (emit ev st).
Proof. unfold timer_only. percpu. auto. Qed.

Lemma to_set_timer (t : hrtimer) st :
  timer_only c st0 st ->
  timer_only c st0 (put_ts c (set_sched_timer t (get_ts st c)) st).
Proof.
  unfold timer_only. intros (Hv & Ht & Hq & Hf & Hd & Hn & Hp & He).
  assert (Hen : tick_nohz_enabled (put_ts c (set_sched_timer t (get_ts st c)) st)
                = tick_nohz_enabled st)
    by (unfold put_ts, set_per_cpu; now destruct (c <? 0)).
  rewrite Hen. percpu. splits; try assumption. fields. now rewrite Ht.
Qed.

Lemma to_set_next_event x st :
  timer_only c st0 st ->
  timer_only c st0 (set_per_cpu c (set_next_event x (per_cpu st c)) st).
Proof.
  unfold timer_only. intros (Hv & Ht & Hq & Hf & Hd & Hn & Hp & He).
  assert (Hen : tick_nohz_enabled (set_per_cpu c (set_next_event x (per_cpu st c)) st)
                = tick_nohz_enabled st)
    by (unfold set_per_cpu; now destruct (c <? 0)).
  rewrite Hen. percpu. splits; try assumption.
Qed.

Lemma to_tick_do_update_jiffies64 now st :
  timer_only c st0 st -> timer_only c st0 (tick_do_update_jiffies64 now st).
Proof. unfold timer_only. percpu. auto. Qed.

Lemma to_hrtimer_start x armed st :
  timer_only c st0 st -> timer_only c st0 (hrtimer_start c x armed st).
Proof.
  intros H. unfold hrtimer_start. apply to_emit.
  pose proof (to_set_next_event x _ (to_set_timer {| hrt_expires := x; hrt_active := armed |}
                                       st H)) as H1.
  destruct H as (Hv & _).
  unfold put_ts in H1. rewrite per_cpu_set_eq, set_per_cpu_twice in H1 by assumption.
  exact H1.
Qed.

Lemma to_hrtimer_cancel st :
  timer_only c st0 st -> timer_only c st0 (hrtimer_cancel c st).
Proof.
  intros H. unfold hrtimer_cancel. apply to_emit.
  pose proof (to_set_next_event KTIME_MAX _
                (to_set_timer {| hrt_expires := hrt_expires (sched_timer (get_ts st c));
                                 hrt_active := false |} st H)) as H1.
  destruct H as (Hv & _).
  unfold put_ts in H1. rewrite per_cpu_set_eq, set_per_cpu_twice in H1 by assumption.
  exact H1.
Qed.

Lemma to_tick_program_event x armed st :
  timer_only c st0 st -> timer_only c st0 (snd (tick_program_event c x armed st)).
Proof.
  intros H. unfold tick_program_event. cbn [snd]. now apply to_emit, to_set_next_event.
Qed.

Lemma to_hrtimer_set_expires x st :
  timer_only c st0 st -> timer_only c st0 (hrtimer_set_expires c x st).
Proof. intros H. unfold hrtimer_set_expires. now apply to_set_timer. Qed.

Lemma to_hrtimer_forward now interval st :
  timer_only c st0 st -> timer_only c st0 (hrtimer_forward c now interval st).
Proof.
  intros H. unfold hrtimer_forward. destruct (_ <? _); [assumption |].
  now apply to_hrtimer_set_expires.
Qed.

End TimerOnlyChain.

Create HintDb timeronly.

#[local] Hint Resolve to_emit to_set_timer to_set_next_event to_tick_do_update_jiffies64
  to_hrtimer_start to_hrtimer_cancel to_tick_program_event to_hrtimer_set_expires
  to_hrtimer_forward : timeronly.

Lemma to_tick_nohz_restart_loop c st0 clock : forall now st,
  timer_only c st0 st -> timer_only c st0 (tick_nohz_restart_loop c now clock st).
Proof.
  induction clock as [| later clock IH]; intros now st H; cbn [tick_nohz_restart_loop].
  - destruct (tick_nohz_mode_eqb _ _); auto with timeronly.
  - apply IH. destruct (tick_nohz_mode_eqb _ _); auto 10 with timeronly.
Qed.

Lemma tt_tick_nohz_restart_loop st0 c clock : forall now st,
  timer_trace st0 st -> timer_trace st0 (tick_nohz_restart_loop c now clock st).
Proof.
  induction clock as [| later clock IH]; intros now st H; cbn [tick_nohz_restart_loop].
  - destruct (tick_nohz_mode_eqb _ _); auto with trace.
  - apply IH. destruct (tick_nohz_mode_eqb _ _); auto 10 with trace.
Qed.

Lemma to_tick_nohz_restart c st0 e now st :
  timer_only c st0 st -> timer_only c st0 (tick_nohz_restart e c now st).
Proof.
  intros H. unfold tick_nohz_restart. apply to_tick_nohz_restart_loop.
  auto with timeronly.
Qed.

Lemma tt_tick_nohz_restart st0 e c now st :
  timer_trace st0 st -> timer_trace st0 (tick_nohz_restart e c now st).
Proof.
  intros H. unfold tick_nohz_restart. apply tt_tick_nohz_restart_loop. auto with trace.
Qed.

(** [__tick_nohz_restart_sched_tick] marks the tick running, notes the time
    and re-arms the timer; that is all it does to the CPU's area. *)
Lemma restart_sched_tick_body_ts e c now st :
  valid_cpu st c ->
  let st' := __tick_nohz_restart_sched_tick e c now st in
  valid_cpu st' c
  /\ get_ts st' c
     = set_sched_timer (sched_timer (get_ts st' c))
         (set_idle_exittime now (set_tick_stopped false (get_ts st c)))
  /\ nohz_task_ext_qs (per_cpu st' c) = nohz_task_ext_qs (per_cpu st c)
  /\ tif_nohz (per_cpu st' c) = tif_nohz (per_cpu st c)
  /\ tick_do_timer_cpu st' = tick_do_timer_cpu st
  /\ nr_cpus_user_nohz st' = nr_cpus_user_nohz st
  /\ timer_trace st st'.
Proof.
  intros Hv. cbn zeta. unfold __tick_nohz_restart_sched_tick.
  set (ts1 := set_idle_exittime now (set_tick_stopped false _)).
  set (st1 := put_ts c ts1 (tick_do_update_jiffies64 now st)).
  assert (Hv1 : valid_cpu st1 c) by (unfold st1; now percpu).
  assert (Hts1 : get_ts st1 c = set_idle_exittime now (set_tick_stopped false (get_ts st c)))
    by (unfold st1, ts1; now percpu).
  destruct (to_tick_nohz_restart c st1 e now st1 (timer_only_refl c st1 Hv1))
    as (Hv' & Ht & Hq & Hf & Hd & Hn & _).
  rewrite Ht at 1. rewrite Hq, Hf, Hd, Hn, Hts1. unfold st1. percpu.
  splits; try reflexivity; try assumption.
  apply tt_tick_nohz_restart, tt_put_ts, tt_tick_do_update_jiffies64, timer_trace_refl.
Qed.

(** ** The trace of the idle code *)

Lemma housekeeping_trace_refl st : housekeeping_trace st st.
Proof. exists []. now rewrite app_nil_r. Qed.

Lemma housekeeping_trace_trans st1 st2 st3 :
  housekeeping_trace st1 st2 -> housekeeping_trace st2 st3 -> housekeeping_trace st1 st3.
Proof.
  intros (l1 & H1 & F1) (l2 & H2 & F2). exists (l1 ++ l2).
  rewrite H2, H1, app_assoc, forallb_app, F1, F2. auto.
Qed.

Lemma housekeeping_trace_events st0 st st' :
  housekeeping_trace st0 st -> events st' = events st -> housekeeping_trace st0 st'.
Proof. intros (l & H & F) He. exists l. now rewrite He. Qed.

Lemma timer_trace_housekeeping st0 st : timer_trace st0 st -> housekeeping_trace st0 st.
Proof.
  intros (l & H & F). exists l. split; [assumption |].
  clear H. induction l as [| ev l IH]; [reflexivity |]. cbn in F |- *.
  apply andb_prop in F as [Fev Fl]. rewrite (IH Fl), andb_true_r.
  destruct ev; cbn in *; congruence.
Qed.

Lemma hk_emit st0 ev st :
  is_housekeeping_event ev = true ->
  housekeeping_trace st0 st -> housekeeping_trace st0 (emit ev st).
Proof.
  intros Hev (l & H & F). exists (l ++ [ev]). unfold emit. cbn [events set_events].
  rewrite H, app_assoc, forallb_app, F. cbn. now rewrite Hev.
Qed.

Lemma hk_put_ts st0 c ts st :
  housekeeping_trace st0 st -> housekeeping_trace st0 (put_ts c ts st).
Proof. intros H. apply (housekeeping_trace_events st0 st); [assumption | now percpu]. Qed.

Lemma housekeeping_trace_filter (p : event -> bool) st0 st :
  (forall ev, is_housekeeping_event ev = true -> p ev = false) ->
  housekeeping_trace st0 st ->
  List.filter p (events st) = List.filter p (events st0).
Proof.
  intros Hp (l & H & F). rewrite H, List.filter_app.
  assert (Hl : List.filter p l = []).
  { clear H. induction l as [| ev l IH]; [reflexivity |]. cbn in F |- *.
    apply andb_prop in F as [Fev Fl]. rewrite (Hp ev Fev). now apply IH. }
  rewrite Hl. apply app_nil_r.
Qed.

Lemma housekeeping_trace_accounted st0 st :
  housekeeping_trace st0 st -> accounted st = accounted st0.
Proof. apply housekeeping_trace_filter. now intros []. Qed.

Lemma housekeeping_trace_load_balancer st0 st :
  housekeeping_trace st0 st ->
  List.filter is_load_balancer (events st) = List.filter is_load_balancer (events st0).
Proof. apply housekeeping_trace_filter. now intros []. Qed.

Lemma timer_trace_accounted st0 st : timer_trace st0 st -> accounted st = accounted st0.
Proof. apply timer_trace_account. Qed.

Lemma accounted_emit ev st :
  accounted (emit ev st) = accounted st ++ if is_account ev then [ev] else [].
Proof.
  unfold accounted, emit. cbn [events set_events]. rewrite List.filter_app. cbn.
  now destruct (is_account ev).
Qed.

Lemma accounted_events st st' : events st' = events st -> accounted st' = accounted st.
Proof. unfold accounted. now intros ->. Qed.

(** What the flush accounts. *)
Lemma tick_nohz_account_ticks_accounted cpu st :
  accounted (tick_nohz_account_ticks cpu st)
  = accounted st
    ++ account_entry cpu (saved_jiffies_whence (get_ts st cpu)) (elapsed_ticks cpu st).
Proof.
  unfold tick_nohz_account_ticks, account_entry, elapsed_ticks,
    account_idle_ticks, account_user_ticks, account_system_ticks.
  destruct (negb _ && _); [| now rewrite app_nil_r].
  destruct (saved_jiffies_whence _); rewrite ?accounted_emit; cbn [is_account];
    now rewrite ?app_nil_r.
Qed.

Lemma tick_nohz_account_ticks_per_cpu cpu st c :
  per_cpu (tick_nohz_account_ticks cpu st) c = per_cpu st c.
Proof.
  unfold tick_nohz_account_ticks, account_idle_ticks, account_user_ticks,
    account_system_ticks. split_tests; reflexivity.
Qed.

Lemma tick_nohz_account_ticks_get_ts cpu st c :
  get_ts (tick_nohz_account_ticks cpu st) c = get_ts st c.
Proof. unfold get_ts. now rewrite tick_nohz_account_ticks_per_cpu. Qed.

Lemma tick_nohz_account_ticks_valid cpu st c :
  valid_cpu (tick_nohz_account_ticks cpu st) c = valid_cpu st c.
Proof.
  unfold tick_nohz_account_ticks, account_idle_ticks, account_user_ticks,
    account_system_ticks. split_tests; reflexivity.
Qed.

Lemma tick_nohz_account_ticks_jiffies cpu st :
  jiffies_64 (tick_nohz_account_ticks cpu st) = jiffies_64 st.
Proof.
  unfold tick_nohz_account_ticks, account_idle_ticks, account_user_ticks,
    account_system_ticks. split_tests; reflexivity.
Qed.

#[local] Hint Rewrite tick_nohz_account_ticks_per_cpu tick_nohz_account_ticks_get_ts
  tick_nohz_account_ticks_valid tick_nohz_account_ticks_jiffies : percpu.

(** ** Idle exit *)

Lemma tick_nohz_stop_idle_ts e c now st :
  valid_cpu st c ->
  let st' := tick_nohz_stop_idle e c now st in
  valid_cpu st' c
  /\ get_ts st' c
     = set_idle_active false (fst (update_ts_time_stats e (get_ts st c) now false))
  /\ events st' = events st
  /\ tick_stopped (get_ts st' c) = tick_stopped (get_ts st c)
  /\ saved_jiffies (get_ts st' c) = saved_jiffies (get_ts st c)
  /\ saved_jiffies_whence (get_ts st' c) = saved_jiffies_whence (get_ts st c)
  /\ inidle (get_ts st' c) = inidle (get_ts st c)
  /\ sched_timer (get_ts st' c) = sched_timer (get_ts st c)
  /\ same_timebase st st'.
Proof.
  intros Hv. cbn zeta. unfold tick_nohz_stop_idle. percpu.
  splits; try reflexivity; try assumption; try apply same_timebase_put_ts;
    unfold update_ts_time_stats; split_tests; reflexivity.
Qed.

(** What an exit from the idle loop does to the structure and to the books
    of [cpu]: the flags, the snapshot, what is accounted and what the load
    balancer is told; with the tick running, nothing. *)
Lemma tick_nohz_idle_exit_facts (e : env) (cpu : Z) (st : kstate) :
  valid_cpu st cpu ->
  let ts := get_ts st cpu in
  let st' := tick_nohz_idle_exit e cpu st in
  let ts' := get_ts st' cpu in
  inidle ts' = false /\ idle_active ts' = false /\ tick_stopped ts' = false
  /\ saved_jiffies ts' = saved_jiffies ts
  /\ (tick_stopped ts = true ->
      saved_jiffies_whence ts' = JIFFIES_SAVED_NONE
      /\ idle_exittime ts' = ktime_get e
      /\ accounted st'
         = accounted st
           ++ account_entry cpu (saved_jiffies_whence ts)
                (wrap_u64 (jiffies st' - saved_jiffies ts))
      /\ List.filter is_load_balancer (events st')
         = List.filter is_load_balancer (events st) ++ [EvSelectNohzLoadBalancer cpu false])
  /\ (tick_stopped ts = false ->
      events st' = events st
      /\ saved_jiffies_whence ts' = saved_jiffies_whence ts
      /\ sched_timer ts' = sched_timer ts
      /\ same_timebase st st').
Proof.
  intros Hv. cbn zeta. unfold tick_nohz_idle_exit.
  set (st1 := put_ts cpu (set_inidle false (get_ts st cpu)) st).
  assert (Hv1 : valid_cpu st1 cpu) by (unfold st1; now percpu).
  assert (Hts1 : get_ts st1 cpu = set_inidle false (get_ts st cpu))
    by (unfold st1; now percpu).
  assert (Hev1 : events st1 = events st) by (unfold st1; now percpu).
  assert (Htb1 : same_timebase st st1) by apply same_timebase_put_ts.
  set (st2 := if idle_active (get_ts st1 cpu)
              then tick_nohz_stop_idle e cpu (ktime_get e) st1 else st1).
  assert (H2 : valid_cpu st2 cpu
               /\ events st2 = events st
               /\ tick_stopped (get_ts st2 cpu) = tick_stopped (get_ts st cpu)
               /\ saved_jiffies (get_ts st2 cpu) = saved_jiffies (get_ts st cpu)
               /\ saved_jiffies_whence (get_ts st2 cpu) = saved_jiffies_whence (get_ts st cpu)
               /\ inidle (get_ts st2 cpu) = false
               /\ idle_active (get_ts st2 cpu) = false
               /\ sched_timer (get_ts st2 cpu) = sched_timer (get_ts st cpu)
               /\ same_timebase st st2).
  { unfold st2. destruct (idle_active (get_ts st1 cpu)) eqn:Hact.
    - destruct (tick_nohz_stop_idle_ts e cpu (ktime_get e) st1 Hv1)
        as (Hv' & Ht & Hev & Hs & Hsj & Hw & Hin & Htm & Htb).
      rewrite Hev, Hs, Hsj, Hw, Hin, Htm, Hts1, Hev1. rewrite Ht.
      splits; try reflexivity; try assumption.
      now apply (same_timebase_trans st st1).
    - rewrite Hact, Hts1, Hev1. splits; try reflexivity; assumption. }
  destruct H2 as (Hv2 & Hev2 & Hs2 & Hsj2 & Hw2 & Hin2 & Hact2 & Htm2 & Htb2).
  clearbody st2. rewrite Hs2.
  destruct (tick_stopped (get_ts st cpu)) eqn:Hstop.
  - (* the tick is restarted *)
    set (st3 := emit (EvSelectNohzLoadBalancer cpu false) st2).
    assert (Hv3 : valid_cpu st3 cpu) by exact Hv2.
    destruct (restart_sched_tick_body_ts e cpu (ktime_get e) st3 Hv3)
      as (Hv4 & Hts4 & _ & _ & _ & _ & Htt4).
    cbn zeta in Hts4.
    set (st4 := __tick_nohz_restart_sched_tick e cpu (ktime_get e) st3) in *.
    change (get_ts st3 cpu) with (get_ts st2 cpu) in Hts4.
    assert (Hv5 : valid_cpu (tick_nohz_account_ticks cpu st4) cpu) by now percpu.
    percpu. rewrite Hts4. fields. rewrite Hin2, Hact2, Hsj2.
    splits; try reflexivity; try discriminate. intros _. splits; try reflexivity.
    + rewrite (accounted_events (tick_nohz_account_ticks cpu st4)) by now percpu.
      rewrite tick_nohz_account_ticks_accounted. unfold elapsed_ticks, jiffies.
      rewrite Hts4. fields. rewrite Hsj2, Hw2. percpu. f_equal.
      rewrite (timer_trace_accounted st3 st4 Htt4). unfold st3.
      rewrite accounted_emit. cbn [is_account]. rewrite app_nil_r.
      now apply accounted_events.
    + assert (Hb : List.filter is_load_balancer (events (tick_nohz_account_ticks cpu st4))
                   = List.filter is_load_balancer (events st4)).
      { unfold tick_nohz_account_ticks, account_idle_ticks, account_user_ticks,
          account_system_ticks, emit.
        split_tests; cbn [events set_events]; rewrite ?List.filter_app; cbn;
          now rewrite ?app_nil_r. }
      rewrite Hb.
      rewrite (timer_trace_filter is_load_balancer st3 st4) by (now intros [] || assumption).
      unfold st3, emit. cbn [events set_events]. rewrite List.filter_app, Hev2.
      reflexivity.
  - rewrite Hin2, Hact2, Hs2, Hsj2.
    splits; try reflexivity; try discriminate. intros _. auto.
Qed.

(** ** Idle entry, the first time and again *)

Lemma tb_atomic_dec_nr_cpus_user_nohz st0 st :
  same_timebase st0 st -> same_timebase st0 (atomic_dec_nr_cpus_user_nohz st).
Proof.
  intros H. unfold atomic_dec_nr_cpus_user_nohz. destruct (_ <? 0); auto with timebase.
Qed.

Lemma hk_atomic_dec_nr_cpus_user_nohz st0 st :
  housekeeping_trace st0 st -> housekeeping_trace st0 (atomic_dec_nr_cpus_user_nohz st).
Proof.
  intros H. unfold atomic_dec_nr_cpus_user_nohz. destruct (_ <? 0).
  - apply hk_emit; [reflexivity |]. now apply (housekeeping_trace_events st0 st).
  - now apply (housekeeping_trace_events st0 st).
Qed.

Lemma tick_nohz_start_idle_facts e c st :
  valid_cpu st c ->
  let st1 := snd (tick_nohz_start_idle e c st) in
  valid_cpu st1 c
  /\ get_ts st1 c
     = set_idle_active true
         (set_user_nohz false (set_idle_entrytime (ktime_get e) (get_ts st c)))
  /\ housekeeping_trace st st1
  /\ same_timebase st st1
  /\ tick_do_timer_cpu st1 = tick_do_timer_cpu st.
Proof.
  intros Hv. cbn zeta. splits.
  - now rewrite tick_nohz_start_idle_valid.
  - now apply tick_nohz_start_idle_ts.
  - unfold tick_nohz_start_idle. cbn [snd]. apply hk_put_ts.
    destruct (user_nohz _); [apply hk_atomic_dec_nr_cpus_user_nohz |];
      repeat apply hk_put_ts; apply housekeeping_trace_refl.
  - unfold tick_nohz_start_idle. cbn [snd]. apply tb_put_ts.
    destruct (user_nohz _); [apply tb_atomic_dec_nr_cpus_user_nohz |];
      auto with timebase.
  - unfold tick_nohz_start_idle, atomic_dec_nr_cpus_user_nohz. cbn [snd].
    destruct (user_nohz _); [destruct (_ <? 0) |]; percpu;
      cbn [tick_do_timer_cpu set_nr_cpus_user_nohz]; now percpu.
Qed.

Lemma can_stop_idle_tick_facts e c st :
  let st2 := snd (can_stop_idle_tick e c st) in
  (forall c', per_cpu st2 c' = per_cpu st c')
  /\ housekeeping_trace st st2
  /\ same_timebase st st2.
Proof.
  cbn zeta. unfold can_stop_idle_tick. splits.
  - intros c'. split_tests; cbn [snd]; now percpu.
  - split_tests; cbn [snd];
      try (apply (housekeeping_trace_events _ _ _ (housekeeping_trace_refl st)); reflexivity);
      exists [EvPrintkSoftirqPending c (local_softirq_pending e)]; split; reflexivity.
  - split_tests; cbn [snd]; unfold same_timebase; auto.
Qed.

(** What an entry into idle leaves behind, with nobody interfering. *)
Lemma idle_enter_body_facts e cpu st st' :
  valid_cpu st cpu ->
  __tick_nohz_idle_enter e [] cpu st = Some st' ->
  let ts := get_ts st cpu in
  let ts' := get_ts st' cpu in
  valid_cpu st' cpu
  /\ idle_active ts' = true
  /\ idle_entrytime ts' = ktime_get e
  /\ inidle ts' = inidle ts
  /\ user_nohz ts' = false
  /\ accounted st' = accounted st
  /\ (tick_stopped ts = true ->
      tick_stopped ts' = true
      /\ last_tick ts' = last_tick ts
      /\ saved_jiffies ts' = saved_jiffies ts
      /\ saved_jiffies_whence ts' = saved_jiffies_whence ts
      /\ housekeeping_trace st st')
  /\ (tick_stopped ts = false -> tick_stopped ts' = true ->
      saved_jiffies ts' = jiffies st
      /\ saved_jiffies_whence ts' = JIFFIES_SAVED_IDLE
      /\ last_tick ts' = hrt_expires (sched_timer ts)
      /\ List.filter is_load_balancer (events st')
         = List.filter is_load_balancer (events st) ++ [EvSelectNohzLoadBalancer cpu true])
  /\ (tick_stopped ts = false -> tick_stopped ts' = false ->
      saved_jiffies ts' = saved_jiffies ts
      /\ saved_jiffies_whence ts' = saved_jiffies_whence ts
      /\ housekeeping_trace st st').
Proof.
  intros Hv. cbn zeta. unfold __tick_nohz_idle_enter.
  destruct (tick_nohz_start_idle_facts e cpu st Hv) as (Hv1 & Hts1 & Hhk1 & Htb1 & _).
  rewrite (surjective_pairing (tick_nohz_start_idle e cpu st)).
  rewrite tick_nohz_start_idle_fst.
  set (st1 := snd (tick_nohz_start_idle e cpu st)) in *.
  destruct (can_stop_idle_tick_facts e cpu st1) as (Hpc2 & Hhk2 & Htb2).
  pose proof (can_stop_idle_tick_valid e cpu st1 cpu) as Hv2.
  destruct (can_stop_idle_tick e cpu st1) as [can st2]. cbn [snd] in *.
  rewrite <- Hv2 in Hv1.
  assert (Hts2 : get_ts st2 cpu = get_ts st1 cpu) by (unfold get_ts; now rewrite Hpc2).
  pose proof (housekeeping_trace_trans _ _ _ Hhk1 Hhk2) as Hhk.
  pose proof (same_timebase_trans _ _ _ Htb1 Htb2) as Htb.
  destruct can.
  - (* the tick may be stopped *)
    set (st3 := put_ts cpu (set_idle_calls _ (get_ts st2 cpu)) st2).
    assert (Hv3 : valid_cpu st3 cpu) by (unfold st3; now percpu).
    assert (Hts3 : get_ts st3 cpu
                   = set_idle_calls (wrap_u64 (idle_calls (get_ts st2 cpu) + 1))
                       (get_ts st2 cpu)) by (unfold st3; now percpu).
    assert (Hj3 : jiffies st3 = jiffies st).
    { unfold jiffies, st3. percpu. now destruct Htb as (-> & _). }
    destruct (tick_nohz_stop_sched_tick e [] (ktime_get e) cpu st3)
      as [[x st4] |] eqn:Hr; [| discriminate].
    destruct (stop_sched_tick_frame e (ktime_get e) cpu st3 x st4 Hv3 Hr)
      as (Hv4 & Hk & _ & _ & _ & _ & Hlj & _ & Hkeep & Hfirst & _).
    pose proof (tt_tick_nohz_stop_sched_tick e (ktime_get e) cpu st3 x st4 Hv3 Hr) as Htt.
    cbn zeta in Hk, Hlj, Hkeep, Hfirst.
    unfold stop_tick_keeps in Hk.
    destruct Hk as (_ & _ & Hin & Hsj & Hw & _ & _ & Hact & Hent & _ & _ & _ & _ & _ & Hun).
    rewrite Hts3 in Hin, Hsj, Hw, Hact, Hent, Hun, Hkeep, Hfirst.
    cbn [inidle saved_jiffies saved_jiffies_whence idle_active idle_entrytime user_nohz
         tick_stopped last_tick sched_timer set_idle_calls] in Hin, Hsj, Hw, Hact, Hent, Hun,
         Hkeep, Hfirst.
    rewrite Hts2, Hts1 in Hin, Hsj, Hw, Hact, Hent, Hun, Hkeep, Hfirst.
    cbn [inidle saved_jiffies saved_jiffies_whence idle_active idle_entrytime user_nohz
         tick_stopped last_tick sched_timer set_idle_active set_user_nohz set_idle_entrytime]
      in Hin, Hsj, Hw, Hact, Hent, Hun, Hkeep, Hfirst.
    rewrite Hts2 at 1. rewrite Hts1.
    cbn [tick_stopped set_idle_calls set_idle_active set_user_nohz set_idle_entrytime].
    assert (Hhk4 : housekeeping_trace st st4).
    { apply (housekeeping_trace_trans st st3).
      - apply (housekeeping_trace_events st st2); [assumption | unfold st3; now percpu].
      - now apply timer_trace_housekeeping. }
    set (st5 := if x >? 0 then _ else st4).
    assert (H5 : valid_cpu st5 cpu
                 /\ events st5 = events st4
                 /\ (exists a b, get_ts st5 cpu
                                 = set_idle_expires a (set_idle_sleeps b (get_ts st4 cpu)))).
    { unfold st5. destruct (x >? 0); percpu; splits; try reflexivity; try assumption.
      - eauto.
      - exists (idle_expires (get_ts st4 cpu)), (idle_sleeps (get_ts st4 cpu)).
        now destruct (get_ts st4 cpu). }
    destruct H5 as (Hv5 & Hev5 & a & b & Hts5). clearbody st5.
    assert (Hhk5 : housekeeping_trace st st5)
      by now apply (housekeeping_trace_events st st4).
    rewrite Hts5. cbn [tick_stopped set_idle_expires set_idle_sleeps].
    destruct (tick_stopped (get_ts st cpu)) eqn:Hstop; cbn [negb andb].
    + (* stopped before: the snapshot stays *)
      intros [= <-]. destruct (Hkeep eq_refl) as (Hs4 & Hlt4).
      rewrite ?Hts5. fields. rewrite Hs4, Hlt4, Hin, Hsj, Hw, Hact, Hent, Hun.
      splits; try reflexivity; try assumption; try discriminate.
      * now apply housekeeping_trace_accounted.
      * intros _. auto.
    + destruct (tick_stopped (get_ts st4 cpu)) eqn:Hs4.
      * (* stopped by this entry: the snapshot is taken *)
        intros [= <-]. percpu.
        rewrite ?Hts5. fields. rewrite Hs4, Hlj, Hj3, Hact, Hent, Hin, Hun.
        splits; try reflexivity; try assumption; try discriminate.
        -- rewrite accounted_emit. cbn [is_account]. rewrite app_nil_r.
           rewrite (accounted_events st5) by now percpu.
           now apply housekeeping_trace_accounted.
        -- intros _ _. splits; try reflexivity; [now apply Hfirst |].
           unfold emit. cbn [events set_events]. percpu.
           rewrite List.filter_app. cbn. f_equal.
           now apply housekeeping_trace_load_balancer.
      * intros [= <-]. rewrite ?Hts5. fields. rewrite Hs4, Hin, Hsj, Hw, Hact, Hent, Hun.
        splits; try reflexivity; try assumption; try discriminate.
        -- now apply housekeeping_trace_accounted.
        -- intros _ _. auto.
  - (* the tick may not be stopped *)
    intros [= <-]. rewrite Hts2, Hts1. fields.
    splits; try reflexivity; try assumption.
    + now apply housekeeping_trace_accounted.
    + intros ->. auto.
    + intros ->. discriminate.
    + intros _ _. auto.
Qed.

(** X11.  An idle period that stops the tick is accounted in full.  When
    [tick_nohz_idle_enter] stops a running tick it records the jiffies it
    saw on the way in, with the idle bucket, remembers the expiry the tick
    had, and tells the load balancer; nothing is accounted yet.  The
    [tick_nohz_idle_exit] that follows accounts, to the idle bucket,
    exactly the jiffies that passed from that snapshot to the end of the
    restart, if their number is plausible, and leaves the tick running with
    no bucket recorded. *)
Theorem idle_round_trip_accounts (e e2 : env) (cpu : Z) (st st1 : kstate) :
  valid_cpu st cpu ->
  tick_stopped (get_ts st cpu) = false ->
  tick_nohz_idle_enter e [] cpu st = Some st1 ->
  tick_stopped (get_ts st1 cpu) = true ->
  inidle (get_ts st1 cpu) = true
  /\ saved_jiffies (get_ts st1 cpu) = jiffies st
  /\ saved_jiffies_whence (get_ts st1 cpu) = JIFFIES_SAVED_IDLE
  /\ last_tick (get_ts st1 cpu) = hrt_expires (sched_timer (get_ts st cpu))
  /\ accounted st1 = accounted st
  /\ List.filter is_load_balancer (events st1)
     = List.filter is_load_balancer (events st) ++ [EvSelectNohzLoadBalancer cpu true]
  /\ let st2 := tick_nohz_idle_exit e2 cpu st1 in
     accounted st2
     = accounted st
       ++ account_entry cpu JIFFIES_SAVED_IDLE (wrap_u64 (jiffies st2 - jiffies st))
     /\ tick_stopped (get_ts st2 cpu) = false
     /\ inidle (get_ts st2 cpu) = false
     /\ saved_jiffies_whence (get_ts st2 cpu) = JIFFIES_SAVED_NONE.
Proof.
  intros Hv Hrun Henter Hstopped. unfold tick_nohz_idle_enter in Henter.
  set (st0 := put_ts cpu (set_inidle true (get_ts st cpu)) st) in *.
  assert (Hv0 : valid_cpu st0 cpu) by (unfold st0; now percpu).
  assert (Hts0 : get_ts st0 cpu = set_inidle true (get_ts st cpu))
    by (unfold st0; now percpu).
  destruct (idle_enter_body_facts e cpu st0 st1 Hv0 Henter)
    as (Hv1 & _ & _ & Hin & _ & Hacc & _ & Hfirst & _).
  cbn zeta in Hin, Hfirst. rewrite Hts0 in Hin, Hfirst.
  cbn [inidle tick_stopped sched_timer set_inidle] in Hin, Hfirst.
  destruct (Hfirst Hrun Hstopped) as (Hsj & Hw & Hlt & Hlb).
  assert (Hj0 : jiffies st0 = jiffies st) by (unfold jiffies, st0; now percpu).
  assert (Hev0 : events st0 = events st) by (unfold st0; now percpu).
  rewrite Hj0 in Hsj. rewrite Hev0 in Hlb.
  rewrite (accounted_events st st0 Hev0) in Hacc.
  splits; try assumption.
  cbn zeta.
  destruct (tick_nohz_idle_exit_facts e2 cpu st1 Hv1)
    as (Hin2 & _ & Hrun2 & _ & Hexit & _).
  destruct (Hexit Hstopped) as (Hw2 & _ & Hacc2 & _).
  rewrite Hw, Hsj, Hacc in Hacc2. auto.
Qed.

Lemma idle_round_trip_accounts_witness :
  let st2 := tick_nohz_idle_exit (env_with_clock 130500000 idle_env) 0
               idle_stopped_scenario in
  saved_jiffies (get_ts idle_stopped_scenario 0) = 100
  /\ accounted idle_stopped_scenario = []
  /\ accounted st2 = [EvAccountIdleTicks 0 30].
Proof.
  cbn zeta.
  assert (Hv : valid_cpu idle_scenario 0) by (vm_compute; intuition congruence).
  assert (Hrun : tick_stopped (get_ts idle_scenario 0) = false) by reflexivity.
  assert (Henter : tick_nohz_idle_enter (env_with_clock 100200000 idle_env) [] 0
                     idle_scenario = Some idle_stopped_scenario)
    by (vm_compute; reflexivity).
  assert (Hstopped : tick_stopped (get_ts idle_stopped_scenario 0) = true)
    by (vm_compute; reflexivity).
  destruct (idle_round_trip_accounts (env_with_clock 100200000 idle_env)
              (env_with_clock 130500000 idle_env) 0 idle_scenario idle_stopped_scenario
              Hv Hrun Henter Hstopped) as (_ & Hsj & _ & _ & Hacc & _ & Hacc2 & _).
  splits; [exact Hsj | exact Hacc |]. rewrite Hacc2. vm_compute. reflexivity.
Defined.

(** X12.  An interrupt that ends while the CPU is in the idle loop with
    its tick stopped re-evaluates the sleep, and leaves what was recorded
    when the tick was stopped alone: the tick stays stopped, the expiry to
    restart it from, the snapshot of the jiffies and its bucket are
    untouched, nothing is accounted and the load balancer is not told
    again.  If the interrupt asked for a reschedule, nothing at all is
    done. *)
Theorem idle_reentry_keeps_snapshot (e : env) (cpu : Z) (st st1 : kstate) :
  valid_cpu st cpu ->
  inidle (get_ts st cpu) = true ->
  tick_stopped (get_ts st cpu) = true ->
  tick_nohz_irq_exit e [] cpu st = Some st1 ->
  (need_resched e = true -> st1 = st)
  /\ (need_resched e = false ->
      idle_active (get_ts st1 cpu) = true /\ idle_entrytime (get_ts st1 cpu) = ktime_get e)
  /\ tick_stopped (get_ts st1 cpu) = true
  /\ last_tick (get_ts st1 cpu) = last_tick (get_ts st cpu)
  /\ saved_jiffies (get_ts st1 cpu) = saved_jiffies (get_ts st cpu)
  /\ saved_jiffies_whence (get_ts st1 cpu) = saved_jiffies_whence (get_ts st cpu)
  /\ accounted st1 = accounted st
  /\ List.filter is_load_balancer (events st1) = List.filter is_load_balancer (events st).
Proof.
  intros Hv Hin Hstop. unfold tick_nohz_irq_exit. rewrite Hin.
  destruct (need_resched e); cbn [negb].
  - intros [= <-]. splits; try reflexivity; try assumption; discriminate.
  - intros Hr.
    destruct (idle_enter_body_facts e cpu st st1 Hv Hr)
      as (_ & Hact & Hent & _ & _ & Hacc & Hkeep & _).
    destruct (Hkeep Hstop) as (Hs1 & Hlt & Hsj & Hw & Hhk).
    splits; try assumption; try discriminate; auto.
    now apply housekeeping_trace_load_balancer.
Qed.

Lemma idle_reentry_keeps_snapshot_witness :
  exists st1,
    tick_nohz_irq_exit (env_with_clock 120700000 idle_env) [] 0 idle_stopped_scenario
      = Some st1
    /\ tick_stopped (get_ts st1 0) = true
    /\ saved_jiffies (get_ts st1 0) = 100
    /\ saved_jiffies_whence (get_ts st1 0) = JIFFIES_SAVED_IDLE.
Proof.
  destruct (tick_nohz_irq_exit (env_with_clock 120700000 idle_env) [] 0
              idle_stopped_scenario) as [st1 |] eqn:Hr; [| vm_compute in Hr; discriminate].
  assert (Hv : valid_cpu idle_stopped_scenario 0) by (vm_compute; intuition congruence).
  assert (Hin : inidle (get_ts idle_stopped_scenario 0) = true) by (vm_compute; reflexivity).
  assert (Hst : tick_stopped (get_ts idle_stopped_scenario 0) = true)
    by (vm_compute; reflexivity).
  destruct (idle_reentry_keeps_snapshot (env_with_clock 120700000 idle_env) 0
              idle_stopped_scenario st1 Hv Hin Hst Hr)
    as (_ & _ & Hs & _ & Hsj & Hw & _).
  exists st1. splits; [reflexivity | exact Hs | rewrite Hsj | rewrite Hw];
    vm_compute; reflexivity.
Defined.

(** ** Flushing the ticks of a stopped tick *)

Lemma tick_nohz_account_ticks_events cpu st :
  events (tick_nohz_account_ticks cpu st)
  = events st
    ++ account_entry cpu (saved_jiffies_whence (get_ts st cpu)) (elapsed_ticks cpu st).
Proof.
  unfold tick_nohz_account_ticks, account_entry, elapsed_ticks,
    account_idle_ticks, account_user_ticks, account_system_ticks.
  destruct (negb _ && _); [| now rewrite app_nil_r].
  destruct (saved_jiffies_whence _); try reflexivity. now rewrite app_nil_r.
Qed.

Lemma account_entry_account cpu whence ticks :
  List.filter is_account (account_entry cpu whence ticks) = account_entry cpu whence ticks.
Proof. unfold account_entry. destruct (negb _ && _); [destruct whence |]; reflexivity. Qed.

Lemma account_entry_none cpu ticks : account_entry cpu JIFFIES_SAVED_NONE ticks = [].
Proof. unfold account_entry. now destruct (negb _ && _). Qed.

Lemma account_entry_zero cpu whence : account_entry cpu whence 0 = [].
Proof. reflexivity. Qed.

Lemma tick_nohz_account_ticks_frame cpu st :
  tick_do_timer_cpu (tick_nohz_account_ticks cpu st) = tick_do_timer_cpu st
  /\ nr_cpus_user_nohz (tick_nohz_account_ticks cpu st) = nr_cpus_user_nohz st
  /\ same_timebase st (tick_nohz_account_ticks cpu st).
Proof.
  unfold tick_nohz_account_ticks, account_idle_ticks, account_user_ticks,
    account_system_ticks, same_timebase. split_tests; auto 10.
Qed.

(** What a flush does to a valid CPU. *)
Lemma tick_nohz_flush_current_times_facts cpu r st :
  valid_cpu st cpu ->
  let ts := get_ts st cpu in
  let st1 := tick_nohz_flush_current_times cpu r st in
  valid_cpu st1 cpu
  /\ events st1
     = events st
       ++ (if tick_stopped ts
           then account_entry cpu (saved_jiffies_whence ts) (elapsed_ticks cpu st) else [])
  /\ get_ts st1 cpu
     = (if tick_stopped ts
        then if r then set_saved_jiffies_whence JIFFIES_SAVED_NONE ts
             else set_saved_jiffies (jiffies st) ts
        else ts)
  /\ nohz_task_ext_qs (per_cpu st1 cpu) = nohz_task_ext_qs (per_cpu st cpu)
  /\ tif_nohz (per_cpu st1 cpu) = tif_nohz (per_cpu st cpu)
  /\ next_event (per_cpu st1 cpu) = next_event (per_cpu st cpu)
  /\ tick_do_timer_cpu st1 = tick_do_timer_cpu st
  /\ nr_cpus_user_nohz st1 = nr_cpus_user_nohz st
  /\ same_timebase st st1.
Proof.
  intros Hv. cbn zeta. unfold tick_nohz_flush_current_times.
  destruct (tick_nohz_account_ticks_frame cpu st) as (Hd & Hn & Htb).
  destruct (tick_stopped (get_ts st cpu)).
  - assert (Hv1 : valid_cpu (tick_nohz_account_ticks cpu st) cpu) by now percpu.
    destruct r; percpu; rewrite ?Hd, ?Hn, tick_nohz_account_ticks_events;
      splits; try reflexivity; try assumption;
      apply (same_timebase_trans _ _ _ Htb), same_timebase_put_ts.
  - rewrite app_nil_r. splits; try reflexivity; try assumption. apply same_timebase_refl.
Qed.

Lemma wrap_u64_zero z : wrap_u64 (z - z) = 0.
Proof. now rewrite Z.sub_diag. Qed.

(** X13.  [tick_nohz_flush_current_times] accounts the ticks since the
    snapshot once.  On a CPU whose tick is stopped the first flush accounts
    them to the recorded bucket, if their number is plausible; a second
    flush right after it, with either argument, adds nothing to the trace,
    because the first one has either cleared the bucket or moved the
    snapshot to the present.  A flush never restarts the tick, and on a CPU
    whose tick runs it does nothing. *)
Theorem tick_nohz_flush_current_times_once (cpu : Z) (r1 r2 : bool) (st : kstate) :
  valid_cpu st cpu ->
  let ts := get_ts st cpu in
  let st1 := tick_nohz_flush_current_times cpu r1 st in
  let st2 := tick_nohz_flush_current_times cpu r2 st1 in
  (tick_stopped ts = true ->
   events st1
   = events st ++ account_entry cpu (saved_jiffies_whence ts) (elapsed_ticks cpu st))
  /\ (tick_stopped ts = false -> st1 = st)
  /\ events st2 = events st1
  /\ tick_stopped (get_ts st2 cpu) = tick_stopped ts
  /\ sched_timer (get_ts st2 cpu) = sched_timer ts.
Proof.
  intros Hv. cbn zeta.
  destruct (tick_nohz_flush_current_times_facts cpu r1 st Hv)
    as (Hv1 & Hev1 & Hts1 & _ & _ & _ & _ & _ & Htb1).
  cbn zeta in Hev1, Hts1.
  destruct (tick_nohz_flush_current_times_facts cpu r2 _ Hv1)
    as (_ & Hev2 & Hts2 & _).
  cbn zeta in Hev2, Hts2.
  set (st1 := tick_nohz_flush_current_times cpu r1 st) in *.
  assert (Hj1 : jiffies st1 = jiffies st) by (unfold jiffies; now destruct Htb1 as (-> & _)).
  destruct (tick_stopped (get_ts st cpu)) eqn:Hstop.
  - splits; try discriminate.
    + intros _. exact Hev1.
    + rewrite Hev2, Hts1. unfold elapsed_ticks. rewrite Hts1, Hj1.
      destruct r1; fields; rewrite Hstop.
      * rewrite account_entry_none. apply app_nil_r.
      * rewrite wrap_u64_zero, account_entry_zero. apply app_nil_r.
    + rewrite Hts2, Hts1. destruct r1, r2; fields; rewrite Hstop; fields; assumption.
    + rewrite Hts2, Hts1. destruct r1, r2; fields; rewrite Hstop; fields; reflexivity.
  - assert (Hst1 : st1 = st).
    { unfold st1, tick_nohz_flush_current_times. now rewrite Hstop. }
    splits; try discriminate.
    + intros _. exact Hst1.
    + rewrite Hev2, Hts1, Hstop. apply app_nil_r.
    + rewrite Hts2, Hts1, Hstop. exact Hstop.
    + rewrite Hts2, Hts1, Hstop. reflexivity.
Qed.

Lemma tick_nohz_flush_current_times_once_witness :
  let st := sample_stopped_cpu 4 JIFFIES_SAVED_USER in
  let st1 := tick_nohz_flush_current_times 1 false st in
  events st1 = [EvAccountUserTicks 1 3]
  /\ events (tick_nohz_flush_current_times 1 true st1) = [EvAccountUserTicks 1 3].
Proof.
  cbn zeta.
  pose proof (tick_nohz_flush_current_times_once 1 false true
                (sample_stopped_cpu 4 JIFFIES_SAVED_USER)) as H.
  discharge H. destruct H as (Hfirst & _ & Hsecond & _).
  rewrite Hsecond. split; rewrite Hfirst by reflexivity; vm_compute; reflexivity.
Defined.

(** ** The boundary between user and kernel *)

Lemma advance_all_frame nows : forall st,
  (forall c, per_cpu (advance_all nows st) c = per_cpu st c)
  /\ (forall c, valid_cpu (advance_all nows st) c = valid_cpu st c)
  /\ timer_trace st (advance_all nows st)
  /\ tick_do_timer_cpu (advance_all nows st) = tick_do_timer_cpu st
  /\ nr_cpus_user_nohz (advance_all nows st) = nr_cpus_user_nohz st.
Proof.
  induction nows as [| now nows IH]; intros st; cbn [advance_all].
  - splits; try reflexivity. apply timer_trace_refl.
  - destruct (IH (tick_do_update_jiffies64 now st)) as (Hpc & Hv & Htt & Hd & Hn).
    splits.
    + intros c. rewrite Hpc. now percpu.
    + intros c. rewrite Hv. now percpu.
    + apply (timer_trace_trans _ (tick_do_update_jiffies64 now st)); [| assumption].
      apply tt_tick_do_update_jiffies64, timer_trace_refl.
    + rewrite Hd. now percpu.
    + rewrite Hn. now percpu.
Qed.

(** X14.  The hooks at the boundary between user and kernel split the
    ticks of a stopped tick between the two buckets.  Leaving the kernel
    accounts the ticks since the snapshot to the system bucket, moves the
    snapshot to the present with the user bucket, and enters the RCU
    extended quiescent state; the entry into the kernel that follows, after
    the time base has moved on, leaves that state again and accounts to the
    user bucket exactly the jiffies that passed in between, without
    tripping its own warning.  Unlike the flush, neither hook tests the
    count: it is accounted even when it is 0.  With the tick running, or
    for an exception taken in kernel mode, the hooks do nothing. *)
Theorem kernel_boundary_accounts (cpu : Z) (nows : list ktime_t) (st : kstate) :
  valid_cpu st cpu ->
  let ts := get_ts st cpu in
  let st1 := snd (tick_nohz_exit_kernel cpu st) in
  let st2 := advance_all nows st1 in
  let st3 := snd (tick_nohz_enter_kernel cpu st2) in
  (tick_stopped ts = false ->
   tick_nohz_exit_kernel cpu st = (false, st)
   /\ tick_nohz_enter_kernel cpu st = (false, st))
  /\ (forall user, user = false \/ tick_stopped ts = false ->
      tick_nohz_exit_exception cpu user st = (false, st)
      /\ tick_nohz_enter_exception cpu user st = (false, st))
  /\ (tick_stopped ts = true ->
      fst (tick_nohz_exit_kernel cpu st)
        = negb (tick_saved_jiffies_eqb (saved_jiffies_whence ts) JIFFIES_SAVED_SYS)
      /\ events st1
         = events st ++ [EvAccountSystemTicks cpu (elapsed_ticks cpu st); EvRcuUserEnter cpu]
      /\ saved_jiffies (get_ts st1 cpu) = jiffies st
      /\ saved_jiffies_whence (get_ts st1 cpu) = JIFFIES_SAVED_USER
      /\ nohz_task_ext_qs (per_cpu st1 cpu) = true
      /\ fst (tick_nohz_enter_kernel cpu st2) = false
      /\ events st3
         = events st2
           ++ [EvRcuUserExit cpu; EvAccountUserTicks cpu (wrap_u64 (jiffies st2 - jiffies st))]
      /\ accounted st3
         = accounted st
           ++ [EvAccountSystemTicks cpu (elapsed_ticks cpu st);
               EvAccountUserTicks cpu (wrap_u64 (jiffies st2 - jiffies st))]
      /\ saved_jiffies (get_ts st3 cpu) = jiffies st2
      /\ saved_jiffies_whence (get_ts st3 cpu) = JIFFIES_SAVED_SYS
      /\ nohz_task_ext_qs (per_cpu st3 cpu) = false
      /\ tick_stopped (get_ts st3 cpu) = true).
Proof.
  intros Hv. cbn zeta. splits.
  - intros Hrun. unfold tick_nohz_exit_kernel, tick_nohz_enter_kernel. now rewrite Hrun.
  - intros user [-> | Hrun]; [now split |].
    unfold tick_nohz_exit_exception, tick_nohz_enter_exception,
      tick_nohz_exit_kernel, tick_nohz_enter_kernel. rewrite Hrun. now destruct user.
  - intros Hstop.
    set (st1 := snd (tick_nohz_exit_kernel cpu st)).
    assert (H1 : fst (tick_nohz_exit_kernel cpu st)
                 = negb (tick_saved_jiffies_eqb (saved_jiffies_whence (get_ts st cpu))
                           JIFFIES_SAVED_SYS)
                 /\ valid_cpu st1 cpu
                 /\ events st1
                    = events st ++ [EvAccountSystemTicks cpu (elapsed_ticks cpu st);
                                    EvRcuUserEnter cpu]
                 /\ get_ts st1 cpu
                    = set_saved_jiffies_whence JIFFIES_SAVED_USER
                        (set_saved_jiffies (jiffies st) (get_ts st cpu))
                 /\ nohz_task_ext_qs (per_cpu st1 cpu) = true).
    { unfold st1, tick_nohz_exit_kernel, account_system_ticks, elapsed_ticks, jiffies.
      rewrite Hstop. cbn [negb fst snd].
      assert (Hva : valid_cpu (emit (EvAccountSystemTicks cpu
                       (wrap_u64 (jiffies_64 st - saved_jiffies (get_ts st cpu)))) st) cpu)
        by exact Hv.
      percpu. unfold emit. cbn [events set_events]. percpu. cbn [events set_events].
      rewrite <- app_assoc. splits; try reflexivity; assumption. }
    destruct H1 as (Hw1 & Hv1 & Hev1 & Hts1 & Hq1). clearbody st1.
    destruct (advance_all_frame nows st1) as (Hpc2 & Hv2 & Htt2 & _).
    set (st2 := advance_all nows st1) in *.
    assert (Hts2 : get_ts st2 cpu = get_ts st1 cpu) by (unfold get_ts; now rewrite Hpc2).
    assert (Hv2' : valid_cpu st2 cpu) by now rewrite Hv2.
    assert (H3 : fst (tick_nohz_enter_kernel cpu st2) = false
                 /\ events (snd (tick_nohz_enter_kernel cpu st2))
                    = events st2 ++ [EvRcuUserExit cpu;
                                     EvAccountUserTicks cpu
                                       (wrap_u64 (jiffies st2 - jiffies st))]
                 /\ get_ts (snd (tick_nohz_enter_kernel cpu st2)) cpu
                    = set_saved_jiffies_whence JIFFIES_SAVED_SYS
                        (set_saved_jiffies (jiffies st2) (get_ts st1 cpu))
                 /\ nohz_task_ext_qs (per_cpu (snd (tick_nohz_enter_kernel cpu st2)) cpu)
                    = false).
    { unfold tick_nohz_enter_kernel, account_user_ticks, jiffies.
      rewrite Hts2, Hts1, Hpc2, Hq1. fields. rewrite Hstop. cbn [negb fst snd].
      set (st2a := emit (EvRcuUserExit cpu) _).
      assert (Hv2a : valid_cpu st2a cpu) by (unfold st2a; now percpu).
      assert (Hts2a : get_ts st2a cpu = get_ts st1 cpu)
        by (unfold st2a; percpu; reflexivity).
      assert (Hq2a : nohz_task_ext_qs (per_cpu st2a cpu) = false)
        by (unfold st2a; now percpu).
      assert (Hj2a : jiffies_64 st2a = jiffies_64 st2) by (unfold st2a; now percpu).
      assert (Hev2a : events st2a = events st2 ++ [EvRcuUserExit cpu])
        by (unfold st2a, emit; cbn [events set_events]; now percpu).
      rewrite Hts2a, Hts1, Hj2a. fields. cbn [tick_saved_jiffies_eqb negb].
      set (st2b := emit _ st2a).
      assert (Hv2b : valid_cpu st2b cpu) by exact Hv2a.
      percpu. unfold st2b. percpu. rewrite Hts2a, Hts1, Hq2a, ?Hj2a. fields.
      unfold emit. cbn [events set_events]. rewrite Hev2a, <- app_assoc.
      splits; reflexivity. }
    destruct H3 as (Hw3 & Hev3 & Hts3 & Hq3).
    rewrite Hts3, Hts1. fields. rewrite ?Hstop.
    splits; try reflexivity; try assumption.
    unfold accounted. rewrite Hev3, List.filter_app.
    fold (accounted st2). rewrite (timer_trace_accounted st1 st2 Htt2).
    unfold accounted. rewrite Hev1, List.filter_app. cbn. now rewrite <- app_assoc.
Qed.

Lemma kernel_boundary_accounts_witness :
  let st1 := snd (tick_nohz_exit_kernel 1 sample_syscall_cpu) in
  let st3 := snd (tick_nohz_enter_kernel 1 (advance_all [9500000; 12100000] st1)) in
  accounted st3 = [EvAccountSystemTicks 1 2; EvAccountUserTicks 1 5]
  /\ saved_jiffies_whence (get_ts st3 1) = JIFFIES_SAVED_SYS.
Proof.
  cbn zeta.
  pose proof (kernel_boundary_accounts 1 [9500000; 12100000] sample_syscall_cpu) as H.
  discharge H. destruct H as (_ & _ & H). destruct H as (_ & _ & _ & _ & _ & _ & _ & Hacc & _ & Hw & _);
    [vm_compute; reflexivity |].
  split; [rewrite Hacc; vm_compute; reflexivity | exact Hw].
Defined.

(** ** Restarting the tick of a busy CPU *)

Lemma tick_nohz_restart_sched_tick_facts e c st :
  valid_cpu st c ->
  let ts := get_ts st c in
  let st' := tick_nohz_restart_sched_tick e c st in
  let ts' := get_ts st' c in
  valid_cpu st' c
  /\ tick_stopped ts' = false
  /\ saved_jiffies ts' = saved_jiffies ts
  /\ saved_jiffies_whence ts' = saved_jiffies_whence ts
  /\ user_nohz ts' = user_nohz ts
  /\ inidle ts' = inidle ts
  /\ idle_active ts' = idle_active ts
  /\ nohz_task_ext_qs (per_cpu st' c) = nohz_task_ext_qs (per_cpu st c)
  /\ tif_nohz (per_cpu st' c) = tif_nohz (per_cpu st c)
  /\ tick_do_timer_cpu st' = tick_do_timer_cpu st
  /\ nr_cpus_user_nohz st' = nr_cpus_user_nohz st
  /\ timer_trace st st'
  /\ (tick_stopped ts = false -> st' = st)
  /\ (tick_stopped ts = true -> idle_exittime ts' = ktime_get e).
Proof.
  intros Hv. cbn zeta. unfold tick_nohz_restart_sched_tick.
  destruct (tick_stopped (get_ts st c)) eqn:Hstop; cbn [negb].
  - destruct (restart_sched_tick_body_ts e c (ktime_get e) st Hv)
      as (Hv' & Hts & Hq & Hf & Hd & Hn & Htt).
    cbn zeta in Hts. rewrite Hts. fields.
    splits; try reflexivity; try assumption; discriminate.
  - splits; try reflexivity; try assumption; try discriminate. apply timer_trace_refl.
Qed.

(** X15.  A context switch away from a task whose tick is stopped.
    [tick_nohz_pre_schedule] flushes the ticks of the outgoing task, once,
    clears the bucket and the task's TIF_NOHZ, and leaves the tick stopped
    and the timer alone, since the runqueue lock is held.
    [tick_nohz_post_schedule] then either starts a fresh snapshot with the
    idle bucket, when the idle task comes in, or restarts the tick; in
    neither case is anything accounted again. *)
Theorem context_switch_flushes_once (e : env) (cpu : Z) (st : kstate) :
  valid_cpu st cpu ->
  tick_stopped (get_ts st cpu) = true ->
  let ts := get_ts st cpu in
  let st1 := tick_nohz_pre_schedule cpu st in
  let st2 := tick_nohz_post_schedule e cpu st1 in
  events st1
  = events st ++ account_entry cpu (saved_jiffies_whence ts) (elapsed_ticks cpu st)
  /\ saved_jiffies_whence (get_ts st1 cpu) = JIFFIES_SAVED_NONE
  /\ tif_nohz (per_cpu st1 cpu) = false
  /\ tick_stopped (get_ts st1 cpu) = true
  /\ sched_timer (get_ts st1 cpu) = sched_timer ts
  /\ accounted st2 = accounted st1
  /\ (is_idle_task e = true ->
      events st2 = events st1
      /\ tick_stopped (get_ts st2 cpu) = true
      /\ saved_jiffies (get_ts st2 cpu) = jiffies st
      /\ saved_jiffies_whence (get_ts st2 cpu) = JIFFIES_SAVED_IDLE)
  /\ (is_idle_task e = false ->
      tick_stopped (get_ts st2 cpu) = false
      /\ saved_jiffies_whence (get_ts st2 cpu) = JIFFIES_SAVED_NONE).
Proof.
  intros Hv Hstop. cbn zeta. unfold tick_nohz_pre_schedule. rewrite Hstop.
  destruct (tick_nohz_flush_current_times_facts cpu true st Hv)
    as (Hv0 & Hev0 & Hts0 & _ & _ & _ & _ & _ & Htb0).
  cbn zeta in Hev0, Hts0. rewrite Hstop in Hev0, Hts0.
  set (st0 := tick_nohz_flush_current_times cpu true st) in *.
  set (st1 := set_per_cpu cpu (set_tif_nohz false (per_cpu st0 cpu)) st0).
  assert (Hv1 : valid_cpu st1 cpu) by (unfold st1; now percpu).
  assert (Hts1 : get_ts st1 cpu
                 = set_saved_jiffies_whence JIFFIES_SAVED_NONE (get_ts st cpu))
    by (unfold st1; percpu; exact Hts0).
  assert (Hev1 : events st1 = events st0) by (unfold st1; now percpu).
  assert (Hj1 : jiffies st1 = jiffies st).
  { unfold jiffies, st1. percpu. now destruct Htb0 as (-> & _). }
  unfold tick_nohz_post_schedule. rewrite Hts1. fields. rewrite Hstop.
  splits; try reflexivity.
  - now rewrite Hev1.
  - unfold st1. now percpu.
  - destruct (is_idle_task e).
    + apply accounted_events. now percpu.
    + destruct (tick_nohz_restart_sched_tick_facts e cpu st1 Hv1)
        as (_ & _ & _ & _ & _ & _ & _ & _ & _ & _ & _ & Htt & _).
      now apply timer_trace_accounted.
  - intros ->. percpu. rewrite ?Hts1, Hj1. fields. rewrite ?Hstop. auto.
  - intros ->.
    destruct (tick_nohz_restart_sched_tick_facts e cpu st1 Hv1)
      as (_ & Hs & _ & Hw & _).
    cbn zeta in Hs, Hw. rewrite Hw, Hts1. auto.
Qed.

Lemma context_switch_flushes_once_witness :
  let st1 := tick_nohz_pre_schedule 1 (sample_stopped_cpu 4 JIFFIES_SAVED_USER) in
  events st1 = [EvAccountUserTicks 1 3]
  /\ tif_nohz (per_cpu st1 1) = false
  /\ accounted (tick_nohz_post_schedule calm_env 1 st1) = [EvAccountUserTicks 1 3]
  /\ tick_stopped (get_ts (tick_nohz_post_schedule calm_env 1 st1) 1) = false.
Proof.
  cbn zeta.
  pose proof (context_switch_flushes_once calm_env 1
                (sample_stopped_cpu 4 JIFFIES_SAVED_USER)) as H.
  discharge H. destruct H as (Hev & _ & Htif & _ & _ & Hacc & _ & Hbusy).
  destruct (Hbusy eq_refl) as (Hrun & _).
  splits; [rewrite Hev; vm_compute; reflexivity | exact Htif | | exact Hrun].
  rewrite Hacc. unfold accounted. rewrite Hev. vm_compute. reflexivity.
Defined.

(** ** Leaving adaptive mode *)

Lemma unmark_facts c st :
  valid_cpu st c ->
  let st' := if user_nohz (get_ts st c)
             then atomic_dec_nr_cpus_user_nohz
                    (put_ts c (set_user_nohz false (get_ts st c)) st)
             else st in
  valid_cpu st' c
  /\ get_ts st' c = set_user_nohz false (get_ts st c)
  /\ nohz_task_ext_qs (per_cpu st' c) = nohz_task_ext_qs (per_cpu st c)
  /\ tif_nohz (per_cpu st' c) = tif_nohz (per_cpu st c)
  /\ housekeeping_trace st st'
  /\ same_timebase st st'.
Proof.
  intros Hv. cbn zeta. destruct (user_nohz (get_ts st c)) eqn:Hu.
  - percpu. splits; try reflexivity; try assumption.
    + apply hk_atomic_dec_nr_cpus_user_nohz, hk_put_ts, housekeeping_trace_refl.
    + apply tb_atomic_dec_nr_cpus_user_nohz, same_timebase_put_ts.
  - splits; try reflexivity; try assumption.
    + destruct (get_ts st c); cbn in *; now subst.
    + apply housekeeping_trace_refl.
    + apply same_timebase_refl.
Qed.

Lemma tick_nohz_cpu_exit_qs_facts c irq st :
  valid_cpu st c ->
  let st' := tick_nohz_cpu_exit_qs c irq st in
  valid_cpu st' c
  /\ get_ts st' c = get_ts st c
  /\ tif_nohz (per_cpu st' c) = tif_nohz (per_cpu st c)
  /\ nohz_task_ext_qs (per_cpu st' c) = false
  /\ events st'
     = events st ++ (if nohz_task_ext_qs (per_cpu st c) then [EvRcuUserExit c] else []).
Proof.
  intros Hv. cbn zeta. unfold tick_nohz_cpu_exit_qs.
  destruct (nohz_task_ext_qs (per_cpu st c)) eqn:Hq.
  - assert (Hv1 : valid_cpu (emit (EvRcuUserExit c) st) c) by exact Hv.
    percpu. splits; try reflexivity; assumption.
  - rewrite app_nil_r. splits; try reflexivity; assumption.
Qed.

(** What [tick_nohz_restart_adaptive] leaves behind on a valid CPU. *)
Lemma tick_nohz_restart_adaptive_facts e cpu st :
  valid_cpu st cpu ->
  let ts := get_ts st cpu in
  let st' := tick_nohz_restart_adaptive e cpu st in
  let ts' := get_ts st' cpu in
  valid_cpu st' cpu
  /\ user_nohz ts' = false
  /\ tick_stopped ts' = false
  /\ tif_nohz (per_cpu st' cpu) = false
  /\ nohz_task_ext_qs (per_cpu st' cpu) = false
  /\ accounted st'
     = accounted st
       ++ (if tick_stopped ts
           then account_entry cpu (saved_jiffies_whence ts) (elapsed_ticks cpu st) else [])
  /\ (tick_stopped ts = true -> saved_jiffies_whence ts' = JIFFIES_SAVED_NONE)
  /\ List.filter is_rcu_event (events st')
     = List.filter is_rcu_event (events st)
       ++ (if nohz_task_ext_qs (per_cpu st cpu) then [EvRcuUserExit cpu] else []).
Proof.
  intros Hv. cbn zeta. unfold tick_nohz_restart_adaptive.
  destruct (tick_nohz_flush_current_times_facts cpu true st Hv)
    as (Hv1 & Hev1 & Hts1 & Hq1 & Hf1 & _).
  cbn zeta in Hev1, Hts1.
  set (st1 := tick_nohz_flush_current_times cpu true st) in *.
  destruct (unmark_facts cpu st1 Hv1) as (Hv2 & Hts2 & Hq2 & Hf2 & Hhk2 & _).
  cbn zeta in Hv2, Hts2, Hq2, Hf2, Hhk2.
  set (st2 := if user_nohz (get_ts st1 cpu) then _ else st1) in *.
  destruct (tick_nohz_restart_sched_tick_facts e cpu st2 Hv2)
    as (Hv3 & Hs3 & _ & Hw3 & Hu3 & _ & _ & Hq3 & Hf3 & _ & _ & Htt3 & _).
  cbn zeta in Hs3, Hw3, Hu3.
  set (st3 := tick_nohz_restart_sched_tick e cpu st2) in *.
  set (st4 := set_per_cpu cpu (set_tif_nohz false (per_cpu st3 cpu)) st3).
  assert (Hv4 : valid_cpu st4 cpu) by (unfold st4; now percpu).
  assert (Hts4 : get_ts st4 cpu = get_ts st3 cpu) by (unfold st4; now percpu).
  assert (Hq4 : nohz_task_ext_qs (per_cpu st4 cpu) = nohz_task_ext_qs (per_cpu st cpu))
    by (unfold st4; percpu; congruence).
  assert (Hev4 : events st4 = events st3) by (unfold st4; now percpu).
  assert (Hacc : accounted st3
                 = accounted st
                   ++ (if tick_stopped (get_ts st cpu)
                       then account_entry cpu (saved_jiffies_whence (get_ts st cpu))
                              (elapsed_ticks cpu st) else [])).
  { rewrite (timer_trace_accounted st2 st3 Htt3).
    rewrite (housekeeping_trace_accounted st1 st2 Hhk2).
    unfold accounted. rewrite Hev1, List.filter_app. f_equal.
    destruct (tick_stopped _); [apply account_entry_account | reflexivity]. }
  assert (Hrcu : List.filter is_rcu_event (events st3)
                 = List.filter is_rcu_event (events st)).
  { rewrite (timer_trace_filter is_rcu_event st2 st3) by (now intros [] || assumption).
    rewrite (housekeeping_trace_filter is_rcu_event st1 st2)
      by (now intros [] || assumption).
    rewrite Hev1, List.filter_app.
    assert (Hnone : forall w t, List.filter is_rcu_event (account_entry cpu w t) = []).
    { intros w t. unfold account_entry. destruct (negb _ && _); [destruct w |]; reflexivity. }
    destruct (tick_stopped _); rewrite ?Hnone; apply app_nil_r. }
  assert (Hf4 : tif_nohz (per_cpu st4 cpu) = false) by (unfold st4; now percpu).
  destruct (tick_nohz_cpu_exit_qs_facts cpu true st4 Hv4)
    as (Hv5 & Hts5 & Hf5 & Hq5 & Hev5).
  cbn zeta in Hts5, Hf5, Hq5, Hev5.
  rewrite Hts5, Hf5, Hq5, Hts4, Hs3, Hu3, Hw3, Hts2, Hts1.
  splits; try reflexivity; try assumption.
  - unfold accounted. rewrite Hev5, List.filter_app, Hev4. fold (accounted st3).
    rewrite Hacc. destruct (nohz_task_ext_qs (per_cpu st4 cpu)); cbn; apply app_nil_r.
  - intros ->. reflexivity.
  - rewrite Hev5, List.filter_app, Hev4, Hrcu, Hq4.
    now destruct (nohz_task_ext_qs (per_cpu st cpu)).
Qed.

Lemma can_stop_adaptive_tick_facts e c st :
  valid_cpu st c ->
  let ret := fst (can_stop_adaptive_tick e c st) in
  let st1 := snd (can_stop_adaptive_tick e c st) in
  ret = adaptive_eligible e
  /\ valid_cpu st1 c
  /\ get_ts st1 c = set_user_nohz ret (get_ts st c)
  /\ nohz_task_ext_qs (per_cpu st1 c) = nohz_task_ext_qs (per_cpu st c)
  /\ tif_nohz (per_cpu st1 c) = tif_nohz (per_cpu st c)
  /\ housekeeping_trace st st1
  /\ (ret = true -> events st1 = events st)
  /\ same_timebase st st1
  /\ tick_do_timer_cpu st1 = tick_do_timer_cpu st.
Proof.
  intros Hv. cbn zeta.
  assert (Hsame : forall b, user_nohz (get_ts st c) = b
                            -> get_ts st c = set_user_nohz b (get_ts st c)).
  { intros b <-. now destruct (get_ts st c). }
  unfold can_stop_adaptive_tick, adaptive_eligible.
  destruct (sched_can_stop_tick e), (posix_cpu_timers_running e), (rcu_pending e);
    cbn [negb orb andb fst snd];
    destruct (user_nohz (get_ts st c)) eqn:Hu; cbn [negb andb fst snd];
    unfold atomic_inc_nr_cpus_user_nohz; percpu;
    cbn [tick_do_timer_cpu set_nr_cpus_user_nohz events]; percpu;
    splits; try reflexivity; try assumption; try discriminate; auto;
    try apply housekeeping_trace_refl; try apply same_timebase_refl;
    try (apply hk_atomic_dec_nr_cpus_user_nohz, hk_put_ts, housekeeping_trace_refl);
    try (apply tb_atomic_dec_nr_cpus_user_nohz, same_timebase_put_ts);
    try (apply (housekeeping_trace_events st st);
         [apply housekeeping_trace_refl | now percpu]);
    try (apply tb_set_nr_cpus_user_nohz, same_timebase_put_ts);
    try (unfold atomic_dec_nr_cpus_user_nohz; destruct (_ <? 0); percpu;
         cbn [tick_do_timer_cpu set_nr_cpus_user_nohz]; now percpu).
Qed.

(** X16.  The interrupt that tells a CPU to leave adaptive mode,
    [cpuset_exit_nohz_interrupt], restores the tick whether or not the CPU
    would still be fit for adaptive mode.  On a busy CPU whose tick is
    stopped it flushes the ticks since the snapshot to the recorded bucket,
    once, clears the marker, restarts the tick, clears TIF_NOHZ and leaves
    the RCU extended quiescent state if the CPU was in it.  On a CPU whose
    tick runs, or that runs the idle task, it does nothing. *)
Theorem cpuset_exit_nohz_interrupt_restores (e : env) (cpu : Z) (st : kstate) :
  valid_cpu st cpu ->
  let ts := get_ts st cpu in
  let st' := cpuset_exit_nohz_interrupt e cpu st in
  let ts' := get_ts st' cpu in
  (tick_stopped ts = false \/ is_idle_task e = true -> st' = st)
  /\ (tick_stopped ts = true -> is_idle_task e = false ->
      st' = tick_nohz_restart_adaptive e cpu st
      /\ tick_stopped ts' = false
      /\ user_nohz ts' = false
      /\ saved_jiffies_whence ts' = JIFFIES_SAVED_NONE
      /\ tif_nohz (per_cpu st' cpu) = false
      /\ nohz_task_ext_qs (per_cpu st' cpu) = false
      /\ accounted st'
         = accounted st
           ++ account_entry cpu (saved_jiffies_whence ts) (elapsed_ticks cpu st)
      /\ List.filter is_rcu_event (events st')
         = List.filter is_rcu_event (events st)
           ++ (if nohz_task_ext_qs (per_cpu st cpu) then [EvRcuUserExit cpu] else [])).
Proof.
  intros Hv. cbn zeta. unfold cpuset_exit_nohz_interrupt. split.
  - intros [-> | ->]; [reflexivity |]. now rewrite andb_false_r.
  - intros Hstop Hbusy. rewrite Hstop, Hbusy. cbn [negb andb].
    destruct (tick_nohz_restart_adaptive_facts e cpu st Hv)
      as (_ & Hu & Hs & Hf & Hq & Hacc & Hw & Hrcu).
    cbn zeta in Hu, Hs, Hacc, Hw. rewrite Hstop in Hacc.
    splits; try reflexivity; try assumption. now apply Hw.
Qed.

Lemma cpuset_exit_nohz_interrupt_restores_witness :
  let st' := cpuset_exit_nohz_interrupt calm_env 2 adaptive_stopped_scenario in
  tick_stopped (get_ts st' 2) = false
  /\ user_nohz (get_ts st' 2) = false
  /\ accounted st' = [EvAccountUserTicks 2 3]
  /\ List.filter is_rcu_event (events st') = [EvRcuUserExit 2].
Proof.
  cbn zeta.
  pose proof (cpuset_exit_nohz_interrupt_restores calm_env 2 adaptive_stopped_scenario)
    as H.
  discharge H. destruct H as (_ & H).
  destruct H as (_ & Hs & Hu & _ & _ & _ & Hacc & Hrcu); try reflexivity.
  splits; [exact Hs | exact Hu | rewrite Hacc | rewrite Hrcu]; vm_compute; reflexivity.
Defined.

(** X17.  [tick_nohz_check_adaptive] on a busy CPU whose tick is stopped.
    While the CPU is still fit for adaptive mode the tick stays stopped
    and nothing is logged, accounted or programmed; the marker is set.  As
    soon as one of the three conditions fails, the marker is cleared and the
    tick is restored as by the interrupt: the ticks since the snapshot go
    to the recorded bucket, once, and TIF_NOHZ and the RCU state are
    cleared.  With the tick running, or in the idle task, the check does
    nothing. *)
Theorem tick_nohz_check_adaptive_restores (e : env) (cpu : Z) (st : kstate) :
  valid_cpu st cpu ->
  let ts := get_ts st cpu in
  let st' := tick_nohz_check_adaptive e cpu st in
  let ts' := get_ts st' cpu in
  (tick_stopped ts = false \/ is_idle_task e = true -> st' = st)
  /\ (tick_stopped ts = true -> is_idle_task e = false -> adaptive_eligible e = true ->
      tick_stopped ts' = true
      /\ user_nohz ts' = true
      /\ events st' = events st
      /\ saved_jiffies ts' = saved_jiffies ts
      /\ saved_jiffies_whence ts' = saved_jiffies_whence ts
      /\ sched_timer ts' = sched_timer ts)
  /\ (tick_stopped ts = true -> is_idle_task e = false -> adaptive_eligible e = false ->
      tick_stopped ts' = false
      /\ user_nohz ts' = false
      /\ saved_jiffies_whence ts' = JIFFIES_SAVED_NONE
      /\ tif_nohz (per_cpu st' cpu) = false
      /\ nohz_task_ext_qs (per_cpu st' cpu) = false
      /\ accounted st'
         = accounted st
           ++ account_entry cpu (saved_jiffies_whence ts) (elapsed_ticks cpu st)).
Proof.
  intros Hv. cbn zeta. unfold tick_nohz_check_adaptive.
  destruct (can_stop_adaptive_tick_facts e cpu st Hv)
    as (Hret & Hv1 & Hts1 & _ & _ & Hhk1 & Hev1 & Htb1 & _).
  cbn zeta in Hret, Hts1, Hev1.
  destruct (can_stop_adaptive_tick e cpu st) as [ret st1]. cbn [fst snd] in *.
  splits.
  - intros [-> | ->]; [reflexivity |]. now rewrite andb_false_r.
  - intros Hstop Hbusy Hok. rewrite Hstop, Hbusy. cbn [negb andb].
    rewrite Hok in Hret. subst ret. cbn [negb].
    rewrite Hts1. fields. splits; auto.
  - intros Hstop Hbusy Hok. rewrite Hstop, Hbusy. cbn [negb andb].
    rewrite Hok in Hret. subst ret. cbn [negb].
    destruct (tick_nohz_restart_adaptive_facts e cpu st1 Hv1)
      as (_ & Hu & Hs & Hf & Hq & Hacc & Hw & _).
    cbn zeta in Hu, Hs, Hacc, Hw. rewrite Hts1 in Hacc, Hw. fields.
    cbn [tick_stopped saved_jiffies_whence set_user_nohz] in Hacc, Hw.
    rewrite Hstop in Hacc.
    assert (Hel : elapsed_ticks cpu st1 = elapsed_ticks cpu st).
    { unfold elapsed_ticks, jiffies. rewrite Hts1. fields.
      now destruct Htb1 as (-> & _). }
    rewrite Hel, (housekeeping_trace_accounted st st1 Hhk1) in Hacc.
    splits; try assumption. now apply Hw.
Qed.

Lemma tick_nohz_check_adaptive_restores_witness :
  tick_stopped (get_ts (tick_nohz_check_adaptive calm_env 2 adaptive_stopped_scenario) 2)
    = true
  /\ let st' := tick_nohz_check_adaptive busy_env 2 adaptive_stopped_scenario in
     tick_stopped (get_ts st' 2) = false
     /\ user_nohz (get_ts st' 2) = false
     /\ nr_cpus_user_nohz st' = 1
     /\ accounted st' = [EvAccountUserTicks 2 3].
Proof.
  cbn zeta.
  pose proof (tick_nohz_check_adaptive_restores calm_env 2 adaptive_stopped_scenario) as H.
  pose proof (tick_nohz_check_adaptive_restores busy_env 2 adaptive_stopped_scenario) as H'.
  discharge H. discharge H'.
  destruct H as (_ & Hfit & _). destruct H' as (_ & _ & Hunfit).
  destruct Hfit as (Hs & _); try reflexivity.
  destruct Hunfit as (Hs' & Hu' & _ & _ & _ & Hacc'); try reflexivity.
  splits; [exact Hs | exact Hs' | exact Hu' | vm_compute; reflexivity |].
  rewrite Hacc'. vm_compute. reflexivity.
Defined.

(** X18.  After [can_stop_adaptive_tick] the marker of the CPU says what
    the function returned, which is whether the scheduler can stop the
    tick, no POSIX CPU timer runs for the task and RCU has nothing pending;
    nothing else of the CPU's area is written.  A second call with the
    same answers changes nothing: the counter is moved only when the marker
    changes. *)
Theorem can_stop_adaptive_tick_marks (e : env) (cpu : Z) (st : kstate) :
  valid_cpu st cpu ->
  let ret := fst (can_stop_adaptive_tick e cpu st) in
  let st1 := snd (can_stop_adaptive_tick e cpu st) in
  ret = adaptive_eligible e
  /\ get_ts st1 cpu = set_user_nohz ret (get_ts st cpu)
  /\ nohz_task_ext_qs (per_cpu st1 cpu) = nohz_task_ext_qs (per_cpu st cpu)
  /\ tif_nohz (per_cpu st1 cpu) = tif_nohz (per_cpu st cpu)
  /\ (user_nohz (get_ts st cpu) = ret -> st1 = st)
  /\ can_stop_adaptive_tick e cpu st1 = (ret, st1).
Proof.
  intros Hv. cbn zeta.
  destruct (can_stop_adaptive_tick_facts e cpu st Hv)
    as (Hret & Hv1 & Hts1 & Hq1 & Hf1 & _).
  cbn zeta in Hret, Hts1.
  assert (Hu1 : user_nohz (get_ts (snd (can_stop_adaptive_tick e cpu st)) cpu)
                = fst (can_stop_adaptive_tick e cpu st)) by now rewrite Hts1.
  assert (Hfix : forall s, user_nohz (get_ts s cpu) = adaptive_eligible e ->
                           can_stop_adaptive_tick e cpu s = (adaptive_eligible e, s)).
  { intros s Hs. unfold can_stop_adaptive_tick, adaptive_eligible in *.
    destruct (sched_can_stop_tick e), (posix_cpu_timers_running e), (rcu_pending e);
      cbn [negb orb andb] in *; rewrite Hs; reflexivity. }
  splits; try assumption.
  - intros Hu. rewrite Hret in Hu. now rewrite (Hfix st Hu).
  - rewrite Hret in Hu1 |- *. now apply Hfix.
Qed.

Lemma can_stop_adaptive_tick_marks_witness :
  let st1 := snd (can_stop_adaptive_tick busy_env 2 adaptive_scenario) in
  fst (can_stop_adaptive_tick busy_env 2 adaptive_scenario) = false
  /\ user_nohz (get_ts st1 2) = false
  /\ nr_cpus_user_nohz st1 = 1
  /\ can_stop_adaptive_tick busy_env 2 st1 = (false, st1).
Proof.
  cbn zeta.
  pose proof (can_stop_adaptive_tick_marks busy_env 2 adaptive_scenario) as H.
  discharge H. destruct H as (Hret & Hts & _ & _ & _ & Hfix).
  rewrite Hret in Hfix |- *. rewrite Hts, Hret.
  splits; [reflexivity | reflexivity | vm_compute; reflexivity | exact Hfix].
Defined.

(** ** The tick handlers *)

Lemma advance_all_ext nows : forall st st',
  same_timebase st st' -> same_timebase (advance_all nows st) (advance_all nows st').
Proof.
  induction nows as [| now nows IH]; intros st st' H; cbn [advance_all]; [assumption |].
  now apply IH, tick_do_update_jiffies64_ext.
Qed.

Lemma advance_all_app l1 l2 st :
  advance_all (l1 ++ l2) st = advance_all l2 (advance_all l1 st).
Proof. revert st. induction l1 as [| now l1 IH]; intros st; cbn; [reflexivity | apply IH]. Qed.

Lemma tb_tick_nohz_reprogram st0 cpu now armed st :
  same_timebase st0 st -> same_timebase st0 (snd (tick_nohz_reprogram cpu now armed st)).
Proof. intros H. unfold tick_nohz_reprogram. auto with timebase. Qed.

Lemma to_tick_nohz_reprogram c st0 now armed st :
  timer_only c st0 st -> timer_only c st0 (snd (tick_nohz_reprogram c now armed st)).
Proof. intros H. unfold tick_nohz_reprogram. auto with timeronly. Qed.

Lemma tt_tick_nohz_reprogram st0 c now armed st :
  timer_trace st0 st -> timer_trace st0 (snd (tick_nohz_reprogram c now armed st)).
Proof. intros H. unfold tick_nohz_reprogram. auto with trace. Qed.

Lemma tick_nohz_handler_loop_timebase cpu clock : forall now st0 st,
  same_timebase st0 st ->
  same_timebase (advance_all clock st0) (tick_nohz_handler_loop cpu now clock st).
Proof.
  induction clock as [| later clock IH]; intros now st0 st H;
    cbn [tick_nohz_handler_loop advance_all].
  - now apply tb_tick_nohz_reprogram.
  - apply IH, tick_do_update_jiffies64_ext. now apply tb_tick_nohz_reprogram.
Qed.

Lemma to_tick_nohz_handler_loop c st0 clock : forall now st,
  timer_only c st0 st -> timer_only c st0 (tick_nohz_handler_loop c now clock st).
Proof.
  induction clock as [| later clock IH]; intros now st H; cbn [tick_nohz_handler_loop].
  - now apply to_tick_nohz_reprogram.
  - apply IH, to_tick_do_update_jiffies64. now apply to_tick_nohz_reprogram.
Qed.

Lemma tt_tick_nohz_handler_loop st0 c clock : forall now st,
  timer_trace st0 st -> timer_trace st0 (tick_nohz_handler_loop c now clock st).
Proof.
  induction clock as [| later clock IH]; intros now st H; cbn [tick_nohz_handler_loop].
  - now apply tt_tick_nohz_reprogram.
  - apply IH, tt_tick_do_update_jiffies64. now apply tt_tick_nohz_reprogram.
Qed.

Lemma tick_do_timer_check_handler_duty cpu st :
  tick_do_timer_cpu (tick_do_timer_check_handler cpu st)
  = if tick_do_timer_cpu st =? TICK_DO_TIMER_NONE then cpu else tick_do_timer_cpu st.
Proof. unfold tick_do_timer_check_handler. now destruct (_ =? _). Qed.

Lemma tick_has_duty_after_check cpu st :
  0 <= cpu ->
  (tick_do_timer_cpu (tick_do_timer_check_handler cpu st) =? cpu) = tick_has_duty cpu st.
Proof.
  intros Hcpu. rewrite tick_do_timer_check_handler_duty. unfold tick_has_duty.
  destruct (Z.eqb_spec (tick_do_timer_cpu st) TICK_DO_TIMER_NONE) as [Hn | Hn]; cbn [orb].
  - apply Z.eqb_refl.
  - reflexivity.
Qed.

(** The part both tick handlers start with: the duty check and the update
    of the time base by the CPU that has the duty. *)
Lemma tick_head_facts cpu now st :
  0 <= cpu ->
  let st1 := tick_do_timer_check_handler cpu st in
  let st2 := if tick_do_timer_cpu st1 =? cpu then tick_do_update_jiffies64 now st1 else st1 in
  (forall c, per_cpu st2 c = per_cpu st c)
  /\ (forall c, valid_cpu st2 c = valid_cpu st c)
  /\ tick_do_timer_cpu st2
     = (if tick_do_timer_cpu st =? TICK_DO_TIMER_NONE then cpu else tick_do_timer_cpu st)
  /\ same_timebase (advance_all (if tick_has_duty cpu st then [now] else []) st) st2
  /\ timer_trace st st2
  /\ nr_cpus_user_nohz st2 = nr_cpus_user_nohz st.
Proof.
  intros Hcpu. cbn zeta. rewrite tick_has_duty_after_check by assumption.
  pose proof (tick_do_timer_check_handler_duty cpu st) as Hd.
  set (st1 := tick_do_timer_check_handler cpu st) in *.
  assert (Hpc1 : forall c, per_cpu st1 c = per_cpu st c)
    by (intros c; unfold st1, tick_do_timer_check_handler; now destruct (_ =? _)).
  assert (Hv1 : forall c, valid_cpu st1 c = valid_cpu st c)
    by (intros c; unfold st1, tick_do_timer_check_handler; now destruct (_ =? _)).
  assert (Htb1 : same_timebase st st1)
    by (unfold st1, tick_do_timer_check_handler; destruct (_ =? _); auto with timebase).
  assert (Hev1 : events st1 = events st)
    by (unfold st1, tick_do_timer_check_handler; now destruct (_ =? _)).
  assert (Hn1 : nr_cpus_user_nohz st1 = nr_cpus_user_nohz st)
    by (unfold st1, tick_do_timer_check_handler; now destruct (_ =? _)).
  destruct (tick_has_duty cpu st); cbn [advance_all].
  - splits.
    + intros c. percpu. apply Hpc1.
    + intros c. percpu. apply Hv1.
    + now percpu.
    + now apply tick_do_update_jiffies64_ext.
    + apply tt_tick_do_update_jiffies64.
      apply (timer_trace_events st st); [apply timer_trace_refl | assumption].
    + now percpu.
  - splits; try assumption.
    apply (timer_trace_events st st); [apply timer_trace_refl | assumption].
Qed.

(** X19.  A tick never leaves the duty unassigned.  Both tick handlers,
    [tick_sched_timer] and [tick_nohz_handler], start by taking a duty that
    nobody has; afterwards the duty is with this CPU if it had or took it
    and with its holder otherwise.  The CPU with the duty brings the time
    base up to its clock reading, any other CPU leaves it alone, and the
    low resolution handler brings it up to every further reading it takes
    while its event keeps landing in the past.  For the high resolution
    tick of the CPU with the duty this means that the last update ends up
    less than one period behind the clock. *)
Theorem tick_takes_dropped_duty (e : env) (cpu : Z) (st : kstate) :
  0 <= cpu ->
  let now := ktime_get e in
  let duty := tick_has_duty cpu st in
  let holder :=
    if tick_do_timer_cpu st =? TICK_DO_TIMER_NONE then cpu else tick_do_timer_cpu st in
  tick_do_timer_cpu (tick_sched_timer e cpu st) = holder
  /\ tick_do_timer_cpu (tick_nohz_handler e cpu st) = holder
  /\ holder <> TICK_DO_TIMER_NONE
  /\ same_timebase (advance_all (if duty then [now] else []) st) (tick_sched_timer e cpu st)
  /\ same_timebase (advance_all ((if duty then [now] else []) ++ rearm_clock e) st)
       (tick_nohz_handler e cpu st)
  /\ (duty = true ->
      0 < tick_period st <= KTIME_MAX ->
      0 <= last_jiffies_update st <= now -> now <= KTIME_MAX ->
      let st' := tick_sched_timer e cpu st in
      last_jiffies_update st'
        = last_jiffies_update st + elapsed_periods now st * tick_period st
      /\ 0 <= now - last_jiffies_update st' < tick_period st).
Proof.
  intros Hcpu. cbn zeta.
  destruct (tick_head_facts cpu (ktime_get e) st Hcpu) as (Hpc & Hv & Hd & Htb & _).
  cbn zeta in Hpc, Hv, Hd, Htb.
  assert (Hts : same_timebase
                  (advance_all (if tick_has_duty cpu st then [ktime_get e] else []) st)
                  (tick_sched_timer e cpu st)).
  { unfold tick_sched_timer.
    set (st2 := if _ =? cpu then _ else tick_do_timer_check_handler cpu st) in *.
    apply tb_hrtimer_forward.
    destruct (irq_regs e); [destruct (tick_stopped _) |]; auto with timebase. }
  splits.
  - unfold tick_sched_timer.
    set (st2 := if _ =? cpu then _ else tick_do_timer_check_handler cpu st) in *.
    set (st3 := match irq_regs e with Some _ => _ | None => st2 end).
    assert (Hd3 : tick_do_timer_cpu st3 = tick_do_timer_cpu st2)
      by (unfold st3; destruct (irq_regs e); [destruct (tick_stopped _) |]; now percpu).
    unfold hrtimer_forward, hrtimer_set_expires.
    destruct (_ <? 0); percpu; congruence.
  - unfold tick_nohz_handler.
    set (st0 := set_per_cpu cpu (set_next_event KTIME_MAX (per_cpu st cpu)) st).
    destruct (tick_head_facts cpu (ktime_get e) st0 Hcpu) as (_ & Hv0 & Hd0 & _).
    cbn zeta in Hv0, Hd0.
    set (st2 := if _ =? cpu then _ else tick_do_timer_check_handler cpu st0) in *.
    set (st3 := if tick_stopped (get_ts st2 cpu) then _ else st2).
    assert (Hd3 : tick_do_timer_cpu st3 = tick_do_timer_cpu st2)
      by (unfold st3; destruct (tick_stopped _); now percpu).
    destruct (Z.lt_ge_cases cpu (Z.of_nat (length (cpus st3)))) as [Hin | Hout].
    + assert (Hv3 : valid_cpu st3 cpu) by (unfold valid_cpu; lia).
      destruct (to_tick_nohz_handler_loop cpu st3 (rearm_clock e) (ktime_get e) st3
                  (timer_only_refl cpu st3 Hv3)) as (_ & _ & _ & _ & Hdl & _).
      rewrite Hdl, Hd3, Hd0. unfold st0. now percpu.
    + (* a CPU without an area: nothing of it can be written *)
      assert (Hloop : forall clock now s,
                 tick_do_timer_cpu (tick_nohz_handler_loop cpu now clock s)
                 = tick_do_timer_cpu s).
      { induction clock as [| later clock IH]; intros now s; cbn [tick_nohz_handler_loop];
          [| rewrite IH]; unfold tick_nohz_reprogram, tick_program_event, hrtimer_forward,
            hrtimer_set_expires; destruct (_ <? 0); cbn [snd]; now percpu. }
      rewrite Hloop, Hd3, Hd0. unfold st0. now percpu.
  - unfold TICK_DO_TIMER_NONE. destruct (Z.eqb_spec (tick_do_timer_cpu st) (-1)); lia.
  - exact Hts.
  - unfold tick_nohz_handler. rewrite advance_all_app.
    set (st0 := set_per_cpu cpu (set_next_event KTIME_MAX (per_cpu st cpu)) st).
    destruct (tick_head_facts cpu (ktime_get e) st0 Hcpu) as (_ & _ & _ & Htb0 & _).
    cbn zeta in Htb0.
    set (st2 := if _ =? cpu then _ else tick_do_timer_check_handler cpu st0) in *.
    apply tick_nohz_handler_loop_timebase.
    assert (Hduty : tick_has_duty cpu st0 = tick_has_duty cpu st)
      by (unfold tick_has_duty, st0; now percpu).
    rewrite Hduty in Htb0.
    assert (Htb3 : same_timebase
                     (advance_all (if tick_has_duty cpu st then [ktime_get e] else []) st)
                     st2).
    { apply (same_timebase_trans _
               (advance_all (if tick_has_duty cpu st then [ktime_get e] else []) st0));
        [| assumption].
      apply advance_all_ext, same_timebase_set_per_cpu. }
    destruct (tick_stopped _); auto with timebase.
  - intros Hduty Hp Hl Hn. rewrite Hduty in Hts. cbn [advance_all] in Hts.
    destruct Hts as (_ & Hlu & _). rewrite Hlu.
    unfold KTIME_MAX in *.
    rewrite advance_last_update; unfold s64_range; try lia.
    unfold elapsed_periods.
    pose proof (Z.mod_pos_bound (ktime_get e - last_jiffies_update st) (tick_period st)
                  ltac:(lia)) as Hm.
    pose proof (Z.div_mod (ktime_get e - last_jiffies_update st) (tick_period st)
                  ltac:(lia)) as Hdm.
    split; [reflexivity |]. nia.
Qed.

Lemma tick_takes_dropped_duty_witness :
  tick_do_timer_cpu (tick_sched_timer (env_with_clock 103400000 calm_env) 1
                       adaptive_scenario) = 1
  /\ last_jiffies_update (tick_sched_timer (env_with_clock 103400000 calm_env) 1
                            adaptive_scenario) = 103000000
  /\ tick_do_timer_cpu (tick_nohz_handler (env_with_clock 103400000 calm_env) 1
                          adaptive_scenario) = 1.
Proof.
  pose proof (tick_takes_dropped_duty (env_with_clock 103400000 calm_env) 1
                adaptive_scenario) as H.
  discharge H. destruct H as (Hd & Hd' & _ & _ & _ & Hfresh).
  discharge Hfresh. destruct Hfresh as (Hlu & _).
  splits; [rewrite Hd | rewrite Hlu | rewrite Hd']; vm_compute; reflexivity.
Defined.

(** X20.  A tick taken while the tick is stopped is not accounted twice.
    The handlers leave the accounting of the tick they stand for to the
    scheduler and move the snapshot of the jiffies forward by one, so that
    the ticks a later flush will account grow by the jiffies this tick
    added less one.  The high resolution handler does so only when it
    interrupted something; a tick that is not stopped has no snapshot to
    move.  Neither handler accounts anything itself or changes the bucket. *)
Theorem tick_while_stopped_discounted (e : env) (cpu : Z) (st : kstate) :
  valid_cpu st cpu ->
  let ts := get_ts st cpu in
  let hres := tick_sched_timer e cpu st in
  let lres := tick_nohz_handler e cpu st in
  let moved (b : bool) := if b then wrap_u64 (saved_jiffies ts + 1) else saved_jiffies ts in
  saved_jiffies (get_ts hres cpu)
    = moved (tick_stopped ts && match irq_regs e with Some _ => true | None => false end)
  /\ saved_jiffies (get_ts lres cpu) = moved (tick_stopped ts)
  /\ (tick_stopped ts = true -> irq_regs e <> None ->
      elapsed_ticks cpu hres
      = wrap_u64 (elapsed_ticks cpu st + (jiffies hres - jiffies st) - 1))
  /\ (tick_stopped ts = true ->
      elapsed_ticks cpu lres
      = wrap_u64 (elapsed_ticks cpu st + (jiffies lres - jiffies st) - 1))
  /\ tick_stopped (get_ts hres cpu) = tick_stopped ts
  /\ tick_stopped (get_ts lres cpu) = tick_stopped ts
  /\ saved_jiffies_whence (get_ts hres cpu) = saved_jiffies_whence ts
  /\ saved_jiffies_whence (get_ts lres cpu) = saved_jiffies_whence ts
  /\ accounted hres = accounted st
  /\ accounted lres = accounted st.
Proof.
  intros Hv. cbn zeta.
  assert (Hcpu : 0 <= cpu) by (unfold valid_cpu in Hv; lia).
  assert (Hwrap : forall j j' s,
             wrap_u64 (j' - wrap_u64 (s + 1)) = wrap_u64 (wrap_u64 (j - s) + (j' - j) - 1)).
  { intros j j' s. unfold wrap_u64.
    rewrite Zminus_mod_idemp_r.
    replace ((j - s) mod 2 ^ 64 + (j' - j) - 1)
      with ((j - s) mod 2 ^ 64 + (j' - j - 1)) by lia.
    rewrite Zplus_mod_idemp_l. f_equal. lia. }
  (* the high resolution tick *)
  assert (Hh : let hres := tick_sched_timer e cpu st in
               valid_cpu hres cpu
               /\ get_ts hres cpu
                  = set_sched_timer (sched_timer (get_ts hres cpu))
                      (if tick_stopped (get_ts st cpu)
                          && match irq_regs e with Some _ => true | None => false end
                       then set_saved_jiffies (wrap_u64 (saved_jiffies (get_ts st cpu) + 1))
                              (get_ts st cpu)
                       else get_ts st cpu)
               /\ timer_trace st hres).
  { cbn zeta. unfold tick_sched_timer.
    destruct (tick_head_facts cpu (ktime_get e) st Hcpu) as (Hpc & Hv2 & _ & _ & Htt & _).
    cbn zeta in Hpc, Hv2, Htt.
    set (st2 := if _ =? cpu then _ else tick_do_timer_check_handler cpu st) in *.
    assert (Hts2 : get_ts st2 cpu = get_ts st cpu) by (unfold get_ts; now rewrite Hpc).
    assert (Hv2' : valid_cpu st2 cpu) by now rewrite Hv2.
    set (st3 := match irq_regs e with Some _ => _ | None => st2 end).
    assert (H3 : valid_cpu st3 cpu
                 /\ get_ts st3 cpu
                    = (if tick_stopped (get_ts st cpu)
                          && match irq_regs e with Some _ => true | None => false end
                       then set_saved_jiffies (wrap_u64 (saved_jiffies (get_ts st cpu) + 1))
                              (get_ts st cpu)
                       else get_ts st cpu)
                 /\ timer_trace st st3).
    { unfold st3. rewrite Hts2.
      destruct (irq_regs e); [destruct (tick_stopped (get_ts st cpu)) |];
        rewrite ?andb_false_r; cbn [andb]; percpu; splits; auto with trace. }
    destruct H3 as (Hv3 & Hts3 & Htt3). clearbody st3.
    destruct (to_hrtimer_forward cpu st3 (ktime_get e) (tick_period st3) st3
                (timer_only_refl cpu st3 Hv3)) as (Hv4 & Hts4 & _).
    rewrite Hts3 in Hts4. splits; try assumption. now apply tt_hrtimer_forward. }
  (* the low resolution tick *)
  assert (Hl : let lres := tick_nohz_handler e cpu st in
               valid_cpu lres cpu
               /\ get_ts lres cpu
                  = set_sched_timer (sched_timer (get_ts lres cpu))
                      (if tick_stopped (get_ts st cpu)
                       then set_saved_jiffies (wrap_u64 (saved_jiffies (get_ts st cpu) + 1))
                              (get_ts st cpu)
                       else get_ts st cpu)
               /\ timer_trace st lres).
  { cbn zeta. unfold tick_nohz_handler.
    set (st0 := set_per_cpu cpu (set_next_event KTIME_MAX (per_cpu st cpu)) st).
    assert (Hv0 : valid_cpu st0 cpu) by (unfold st0; now percpu).
    assert (Hts0 : get_ts st0 cpu = get_ts st cpu) by (unfold st0; now percpu).
    assert (Htt0 : timer_trace st st0) by (unfold st0; auto with trace).
    destruct (tick_head_facts cpu (ktime_get e) st0 Hcpu) as (Hpc & Hv2 & _ & _ & Htt & _).
    cbn zeta in Hpc, Hv2, Htt.
    set (st2 := if _ =? cpu then _ else tick_do_timer_check_handler cpu st0) in *.
    assert (Hts2 : get_ts st2 cpu = get_ts st cpu)
      by (rewrite <- Hts0; unfold get_ts; now rewrite Hpc).
    assert (Hv2' : valid_cpu st2 cpu) by now rewrite Hv2.
    pose proof (timer_trace_trans _ _ _ Htt0 Htt) as Htt2.
    set (st3 := if tick_stopped (get_ts st2 cpu) then _ else st2).
    assert (H3 : valid_cpu st3 cpu
                 /\ get_ts st3 cpu
                    = (if tick_stopped (get_ts st cpu)
                       then set_saved_jiffies (wrap_u64 (saved_jiffies (get_ts st cpu) + 1))
                              (get_ts st cpu)
                       else get_ts st cpu)
                 /\ timer_trace st st3).
    { unfold st3. rewrite Hts2.
      destruct (tick_stopped (get_ts st cpu)); percpu; splits; auto with trace. }
    destruct H3 as (Hv3 & Hts3 & Htt3). clearbody st3.
    destruct (to_tick_nohz_handler_loop cpu st3 (rearm_clock e) (ktime_get e) st3
                (timer_only_refl cpu st3 Hv3)) as (Hv4 & Hts4 & _).
    rewrite Hts3 in Hts4. splits; try assumption.
    now apply tt_tick_nohz_handler_loop. }
  cbn zeta in Hh, Hl.
  destruct Hh as (Hvh & Htsh & Htth). destruct Hl as (Hvl & Htsl & Httl).
  unfold elapsed_ticks. rewrite Htsh, Htsl.
  destruct (tick_stopped (get_ts st cpu)) eqn:Hstop; cbn [andb];
    destruct (irq_regs e) eqn:Hregs; fields; rewrite ?Hstop;
    splits; try reflexivity; try discriminate; try congruence;
    try (now apply timer_trace_accounted);
    intros; unfold jiffies; apply Hwrap.
Qed.

Lemma tick_while_stopped_discounted_witness :
  let st := sample_stopped_cpu 4 JIFFIES_SAVED_USER in
  let hres := tick_sched_timer (env_with_clock 8200000 calm_env) 1 st in
  saved_jiffies (get_ts hres 1) = 5
  /\ tick_stopped (get_ts hres 1) = true
  /\ accounted hres = [].
Proof.
  cbn zeta.
  pose proof (tick_while_stopped_discounted (env_with_clock 8200000 calm_env) 1
                (sample_stopped_cpu 4 JIFFIES_SAVED_USER)) as H.
  discharge H. destruct H as (Hsj & _ & _ & _ & Hs & _ & _ & _ & Hacc & _).
  splits; [rewrite Hsj | rewrite Hs | rewrite Hacc]; vm_compute; reflexivity.
Defined.

(** *** Interrupt entry *)

Lemma tick_nohz_update_jiffies_facts cpu now st :
  valid_cpu st cpu ->
  let st' := tick_nohz_update_jiffies cpu now st in
  valid_cpu st' cpu
  /\ get_ts st' cpu = set_idle_waketime now (get_ts st cpu)
  /\ next_event (per_cpu st' cpu) = next_event (per_cpu st cpu)
  /\ (forall c, c <> cpu -> per_cpu st' c = per_cpu st c)
  /\ same_timebase (tick_do_update_jiffies64 now st) st'
  /\ (events st' = events st \/ exists k, events st' = events st ++ [EvDoTimer k]).
Proof.
  intros Hv. cbn zeta. unfold tick_nohz_update_jiffies.
  set (st1 := put_ts cpu _ st).
  assert (Hv1 : valid_cpu st1 cpu) by (unfold st1; now percpu).
  assert (Hts1 : get_ts st1 cpu = set_idle_waketime now (get_ts st cpu))
    by (unfold st1; now percpu).
  assert (Hne1 : next_event (per_cpu st1 cpu) = next_event (per_cpu st cpu))
    by (unfold st1; now percpu).
  assert (Hpc1 : forall c, c <> cpu -> per_cpu st1 c = per_cpu st c)
    by (intros c Hc; unfold st1, put_ts; now rewrite per_cpu_set_ne by congruence).
  assert (Hev1 : events st1 = events st)
    by (unfold st1, put_ts, set_per_cpu; now destruct (cpu <? 0)).
  splits.
  - now rewrite tick_do_update_jiffies64_valid.
  - now rewrite tick_do_update_jiffies64_get_ts.
  - now rewrite tick_do_update_jiffies64_per_cpu.
  - intros c Hc. rewrite tick_do_update_jiffies64_per_cpu. now apply Hpc1.
  - apply tick_do_update_jiffies64_ext. unfold st1. apply same_timebase_put_ts.
  - rewrite <- Hev1. apply tick_do_update_jiffies64_events.
Qed.

(** X21.  An interrupt that arrives on a CPU ([tick_check_idle], called
    from irq_enter) never restarts the tick of that CPU and programs no
    timer.  A CPU that is neither in an idle period nor without its tick is
    left as it is.  Otherwise the idle period is closed, the time it lasted
    is added to the idle or to the iowait counter, and a CPU whose tick is
    stopped brings the time base up to the clock, so that the handler of
    the interrupt does not see stale jiffies, and records when it woke. *)
Theorem tick_check_idle_wakes (e : env) (cpu : Z) (st : kstate) :
  valid_cpu st cpu ->
  let ts := get_ts st cpu in
  let now := ktime_get e in
  let st' := tick_check_idle e cpu st in
  let ts' := get_ts st' cpu in
  (idle_active ts = false -> tick_stopped ts = false -> st' = st)
  /\ idle_active ts' = false
  /\ tick_stopped ts' = tick_stopped ts
  /\ inidle ts' = inidle ts
  /\ sched_timer ts' = sched_timer ts
  /\ next_event (per_cpu st' cpu) = next_event (per_cpu st cpu)
  /\ saved_jiffies ts' = saved_jiffies ts
  /\ saved_jiffies_whence ts' = saved_jiffies_whence ts
  /\ (forall c, c <> cpu -> per_cpu st' c = per_cpu st c)
  /\ same_timebase (advance_all (if tick_stopped ts then [now] else []) st) st'
  /\ (tick_stopped ts = true -> idle_waketime ts' = now)
  /\ (events st' = events st \/ exists k, events st' = events st ++ [EvDoTimer k])
  /\ (idle_active ts = true -> idle_entrytime ts <= now ->
      0 <= idle_sleeptime ts -> 0 <= iowait_sleeptime ts ->
      sleeptime ts + (now - idle_entrytime ts) < 2 ^ 63 ->
      sleeptime ts' = sleeptime ts + (now - idle_entrytime ts)
      /\ idle_sleeptime ts <= idle_sleeptime ts'
      /\ iowait_sleeptime ts <= iowait_sleeptime ts').
Proof.
  intros Hv. cbn zeta. unfold tick_check_idle, tick_check_nohz.
  destruct (idle_active (get_ts st cpu)) eqn:Hact; cbn [negb andb].
  - (* the CPU is in an idle period *)
    destruct (tick_nohz_stop_idle_ts e cpu (ktime_get e) st Hv)
      as (Hv1 & Hts1 & Hev1 & Hstop1 & Hsj1 & Hw1 & Hin1 & Htm1 & Htb1).
    cbn zeta in Hv1, Hts1, Hev1, Hstop1, Hsj1, Hw1, Hin1, Htm1, Htb1.
    assert (Hne1 : next_event (per_cpu (tick_nohz_stop_idle e cpu (ktime_get e) st) cpu)
                   = next_event (per_cpu st cpu))
      by (unfold tick_nohz_stop_idle; now percpu).
    assert (Hpc1 : forall c, c <> cpu ->
                     per_cpu (tick_nohz_stop_idle e cpu (ktime_get e) st) c = per_cpu st c)
      by (intros c Hc; unfold tick_nohz_stop_idle, put_ts;
          now rewrite per_cpu_set_ne by congruence).
    assert (Hsum : idle_entrytime (get_ts st cpu) <= ktime_get e ->
                   0 <= idle_sleeptime (get_ts st cpu) ->
                   0 <= iowait_sleeptime (get_ts st cpu) ->
                   sleeptime (get_ts st cpu) + (ktime_get e - idle_entrytime (get_ts st cpu))
                   < 2 ^ 63 ->
                   let ts1 := get_ts (tick_nohz_stop_idle e cpu (ktime_get e) st) cpu in
                   sleeptime ts1
                   = sleeptime (get_ts st cpu) + (ktime_get e - idle_entrytime (get_ts st cpu))
                   /\ idle_sleeptime (get_ts st cpu) <= idle_sleeptime ts1
                   /\ iowait_sleeptime (get_ts st cpu) <= iowait_sleeptime ts1).
    { intros H1 H2 H3 H4. cbn zeta. rewrite Hts1.
      destruct (update_ts_time_stats_sum e (get_ts st cpu) (ktime_get e) false Hact H1 H2 H3 H4)
        as (Hs & _ & _ & Hi & Hw & _).
      cbn zeta in Hs, Hi, Hw. unfold sleeptime in *. fields. auto. }
    assert (Hact1 : idle_active (get_ts (tick_nohz_stop_idle e cpu (ktime_get e) st) cpu)
                    = false) by (rewrite Hts1; now fields).
    set (st1 := tick_nohz_stop_idle e cpu (ktime_get e) st) in *.
    rewrite Hstop1.
    destruct (tick_stopped (get_ts st cpu)) eqn:Hstop.
    + unfold tick_nohz_kick_tick.
      destruct (tick_nohz_update_jiffies_facts cpu (ktime_get e) st1 Hv1)
        as (Hv2 & Hts2 & Hne2 & Hpc2 & Htb2 & Hev2).
      cbn zeta in Hv2, Hts2, Hne2, Hpc2, Htb2, Hev2.
      rewrite Hts2, Hne2, Hne1. fields. rewrite Hev1 in Hev2.
      splits; try assumption; try reflexivity; try discriminate.
      * intros c Hc. rewrite Hpc2 by assumption. now apply Hpc1.
      * cbn [advance_all]. eapply same_timebase_trans; [| exact Htb2].
        now apply tick_do_update_jiffies64_ext.
      * intros H1 H2 H3 H4 H5. destruct (Hsum H2 H3 H4 H5) as (Hs & Hi & Hw).
        cbn zeta in Hs, Hi, Hw. unfold sleeptime in *. auto.
    + rewrite Hev1.
      splits; try assumption; try reflexivity; try discriminate; auto.
  - (* the CPU is not in an idle period *)
    destruct (tick_stopped (get_ts st cpu)) eqn:Hstop; cbn [negb].
    + rewrite ?Hstop. unfold tick_nohz_kick_tick.
      destruct (tick_nohz_update_jiffies_facts cpu (ktime_get e) st Hv)
        as (Hv2 & Hts2 & Hne2 & Hpc2 & Htb2 & Hev2).
      cbn zeta in Hv2, Hts2, Hne2, Hpc2, Htb2, Hev2.
      rewrite Hts2, Hne2. fields.
      splits; try assumption; try reflexivity; try discriminate.
    + rewrite ?Hact, ?Hstop.
      splits; try assumption; try reflexivity; try discriminate; auto.
      apply same_timebase_refl.
Qed.

Lemma tick_check_idle_wakes_witness :
  let st' := tick_check_idle (env_with_clock 100700000 idle_env) 0 idle_stopped_scenario in
  idle_active (get_ts st' 0) = false
  /\ tick_stopped (get_ts st' 0) = true
  /\ idle_waketime (get_ts st' 0) = 100700000.
Proof.
  cbn zeta.
  pose proof (tick_check_idle_wakes (env_with_clock 100700000 idle_env) 0
                idle_stopped_scenario) as H.
  discharge H. destruct H as (_ & Ha & Hs & _ & _ & _ & _ & _ & _ & _ & Hw & _).
  splits; [exact Ha | rewrite Hs | apply Hw]; vm_compute; reflexivity.
Defined.

(** *** A tick that is not in a dynamic mode *)

Lemma tick_untouched_start_idle e c st :
  valid_cpu st c ->
  tick_untouched c st (snd (tick_nohz_start_idle e c st)).
Proof.
  intros Hv. destruct (tick_nohz_start_idle_facts e c st Hv) as (Hv1 & Hts & Hhk & Htb & _).
  cbn zeta in Hv1, Hts, Hhk, Htb. unfold tick_untouched. rewrite Hts. fields.
  splits; try assumption; try reflexivity.
  - unfold tick_nohz_start_idle, atomic_dec_nr_cpus_user_nohz. cbn [snd].
    destruct (user_nohz _); [destruct (_ <? 0) |]; percpu;
      cbn [set_nr_cpus_user_nohz cpus per_cpu]; now percpu.
  - unfold tick_nohz_start_idle, atomic_dec_nr_cpus_user_nohz. cbn [snd].
    destruct (user_nohz _); [destruct (_ <? 0) |];
      unfold emit; cbn [events set_events set_nr_cpus_user_nohz];
      rewrite ?events_put_ts; cbn [events set_events set_nr_cpus_user_nohz];
      rewrite ?events_put_ts, ?List.filter_app; cbn; rewrite ?app_nil_r; reflexivity.
  - now apply housekeeping_trace_accounted.
Qed.

Lemma tick_untouched_refl c st : valid_cpu st c -> tick_untouched c st st.
Proof. intros Hv. unfold tick_untouched. splits; auto using same_timebase_refl. Qed.

Lemma tick_untouched_trans c st1 st2 st3 :
  tick_untouched c st1 st2 -> tick_untouched c st2 st3 -> tick_untouched c st1 st3.
Proof.
  unfold tick_untouched.
  intros (_ & A1 & A2 & A3 & A4 & A5 & A6 & A7 & A8) (Hv & B1 & B2 & B3 & B4 & B5 & B6 & B7 & B8).
  splits; try congruence. eapply same_timebase_trans; eassumption.
Qed.

(** In the inactive mode the idle path gives up before it counts the
    attempt, whatever the other CPUs do in between. *)
Lemma inactive_idle_enter_body e sched c st :
  valid_cpu st c ->
  nohz_mode (get_ts st c) = NOHZ_MODE_INACTIVE ->
  exists st', __tick_nohz_idle_enter e sched c st = Some st'
              /\ tick_untouched c st st'
              /\ idle_active (get_ts st' c) = true
              /\ inidle (get_ts st' c) = inidle (get_ts st c).
Proof.
  intros Hv Hmode. unfold __tick_nohz_idle_enter.
  pose proof (tick_untouched_start_idle e c st Hv) as Hu.
  destruct (tick_nohz_start_idle_facts e c st Hv) as (Hv1 & Hts1 & _).
  cbn zeta in Hv1, Hts1.
  destruct (tick_nohz_start_idle e c st) as [now st1]. cbn [snd] in *.
  assert (Hmode1 : nohz_mode (get_ts st1 c) = NOHZ_MODE_INACTIVE)
    by (rewrite Hts1; now fields).
  unfold can_stop_idle_tick.
  set (st2 := if negb (cpu_online e) && (c =? tick_do_timer_cpu st1)
              then set_tick_do_timer_cpu TICK_DO_TIMER_NONE st1 else st1).
  assert (Hpc : forall c', per_cpu st2 c' = per_cpu st1 c')
    by (intros c'; unfold st2; now destruct (_ && _)).
  assert (Hts2 : get_ts st2 c = get_ts st1 c) by (unfold get_ts; now rewrite Hpc).
  assert (Hu2 : tick_untouched c st1 st2).
  { unfold tick_untouched, accounted. rewrite Hts2, Hpc.
    splits; try reflexivity; unfold st2; destruct (_ && _); try assumption; try reflexivity;
      unfold same_timebase; auto. }
  rewrite Hts2, Hmode1. cbn [tick_nohz_mode_eqb].
  exists st2. splits.
  - reflexivity.
  - eapply tick_untouched_trans; eassumption.
  - rewrite Hts2, Hts1. now fields.
  - rewrite Hts2, Hts1. now fields.
Qed.

(** X22.  Once [tick_cancel_sched_timer] has run for a CPU, its tick is
    out of the dynamic modes for good as far as the idle path goes: the
    mode is inactive, the timer (if it was ever set up) is cancelled, and
    every later entry into idle, whatever the collaborators answer and
    whatever the other CPUs do meanwhile, returns without stopping the tick,
    counting the attempt, programming a timer or touching the time base.
    The same holds for the end of an interrupt, on a CPU whose tick was
    running when the timer was cancelled. *)
Theorem tick_cancel_sched_timer_final (cpu : Z) (has_base : bool) (st : kstate) :
  valid_cpu st cpu ->
  let st0 := tick_cancel_sched_timer cpu has_base st in
  nohz_mode (get_ts st0 cpu) = NOHZ_MODE_INACTIVE
  /\ tick_stopped (get_ts st0 cpu) = tick_stopped (get_ts st cpu)
  /\ (has_base = true ->
      hrt_active (sched_timer (get_ts st0 cpu)) = false
      /\ next_event (per_cpu st0 cpu) = KTIME_MAX
      /\ events st0 = events st ++ [EvHrtimerCancel cpu])
  /\ (has_base = false ->
      sched_timer (get_ts st0 cpu) = sched_timer (get_ts st cpu)
      /\ events st0 = events st)
  /\ (forall e sched, exists st',
        tick_nohz_idle_enter e sched cpu st0 = Some st'
        /\ tick_untouched cpu st0 st'
        /\ idle_active (get_ts st' cpu) = true)
  /\ (tick_stopped (get_ts st cpu) = false -> forall e sched, exists st',
        tick_nohz_irq_exit e sched cpu st0 = Some st'
        /\ tick_untouched cpu st0 st').
Proof.
  intros Hv. cbn zeta.
  set (st0 := tick_cancel_sched_timer cpu has_base st).
  assert (H0 : valid_cpu st0 cpu
               /\ nohz_mode (get_ts st0 cpu) = NOHZ_MODE_INACTIVE
               /\ tick_stopped (get_ts st0 cpu) = tick_stopped (get_ts st cpu)).
  { unfold st0, tick_cancel_sched_timer, hrtimer_cancel.
    destruct has_base; percpu; fields; auto. }
  destruct H0 as (Hv0 & Hmode & Hstop).
  splits; try assumption.
  - intros ->. unfold st0, tick_cancel_sched_timer, hrtimer_cancel. percpu. fields.
    unfold emit. cbn [events set_events]. rewrite ?events_put_ts, ?events_set_per_cpu. auto.
  - intros ->. unfold st0, tick_cancel_sched_timer. percpu. fields.
    rewrite ?events_put_ts. auto.
  - intros e sched. unfold tick_nohz_idle_enter.
    set (st1 := put_ts cpu (set_inidle true (get_ts st0 cpu)) st0).
    assert (Hv1 : valid_cpu st1 cpu) by (unfold st1; now percpu).
    assert (Hts1 : get_ts st1 cpu = set_inidle true (get_ts st0 cpu))
      by (unfold st1; now percpu).
    assert (Hu1 : tick_untouched cpu st0 st1).
    { unfold tick_untouched, accounted. rewrite Hts1. unfold st1. percpu. fields.
      rewrite ?events_put_ts. splits; try reflexivity; try assumption.
      apply same_timebase_put_ts. }
    destruct (inactive_idle_enter_body e sched cpu st1 Hv1) as (st' & Heq & Hu & Ha & _).
    { rewrite Hts1. now fields. }
    exists st'. splits; try assumption. eapply tick_untouched_trans; eassumption.
  - intros Hrun e sched. unfold tick_nohz_irq_exit.
    destruct (inidle (get_ts st0 cpu)).
    + destruct (need_resched e); cbn [negb].
      * exists st0. split; [reflexivity | now apply tick_untouched_refl].
      * destruct (inactive_idle_enter_body e sched cpu st0 Hv0 Hmode) as (st' & Heq & Hu & _).
        exists st'. auto.
    + unfold tick_nohz_cpuset_stop_tick.
      rewrite Hstop, Hrun, Hmode. cbn [negb andb tick_nohz_mode_eqb].
      exists st0. split; [now destruct (_ || _) | now apply tick_untouched_refl].
Qed.

Lemma tick_cancel_sched_timer_final_witness :
  let st0 := tick_cancel_sched_timer 0 true idle_scenario in
  nohz_mode (get_ts st0 0) = NOHZ_MODE_INACTIVE
  /\ exists st',
       tick_nohz_idle_enter (env_with_clock 100200000 idle_env) [] 0 st0 = Some st'
       /\ tick_stopped (get_ts st' 0) = false
       /\ idle_active (get_ts st' 0) = true.
Proof.
  cbn zeta.
  pose proof (tick_cancel_sched_timer_final 0 true idle_scenario) as H.
  discharge H. destruct H as (Hm & Hs & _ & _ & Henter & _).
  split; [exact Hm |].
  destruct (Henter (env_with_clock 100200000 idle_env) []) as (st' & Heq & Hu & Ha).
  exists st'. splits; try assumption.
  destruct Hu as (_ & Hs' & _). rewrite Hs', Hs. vm_compute. reflexivity.
Defined.

(** *** The grid of the tick *)

Lemma on_grid_refl period x : on_grid period x x.
Proof. unfold on_grid. rewrite Z.sub_diag. split; [lia | apply Zmod_0_l]. Qed.

Lemma on_grid_trans period a b c :
  on_grid period a b -> on_grid period b c -> on_grid period a c.
Proof.
  unfold on_grid. intros (Hab & Hm1) (Hbc & Hm2). split; [lia |].
  replace (c - a) with ((c - b) + (b - a)) by lia.
  rewrite Zplus_mod, Hm1, Hm2. apply Zmod_0_l.
Qed.

(** Forwarding moves the expiry along its grid to the first point after
    [now], and leaves one that is after [now] already where it is. *)
Lemma hrtimer_forward_grid c now period st :
  valid_cpu st c ->
  0 < period -> clock_ok period now ->
  0 <= tick_expiry c st <= KTIME_MAX ->
  let st' := hrtimer_forward c now period st in
  now < tick_expiry c st' <= KTIME_MAX
  /\ 0 <= tick_expiry c st'
  /\ on_grid period (tick_expiry c st) (tick_expiry c st')
  /\ (now < tick_expiry c st -> tick_expiry c st' = tick_expiry c st)
  /\ (tick_expiry c st <= now -> tick_expiry c st' <= now + period)
  /\ hrt_active (sched_timer (get_ts st' c)) = hrt_active (sched_timer (get_ts st c)).
Proof.
  intros Hv Hp (Hn0 & Hn1) Hx. cbn zeta.
  unfold tick_expiry, hrtimer_get_expires, hrtimer_forward, hrtimer_set_expires, ktime_sub in *.
  set (x := hrt_expires (sched_timer (get_ts st c))) in *.
  assert (HK : KTIME_MAX = 2 ^ 63 - 1) by reflexivity.
  rewrite (wrap_s64_id (now - x)) by (unfold s64_range; lia).
  destruct (Z.ltb_spec (now - x) 0) as [Hlt | Hge].
  - fold x. splits; try lia; try reflexivity. apply on_grid_refl.
  - percpu. fields.
    rewrite Z.quot_div_nonneg by lia.
    pose proof (Z.div_mod (now - x) period ltac:(lia)) as Hdm.
    pose proof (Z.mod_pos_bound (now - x) period Hp) as Hmb.
    assert (Hq : 0 <= (now - x) / period) by (apply Z.div_pos; lia).
    rewrite wrap_s64_id by (unfold s64_range; nia).
    splits; try nia; try reflexivity.
    unfold on_grid. split; [nia |].
    replace (x + ((now - x) / period + 1) * period - x) with (((now - x) / period + 1) * period)
      by lia.
    apply Z_mod_mult.
Qed.

Lemma tick_expiry_tick_do_update_jiffies64 c now st :
  tick_expiry c (tick_do_update_jiffies64 now st) = tick_expiry c st.
Proof. unfold tick_expiry. now rewrite tick_do_update_jiffies64_get_ts. Qed.

(** One round of the loops that arm the tick: forward the timer, then
    start it or program the device. *)
Lemma arm_step c now period (highres armed : bool) st :
  valid_cpu st c ->
  0 < period -> tick_period st = period -> clock_ok period now ->
  0 <= tick_expiry c st <= KTIME_MAX ->
  let st1 := hrtimer_forward c now period st in
  let st2 := if highres then hrtimer_start c (tick_expiry c st1) armed st1
             else snd (tick_program_event c (tick_expiry c st1) armed st1) in
  valid_cpu st2 c
  /\ tick_period st2 = period
  /\ now < tick_expiry c st2 <= KTIME_MAX
  /\ 0 <= tick_expiry c st2
  /\ on_grid period (tick_expiry c st) (tick_expiry c st2)
  /\ (now < tick_expiry c st -> tick_expiry c st2 = tick_expiry c st)
  /\ (tick_expiry c st <= now -> tick_expiry c st2 <= now + period)
  /\ next_event (per_cpu st2 c) = tick_expiry c st2
  /\ (highres = true -> hrt_active (sched_timer (get_ts st2 c)) = armed)
  /\ timer_only c st st2.
Proof.
  intros Hv Hp Hper Hn Hx. cbn zeta.
  destruct (hrtimer_forward_grid c now period st Hv Hp Hn Hx) as (H1 & H2 & H3 & H4 & H5 & _).
  cbn zeta in H1, H2, H3, H4, H5.
  pose proof (to_hrtimer_forward c st now period st (timer_only_refl c st Hv)) as Hto.
  set (st1 := hrtimer_forward c now period st) in *.
  assert (Hv1 : valid_cpu st1 c) by apply Hto.
  assert (Hper1 : tick_period st1 = period)
    by (destruct Hto as (_ & _ & _ & _ & _ & _ & Hq & _); congruence).
  destruct highres.
  - pose proof (to_hrtimer_start c st (tick_expiry c st1) armed st1 Hto) as Hto2.
    assert (Hx2 : tick_expiry c (hrtimer_start c (tick_expiry c st1) armed st1)
                  = tick_expiry c st1)
      by (unfold tick_expiry at 1, hrtimer_start; now percpu).
    rewrite Hx2. splits; try assumption; try lia.
    + apply Hto2.
    + destruct Hto2 as (_ & _ & _ & _ & _ & _ & Hq & _). congruence.
    + unfold hrtimer_start. now percpu.
    + intros _. unfold hrtimer_start. now percpu.
  - pose proof (to_tick_program_event c st (tick_expiry c st1) armed st1 Hto) as Hto2.
    assert (Hx2 : tick_expiry c (snd (tick_program_event c (tick_expiry c st1) armed st1))
                  = tick_expiry c st1)
      by (unfold tick_expiry at 1, tick_program_event; cbn [snd]; now percpu).
    rewrite Hx2. splits; try assumption; try lia; try discriminate.
    + apply Hto2.
    + destruct Hto2 as (_ & _ & _ & _ & _ & _ & Hq & _). congruence.
    + unfold tick_program_event. cbn [snd]. now percpu.
Qed.

Lemma last_nonempty {A : Type} (a : A) l d d' : List.last (a :: l) d = List.last (a :: l) d'.
Proof.
  revert a. induction l as [| b l IH]; intros a; [reflexivity |].
  change (List.last (b :: l) d = List.last (b :: l) d'). apply IH.
Qed.

Lemma last_reading_cons now later clock :
  last_reading now (later :: clock) = last_reading later clock.
Proof.
  unfold last_reading. destruct clock as [| a l]; [reflexivity |].
  change (List.last (a :: l) now = List.last (a :: l) later). apply last_nonempty.
Qed.

Lemma tick_nohz_restart_loop_grid c clock : forall now st,
  valid_cpu st c ->
  0 < tick_period st -> Forall (clock_ok (tick_period st)) (now :: clock) ->
  0 <= tick_expiry c st <= KTIME_MAX ->
  let st' := tick_nohz_restart_loop c now clock st in
  armed_after c (tick_period st) (tick_expiry c st) (last_reading now clock) st'
  /\ (nohz_mode (get_ts st c) = NOHZ_MODE_HIGHRES ->
      hrt_active (sched_timer (get_ts st' c)) = true)
  /\ (forall hi, Forall (fun n => n <= hi) (now :: clock) ->
      tick_expiry c st' <= Z.max (tick_expiry c st) (hi + tick_period st)).
Proof.
  induction clock as [| later clock IH]; intros now st Hv Hp Hclock Hx;
    apply Forall_cons in Hclock as [Hnow Hclock]; cbn zeta; cbn [tick_nohz_restart_loop];
    pose proof (to_hrtimer_forward c st now (tick_period st) st (timer_only_refl c st Hv))
      as (_ & Hts & _).
  - pose proof (arm_step c now (tick_period st)
                  (tick_nohz_mode_eqb (nohz_mode (get_ts st c)) NOHZ_MODE_HIGHRES) true st
                  Hv Hp eq_refl Hnow Hx) as Harm.
    cbn zeta in Harm.
    set (st1 := hrtimer_forward c now (tick_period st) st) in *.
    assert (Hm1 : nohz_mode (get_ts st1 c) = nohz_mode (get_ts st c))
      by (rewrite Hts; now fields).
    rewrite Hm1.
    change (hrtimer_get_expires (sched_timer (get_ts st1 c))) with (tick_expiry c st1).
    destruct Harm as (Hv2 & Hper2 & Hx2 & Hx2' & Hg & Hsame & Hle & Hne & Hact & _).
    unfold armed_after, last_reading. cbn [List.last].
    splits; try assumption; try lia.
    + intros Hm. apply Hact. now rewrite Hm.
    + intros hi Hhi. apply Forall_cons in Hhi as [Hhi _]. lia.
  - pose proof (arm_step c now (tick_period st)
                  (tick_nohz_mode_eqb (nohz_mode (get_ts st c)) NOHZ_MODE_HIGHRES) false st
                  Hv Hp eq_refl Hnow Hx) as Harm.
    cbn zeta in Harm.
    set (st1 := hrtimer_forward c now (tick_period st) st) in *.
    assert (Hm1 : nohz_mode (get_ts st1 c) = nohz_mode (get_ts st c))
      by (rewrite Hts; now fields).
    rewrite Hm1.
    change (hrtimer_get_expires (sched_timer (get_ts st1 c))) with (tick_expiry c st1).
    destruct Harm as (Hv2 & Hper2 & Hx2 & Hx2' & Hg & Hsame & Hle & Hne & Hact & Hto).
    set (st2 := if tick_nohz_mode_eqb _ _ then _ else _) in *.
    set (st3 := tick_do_update_jiffies64 now st2).
    assert (Hv3 : valid_cpu st3 c) by (unfold st3; now rewrite tick_do_update_jiffies64_valid).
    assert (Hper3 : tick_period st3 = tick_period st)
      by (unfold st3; now rewrite tick_do_update_jiffies64_period).
    assert (Hx3 : tick_expiry c st3 = tick_expiry c st2)
      by apply tick_expiry_tick_do_update_jiffies64.
    assert (Hm3 : nohz_mode (get_ts st3 c) = nohz_mode (get_ts st c)).
    { unfold st3. rewrite tick_do_update_jiffies64_get_ts.
      destruct Hto as (_ & Hts2 & _). rewrite Hts2. now fields. }
    destruct (IH later st3 Hv3) as (Ha & Hact' & Hmax).
    { now rewrite Hper3. }
    { now rewrite Hper3. }
    { rewrite Hx3. lia. }
    cbn zeta in Ha, Hact', Hmax. rewrite Hper3, Hx3 in *.
    rewrite last_reading_cons. unfold armed_after in *.
    destruct Ha as (Ha1 & Ha2 & Ha3).
    splits; try assumption; try lia.
    + eapply on_grid_trans; eassumption.
    + intros Hm. apply Hact'. congruence.
    + intros hi Hhi. apply Forall_cons in Hhi as [Hhi Hhi'].
      specialize (Hmax hi Hhi'). lia.
Qed.

Lemma restart_sched_tick_body_grid e c now st :
  valid_cpu st c ->
  0 < tick_period st -> Forall (clock_ok (tick_period st)) (now :: rearm_clock e) ->
  0 <= last_tick (get_ts st c) <= KTIME_MAX ->
  let st' := __tick_nohz_restart_sched_tick e c now st in
  armed_after c (tick_period st) (last_tick (get_ts st c))
    (last_reading now (rearm_clock e)) st'
  /\ (nohz_mode (get_ts st c) = NOHZ_MODE_HIGHRES ->
      hrt_active (sched_timer (get_ts st' c)) = true)
  /\ (forall hi, Forall (fun n => n <= hi) (now :: rearm_clock e) ->
      tick_expiry c st' <= Z.max (last_tick (get_ts st c)) (hi + tick_period st)).
Proof.
  intros Hv Hp Hclock Hx. cbn zeta.
  unfold __tick_nohz_restart_sched_tick, tick_nohz_restart.
  set (st2 := put_ts c _ (tick_do_update_jiffies64 now st)).
  assert (Hv2 : valid_cpu st2 c) by (unfold st2; now percpu).
  assert (Hts2 : get_ts st2 c = set_idle_exittime now (set_tick_stopped false (get_ts st c)))
    by (unfold st2; now percpu).
  assert (Hper2 : tick_period st2 = tick_period st).
  { unfold st2, put_ts, set_per_cpu. destruct (c <? 0); cbn [tick_period set_cpus];
      apply tick_do_update_jiffies64_period. }
  pose proof (to_hrtimer_cancel c st2 st2 (timer_only_refl c st2 Hv2)) as Hto3.
  set (st3 := hrtimer_cancel c st2) in *.
  assert (Hlt3 : last_tick (get_ts st3 c) = last_tick (get_ts st c)).
  { destruct Hto3 as (_ & Hts3 & _). rewrite Hts3, Hts2. now fields. }
  rewrite Hlt3.
  pose proof (to_hrtimer_set_expires c st2 (last_tick (get_ts st c)) st3 Hto3) as Hto4.
  assert (Hx4 : tick_expiry c (hrtimer_set_expires c (last_tick (get_ts st c)) st3)
                = last_tick (get_ts st c)).
  { unfold tick_expiry, hrtimer_get_expires, hrtimer_set_expires.
    rewrite get_ts_put_ts_eq by apply Hto3. now fields. }
  set (st4 := hrtimer_set_expires c (last_tick (get_ts st c)) st3) in *.
  assert (Hv4 : valid_cpu st4 c) by apply Hto4.
  assert (Hper4 : tick_period st4 = tick_period st)
    by (destruct Hto4 as (_ & _ & _ & _ & _ & _ & Hq & _); congruence).
  assert (Hm4 : nohz_mode (get_ts st4 c) = nohz_mode (get_ts st c)).
  { destruct Hto4 as (_ & Hts4 & _). rewrite Hts4, Hts2. now fields. }
  destruct (tick_nohz_restart_loop_grid c (rearm_clock e) now st4 Hv4) as (Ha & Hact & Hmax).
  { now rewrite Hper4. }
  { now rewrite Hper4. }
  { now rewrite Hx4. }
  cbn zeta in Ha, Hact, Hmax. rewrite Hper4, Hx4, Hm4 in *. auto.
Qed.

(** Leaving the idle loop with the tick stopped re-arms it as the restart
    itself does. *)
Lemma tick_nohz_idle_exit_grid e cpu st :
  valid_cpu st cpu ->
  tick_stopped (get_ts st cpu) = true ->
  0 < tick_period st ->
  Forall (clock_ok (tick_period st)) (ktime_get e :: rearm_clock e) ->
  0 <= last_tick (get_ts st cpu) <= KTIME_MAX ->
  let st' := tick_nohz_idle_exit e cpu st in
  armed_after cpu (tick_period st) (last_tick (get_ts st cpu))
    (last_reading (ktime_get e) (rearm_clock e)) st'
  /\ (nohz_mode (get_ts st cpu) = NOHZ_MODE_HIGHRES ->
      hrt_active (sched_timer (get_ts st' cpu)) = true)
  /\ (forall hi, Forall (fun n => n <= hi) (ktime_get e :: rearm_clock e) ->
      tick_expiry cpu st' <= Z.max (last_tick (get_ts st cpu)) (hi + tick_period st)).
Proof.
  intros Hv Hstop Hp Hclock Hx. cbn zeta.
  unfold tick_nohz_idle_exit.
  set (st1 := put_ts cpu (set_inidle false (get_ts st cpu)) st).
  assert (Hv1 : valid_cpu st1 cpu) by (unfold st1; now percpu).
  assert (Hts1 : get_ts st1 cpu = set_inidle false (get_ts st cpu))
    by (unfold st1; now percpu).
  assert (Hper1 : tick_period st1 = tick_period st)
    by (unfold st1, put_ts, set_per_cpu; now destruct (cpu <? 0)).
  set (st2 := if idle_active (get_ts st1 cpu)
              then tick_nohz_stop_idle e cpu (ktime_get e) st1 else st1).
  assert (H2 : valid_cpu st2 cpu
               /\ tick_stopped (get_ts st2 cpu) = true
               /\ last_tick (get_ts st2 cpu) = last_tick (get_ts st cpu)
               /\ nohz_mode (get_ts st2 cpu) = nohz_mode (get_ts st cpu)
               /\ tick_period st2 = tick_period st).
  { unfold st2. destruct (idle_active (get_ts st1 cpu)).
    - destruct (tick_nohz_stop_idle_ts e cpu (ktime_get e) st1 Hv1)
        as (Hv' & Ht & _ & Hs & _ & _ & _ & _ & Htb).
      cbn zeta in Hv', Ht, Hs, Htb. rewrite Hs, Ht, Hts1.
      destruct Htb as (_ & _ & _ & Hq).
      unfold update_ts_time_stats. cbn [fst].
      splits; try assumption; try congruence;
        fields; split_tests; fields; try reflexivity; assumption.
    - rewrite Hts1. fields. auto. }
  destruct H2 as (Hv2 & Hs2 & Hlt2 & Hm2 & Hper2). clearbody st2. rewrite Hs2.
  set (st3 := emit (EvSelectNohzLoadBalancer cpu false) st2).
  assert (Hv3 : valid_cpu st3 cpu) by exact Hv2.
  destruct (restart_sched_tick_body_grid e cpu (ktime_get e) st3 Hv3) as (Ha & Hact & Hmax).
  { change (tick_period st3) with (tick_period st2). now rewrite Hper2. }
  { change (tick_period st3) with (tick_period st2). now rewrite Hper2. }
  { change (get_ts st3 cpu) with (get_ts st2 cpu). now rewrite Hlt2. }
  cbn zeta in Ha, Hact, Hmax.
  change (tick_period st3) with (tick_period st2) in *.
  change (get_ts st3 cpu) with (get_ts st2 cpu) in *.
  rewrite Hper2, Hlt2, Hm2 in *.
  set (st4 := __tick_nohz_restart_sched_tick e cpu (ktime_get e) st3) in *.
  assert (Hv4 : valid_cpu st4 cpu).
  { unfold st4. now apply restart_sched_tick_body_ts. }
  assert (Hv5 : valid_cpu (tick_nohz_account_ticks cpu st4) cpu) by now percpu.
  unfold armed_after, tick_expiry in *. percpu. fields. auto.
Qed.

(** X23.  Restarting a stopped tick puts it back on the grid it left.
    [tick_nohz_restart_sched_tick] and [tick_nohz_idle_exit] arm the tick
    for a point that lies a whole number of periods after the expiry the
    tick had when it was stopped (kept in [last_tick]), strictly after the
    last reading of the clock, and program the device for the same point.
    The point is never later than one period after the latest reading,
    unless the old expiry itself still lies ahead; in high resolution mode
    the timer is left queued. *)
Theorem tick_restart_on_grid (e : env) (cpu : Z) (st : kstate) :
  valid_cpu st cpu ->
  tick_stopped (get_ts st cpu) = true ->
  0 < tick_period st ->
  Forall (clock_ok (tick_period st)) (ktime_get e :: rearm_clock e) ->
  0 <= last_tick (get_ts st cpu) <= KTIME_MAX ->
  forall st',
    st' = tick_nohz_restart_sched_tick e cpu st \/ st' = tick_nohz_idle_exit e cpu st ->
    tick_stopped (get_ts st' cpu) = false
    /\ armed_after cpu (tick_period st) (last_tick (get_ts st cpu))
         (last_reading (ktime_get e) (rearm_clock e)) st'
    /\ (nohz_mode (get_ts st cpu) = NOHZ_MODE_HIGHRES ->
        hrt_active (sched_timer (get_ts st' cpu)) = true)
    /\ (forall hi, Forall (fun n => n <= hi) (ktime_get e :: rearm_clock e) ->
        tick_expiry cpu st' <= Z.max (last_tick (get_ts st cpu)) (hi + tick_period st)).
Proof.
  intros Hv Hstop Hp Hclock Hx st' [-> | ->].
  - unfold tick_nohz_restart_sched_tick. rewrite Hstop. cbn [negb].
    destruct (restart_sched_tick_body_ts e cpu (ktime_get e) st Hv) as (_ & Hts & _).
    cbn zeta in Hts. split; [rewrite Hts; now fields |].
    now apply restart_sched_tick_body_grid.
  - destruct (tick_nohz_idle_exit_facts e cpu st Hv) as (_ & _ & Hrun & _).
    cbn zeta in Hrun. split; [assumption |].
    now apply tick_nohz_idle_exit_grid.
Qed.

Lemma tick_restart_on_grid_witness :
  let st' := tick_nohz_idle_exit (env_with_clock 130500000 idle_env) 0
               idle_stopped_scenario in
  tick_stopped (get_ts st' 0) = false
  /\ 130500000 < tick_expiry 0 st'
  /\ on_grid (tick_period idle_stopped_scenario)
       (last_tick (get_ts idle_stopped_scenario 0)) (tick_expiry 0 st').
Proof.
  cbn zeta.
  assert (Hv : valid_cpu idle_stopped_scenario 0) by (vm_compute; intuition congruence).
  assert (Hs : tick_stopped (get_ts idle_stopped_scenario 0) = true)
    by (vm_compute; reflexivity).
  assert (Hp : 0 < tick_period idle_stopped_scenario) by (vm_compute; reflexivity).
  assert (Hc : Forall (clock_ok (tick_period idle_stopped_scenario))
                 (ktime_get (env_with_clock 130500000 idle_env)
                    :: rearm_clock (env_with_clock 130500000 idle_env)))
    by (repeat constructor; vm_compute; intuition congruence).
  assert (Hx : 0 <= last_tick (get_ts idle_stopped_scenario 0) <= KTIME_MAX)
    by (vm_compute; intuition congruence).
  destruct (tick_restart_on_grid (env_with_clock 130500000 idle_env) 0 idle_stopped_scenario
              Hv Hs Hp Hc Hx _ (or_intror eq_refl)) as (Hrun & (Hlt & Hg & _) & _).
  splits; [exact Hrun | exact (proj1 Hlt) | exact Hg].
Defined.

(** *** Leaving the idle loop *)

(** The restart loop reads the clock once more for every arming that came
    too late, and brings the time base up to each reading but the last. *)
Lemma tick_nohz_restart_loop_timebase c clock : forall now st0 st,
  same_timebase st0 st ->
  same_timebase (advance_all (removelast (now :: clock)) st0)
    (tick_nohz_restart_loop c now clock st).
Proof.
  induction clock as [| later clock IH]; intros now st0 st H;
    cbn [tick_nohz_restart_loop].
  - cbn [removelast advance_all]. unfold tick_program_event. cbn [snd].
    destruct (tick_nohz_mode_eqb _ _); auto 10 with timebase.
  - change (removelast (now :: later :: clock)) with (now :: removelast (later :: clock)).
    cbn [advance_all]. apply IH. apply tick_do_update_jiffies64_ext.
    unfold tick_program_event. cbn [snd].
    destruct (tick_nohz_mode_eqb _ _); auto 10 with timebase.
Qed.

Lemma restart_sched_tick_body_timebase e c now st0 st :
  same_timebase st0 st ->
  same_timebase (advance_all (now :: removelast (now :: rearm_clock e)) st0)
    (__tick_nohz_restart_sched_tick e c now st).
Proof.
  intros H. unfold __tick_nohz_restart_sched_tick, tick_nohz_restart.
  cbn [advance_all]. apply tick_nohz_restart_loop_timebase.
  apply tb_hrtimer_set_expires, tb_hrtimer_cancel, tb_put_ts.
  now apply tick_do_update_jiffies64_ext.
Qed.

Lemma same_timebase_tick_nohz_account_ticks c st :
  same_timebase st (tick_nohz_account_ticks c st).
Proof.
  unfold tick_nohz_account_ticks, account_idle_ticks, account_user_ticks,
    account_system_ticks.
  split_tests; auto with timebase.
Qed.

(** X10.  [tick_nohz_idle_exit] leaves the CPU out of idle with its tick
    running.  If the tick was stopped, it tells the load balancer, brings
    the time base up to the clock (to the reading taken on the way out,
    and again to every later reading but the last when an arming comes too
    late), re-arms the tick (with a positive period and a clock and a
    saved expiry within the range of ktime_t: for a point of the grid of
    the stopped tick that lies after the last reading, with the device
    programmed for that point and, in high resolution mode, the timer
    queued), and accounts the
    ticks from the snapshot to the jiffies as they stand after that, once,
    to the bucket recorded with the snapshot and only if their number is
    plausible; then it clears the bucket.  If the tick was running, it
    neither accounts nor programs anything. *)
Theorem tick_nohz_idle_exit_accounts (e : env) (cpu : Z) (st : kstate) :
  valid_cpu st cpu ->
  let ts := get_ts st cpu in
  let st' := tick_nohz_idle_exit e cpu st in
  let ts' := get_ts st' cpu in
  inidle ts' = false /\ idle_active ts' = false /\ tick_stopped ts' = false
  /\ saved_jiffies ts' = saved_jiffies ts
  /\ (tick_stopped ts = true ->
      saved_jiffies_whence ts' = JIFFIES_SAVED_NONE
      /\ idle_exittime ts' = ktime_get e
      /\ accounted st'
         = accounted st
           ++ account_entry cpu (saved_jiffies_whence ts)
                (wrap_u64 (jiffies st' - saved_jiffies ts))
      /\ List.filter is_load_balancer (events st')
         = List.filter is_load_balancer (events st) ++ [EvSelectNohzLoadBalancer cpu false]
      /\ same_timebase
           (advance_all (ktime_get e :: removelast (ktime_get e :: rearm_clock e)) st) st'
      /\ (0 < tick_period st ->
          Forall (clock_ok (tick_period st)) (ktime_get e :: rearm_clock e) ->
          0 <= last_tick ts <= KTIME_MAX ->
          armed_after cpu (tick_period st) (last_tick ts)
            (last_reading (ktime_get e) (rearm_clock e)) st'
          /\ (nohz_mode ts = NOHZ_MODE_HIGHRES -> hrt_active (sched_timer ts') = true)))
  /\ (tick_stopped ts = false ->
      events st' = events st
      /\ saved_jiffies_whence ts' = saved_jiffies_whence ts
      /\ sched_timer ts' = sched_timer ts
      /\ same_timebase st st').
Proof.
  intros Hv. cbn zeta.
  destruct (tick_nohz_idle_exit_facts e cpu st Hv)
    as (Hin & Hact & Hrun & Hsj & Hstopped & Hrunning).
  cbn zeta in Hin, Hact, Hrun, Hsj, Hstopped, Hrunning.
  splits; try assumption.
  intros Hstop. destruct (Hstopped Hstop) as (Hw & Hx & Hacc & Hlb).
  splits; try assumption.
  - unfold tick_nohz_idle_exit.
    set (st1 := put_ts cpu (set_inidle false (get_ts st cpu)) st).
    assert (Hv1 : valid_cpu st1 cpu) by (unfold st1; now percpu).
    assert (Htb1 : same_timebase st st1) by apply same_timebase_put_ts.
    set (st2 := if idle_active (get_ts st1 cpu)
                then tick_nohz_stop_idle e cpu (ktime_get e) st1 else st1).
    assert (H2 : tick_stopped (get_ts st2 cpu) = true /\ same_timebase st st2).
    { unfold st2. destruct (idle_active (get_ts st1 cpu)).
      - destruct (tick_nohz_stop_idle_ts e cpu (ktime_get e) st1 Hv1)
          as (_ & _ & _ & Hs & _ & _ & _ & _ & Htb).
        cbn zeta in Hs, Htb. rewrite Hs. unfold st1 at 1. percpu. fields.
        split; [assumption |]. now apply (same_timebase_trans st st1).
      - unfold st1 at 1. percpu. fields. split; assumption. }
    destruct H2 as (Hs2 & Htb2). clearbody st2. rewrite Hs2.
    apply tb_put_ts.
    eapply same_timebase_trans; [| apply same_timebase_tick_nohz_account_ticks].
    apply restart_sched_tick_body_timebase. now apply tb_emit.
  - intros Hp Hclock Hlt.
    destruct (tick_nohz_idle_exit_grid e cpu st Hv Hstop Hp Hclock Hlt) as (Ha & Hq & _).
    split; assumption.
Qed.

Lemma tick_nohz_idle_exit_accounts_witness :
  let st' := tick_nohz_idle_exit (env_with_clock 130500000 idle_env) 0
               idle_stopped_scenario in
  tick_stopped (get_ts st' 0) = false
  /\ saved_jiffies_whence (get_ts st' 0) = JIFFIES_SAVED_NONE
  /\ accounted st' = [EvAccountIdleTicks 0 30]
  /\ jiffies_64 st' = 130
  /\ 130500000 < tick_expiry 0 st'
  /\ next_event (per_cpu st' 0) = tick_expiry 0 st'.
Proof.
  cbn zeta.
  pose proof (tick_nohz_idle_exit_accounts (env_with_clock 130500000 idle_env) 0
                idle_stopped_scenario) as H.
  discharge H. destruct H as (_ & _ & Hrun & _ & Hstopped & _).
  destruct Hstopped as (Hw & _ & Hacc & _ & Htb & Harm); [vm_compute; reflexivity |].
  destruct Harm as ((Hlt & _ & Hne) & _);
    [vm_compute; reflexivity
    | repeat constructor; vm_compute; intuition congruence
    | vm_compute; intuition congruence |].
  destruct Htb as (Hj & _).
  splits; [exact Hrun | exact Hw | rewrite Hacc; vm_compute; reflexivity
          | rewrite Hj; vm_compute; reflexivity | exact (proj1 Hlt) | exact Hne].
Defined.

Lemma tick_nohz_handler_loop_grid c clock : forall now st,
  valid_cpu st c ->
  0 < tick_period st -> Forall (clock_ok (tick_period st)) (now :: clock) ->
  0 <= tick_expiry c st <= KTIME_MAX ->
  let st' := tick_nohz_handler_loop c now clock st in
  armed_after c (tick_period st) (tick_expiry c st) (last_reading now clock) st'
  /\ (forall hi, Forall (fun n => n <= hi) (now :: clock) ->
      tick_expiry c st' <= Z.max (tick_expiry c st) (hi + tick_period st)).
Proof.
  induction clock as [| later clock IH]; intros now st Hv Hp Hclock Hx;
    apply Forall_cons in Hclock as [Hnow Hclock]; cbn zeta;
    cbn [tick_nohz_handler_loop]; unfold tick_nohz_reprogram.
  - pose proof (arm_step c now (tick_period st) false true st Hv Hp eq_refl Hnow Hx) as Harm.
    cbn zeta in Harm.
    set (st1 := hrtimer_forward c now (tick_period st) st) in *.
    change (hrtimer_get_expires (sched_timer (get_ts st1 c))) with (tick_expiry c st1).
    destruct Harm as (Hv2 & Hper2 & Hx2 & Hx2' & Hg & Hsame & Hle & Hne & _).
    unfold armed_after, last_reading. cbn [List.last].
    splits; try assumption; try lia.
    intros hi Hhi. apply Forall_cons in Hhi as [Hhi _]. lia.
  - pose proof (arm_step c now (tick_period st) false false st Hv Hp eq_refl Hnow Hx) as Harm.
    cbn zeta in Harm.
    set (st1 := hrtimer_forward c now (tick_period st) st) in *.
    change (hrtimer_get_expires (sched_timer (get_ts st1 c))) with (tick_expiry c st1).
    destruct Harm as (Hv2 & Hper2 & Hx2 & Hx2' & Hg & Hsame & Hle & Hne & _ & Hto).
    set (st2 := snd (tick_program_event c (tick_expiry c st1) false st1)) in *.
    set (st3 := tick_do_update_jiffies64 later st2).
    assert (Hv3 : valid_cpu st3 c) by (unfold st3; now rewrite tick_do_update_jiffies64_valid).
    assert (Hper3 : tick_period st3 = tick_period st)
      by (unfold st3; now rewrite tick_do_update_jiffies64_period).
    assert (Hx3 : tick_expiry c st3 = tick_expiry c st2)
      by apply tick_expiry_tick_do_update_jiffies64.
    destruct (IH later st3 Hv3) as (Ha & Hmax).
    { now rewrite Hper3. }
    { now rewrite Hper3. }
    { rewrite Hx3. lia. }
    cbn zeta in Ha, Hmax. rewrite Hper3, Hx3 in *.
    rewrite last_reading_cons. unfold armed_after in *.
    destruct Ha as (Ha1 & Ha2 & Ha3).
    splits; try assumption; try lia.
    + eapply on_grid_trans; eassumption.
    + intros hi Hhi. apply Forall_cons in Hhi as [Hhi Hhi'].
      specialize (Hmax hi Hhi'). lia.
Qed.

(** X24.  A tick that fires re-arms itself on its own grid.  Both
    handlers, [tick_sched_timer] in high resolution mode and
    [tick_nohz_handler] in low resolution mode, leave the timer at a point
    a whole number of periods after the expiry it had, strictly after the
    clock reading they took; a tick that came on time moves by one period
    exactly.  The low resolution handler programs the device for that
    point, again if the programming came too late, and then the point lies
    after the last reading of the clock. *)
Theorem tick_handlers_keep_grid (e : env) (cpu : Z) (st : kstate) :
  valid_cpu st cpu ->
  0 < tick_period st ->
  Forall (clock_ok (tick_period st)) (ktime_get e :: rearm_clock e) ->
  0 <= tick_expiry cpu st <= KTIME_MAX ->
  let now := ktime_get e in
  let hres := tick_sched_timer e cpu st in
  let lres := tick_nohz_handler e cpu st in
  now < tick_expiry cpu hres
  /\ on_grid (tick_period st) (tick_expiry cpu st) (tick_expiry cpu hres)
  /\ (tick_expiry cpu st <= now < tick_expiry cpu st + tick_period st ->
      tick_expiry cpu hres = tick_expiry cpu st + tick_period st)
  /\ (now < tick_expiry cpu st -> tick_expiry cpu hres = tick_expiry cpu st)
  /\ armed_after cpu (tick_period st) (tick_expiry cpu st)
       (last_reading now (rearm_clock e)) lres
  /\ (rearm_clock e = [] ->
      tick_expiry cpu st <= now < tick_expiry cpu st + tick_period st ->
      tick_expiry cpu lres = tick_expiry cpu st + tick_period st).
Proof.
  intros Hv Hp Hclock Hx. cbn zeta.
  assert (Hcpu : 0 <= cpu) by (unfold valid_cpu in Hv; lia).
  assert (Hnow : clock_ok (tick_period st) (ktime_get e))
    by (apply Forall_cons in Hclock as [H _]; exact H).
  assert (Hstep : forall x x' p now, 0 < p -> on_grid p x x' -> now < x' ->
                    x <= now < x + p -> x' <= now + p -> x' = x + p).
  { intros x x' p now Hp' (Hle & Hm) H1 H2 H3.
    apply Z.mod_divide in Hm; [| lia]. destruct Hm as [k Hk].
    assert (Hk0 : 0 < k) by nia. assert (Hk2 : k < 2) by nia.
    replace k with 1 in Hk by lia. lia. }
  assert (Hperiod : forall duty : bool,
             tick_period (advance_all (if duty then [ktime_get e] else []) st)
             = tick_period st).
  { intros [|]; cbn [advance_all]; [apply tick_do_update_jiffies64_period | reflexivity]. }
  splits.
  1-4: unfold tick_sched_timer;
    destruct (tick_head_facts cpu (ktime_get e) st Hcpu) as (Hpc & Hv2 & _ & Htb & _);
    cbn zeta in Hpc, Hv2, Htb;
    destruct Htb as (_ & _ & _ & Hper2); rewrite Hperiod in Hper2;
    set (st2 := if _ =? cpu then _ else tick_do_timer_check_handler cpu st) in *;
    set (st3 := match irq_regs e with Some _ => _ | None => st2 end);
    assert (H3 : valid_cpu st3 cpu /\ tick_expiry cpu st3 = tick_expiry cpu st
                 /\ tick_period st3 = tick_period st)
      by (assert (Hv2' : valid_cpu st2 cpu) by (now rewrite Hv2);
          assert (Hts2 : get_ts st2 cpu = get_ts st cpu)
            by (unfold get_ts; now rewrite Hpc);
          unfold st3, tick_expiry;
          destruct (irq_regs e); [destruct (tick_stopped (get_ts st2 cpu)) |];
          percpu; fields; rewrite ?Hts2;
          unfold put_ts, set_per_cpu; destruct (cpu <? 0); cbn [tick_period set_cpus]; auto);
    destruct H3 as (Hv3 & Hx3 & Hper3); clearbody st3; rewrite Hper3;
    rewrite <- Hx3 in Hx;
    destruct (hrtimer_forward_grid cpu (ktime_get e) (tick_period st) st3 Hv3 Hp Hnow Hx)
      as (H1 & H2 & Hg & Hsame & Hle & _);
    cbn zeta in H1, H2, Hg, Hsame, Hle; rewrite Hx3 in *.
  5-6: unfold tick_nohz_handler;
    set (st0 := set_per_cpu cpu (set_next_event KTIME_MAX (per_cpu st cpu)) st);
    assert (Hv0 : valid_cpu st0 cpu) by (unfold st0; now percpu);
    assert (Hts0 : get_ts st0 cpu = get_ts st cpu) by (unfold st0; now percpu);
    assert (Hper0 : tick_period st0 = tick_period st)
      by (unfold st0, set_per_cpu; now destruct (cpu <? 0));
    destruct (tick_head_facts cpu (ktime_get e) st0 Hcpu) as (Hpc & Hv2 & _ & Htb & _);
    cbn zeta in Hpc, Hv2, Htb;
    destruct Htb as (_ & _ & _ & Hper2);
    assert (Hperiod0 : tick_period (advance_all (if tick_has_duty cpu st0
                                                 then [ktime_get e] else []) st0)
                       = tick_period st)
      by (destruct (tick_has_duty cpu st0); cbn [advance_all];
          rewrite ?tick_do_update_jiffies64_period; assumption);
    rewrite Hperiod0 in Hper2;
    set (st2 := if _ =? cpu then _ else tick_do_timer_check_handler cpu st0) in *;
    set (st3 := if tick_stopped (get_ts st2 cpu) then _ else st2);
    assert (H3 : valid_cpu st3 cpu /\ tick_expiry cpu st3 = tick_expiry cpu st
                 /\ tick_period st3 = tick_period st)
      by (assert (Hv2' : valid_cpu st2 cpu) by (now rewrite Hv2);
          assert (Hts2 : get_ts st2 cpu = get_ts st cpu)
            by (rewrite <- Hts0; unfold get_ts; now rewrite Hpc);
          unfold st3, tick_expiry;
          destruct (tick_stopped (get_ts st2 cpu));
          percpu; fields; rewrite ?Hts2;
          unfold put_ts, set_per_cpu; destruct (cpu <? 0); cbn [tick_period set_cpus]; auto);
    destruct H3 as (Hv3 & Hx3 & Hper3); clearbody st3;
    rewrite <- Hx3 in Hx; rewrite <- Hper3 in Hclock, Hp;
    destruct (tick_nohz_handler_loop_grid cpu (rearm_clock e) (ktime_get e) st3
                Hv3 Hp Hclock Hx) as (Ha & Hmax);
    cbn zeta in Ha, Hmax; rewrite Hx3, Hper3 in *.
  - lia.
  - assumption.
  - intros Hin. apply (Hstep _ _ _ (ktime_get e) Hp Hg); lia.
  - assumption.
  - assumption.
  - intros Hnil Hin. rewrite Hnil in *. destruct Ha as (Ha1 & Ha2 & _).
    unfold last_reading in Ha1. cbn [List.last] in Ha1.
    apply (Hstep _ _ _ (ktime_get e) Hp Ha2); try lia.
    specialize (Hmax (ktime_get e)). 
    assert (Hf : Forall (fun n => n <= ktime_get e) [ktime_get e])
      by (repeat constructor; lia).
    specialize (Hmax Hf). lia.
Qed.

Lemma tick_handlers_keep_grid_witness :
  let e := env_with_clock 8200000 calm_env in
  let st := hrtimer_set_expires 1 8000000 sample_timebase in
  tick_expiry 1 (tick_sched_timer e 1 st) = 9000000
  /\ tick_expiry 1 (tick_nohz_handler e 1 st) = 9000000.
Proof.
  cbn zeta.
  assert (Hv : valid_cpu (hrtimer_set_expires 1 8000000 sample_timebase) 1)
    by (vm_compute; intuition congruence).
  assert (Hp : 0 < tick_period (hrtimer_set_expires 1 8000000 sample_timebase))
    by (vm_compute; reflexivity).
  assert (Hc : Forall (clock_ok (tick_period (hrtimer_set_expires 1 8000000 sample_timebase)))
                 (ktime_get (env_with_clock 8200000 calm_env)
                    :: rearm_clock (env_with_clock 8200000 calm_env)))
    by (repeat constructor; vm_compute; intuition congruence).
  assert (Hx : 0 <= tick_expiry 1 (hrtimer_set_expires 1 8000000 sample_timebase)
               <= KTIME_MAX)
    by (vm_compute; intuition congruence).
  destruct (tick_handlers_keep_grid (env_with_clock 8200000 calm_env) 1
              (hrtimer_set_expires 1 8000000 sample_timebase) Hv Hp Hc Hx)
    as (_ & _ & Hh & _ & _ & Hl).
  split; [apply Hh | apply Hl]; vm_compute; intuition congruence.
Defined.

(** *** Setting the tick up *)

Lemma tick_nohz_switch_to_nohz_loop_spec c late : forall next st,
  valid_cpu st c ->
  0 <= tick_period st -> 0 <= next ->
  next + Z.of_nat late * tick_period st <= KTIME_MAX ->
  let st' := tick_nohz_switch_to_nohz_loop c next late st in
  tick_expiry c st' = next + Z.of_nat late * tick_period st
  /\ next_event (per_cpu st' c) = tick_expiry c st'
  /\ hrt_active (sched_timer (get_ts st' c)) = hrt_active (sched_timer (get_ts st c))
  /\ events st'
     = events st
       ++ map (fun k => EvTickProgramEvent c (next + Z.of_nat k * tick_period st))
            (seq 0 (S late))
  /\ timer_only c st st'
  /\ same_timebase st st'.
Proof.
  induction late as [| late IH]; intros next st Hv Hp Hn Hmax; cbn zeta;
    cbn [tick_nohz_switch_to_nohz_loop];
    pose proof (to_hrtimer_set_expires c st next st (timer_only_refl c st Hv)) as Hto1;
    assert (Hv1 : valid_cpu (hrtimer_set_expires c next st) c) by apply Hto1;
    assert (Hx1 : tick_expiry c (hrtimer_set_expires c next st) = next)
      by (unfold tick_expiry, hrtimer_get_expires, hrtimer_set_expires; percpu; now fields);
    assert (Ha1 : hrt_active (sched_timer (get_ts (hrtimer_set_expires c next st) c))
                  = hrt_active (sched_timer (get_ts st c)))
      by (unfold hrtimer_set_expires; percpu; now fields);
    assert (Hev1 : events (hrtimer_set_expires c next st) = events st)
      by (unfold hrtimer_set_expires; apply events_put_ts);
    set (st1 := hrtimer_set_expires c next st) in *.
  - assert (Hts2 : get_ts (snd (tick_program_event c next true st1)) c = get_ts st1 c)
      by now apply tick_program_event_get_ts.
    unfold tick_expiry in *. rewrite Hts2, Hx1.
    splits; try assumption.
    + cbn. lia.
    + unfold tick_program_event. cbn [snd]. now percpu.
    + unfold tick_program_event, emit. cbn [snd events set_events].
      rewrite events_set_per_cpu, Hev1. cbn. do 3 f_equal. lia.
    + apply (to_tick_program_event c st next true st1 Hto1).
    + apply tb_tick_program_event, tb_hrtimer_set_expires, same_timebase_refl.
  - pose proof (to_tick_program_event c st next false st1 Hto1) as Hto2.
    set (st2 := snd (tick_program_event c next false st1)) in *.
    assert (Hper2 : tick_period st2 = tick_period st)
      by (destruct Hto2 as (_ & _ & _ & _ & _ & _ & Hq & _); exact Hq).
    assert (Hev2 : events st2 = events st ++ [EvTickProgramEvent c next])
      by (unfold st2, tick_program_event, emit; cbn [snd events set_events];
          now rewrite events_set_per_cpu, Hev1).
    assert (Ha2 : hrt_active (sched_timer (get_ts st2 c))
                  = hrt_active (sched_timer (get_ts st c)))
      by (unfold st2, tick_program_event; cbn [snd]; now percpu).
    assert (Htb2 : same_timebase st st2)
      by (apply tb_tick_program_event, tb_hrtimer_set_expires, same_timebase_refl).
    rewrite Hper2.
    assert (Hnext : ktime_add next (tick_period st) = next + tick_period st).
    { unfold ktime_add. apply wrap_s64_id. unfold s64_range.
      assert (HK : KTIME_MAX = 2 ^ 63 - 1) by reflexivity. nia. }
    rewrite Hnext.
    destruct (IH (next + tick_period st) st2) as (Hx & Hne & Hact & Hev & Hto & Htb).
    { apply Hto2. }
    { now rewrite Hper2. }
    { lia. }
    { rewrite Hper2. lia. }
    cbn zeta in Hx, Hne, Hact, Hev, Hto, Htb. rewrite Hper2 in *.
    splits; try assumption.
    + rewrite Hx. lia.
    + congruence.
    + rewrite Hev, Hev2, <- app_assoc. f_equal.
      change (seq 0 (S (S late))) with (0%nat :: seq 1 (S late)).
      rewrite <- List.seq_shift. cbn [map app]. rewrite List.map_map.
      f_equal; [f_equal; lia |].
      apply map_ext. intros k. f_equal. lia.
    + eapply timer_only_trans; eassumption.
    + eapply same_timebase_trans; eassumption.
Qed.

Lemma tick_init_jiffy_update_facts st :
  let seed := if last_jiffies_update st =? 0 then tick_next_period st
              else last_jiffies_update st in
  let st' := snd (tick_init_jiffy_update st) in
  fst (tick_init_jiffy_update st) = seed
  /\ last_jiffies_update st' = seed
  /\ fst (tick_init_jiffy_update st') = seed
  /\ jiffies st' = jiffies st
  /\ tick_period st' = tick_period st
  /\ tick_next_period st' = tick_next_period st
  /\ tick_nohz_enabled st' = tick_nohz_enabled st
  /\ events st' = events st
  /\ (forall c, per_cpu st' c = per_cpu st c)
  /\ (forall c, valid_cpu st' c = valid_cpu st c).
Proof.
  cbn zeta. unfold tick_init_jiffy_update. cbn [fst snd].
  destruct (Z.eqb_spec (last_jiffies_update st) 0) as [H0 | H0];
    cbn [last_jiffies_update set_last_jiffies_update tick_next_period];
    splits; try reflexivity.
  - destruct (Z.eqb_spec (tick_next_period st) 0); [reflexivity | reflexivity].
  - destruct (Z.eqb_spec (last_jiffies_update st) 0); [contradiction | reflexivity].
Qed.

(** X25.  [tick_nohz_switch_to_nohz] does nothing when nohz is disabled or
    the device cannot be switched to one-shot mode.  Otherwise the CPU is
    in low resolution mode afterwards, the jiffies update is seeded (with
    the next tick period, unless it was seeded before), and the first tick
    is programmed on the grid of that seed: at the seed itself, and one
    period later for every programming that came too late, each attempt
    leaving its entry in the trace.  Nothing else of the CPU's structure
    changes, and the jiffies stand. *)
Theorem tick_nohz_switch_to_nohz_seeds (o : oneshot_env) (cpu : Z) (st : kstate) :
  valid_cpu st cpu ->
  let seed := fst (tick_init_jiffy_update st) in
  let late := Z.of_nat (late_programs o) in
  let st' := tick_nohz_switch_to_nohz o cpu st in
  (tick_nohz_enabled st = false \/ tick_switch_to_oneshot o <> 0 -> st' = st)
  /\ (tick_nohz_enabled st = true -> tick_switch_to_oneshot o = 0 ->
      0 <= tick_period st -> 0 <= seed ->
      seed + late * tick_period st <= KTIME_MAX ->
      nohz_mode (get_ts st' cpu) = NOHZ_MODE_LOWRES
      /\ tick_expiry cpu st' = seed + late * tick_period st
      /\ next_event (per_cpu st' cpu) = tick_expiry cpu st'
      /\ hrt_active (sched_timer (get_ts st' cpu)) = false
      /\ get_ts st' cpu
         = set_sched_timer (sched_timer (get_ts st' cpu))
             (set_nohz_mode NOHZ_MODE_LOWRES (get_ts st cpu))
      /\ last_jiffies_update st' = seed
      /\ jiffies st' = jiffies st
      /\ events st'
         = events st
           ++ map (fun k => EvTickProgramEvent cpu (seed + Z.of_nat k * tick_period st))
                (seq 0 (S (late_programs o)))).
Proof.
  intros Hv. cbn zeta. unfold tick_nohz_switch_to_nohz. split.
  - intros [Hoff | Herr].
    + now rewrite Hoff.
    + destruct (tick_nohz_enabled st); [| reflexivity]. cbn [negb].
      destruct (Z.eqb_spec (tick_switch_to_oneshot o) 0); [contradiction | reflexivity].
  - intros Hon Hok Hp Hseed Hmax. rewrite Hon, Hok. cbn [negb Z.eqb].
    set (st1 := put_ts cpu (set_nohz_mode NOHZ_MODE_LOWRES (get_ts st cpu)) st).
    assert (Hv1 : valid_cpu st1 cpu) by (unfold st1; now percpu).
    assert (Hts1 : get_ts st1 cpu = set_nohz_mode NOHZ_MODE_LOWRES (get_ts st cpu))
      by (unfold st1; now percpu).
    unfold hrtimer_init.
    set (st2 := put_ts cpu _ st1).
    assert (Hv2 : valid_cpu st2 cpu) by (unfold st2; now percpu).
    assert (Hts2 : get_ts st2 cpu
                   = set_sched_timer {| hrt_expires := 0; hrt_active := false |}
                       (set_nohz_mode NOHZ_MODE_LOWRES (get_ts st cpu)))
      by (unfold st2; percpu; now rewrite Hts1).
    assert (Hg2 : last_jiffies_update st2 = last_jiffies_update st
                  /\ tick_next_period st2 = tick_next_period st
                  /\ tick_period st2 = tick_period st
                  /\ jiffies st2 = jiffies st
                  /\ events st2 = events st).
    { unfold st2, st1. rewrite !events_put_ts.
      unfold jiffies, put_ts, set_per_cpu. destruct (cpu <? 0); auto. }
    destruct Hg2 as (Hl2 & Hn2 & Hp2 & Hj2 & Hev2).
    destruct (tick_init_jiffy_update_facts st2)
      as (Hf & Hl3 & _ & Hj3 & Hp3 & _ & _ & Hev3 & Hpc3 & Hv3).
    cbn zeta in Hf, Hl3, Hj3, Hp3, Hev3, Hpc3, Hv3.
    assert (Hseed2 : fst (tick_init_jiffy_update st2) = fst (tick_init_jiffy_update st))
      by (unfold tick_init_jiffy_update; cbn [fst]; rewrite Hl2;
          destruct (last_jiffies_update st =? 0);
          cbn [last_jiffies_update set_last_jiffies_update]; congruence).
    rewrite <- Hf in Hl3. clear Hf.
    destruct (tick_init_jiffy_update st2) as [next st3]. cbn [fst snd] in *.
    rewrite Hseed2 in *. clear Hseed2 next.
    set (seed := fst (tick_init_jiffy_update st)) in *.
    assert (Hv3' : valid_cpu st3 cpu) by now rewrite Hv3.
    destruct (tick_nohz_switch_to_nohz_loop_spec cpu (late_programs o) seed st3 Hv3')
      as (Hx & Hne & Hact & Hev & Hto & Htb).
    { rewrite Hp3, Hp2. exact Hp. }
    { exact Hseed. }
    { rewrite Hp3, Hp2. exact Hmax. }
    cbn zeta in Hx, Hne, Hact, Hev, Hto, Htb. rewrite Hp3, Hp2 in *.
    assert (Hts3 : get_ts st3 cpu = get_ts st2 cpu) by (unfold get_ts; now rewrite Hpc3).
    destruct Hto as (_ & Hts & _). destruct Htb as (Hj & Hl & _).
    splits; try assumption.
    + rewrite Hts, Hts3, Hts2. now fields.
    + rewrite Hact, Hts3, Hts2. now fields.
    + rewrite Hts at 1. rewrite Hts3, Hts2. now fields.
    + congruence.
    + unfold jiffies in *. congruence.
    + rewrite Hev, Hev3, Hev2. reflexivity.
Qed.

Lemma tick_nohz_switch_to_nohz_seeds_witness :
  let o := {| timekeeping_valid_for_hres := true; tick_is_oneshot_available := true;
              tick_switch_to_oneshot := 0; late_programs := 2 |} in
  let st' := tick_nohz_switch_to_nohz o 1 sample_timebase in
  nohz_mode (get_ts st' 1) = NOHZ_MODE_LOWRES
  /\ tick_expiry 1 st' = 9000000.
Proof.
  cbn zeta.
  pose proof (tick_nohz_switch_to_nohz_seeds
                {| timekeeping_valid_for_hres := true; tick_is_oneshot_available := true;
                   tick_switch_to_oneshot := 0; late_programs := 2 |} 1 sample_timebase) as H.
  discharge H. destruct H as (_ & H). discharge H.
  destruct H as (Hm & Hx & _). split; [exact Hm | rewrite Hx; vm_compute; reflexivity].
Defined.

Lemma tick_setup_sched_timer_loop_grid c clock : forall now st,
  valid_cpu st c ->
  0 < tick_period st -> Forall (clock_ok (tick_period st)) (now :: clock) ->
  0 <= tick_expiry c st <= KTIME_MAX ->
  let st' := tick_setup_sched_timer_loop c now clock st in
  armed_after c (tick_period st) (tick_expiry c st) (last_reading now clock) st'
  /\ hrt_active (sched_timer (get_ts st' c)) = true
  /\ timer_only c st st'
  /\ same_timebase st st'
  /\ timer_trace st st'
  /\ (forall hi, Forall (fun n => n <= hi) (now :: clock) ->
      tick_expiry c st' <= Z.max (tick_expiry c st) (hi + tick_period st)).
Proof.
  induction clock as [| later clock IH]; intros now st Hv Hp Hclock Hx;
    apply Forall_cons in Hclock as [Hnow Hclock]; cbn zeta;
    cbn [tick_setup_sched_timer_loop].
  - pose proof (arm_step c now (tick_period st) true true st Hv Hp eq_refl Hnow Hx) as Harm.
    cbn zeta in Harm.
    set (st1 := hrtimer_forward c now (tick_period st) st) in *.
    change (hrtimer_get_expires (sched_timer (get_ts st1 c))) with (tick_expiry c st1).
    destruct Harm as (Hv2 & Hper2 & Hx2 & Hx2' & Hg & Hsame & Hle & Hne & Hact & Hto).
    unfold armed_after, last_reading. cbn [List.last].
    splits; try assumption; try lia; auto.
    + unfold st1. auto with timebase.
    + unfold st1. apply tt_hrtimer_start, tt_hrtimer_forward, timer_trace_refl.
    + intros hi Hhi. apply Forall_cons in Hhi as [Hhi _]. lia.
  - pose proof (arm_step c now (tick_period st) true false st Hv Hp eq_refl Hnow Hx) as Harm.
    cbn zeta in Harm.
    set (st1 := hrtimer_forward c now (tick_period st) st) in *.
    change (hrtimer_get_expires (sched_timer (get_ts st1 c))) with (tick_expiry c st1).
    destruct Harm as (Hv2 & Hper2 & Hx2 & Hx2' & Hg & Hsame & Hle & Hne & _ & Hto).
    assert (Htb2 : same_timebase st (hrtimer_start c (tick_expiry c st1) false st1))
      by (unfold st1; auto with timebase).
    assert (Htt2 : timer_trace st (hrtimer_start c (tick_expiry c st1) false st1))
      by (unfold st1; apply tt_hrtimer_start, tt_hrtimer_forward, timer_trace_refl).
    set (st2 := hrtimer_start c (tick_expiry c st1) false st1) in *.
    destruct (IH later st2 Hv2) as (Ha & Hact & Hto' & Htb & Htt & Hmax).
    { now rewrite Hper2. }
    { now rewrite Hper2. }
    { lia. }
    cbn zeta in Ha, Hact, Hto', Htb, Htt, Hmax. rewrite Hper2 in *.
    rewrite last_reading_cons. unfold armed_after in *.
    destruct Ha as (Ha1 & Ha2 & Ha3).
    splits; try assumption; try lia.
    + eapply on_grid_trans; eassumption.
    + eapply timer_only_trans; eassumption.
    + eapply same_timebase_trans; eassumption.
    + eapply timer_trace_trans; eassumption.
    + intros hi Hhi. apply Forall_cons in Hhi as [Hhi Hhi'].
      specialize (Hmax hi Hhi'). lia.
Qed.

(** X26.  [tick_setup_sched_timer] leaves the tick timer of the CPU
    queued, for a point strictly after the last reading of the clock that
    lies a whole number of periods after the seed of the jiffies update, so
    that the ticks of all CPUs and the jiffies share one grid.  The seed is
    the next tick period unless the update was seeded before, and setting
    up a second CPU finds the same seed.  The CPU is put in high resolution
    mode if nohz is enabled and keeps its mode otherwise; the jiffies
    stand, and nothing else of the CPU's structure changes. *)
Theorem tick_setup_sched_timer_arms (e : env) (cpu : Z) (st : kstate) :
  valid_cpu st cpu ->
  let seed := fst (tick_init_jiffy_update st) in
  0 < tick_period st ->
  Forall (clock_ok (tick_period st)) (ktime_get e :: rearm_clock e) ->
  0 <= seed <= KTIME_MAX ->
  let st' := tick_setup_sched_timer e cpu st in
  armed_after cpu (tick_period st) seed (last_reading (ktime_get e) (rearm_clock e)) st'
  /\ hrt_active (sched_timer (get_ts st' cpu)) = true
  /\ nohz_mode (get_ts st' cpu)
     = (if tick_nohz_enabled st then NOHZ_MODE_HIGHRES else nohz_mode (get_ts st cpu))
  /\ get_ts st' cpu
     = set_sched_timer (sched_timer (get_ts st' cpu))
         (set_nohz_mode (nohz_mode (get_ts st' cpu)) (get_ts st cpu))
  /\ last_jiffies_update st' = seed
  /\ fst (tick_init_jiffy_update st') = seed
  /\ jiffies st' = jiffies st
  /\ tick_period st' = tick_period st
  /\ timer_trace st st'.
Proof.
  intros Hv. cbn zeta. intros Hp Hclock Hseed. unfold tick_setup_sched_timer, hrtimer_init.
  set (st1 := put_ts cpu _ st).
  assert (Hv1 : valid_cpu st1 cpu) by (unfold st1; now percpu).
  assert (Hts1 : get_ts st1 cpu
                 = set_sched_timer {| hrt_expires := 0; hrt_active := false |} (get_ts st cpu))
    by (unfold st1; now percpu).
  assert (Hg1 : last_jiffies_update st1 = last_jiffies_update st
                /\ tick_next_period st1 = tick_next_period st
                /\ tick_period st1 = tick_period st
                /\ jiffies st1 = jiffies st
                /\ tick_nohz_enabled st1 = tick_nohz_enabled st
                /\ events st1 = events st).
  { unfold st1. rewrite !events_put_ts.
    unfold jiffies, put_ts, set_per_cpu. destruct (cpu <? 0); auto 10. }
  destruct Hg1 as (Hl1 & Hn1 & Hp1 & Hj1 & Hen1 & Hev1).
  destruct (tick_init_jiffy_update_facts st1)
    as (Hf & Hl2 & Hf2 & Hj2 & Hp2 & Hn2 & Hen2 & Hev2 & Hpc2 & Hv2).
  cbn zeta in Hf, Hl2, Hf2, Hj2, Hp2, Hn2, Hen2, Hev2, Hpc2, Hv2.
  assert (Hseed1 : fst (tick_init_jiffy_update st1) = fst (tick_init_jiffy_update st))
    by (unfold tick_init_jiffy_update; cbn [fst]; rewrite Hl1;
        destruct (last_jiffies_update st =? 0);
        cbn [last_jiffies_update set_last_jiffies_update]; congruence).
  rewrite <- Hf in Hl2, Hf2. clear Hf.
  destruct (tick_init_jiffy_update st1) as [next st2]. cbn [fst snd] in *.
  rewrite Hseed1 in *. clear Hseed1 next.
  set (seed := fst (tick_init_jiffy_update st)) in *.
  assert (Hv2' : valid_cpu st2 cpu) by now rewrite Hv2.
  assert (Hts2 : get_ts st2 cpu = get_ts st1 cpu) by (unfold get_ts; now rewrite Hpc2).
  pose proof (to_hrtimer_set_expires cpu st2 seed st2 (timer_only_refl cpu st2 Hv2')) as Hto3.
  assert (Hx3 : tick_expiry cpu (hrtimer_set_expires cpu seed st2) = seed)
    by (unfold tick_expiry, hrtimer_get_expires, hrtimer_set_expires; percpu; now fields).
  assert (Htb3 : same_timebase st2 (hrtimer_set_expires cpu seed st2))
    by auto with timebase.
  assert (Hev3 : events (hrtimer_set_expires cpu seed st2) = events st2)
    by (unfold hrtimer_set_expires; apply events_put_ts).
  set (st3 := hrtimer_set_expires cpu seed st2) in *.
  assert (Hv3 : valid_cpu st3 cpu) by apply Hto3.
  assert (Hper3 : tick_period st3 = tick_period st)
    by (destruct Htb3 as (_ & _ & _ & Hq); congruence).
  destruct (tick_setup_sched_timer_loop_grid cpu (rearm_clock e) (ktime_get e) st3 Hv3)
    as (Ha & Hact & Hto4 & Htb4 & Htt4 & _).
  { now rewrite Hper3. }
  { now rewrite Hper3. }
  { now rewrite Hx3. }
  cbn zeta in Ha, Hact, Hto4, Htb4, Htt4. rewrite Hper3, Hx3 in *.
  set (st4 := tick_setup_sched_timer_loop cpu (ktime_get e) (rearm_clock e) st3) in *.
  pose proof (timer_only_trans _ _ _ _ Hto3 Hto4) as Hto.
  pose proof (same_timebase_trans _ _ _ Htb3 Htb4) as Htb.
  destruct Hto as (Hv4 & Hts4 & _ & _ & _ & _ & _ & Hen4).
  destruct Htb as (Hj4 & Hl4 & Hn4 & Hp4).
  assert (Htt : timer_trace st st4).
  { destruct Htt4 as (l & Hl & Hf). exists l. split; [| exact Hf].
    rewrite Hl, Hev3, Hev2, Hev1. reflexivity. }
  assert (Hf4 : fst (tick_init_jiffy_update st4) = seed).
  { rewrite <- Hf2. unfold tick_init_jiffy_update. cbn [fst]. rewrite Hl4.
    destruct (last_jiffies_update st2 =? 0);
      cbn [last_jiffies_update set_last_jiffies_update]; congruence. }
  rewrite Hen4, Hen2, Hen1.
  unfold armed_after in *. destruct Ha as (Ha1 & Ha2 & Ha3).
  destruct (tick_nohz_enabled st).
  - set (st5 := put_ts cpu (set_nohz_mode NOHZ_MODE_HIGHRES (get_ts st4 cpu)) st4).
    assert (Hgl : last_jiffies_update st5 = last_jiffies_update st4
                  /\ jiffies st5 = jiffies st4
                  /\ tick_period st5 = tick_period st4
                  /\ tick_next_period st5 = tick_next_period st4)
      by (unfold st5, jiffies, put_ts, set_per_cpu; destruct (cpu <? 0); auto).
    destruct Hgl as (Hgl1 & Hgl2 & Hgl3 & Hgl4).
    assert (Hts5 : get_ts st5 cpu = set_nohz_mode NOHZ_MODE_HIGHRES (get_ts st4 cpu))
      by (unfold st5; now percpu).
    assert (Hne5 : next_event (per_cpu st5 cpu) = next_event (per_cpu st4 cpu))
      by (unfold st5; now percpu).
    assert (Hf5 : fst (tick_init_jiffy_update st5) = seed).
    { rewrite <- Hf4. unfold tick_init_jiffy_update. cbn [fst]. rewrite Hgl1.
      destruct (last_jiffies_update st4 =? 0);
        cbn [last_jiffies_update set_last_jiffies_update]; congruence. }
    unfold tick_expiry in *. rewrite Hts5, Hne5. fields. unfold jiffies in *.
    splits; try assumption; try reflexivity; try lia; try congruence.
    + rewrite Hts4 at 1. rewrite Hts2, Hts1. reflexivity.
    + unfold st5. now apply tt_put_ts.
  - unfold jiffies in *.
    splits; try assumption; try reflexivity; try lia; try congruence.
    + rewrite Hts4, Hts2, Hts1. now fields.
    + rewrite Hts4 at 1. rewrite Hts2, Hts1. fields. rewrite Hts4, Hts2, Hts1. now fields.
Qed.

Lemma tick_setup_sched_timer_arms_witness :
  let st' := tick_setup_sched_timer (env_with_clock 8200000 calm_env) 1 sample_timebase in
  8200000 < tick_expiry 1 st'
  /\ on_grid 1000000 7000000 (tick_expiry 1 st')
  /\ hrt_active (sched_timer (get_ts st' 1)) = true
  /\ nohz_mode (get_ts st' 1) = NOHZ_MODE_HIGHRES.
Proof.
  cbn zeta.
  assert (Hv : valid_cpu sample_timebase 1) by (vm_compute; intuition congruence).
  assert (Hp : 0 < tick_period sample_timebase) by (vm_compute; reflexivity).
  assert (Hc : Forall (clock_ok (tick_period sample_timebase))
                 (ktime_get (env_with_clock 8200000 calm_env)
                    :: rearm_clock (env_with_clock 8200000 calm_env)))
    by (repeat constructor; vm_compute; intuition congruence).
  assert (Hx : 0 <= fst (tick_init_jiffy_update sample_timebase) <= KTIME_MAX)
    by (vm_compute; intuition congruence).
  destruct (tick_setup_sched_timer_arms (env_with_clock 8200000 calm_env) 1 sample_timebase
              Hv Hp Hc Hx) as ((Hlt & Hg & _) & Hact & Hm & _).
  splits; [exact (proj1 Hlt) | exact Hg | exact Hact | exact Hm].
Defined.

(** *** Changes of the clock and of the device *)

Lemma testbit_one n : n <> 0 -> Z.testbit 1 n = false.
Proof. intros Hn. destruct n as [| p | p]; [contradiction | now destruct p | reflexivity]. Qed.

Lemma set_bit_spec w :
  Z.testbit (set_bit 0 w) 0 = true
  /\ (forall n, n <> 0 -> Z.testbit (set_bit 0 w) n = Z.testbit w n).
Proof.
  unfold set_bit. change (Z.shiftl 1 0) with 1. split.
  - rewrite Z.lor_spec. change (Z.testbit 1 0) with true. apply orb_true_r.
  - intros n Hn. rewrite Z.lor_spec, testbit_one by assumption. apply orb_false_r.
Qed.

Lemma test_and_clear_bit_spec w :
  fst (test_and_clear_bit 0 w) = Z.testbit w 0
  /\ Z.testbit (snd (test_and_clear_bit 0 w)) 0 = false
  /\ (forall n, n <> 0 -> Z.testbit (snd (test_and_clear_bit 0 w)) n = Z.testbit w n).
Proof.
  unfold test_and_clear_bit. cbn [fst snd]. change (Z.shiftl 1 0) with 1. splits.
  - reflexivity.
  - rewrite Z.land_spec, Z.lnot_spec by lia. change (Z.testbit 1 0) with true.
    apply andb_false_r.
  - intros n Hn. destruct (Z.lt_ge_cases n 0) as [Hneg | Hpos].
    + now rewrite !Z.testbit_neg_r.
    + rewrite Z.land_spec, Z.lnot_spec, testbit_one by assumption. apply andb_true_r.
Qed.

Lemma to_tick_nohz_switch_to_nohz_loop c st0 late : forall next st,
  timer_only c st0 st -> timer_only c st0 (tick_nohz_switch_to_nohz_loop c next late st).
Proof.
  induction late as [| late IH]; intros next st H; cbn [tick_nohz_switch_to_nohz_loop].
  - auto with timeronly.
  - apply IH. auto with timeronly.
Qed.

(** Of the structure of the CPU, the switch to low resolution mode writes
    the mode and the timer. *)
Lemma tick_nohz_switch_to_nohz_ts o c st :
  valid_cpu st c ->
  let st' := tick_nohz_switch_to_nohz o c st in
  valid_cpu st' c
  /\ get_ts st' c
     = set_sched_timer (sched_timer (get_ts st' c))
         (if tick_nohz_enabled st && (tick_switch_to_oneshot o =? 0)
          then set_nohz_mode NOHZ_MODE_LOWRES (get_ts st c) else get_ts st c)
  /\ tick_nohz_enabled st' = tick_nohz_enabled st.
Proof.
  intros Hv. cbn zeta. unfold tick_nohz_switch_to_nohz.
  destruct (tick_nohz_enabled st) eqn:Hen; cbn [negb andb];
    [| rewrite set_sched_timer_same; auto].
  destruct (tick_switch_to_oneshot o =? 0); cbn [negb];
    [| rewrite set_sched_timer_same; auto].
  unfold hrtimer_init.
  set (st1 := put_ts c (set_nohz_mode NOHZ_MODE_LOWRES (get_ts st c)) st).
  assert (Hv1 : valid_cpu st1 c) by (unfold st1; now percpu).
  assert (Hts1 : get_ts st1 c = set_nohz_mode NOHZ_MODE_LOWRES (get_ts st c))
    by (unfold st1; now percpu).
  assert (Hen1 : tick_nohz_enabled st1 = true)
    by (unfold st1, put_ts, set_per_cpu; now destruct (c <? 0)).
  pose proof (to_set_timer c st1 {| hrt_expires := 0; hrt_active := false |} st1
                (timer_only_refl c st1 Hv1)) as Hto2.
  set (st2 := put_ts c _ st1) in *.
  destruct (tick_init_jiffy_update_facts st2) as (_ & _ & _ & _ & _ & _ & Hen3 & _ & Hpc3 & Hv3).
  cbn zeta in Hen3, Hpc3, Hv3.
  destruct (tick_init_jiffy_update st2) as [next st3]. cbn [snd] in *.
  assert (Hto3 : timer_only c st3 st3)
    by (apply timer_only_refl; rewrite Hv3; apply Hto2).
  pose proof (to_tick_nohz_switch_to_nohz_loop c st3 (late_programs o) next st3 Hto3)
    as (Hv4 & Hts4 & _ & _ & _ & _ & _ & Hen4).
  destruct Hto2 as (_ & Hts2 & _ & _ & _ & _ & _ & Hen2).
  assert (Hts3 : get_ts st3 c = get_ts st2 c) by (unfold get_ts; now rewrite Hpc3).
  splits; try assumption; try congruence.
  rewrite Hts4 at 1. rewrite Hts3, Hts2, Hts1. reflexivity.
Qed.

Lemma tick_clock_notify_get_ts st c :
  valid_cpu st c ->
  get_ts (tick_clock_notify st) c
  = set_check_clocks (set_bit 0 (check_clocks (get_ts st c))) (get_ts st c).
Proof.
  intros Hv. unfold get_ts, tick_clock_notify, per_cpu, valid_cpu in *.
  destruct (Z.ltb_spec c 0) as [Hneg | Hpos]; [lia |].
  cbn [cpus set_cpus]. rewrite list_lookup_fmap.
  destruct (lookup_lt_is_Some_2 (cpus st) (Z.to_nat c)) as [pc Hpc]; [lia |].
  rewrite Hpc. reflexivity.
Qed.

(** X27.  A notification about a change of the clock source or of the
    clock event device is consumed exactly once.  [tick_oneshot_notify] on
    the CPU itself and [tick_clock_notify] on every CPU set bit 0 of
    [check_clocks] and nothing else.  [tick_check_oneshot_change] clears
    that bit and leaves the other bits alone; it asks for the switch to
    high resolution timers (result 1) only if the bit was set, the tick is
    in no dynamic mode yet, the timekeeping and the device allow one-shot
    mode and the caller cannot use the low resolution mode; if the caller
    can, it tries the switch to low resolution mode instead.  A second
    check that follows finds the bit cleared, answers 0 and changes
    nothing. *)
Theorem tick_check_oneshot_change_once (o o2 : oneshot_env) (cpu : Z)
    (allow_nohz allow2 : bool) (st : kstate) :
  valid_cpu st cpu ->
  let ts := get_ts st cpu in
  let r := fst (tick_check_oneshot_change o cpu allow_nohz st) in
  let st' := snd (tick_check_oneshot_change o cpu allow_nohz st) in
  let ts' := get_ts st' cpu in
  let possible :=
    Z.testbit (check_clocks ts) 0
    && tick_nohz_mode_eqb (nohz_mode ts) NOHZ_MODE_INACTIVE
    && timekeeping_valid_for_hres o && tick_is_oneshot_available o in
  r = (if possible && negb allow_nohz then 1 else 0)
  /\ Z.testbit (check_clocks ts') 0 = false
  /\ (forall n, n <> 0 -> Z.testbit (check_clocks ts') n = Z.testbit (check_clocks ts) n)
  /\ nohz_mode ts'
     = (if possible && allow_nohz && tick_nohz_enabled st && (tick_switch_to_oneshot o =? 0)
        then NOHZ_MODE_LOWRES else nohz_mode ts)
  /\ (possible && allow_nohz = false -> events st' = events st /\ same_timebase st st')
  /\ fst (tick_check_oneshot_change o2 cpu allow2 st') = 0
  /\ nohz_mode (get_ts (snd (tick_check_oneshot_change o2 cpu allow2 st')) cpu)
     = nohz_mode ts'
  /\ (let ts1 := get_ts (tick_oneshot_notify cpu st) cpu in
      Z.testbit (check_clocks ts1) 0 = true
      /\ (forall n, n <> 0 -> Z.testbit (check_clocks ts1) n = Z.testbit (check_clocks ts) n)
      /\ ts1 = set_check_clocks (check_clocks ts1) ts)
  /\ (let ts1 := get_ts (tick_clock_notify st) cpu in
      Z.testbit (check_clocks ts1) 0 = true
      /\ (forall n, n <> 0 -> Z.testbit (check_clocks ts1) n = Z.testbit (check_clocks ts) n)
      /\ ts1 = set_check_clocks (check_clocks ts1) ts).
Proof.
  intros Hv. cbn zeta.
  destruct (set_bit_spec (check_clocks (get_ts st cpu))) as (Hset0 & Hsetn).
  assert (Hfirst : forall o a s, valid_cpu s cpu ->
            let p := Z.testbit (check_clocks (get_ts s cpu)) 0
                     && tick_nohz_mode_eqb (nohz_mode (get_ts s cpu)) NOHZ_MODE_INACTIVE
                     && timekeeping_valid_for_hres o && tick_is_oneshot_available o in
            let s1 := put_ts cpu (set_check_clocks
                                    (snd (test_and_clear_bit 0 (check_clocks (get_ts s cpu))))
                                    (get_ts s cpu)) s in
            tick_check_oneshot_change o cpu a s
            = (if p && negb a then 1 else 0,
               if p && a then tick_nohz_switch_to_nohz o cpu s1 else s1)).
  { intros o' a s Hs. cbn zeta. unfold tick_check_oneshot_change.
    destruct (test_and_clear_bit_spec (check_clocks (get_ts s cpu))) as (Hf & _).
    destruct (test_and_clear_bit 0 (check_clocks (get_ts s cpu))) as [was word].
    cbn [fst snd] in *. subst was. percpu. fields.
    destruct (Z.testbit (check_clocks (get_ts s cpu)) 0); cbn [negb andb]; [| reflexivity].
    destruct (tick_nohz_mode_eqb (nohz_mode (get_ts s cpu)) NOHZ_MODE_INACTIVE);
      cbn [negb andb]; [| reflexivity].
    destruct (timekeeping_valid_for_hres o'); cbn [negb andb orb]; [| reflexivity].
    destruct (tick_is_oneshot_available o'); cbn [negb andb orb]; [| reflexivity].
    now destruct a. }
  rewrite (Hfirst o allow_nohz st Hv). cbn zeta. cbn [fst snd].
  destruct (test_and_clear_bit_spec (check_clocks (get_ts st cpu))) as (_ & Hclr0 & Hclrn).
  set (word := snd (test_and_clear_bit 0 (check_clocks (get_ts st cpu)))) in *.
  set (possible := Z.testbit (check_clocks (get_ts st cpu)) 0
                   && tick_nohz_mode_eqb (nohz_mode (get_ts st cpu)) NOHZ_MODE_INACTIVE
                   && timekeeping_valid_for_hres o && tick_is_oneshot_available o).
  set (st1 := put_ts cpu (set_check_clocks word (get_ts st cpu)) st).
  assert (Hv1 : valid_cpu st1 cpu) by (unfold st1; now percpu).
  assert (Hts1 : get_ts st1 cpu = set_check_clocks word (get_ts st cpu))
    by (unfold st1; now percpu).
  assert (Hen1 : tick_nohz_enabled st1 = tick_nohz_enabled st)
    by (unfold st1, put_ts, set_per_cpu; now destruct (cpu <? 0)).
  destruct (tick_nohz_switch_to_nohz_ts o cpu st1 Hv1) as (Hv2 & Hts2 & _).
  cbn zeta in Hv2, Hts2. rewrite Hen1, Hts1 in Hts2.
  set (st' := if possible && allow_nohz then tick_nohz_switch_to_nohz o cpu st1 else st1).
  assert (H' : valid_cpu st' cpu
               /\ check_clocks (get_ts st' cpu) = word
               /\ nohz_mode (get_ts st' cpu)
                  = (if possible && allow_nohz && tick_nohz_enabled st
                        && (tick_switch_to_oneshot o =? 0)
                     then NOHZ_MODE_LOWRES else nohz_mode (get_ts st cpu))).
  { unfold st'. destruct (possible && allow_nohz); cbn [andb].
    - rewrite Hts2. destruct (tick_nohz_enabled st && _); fields; auto.
    - rewrite Hts1. fields. auto. }
  destruct H' as (Hv' & Hcc' & Hm').
  rewrite (Hfirst o2 allow2 st' Hv'). cbn zeta. cbn [fst snd].
  rewrite Hcc', Hclr0. cbn [andb].
  splits; try reflexivity; try assumption.
  - intros Hno. unfold st'. rewrite Hno.
    split; [apply events_put_ts | apply same_timebase_put_ts].
  - percpu. now fields.
  - unfold tick_oneshot_notify. percpu. now fields.
  - unfold tick_oneshot_notify. percpu. now fields.
  - unfold tick_oneshot_notify. percpu. now fields.
  - rewrite tick_clock_notify_get_ts by assumption. now fields.
  - rewrite tick_clock_notify_get_ts by assumption. now fields.
  - rewrite tick_clock_notify_get_ts by assumption. now fields.
Qed.

Lemma tick_check_oneshot_change_once_witness :
  let o := {| timekeeping_valid_for_hres := true; tick_is_oneshot_available := true;
              tick_switch_to_oneshot := 0; late_programs := 0 |} in
  let st := tick_oneshot_notify 1 sample_timebase in
  fst (tick_check_oneshot_change o 1 false st) = 1
  /\ fst (tick_check_oneshot_change o 1 false
            (snd (tick_check_oneshot_change o 1 false st))) = 0
  /\ nohz_mode (get_ts (snd (tick_check_oneshot_change o 1 true st)) 1) = NOHZ_MODE_LOWRES.
Proof.
  cbn zeta.
  pose proof (tick_check_oneshot_change_once
                {| timekeeping_valid_for_hres := true; tick_is_oneshot_available := true;
                   tick_switch_to_oneshot := 0; late_programs := 0 |}
                {| timekeeping_valid_for_hres := true; tick_is_oneshot_available := true;
                   tick_switch_to_oneshot := 0; late_programs := 0 |}
                1 false false (tick_oneshot_notify 1 sample_timebase)) as H.
  pose proof (tick_check_oneshot_change_once
                {| timekeeping_valid_for_hres := true; tick_is_oneshot_available := true;
                   tick_switch_to_oneshot := 0; late_programs := 0 |}
                {| timekeeping_valid_for_hres := true; tick_is_oneshot_available := true;
                   tick_switch_to_oneshot := 0; late_programs := 0 |}
                1 true false (tick_oneshot_notify 1 sample_timebase)) as H2.
  discharge H. discharge H2.
  destruct H as (Hr & _ & _ & _ & _ & Hsecond & _).
  destruct H2 as (_ & _ & _ & Hm & _).
  splits; [rewrite Hr | exact Hsecond | rewrite Hm]; vm_compute; reflexivity.
Defined.

(** *** nohz=off *)

Lemma same_modes_refl st : same_modes st st.
Proof. split; reflexivity. Qed.

Lemma same_modes_trans st1 st2 st3 :
  same_modes st1 st2 -> same_modes st2 st3 -> same_modes st1 st3.
Proof. intros [H1 H2] [H3 H4]. split; congruence. Qed.

Lemma tick_modes_set_per_cpu st c pc :
  nohz_mode (tick_cpu_sched pc) = nohz_mode (get_ts st c) ->
  tick_stopped (tick_cpu_sched pc) = tick_stopped (get_ts st c) ->
  tick_modes (set_per_cpu c pc st) = tick_modes st.
Proof.
  unfold tick_modes, set_per_cpu, get_ts, per_cpu. intros Hm Hs.
  destruct (Z.ltb_spec c 0); [reflexivity |]. cbn [cpus set_cpus].
  rewrite list_fmap_insert.
  destruct (cpus st !! Z.to_nat c) as [old |] eqn:Hl.
  - apply list_insert_id. rewrite list_lookup_fmap, Hl. cbn in *. congruence.
  - apply list_insert_ge. rewrite length_fmap. now apply lookup_ge_None.
Qed.

(** What the tick modes say about one CPU. *)
Lemma tick_modes_get_ts st st' c :
  tick_modes st' = tick_modes st ->
  nohz_mode (get_ts st' c) = nohz_mode (get_ts st c)
  /\ tick_stopped (get_ts st' c) = tick_stopped (get_ts st c).
Proof.
  unfold tick_modes, get_ts, per_cpu. intros H.
  destruct (Z.ltb_spec c 0); [auto |].
  apply (f_equal (fun l => l !! Z.to_nat c)) in H. rewrite !list_lookup_fmap in H.
  destruct (cpus st' !! Z.to_nat c), (cpus st !! Z.to_nat c); cbn in *;
    try discriminate; [injection H as -> -> |]; auto.
Qed.

Lemma nohz_off_get_ts st c :
  nohz_off st ->
  nohz_mode (get_ts st c) = NOHZ_MODE_INACTIVE /\ tick_stopped (get_ts st c) = false.
Proof.
  intros [_ H]. unfold tick_modes, get_ts, per_cpu in *.
  destruct (Z.ltb_spec c 0); [auto |].
  destruct (cpus st !! Z.to_nat c) as [pc |] eqn:Hl; [| auto]. cbn [default].
  rewrite Forall_lookup in H.
  specialize (H (Z.to_nat c) _ ltac:(rewrite list_lookup_fmap, Hl; reflexivity)).
  injection H as H1 H2. split; [exact H1 | exact H2].
Qed.

Lemma nohz_off_same_modes st st' : nohz_off st -> same_modes st st' -> nohz_off st'.
Proof. intros [He Hf] [Hm Hen]. split; [congruence | now rewrite Hm]. Qed.

Section ModesChain.

Variable st0 : kstate.

Lemma sm_emit ev st : same_modes st0 st -> same_modes st0 (emit ev st).
Proof. intros [? ?]. split; assumption. Qed.

Lemma sm_set_jiffies_64 v st : same_modes st0 st -> same_modes st0 (set_jiffies_64 v st).
Proof. intros [? ?]. split; assumption. Qed.

Lemma sm_set_last_jiffies_update v st :
  same_modes st0 st -> same_modes st0 (set_last_jiffies_update v st).
Proof. intros [? ?]. split; assumption. Qed.

Lemma sm_set_tick_next_period v st :
  same_modes st0 st -> same_modes st0 (set_tick_next_period v st).
Proof. intros [? ?]. split; assumption. Qed.

Lemma sm_set_tick_do_timer_cpu v st :
  same_modes st0 st -> same_modes st0 (set_tick_do_timer_cpu v st).
Proof. intros [? ?]. split; assumption. Qed.

Lemma sm_set_nr_cpus_user_nohz v st :
  same_modes st0 st -> same_modes st0 (set_nr_cpus_user_nohz v st).
Proof. intros [? ?]. split; assumption. Qed.

Lemma sm_set_ratelimit v st : same_modes st0 st -> same_modes st0 (set_ratelimit v st).
Proof. intros [? ?]. split; assumption. Qed.

Lemma sm_set_per_cpu c pc st :
  same_modes st0 st ->
  nohz_mode (tick_cpu_sched pc) = nohz_mode (get_ts st c) ->
  tick_stopped (tick_cpu_sched pc) = tick_stopped (get_ts st c) ->
  same_modes st0 (set_per_cpu c pc st).
Proof.
  intros [Hm Hen] H1 H2. split.
  - now rewrite tick_modes_set_per_cpu.
  - rewrite <- Hen. unfold set_per_cpu. now destruct (c <? 0).
Qed.

Lemma sm_put_ts c ts st :
  same_modes st0 st ->
  nohz_mode ts = nohz_mode (get_ts st c) ->
  tick_stopped ts = tick_stopped (get_ts st c) ->
  same_modes st0 (put_ts c ts st).
Proof. intros H H1 H2. unfold put_ts. apply sm_set_per_cpu; assumption. Qed.

End ModesChain.

Create HintDb modes.

#[local] Hint Resolve same_modes_refl sm_emit sm_set_jiffies_64 sm_set_last_jiffies_update
  sm_set_tick_next_period sm_set_tick_do_timer_cpu sm_set_nr_cpus_user_nohz
  sm_set_ratelimit sm_set_per_cpu sm_put_ts : modes.

(** Split on every test in the goal, then chain. *)
Ltac modes := split_tests; cbn [fst snd]; auto 20 with modes.

Section ModesOps.

Variable st0 : kstate.

Lemma sm_tick_do_update_jiffies64 now st :
  same_modes st0 st -> same_modes st0 (tick_do_update_jiffies64 now st).
Proof.
  intros H. unfold tick_do_update_jiffies64.
  destruct (_ <? _); [assumption |]. destruct (_ >=? _); [| assumption].
  destruct (_ >=? _); cbn iota beta; unfold do_timer; auto 10 with modes.
Qed.

Lemma sm_hrtimer_start c expires armed st :
  same_modes st0 st -> same_modes st0 (hrtimer_start c expires armed st).
Proof. intros H. unfold hrtimer_start. modes. Qed.

Lemma sm_hrtimer_cancel c st : same_modes st0 st -> same_modes st0 (hrtimer_cancel c st).
Proof. intros H. unfold hrtimer_cancel. modes. Qed.

Lemma sm_tick_program_event c expires armed st :
  same_modes st0 st -> same_modes st0 (snd (tick_program_event c expires armed st)).
Proof. intros H. unfold tick_program_event. modes. Qed.

Lemma sm_hrtimer_set_expires c expires st :
  same_modes st0 st -> same_modes st0 (hrtimer_set_expires c expires st).
Proof. intros H. unfold hrtimer_set_expires. modes. Qed.

Lemma sm_hrtimer_forward c now interval st :
  same_modes st0 st -> same_modes st0 (hrtimer_forward c now interval st).
Proof.
  intros H. unfold hrtimer_forward. destruct (_ <? _); [assumption |].
  now apply sm_hrtimer_set_expires.
Qed.

Lemma sm_atomic_dec_nr_cpus_user_nohz st :
  same_modes st0 st -> same_modes st0 (atomic_dec_nr_cpus_user_nohz st).
Proof. intros H. unfold atomic_dec_nr_cpus_user_nohz. modes. Qed.

Lemma sm_atomic_inc_nr_cpus_user_nohz st :
  same_modes st0 st -> same_modes st0 (atomic_inc_nr_cpus_user_nohz st).
Proof. intros H. unfold atomic_inc_nr_cpus_user_nohz. modes. Qed.

Lemma sm_tick_do_timer_check_handler c st :
  same_modes st0 st -> same_modes st0 (tick_do_timer_check_handler c st).
Proof. intros H. unfold tick_do_timer_check_handler. modes. Qed.

Lemma sm_tick_nohz_start_idle e c st :
  same_modes st0 st -> same_modes st0 (snd (tick_nohz_start_idle e c st)).
Proof.
  intros H. unfold tick_nohz_start_idle. cbn [snd].
  apply sm_put_ts; [| reflexivity | reflexivity].
  destruct (user_nohz _); [apply sm_atomic_dec_nr_cpus_user_nohz |]; auto with modes.
Qed.

Lemma sm_tick_nohz_stop_idle e c now st :
  same_modes st0 st -> same_modes st0 (tick_nohz_stop_idle e c now st).
Proof.
  intros H. unfold tick_nohz_stop_idle, update_ts_time_stats. cbn [fst].
  apply sm_put_ts; [assumption | |]; split_tests; reflexivity.
Qed.

Lemma sm_can_stop_idle_tick e c st :
  same_modes st0 st -> same_modes st0 (snd (can_stop_idle_tick e c st)).
Proof. intros H. unfold can_stop_idle_tick. modes. Qed.

Lemma sm_can_stop_adaptive_tick e c st :
  same_modes st0 st -> same_modes st0 (snd (can_stop_adaptive_tick e c st)).
Proof.
  intros H. unfold can_stop_adaptive_tick.
  split_tests; cbn [fst snd]; try assumption;
    (apply sm_atomic_inc_nr_cpus_user_nohz || apply sm_atomic_dec_nr_cpus_user_nohz);
    auto with modes.
Qed.

Lemma sm_tick_nohz_cpu_exit_qs c irq st :
  same_modes st0 st -> same_modes st0 (tick_nohz_cpu_exit_qs c irq st).
Proof. intros H. unfold tick_nohz_cpu_exit_qs. modes. Qed.

End ModesOps.

#[local] Hint Resolve sm_tick_do_update_jiffies64 sm_hrtimer_start sm_hrtimer_cancel
  sm_tick_program_event sm_hrtimer_set_expires sm_hrtimer_forward
  sm_atomic_dec_nr_cpus_user_nohz sm_atomic_inc_nr_cpus_user_nohz
  sm_tick_do_timer_check_handler sm_tick_nohz_start_idle sm_tick_nohz_stop_idle
  sm_can_stop_idle_tick sm_can_stop_adaptive_tick sm_tick_nohz_cpu_exit_qs : modes.

Lemma sm_tick_nohz_handler_loop st0 c clock : forall now st,
  same_modes st0 st -> same_modes st0 (tick_nohz_handler_loop c now clock st).
Proof.
  induction clock as [| later clock IH]; intros now st H;
    cbn [tick_nohz_handler_loop]; unfold tick_nohz_reprogram.
  - auto with modes.
  - apply IH. auto with modes.
Qed.

Lemma sm_tick_setup_sched_timer_loop st0 c clock : forall now st,
  same_modes st0 st -> same_modes st0 (tick_setup_sched_timer_loop c now clock st).
Proof.
  induction clock as [| later clock IH]; intros now st H;
    cbn [tick_setup_sched_timer_loop].
  - auto with modes.
  - apply IH. auto with modes.
Qed.

Lemma sm_tick_sched_timer st0 e c st :
  same_modes st0 st -> same_modes st0 (tick_sched_timer e c st).
Proof.
  intros H. unfold tick_sched_timer. apply sm_hrtimer_forward.
  assert (H2 : same_modes st0
                 (if tick_do_timer_cpu (tick_do_timer_check_handler c st) =? c
                  then tick_do_update_jiffies64 (ktime_get e)
                         (tick_do_timer_check_handler c st)
                  else tick_do_timer_check_handler c st))
    by (destruct (_ =? c); auto with modes).
  destruct (irq_regs e); [| assumption].
  destruct (tick_stopped _); [| assumption].
  apply sm_put_ts; [assumption | reflexivity | reflexivity].
Qed.

Lemma sm_tick_nohz_handler st0 e c st :
  same_modes st0 st -> same_modes st0 (tick_nohz_handler e c st).
Proof.
  intros H. unfold tick_nohz_handler. apply sm_tick_nohz_handler_loop.
  set (st1 := set_per_cpu c (set_next_event KTIME_MAX (per_cpu st c)) st).
  assert (H1 : same_modes st0 st1)
    by (unfold st1; apply sm_set_per_cpu; [assumption | reflexivity | reflexivity]).
  assert (H2 : same_modes st0
                 (if tick_do_timer_cpu (tick_do_timer_check_handler c st1) =? c
                  then tick_do_update_jiffies64 (ktime_get e)
                         (tick_do_timer_check_handler c st1)
                  else tick_do_timer_check_handler c st1))
    by (destruct (_ =? c); auto with modes).
  destruct (tick_stopped _); [| assumption].
  apply sm_put_ts; [assumption | reflexivity | reflexivity].
Qed.

Lemma sm_tick_check_idle st0 e c st :
  same_modes st0 st -> same_modes st0 (tick_check_idle e c st).
Proof.
  intros H. unfold tick_check_idle, tick_check_nohz.
  destruct (_ && _); [assumption |].
  assert (H1 : same_modes st0
                 (if idle_active (get_ts st c)
                  then tick_nohz_stop_idle e c (ktime_get e) st else st))
    by (destruct (idle_active _); auto with modes).
  destruct (tick_stopped _); [| assumption].
  unfold tick_nohz_kick_tick, tick_nohz_update_jiffies.
  apply sm_tick_do_update_jiffies64, sm_put_ts; [assumption | reflexivity | reflexivity].
Qed.

Lemma tick_modes_tick_clock_notify st : tick_modes (tick_clock_notify st) = tick_modes st.
Proof.
  unfold tick_modes, tick_clock_notify. cbn [cpus set_cpus].
  rewrite List.map_map. apply map_ext. reflexivity.
Qed.

Lemma can_stop_idle_tick_inactive e c st :
  nohz_mode (get_ts st c) = NOHZ_MODE_INACTIVE ->
  fst (can_stop_idle_tick e c st) = false.
Proof.
  intros Hm. unfold can_stop_idle_tick.
  assert (Hm' : nohz_mode
                  (get_ts (if negb (cpu_online e) && (c =? tick_do_timer_cpu st)
                           then set_tick_do_timer_cpu TICK_DO_TIMER_NONE st else st) c)
                = NOHZ_MODE_INACTIVE) by (now destruct (_ && _)).
  rewrite Hm'. reflexivity.
Qed.

(** With nohz off the idle path gives up before it looks at the timers. *)
Lemma nohz_off_idle_enter_body e sched c st0 st :
  nohz_off st0 -> same_modes st0 st ->
  exists st', __tick_nohz_idle_enter e sched c st = Some st' /\ same_modes st0 st'.
Proof.
  intros Hoff H. unfold __tick_nohz_idle_enter.
  pose proof (sm_tick_nohz_start_idle st0 e c st H) as H1.
  destruct (tick_nohz_start_idle e c st) as [now st1]. cbn [snd] in H1.
  pose proof (sm_can_stop_idle_tick st0 e c st1 H1) as H2.
  pose proof (can_stop_idle_tick_inactive e c st1) as Hno.
  destruct (nohz_off_get_ts st1 c (nohz_off_same_modes _ _ Hoff H1)) as (Hm & _).
  specialize (Hno Hm).
  destruct (can_stop_idle_tick e c st1) as [can st2]. cbn [fst snd] in *. subst can.
  exists st2. auto.
Qed.

Lemma nohz_off_run_op o st :
  nohz_off st -> exists st', run_op o st = Some st' /\ same_modes st st'.
Proof.
  intros Hoff. pose proof (same_modes_refl st) as Hrefl.
  assert (Hget : forall st1 c, same_modes st st1 ->
                   nohz_mode (get_ts st1 c) = NOHZ_MODE_INACTIVE
                   /\ tick_stopped (get_ts st1 c) = false)
    by (intros st1 c H1; apply nohz_off_get_ts; eapply nohz_off_same_modes; eassumption).
  destruct o as [c e | c e | c e | c e | c e | c e | c e | c e | c e | now]; cbn [run_op].
  - (* tick_nohz_idle_enter *)
    unfold tick_nohz_idle_enter. apply nohz_off_idle_enter_body; [assumption |].
    apply sm_put_ts; [assumption | reflexivity | reflexivity].
  - (* tick_nohz_irq_exit *)
    unfold tick_nohz_irq_exit. destruct (inidle _).
    + destruct (need_resched e); cbn [negb]; [eauto |].
      now apply nohz_off_idle_enter_body.
    + unfold tick_nohz_cpuset_stop_tick.
      destruct (Hget st c Hrefl) as (Hm & Hs). rewrite Hm, Hs. cbn [negb andb].
      destruct (_ || _); cbn [tick_nohz_mode_eqb]; eauto.
  - (* tick_nohz_idle_exit *)
    eexists. split; [reflexivity |]. unfold tick_nohz_idle_exit.
    set (st1 := put_ts c (set_inidle false (get_ts st c)) st).
    assert (H1 : same_modes st st1)
      by (unfold st1; apply sm_put_ts; [assumption | reflexivity | reflexivity]).
    set (st2 := if idle_active (get_ts st1 c)
                then tick_nohz_stop_idle e c (ktime_get e) st1 else st1).
    assert (H2 : same_modes st st2) by (unfold st2; destruct (idle_active _); auto with modes).
    destruct (Hget st2 c H2) as (_ & Hs). now rewrite Hs.
  - (* tick_nohz_check_adaptive *)
    eexists. split; [reflexivity |]. unfold tick_nohz_check_adaptive.
    destruct (Hget st c Hrefl) as (_ & Hs). now rewrite Hs.
  - (* cpuset_exit_nohz_interrupt *)
    eexists. split; [reflexivity |]. unfold cpuset_exit_nohz_interrupt.
    destruct (Hget st c Hrefl) as (_ & Hs). now rewrite Hs.
  - eexists. split; [reflexivity | auto with modes].
  - eexists. split; [reflexivity | auto with modes].
  - (* tick_nohz_restart_adaptive *)
    eexists. split; [reflexivity |]. unfold tick_nohz_restart_adaptive.
    apply sm_tick_nohz_cpu_exit_qs.
    unfold tick_nohz_flush_current_times.
    destruct (Hget st c Hrefl) as (_ & Hs). rewrite Hs.
    set (st1 := if user_nohz (get_ts st c) then _ else st).
    assert (H1 : same_modes st st1)
      by (unfold st1; destruct (user_nohz _); auto 10 with modes).
    unfold tick_nohz_restart_sched_tick.
    destruct (Hget st1 c H1) as (_ & Hs1). rewrite Hs1. cbn [negb].
    apply sm_set_per_cpu; [assumption | reflexivity | reflexivity].
  - eexists. split; [reflexivity | now apply sm_tick_sched_timer].
  - eexists. split; [reflexivity | auto with modes].
Qed.

Lemma nohz_off_run_entry_point ep st :
  nohz_off st -> exists st', run_entry_point ep st = Some st' /\ same_modes st st'.
Proof.
  intros Hoff. pose proof (same_modes_refl st) as Hrefl.
  assert (Hget : forall st1 c, same_modes st st1 ->
                   nohz_mode (get_ts st1 c) = NOHZ_MODE_INACTIVE
                   /\ tick_stopped (get_ts st1 c) = false)
    by (intros st1 c H1; apply nohz_off_get_ts; eapply nohz_off_same_modes; eassumption).
  destruct ep as [o | c e | c b | | c | c o a | c e | c e | c | c | c u | c u | c | c e
                 | c e l | c e l]; cbn [run_entry_point];
    [now apply nohz_off_run_op | eexists; split; [reflexivity |] ..].
  - (* tick_setup_sched_timer *)
    unfold tick_setup_sched_timer, hrtimer_init.
    set (st1 := put_ts c _ st).
    assert (H1 : same_modes st st1)
      by (unfold st1; apply sm_put_ts; [assumption | reflexivity | reflexivity]).
    assert (H2 : same_modes st (snd (tick_init_jiffy_update st1)))
      by (unfold tick_init_jiffy_update; cbn [snd]; destruct (_ =? 0); auto with modes).
    destruct (tick_init_jiffy_update st1) as [next st2]. cbn [snd] in H2.
    set (st3 := tick_setup_sched_timer_loop c (ktime_get e) (rearm_clock e)
                  (hrtimer_set_expires c next st2)).
    assert (H3 : same_modes st st3)
      by (unfold st3; apply sm_tick_setup_sched_timer_loop; auto with modes).
    destruct H3 as [Hm3 Hen3]. destruct Hoff as [Hen _].
    rewrite Hen3, Hen. split; assumption || congruence.
  - (* tick_cancel_sched_timer *)
    unfold tick_cancel_sched_timer.
    set (st1 := if b then hrtimer_cancel c st else st).
    assert (H1 : same_modes st st1) by (unfold st1; destruct b; auto with modes).
    destruct (Hget st1 c H1) as (Hm & _).
    apply sm_put_ts; [assumption | now rewrite Hm | reflexivity].
  - (* tick_clock_notify *)
    split; [apply tick_modes_tick_clock_notify | reflexivity].
  - (* tick_oneshot_notify *)
    unfold tick_oneshot_notify. apply sm_put_ts; [assumption | reflexivity | reflexivity].
  - (* tick_check_oneshot_change *)
    unfold tick_check_oneshot_change.
    destruct (test_and_clear_bit 0 _) as [was word].
    set (st1 := put_ts c _ st).
    assert (H1 : same_modes st st1)
      by (unfold st1; apply sm_put_ts; [assumption | reflexivity | reflexivity]).
    assert (Hen1 : tick_nohz_enabled st1 = false)
      by (destruct H1 as [_ ->]; apply Hoff).
    unfold tick_nohz_switch_to_nohz. rewrite Hen1. cbn [negb].
    split_tests; cbn [snd]; assumption.
  - now apply sm_tick_check_idle.
  - now apply sm_tick_nohz_handler.
  - unfold tick_nohz_exit_kernel. destruct (Hget st c Hrefl) as (_ & ->). exact Hrefl.
  - unfold tick_nohz_enter_kernel. destruct (Hget st c Hrefl) as (_ & ->). exact Hrefl.
  - unfold tick_nohz_enter_exception, tick_nohz_enter_kernel.
    destruct (Hget st c Hrefl) as (_ & ->). now destruct u.
  - unfold tick_nohz_exit_exception, tick_nohz_exit_kernel.
    destruct (Hget st c Hrefl) as (_ & ->). now destruct u.
  - unfold tick_nohz_pre_schedule. destruct (Hget st c Hrefl) as (_ & ->). exact Hrefl.
  - unfold tick_nohz_post_schedule. destruct (Hget st c Hrefl) as (_ & ->). exact Hrefl.
  - unfold get_cpu_idle_time_us. destruct Hoff as [-> _]. exact Hrefl.
  - unfold get_cpu_iowait_time_us. destruct Hoff as [-> _]. exact Hrefl.
Qed.

Lemma nohz_off_run_entry_points eps : forall st,
  nohz_off st -> exists st', run_entry_points eps st = Some st' /\ same_modes st st'.
Proof.
  induction eps as [| ep eps IH]; intros st Hoff; cbn [run_entry_points].
  - exists st. split; [reflexivity | apply same_modes_refl].
  - destruct (nohz_off_run_entry_point ep st Hoff) as (st1 & -> & H1).
    destruct (IH st1 (nohz_off_same_modes _ _ Hoff H1)) as (st' & Hrun & H2).
    exists st'. split; [assumption | eapply same_modes_trans; eassumption].
Qed.

(** X28.  With "nohz=off" on the command line no tick is ever stopped.
    Starting from a state in which no CPU is in a dynamic mode, as at boot,
    every sequence of entry points of the file runs to its end, for any
    answers of the collaborators: setting up the tick timer, notifications
    and checks for one-shot mode, idle entries and exits, interrupts, ticks,
    the hooks at the kernel boundary and around context switches.  After
    it nohz is still off, every CPU is still in the inactive mode with its
    tick running, and the accessors of the idle counters answer -1. *)
Theorem nohz_off_keeps_every_tick (eps : list entry_point) (st : kstate) :
  Forall (fun m => m = (NOHZ_MODE_INACTIVE, false)) (tick_modes st) ->
  nohz_off (boot_nohz_off st)
  /\ exists st',
       run_entry_points eps (boot_nohz_off st) = Some st'
       /\ nohz_off st'
       /\ tick_modes st' = tick_modes st
       /\ (forall c, nohz_mode (get_ts st' c) = NOHZ_MODE_INACTIVE
                     /\ tick_stopped (get_ts st' c) = false)
       /\ (forall e c p,
             get_cpu_idle_time_us e c p st' = (U64_MINUS_ONE, None, st')
             /\ get_cpu_iowait_time_us e c p st' = (U64_MINUS_ONE, None, st')).
Proof.
  intros Hmodes.
  assert (Hoff : nohz_off (boot_nohz_off st)) by (split; [reflexivity | exact Hmodes]).
  split; [exact Hoff |].
  destruct (nohz_off_run_entry_points eps _ Hoff) as (st' & Hrun & Hsame).
  pose proof (nohz_off_same_modes _ _ Hoff Hsame) as Hoff'.
  exists st'. splits; try assumption.
  - apply Hsame.
  - intros c. now apply nohz_off_get_ts.
  - intros e c p. unfold get_cpu_idle_time_us, get_cpu_iowait_time_us.
    destruct Hoff' as [-> _]. auto.
Qed.

Lemma nohz_off_keeps_every_tick_witness :
  exists st',
    run_entry_points
      [EpSetupSchedTimer 0 calm_env; EpOneshotNotify 0;
       EpCheckOneshotChange 0
         {| timekeeping_valid_for_hres := true; tick_is_oneshot_available := true;
            tick_switch_to_oneshot := 0; late_programs := 0 |} true;
       EpOp (OpIdleEnter 0 idle_env); EpOp (OpTick 0 calm_env)]
      (boot_nohz_off (boot_state 2 1000000 0)) = Some st'
    /\ tick_stopped (get_ts st' 0) = false
    /\ nohz_mode (get_ts st' 0) = NOHZ_MODE_INACTIVE.
Proof.
  assert (Hm : Forall (fun m => m = (NOHZ_MODE_INACTIVE, false))
                 (tick_modes (boot_state 2 1000000 0)))
    by (repeat constructor).
  destruct (nohz_off_keeps_every_tick
              [EpSetupSchedTimer 0 calm_env; EpOneshotNotify 0;
               EpCheckOneshotChange 0
                 {| timekeeping_valid_for_hres := true; tick_is_oneshot_available := true;
                    tick_switch_to_oneshot := 0; late_programs := 0 |} true;
               EpOp (OpIdleEnter 0 idle_env); EpOp (OpTick 0 calm_env)]
              (boot_state 2 1000000 0) Hm) as (_ & st' & Hrun & _ & _ & Hc & _).
  exists st'. destruct (Hc 0) as (Hmode & Hstop). auto.
Defined.

(** ** nohz.c: domains *)

Lemma last_cons {A : Type} (a : A) l d : List.last (a :: l) d = List.last l a.
Proof.
  destruct l as [| b l]; [reflexivity |].
  change (List.last (b :: l) d = List.last (b :: l) a). apply last_nonempty.
Qed.

Lemma cpd_set_all_spec vals : forall v,
  nohz_on (cpd_set_all vals v) = nohz_on v
  /\ ncpus_per_dom (cpd_set_all vals v)
     = List.last (List.filter (fun val => val >? 0) vals) (ncpus_per_dom v).
Proof.
  induction vals as [| val vals IH]; intros v; cbn [cpd_set_all List.filter].
  - split; reflexivity.
  - destruct (IH (cpd_set val v)) as (Hon & Hd). rewrite Hon, Hd. unfold cpd_set.
    destruct (val >? 0); cbn [nohz_on ncpus_per_dom]; [| split; reflexivity].
    rewrite last_cons. split; reflexivity.
Qed.

Lemma cpd_set_all_positive vals : forall v,
  0 < ncpus_per_dom v -> 0 < ncpus_per_dom (cpd_set_all vals v).
Proof.
  induction vals as [| val vals IH]; intros v Hpos; cbn [cpd_set_all]; [assumption |].
  apply IH. unfold cpd_set. destruct (Z.gtb_spec val 0); [cbn; lia | assumption].
Qed.

Lemma cpu_get_nohz_target_value NR_CPUS v cpu :
  0 < ncpus_per_dom v -> 0 <= cpu < NR_CPUS -> cpu < 2 ^ 31 ->
  cpu_get_nohz_target NR_CPUS v cpu
  = if per_cpu_nohz_on v cpu =? 0 then cpu
    else cpu / ncpus_per_dom v * ncpus_per_dom v.
Proof.
  intros Hpos Hin Hmax. unfold cpu_get_nohz_target.
  destruct (Z.geb_spec cpu 0); [| lia]. destruct (Z.ltb_spec cpu NR_CPUS); [| lia].
  cbn [andb]. destruct (per_cpu_nohz_on v cpu =? 0); [reflexivity |].
  set (d := ncpus_per_dom v) in *.
  rewrite Z.quot_div_nonneg by lia.
  assert (Hq : 0 <= cpu / d <= cpu).
  { split; [apply Z.div_pos; lia |]. apply Z.div_le_upper_bound; nia. }
  assert (Hm : d * (cpu / d) <= cpu) by (apply Z.mul_div_le; lia).
  rewrite (wrap_s32_id (cpu / d)) by (unfold s32_range; lia).
  rewrite wrap_s32_id by (unfold s32_range; nia). reflexivity.
Qed.

(** X29.  The target CPU stays in the domain of the CPU it is asked for.
    Whatever values were written to the sysfs attribute "cpd" before, the
    size of a domain is positive if it was at the start (it is the last
    positive value written, if there was one) and the flags of the CPUs
    are untouched.  The target of a CPU of the build is then a CPU of the
    same domain, not after the CPU itself and less than a domain size
    before it, and it is its own target.  A CPU for which [cpu_nohz_on]
    holds is sent to the first CPU of its domain and ticks with the nohz
    period; a CPU that is sent elsewhere has a nonzero flag. *)
Theorem nohz_target_in_domain (NR_CPUS : Z) (vals : list Z) (v : nohz_vars) (cpu : Z)
    (tick_nohz_period : ktime_t) (st : kstate) :
  0 < ncpus_per_dom v ->
  0 <= cpu < NR_CPUS -> NR_CPUS <= 2 ^ 31 ->
  let v' := cpd_set_all vals v in
  let d := ncpus_per_dom v' in
  let target := cpu_get_nohz_target NR_CPUS v' cpu in
  0 < d
  /\ d = List.last (List.filter (fun val => val >? 0) vals) (ncpus_per_dom v)
  /\ nohz_on v' = nohz_on v
  /\ 0 <= target <= cpu
  /\ cpu - target < d
  /\ target / d = cpu / d
  /\ cpu_get_nohz_target NR_CPUS v' target = target
  /\ (cpu_nohz_on v' cpu = true ->
      target = cpu / d * d
      /\ get_cpu_tick_period v' tick_nohz_period st cpu = tick_nohz_period)
  /\ (cpu_nohz_on v' cpu = false ->
      get_cpu_tick_period v' tick_nohz_period st cpu = tick_period st)
  /\ (target <> cpu -> per_cpu_nohz_on v' cpu <> 0).
Proof.
  intros Hpos Hin Hmax. cbn zeta.
  pose proof (cpd_set_all_positive vals v Hpos) as Hd.
  destruct (cpd_set_all_spec vals v) as (Hon & Hlast).
  set (v' := cpd_set_all vals v) in *. set (d := ncpus_per_dom v') in *.
  rewrite (cpu_get_nohz_target_value NR_CPUS v' cpu Hd Hin) by lia. fold d.
  assert (Hq : 0 <= cpu / d) by (apply Z.div_pos; lia).
  pose proof (Z.div_mod cpu d ltac:(lia)) as Hdm.
  pose proof (Z.mod_pos_bound cpu d Hd) as Hmb.
  assert (Hfirst : cpu / d * d / d = cpu / d) by (apply Z.div_mul; lia).
  unfold cpu_nohz_on, get_cpu_tick_period.
  destruct (Z.eqb_spec (per_cpu_nohz_on v' cpu) 0) as [Hz | Hnz].
  - rewrite (cpu_get_nohz_target_value NR_CPUS v' cpu Hd Hin) by lia.
    rewrite Hz. cbn [Z.eqb Z.gtb Z.compare].
    splits; try assumption; try reflexivity; try lia; try discriminate.
  - assert (Hin' : 0 <= cpu / d * d < NR_CPUS) by nia.
    cbv iota.
    rewrite (cpu_get_nohz_target_value NR_CPUS v' (cpu / d * d) Hd Hin') by nia.
    fold d. rewrite Hfirst.
    splits; try assumption; try reflexivity; try nia.
    + now destruct (_ =? 0).
    + intros ->. auto.
    + now intros ->.
Qed.

Lemma nohz_target_in_domain_witness :
  let v' := cpd_set_all [2; 0; -3] sample_nohz_vars in
  ncpus_per_dom v' = 2
  /\ cpu_get_nohz_target 8 v' 5 = 4
  /\ cpu_get_nohz_target 8 v' 4 = 4.
Proof.
  cbn zeta.
  pose proof (nohz_target_in_domain 8 [2; 0; -3] sample_nohz_vars 5 0 sample_timebase) as H.
  discharge H.
  destruct H as (_ & Hd & _ & _ & _ & _ & Hidem & Hon & _).
  destruct Hon as (Ht & _); [vm_compute; reflexivity |].
  splits.
  - rewrite Hd. vm_compute. reflexivity.
  - rewrite Ht. vm_compute. reflexivity.
  - rewrite Ht in Hidem. exact Hidem.
Defined.

(** ** The adaptive bookkeeping over all entry points *)

Lemma sa_tick_nohz_handler_loop st0 c clock : forall now st,
  same_adaptive st0 st -> same_adaptive st0 (tick_nohz_handler_loop c now clock st).
Proof.
  induction clock as [| later clock IH]; intros now st H;
    cbn [tick_nohz_handler_loop]; unfold tick_nohz_reprogram.
  - auto with adaptive.
  - apply IH. auto with adaptive.
Qed.

Lemma sa_tick_setup_sched_timer_loop st0 c clock : forall now st,
  same_adaptive st0 st -> same_adaptive st0 (tick_setup_sched_timer_loop c now clock st).
Proof.
  induction clock as [| later clock IH]; intros now st H;
    cbn [tick_setup_sched_timer_loop].
  - auto with adaptive.
  - apply IH. auto with adaptive.
Qed.

Lemma sa_tick_nohz_switch_to_nohz_loop st0 c late : forall next st,
  same_adaptive st0 st -> same_adaptive st0 (tick_nohz_switch_to_nohz_loop c next late st).
Proof.
  induction late as [| late IH]; intros next st H; cbn [tick_nohz_switch_to_nohz_loop].
  - auto with adaptive.
  - apply IH. auto with adaptive.
Qed.

Lemma sa_tick_init_jiffy_update st0 st :
  same_adaptive st0 st -> same_adaptive st0 (snd (tick_init_jiffy_update st)).
Proof. intros H. unfold tick_init_jiffy_update. cbn [snd]. chain. Qed.

Lemma sa_hrtimer_init st0 c st :
  same_adaptive st0 st -> same_adaptive st0 (hrtimer_init c st).
Proof. intros H. unfold hrtimer_init. chain. Qed.

Lemma sa_tick_nohz_switch_to_nohz st0 o c st :
  same_adaptive st0 st -> same_adaptive st0 (tick_nohz_switch_to_nohz o c st).
Proof.
  intros H. unfold tick_nohz_switch_to_nohz.
  destruct (negb _); [assumption |]. destruct (negb _); [assumption |].
  pose proof (sa_tick_init_jiffy_update st0
                (hrtimer_init c (put_ts c (set_nohz_mode NOHZ_MODE_LOWRES (get_ts st c)) st))
                ltac:(apply sa_hrtimer_init; auto with adaptive)) as H1.
  destruct (tick_init_jiffy_update _) as [next st1]. cbn [snd] in H1.
  now apply sa_tick_nohz_switch_to_nohz_loop.
Qed.

Lemma marks_tick_clock_notify st : marks (tick_clock_notify st) = marks st.
Proof.
  unfold marks, tick_clock_notify. cbn [cpus set_cpus].
  rewrite List.map_map. apply map_ext. reflexivity.
Qed.

(** The entry points that are not in [op] never write the marker or the
    counter. *)
Lemma sa_run_entry_point ep st st' :
  (forall o, ep <> EpOp o) ->
  run_entry_point ep st = Some st' -> same_adaptive st st'.
Proof.
  intros Hno. pose proof (same_adaptive_refl st) as Hrefl.
  destruct ep as [o | c e | c b | | c | c o a | c e | c e | c | c | c u | c u | c | c e
                 | c e l | c e l]; cbn [run_entry_point];
    [now destruct (Hno o) | intros [= <-] ..].
  - (* tick_setup_sched_timer *)
    unfold tick_setup_sched_timer.
    pose proof (sa_tick_init_jiffy_update st (hrtimer_init c st)
                  ltac:(apply sa_hrtimer_init; assumption)) as H1.
    destruct (tick_init_jiffy_update _) as [next st1]. cbn [snd] in H1.
    set (st2 := tick_setup_sched_timer_loop c (ktime_get e) (rearm_clock e) _).
    assert (H2 : same_adaptive st st2)
      by (unfold st2; apply sa_tick_setup_sched_timer_loop; auto with adaptive).
    destruct (tick_nohz_enabled st2); auto with adaptive.
  - unfold tick_cancel_sched_timer.
    apply sa_put_ts; [destruct b; auto with adaptive | reflexivity].
  - split; [apply marks_tick_clock_notify | reflexivity].
  - unfold tick_oneshot_notify. auto with adaptive.
  - (* tick_check_oneshot_change *)
    unfold tick_check_oneshot_change.
    destruct (test_and_clear_bit 0 _) as [was word].
    set (st1 := put_ts c _ st).
    assert (H1 : same_adaptive st st1) by (unfold st1; auto with adaptive).
    pose proof (sa_tick_nohz_switch_to_nohz st o c st1 H1) as H2.
    split_tests; cbn [snd]; assumption.
  - (* tick_check_idle *)
    unfold tick_check_idle, tick_check_nohz.
    destruct (_ && _); [assumption |].
    assert (H1 : same_adaptive st
                   (if idle_active (get_ts st c)
                    then tick_nohz_stop_idle e c (ktime_get e) st else st))
      by (destruct (idle_active _); auto with adaptive).
    destruct (tick_stopped _); [| assumption].
    unfold tick_nohz_kick_tick, tick_nohz_update_jiffies. auto with adaptive.
  - (* tick_nohz_handler *)
    unfold tick_nohz_handler. apply sa_tick_nohz_handler_loop.
    set (st1 := set_per_cpu c (set_next_event KTIME_MAX (per_cpu st c)) st).
    assert (H1 : same_adaptive st st1) by (unfold st1; auto with adaptive).
    assert (H2 : same_adaptive st
                   (if tick_do_timer_cpu (tick_do_timer_check_handler c st1) =? c
                    then tick_do_update_jiffies64 (ktime_get e)
                           (tick_do_timer_check_handler c st1)
                    else tick_do_timer_check_handler c st1))
      by (destruct (_ =? c); auto with adaptive).
    destruct (tick_stopped _); auto with adaptive.
  - unfold tick_nohz_exit_kernel, account_system_ticks.
    destruct (negb _); cbn [snd]; [assumption |].
    apply sa_emit, sa_set_per_cpu; [| percpu; reflexivity]. auto 10 with adaptive.
  - unfold tick_nohz_enter_kernel, account_user_ticks.
    destruct (negb _); cbn [snd]; [assumption |].
    destruct (nohz_task_ext_qs _); auto 10 with adaptive.
  - unfold tick_nohz_enter_exception, tick_nohz_enter_kernel, account_user_ticks.
    destruct u; [| assumption]. destruct (negb _); cbn [snd]; [assumption |].
    destruct (nohz_task_ext_qs _); auto 10 with adaptive.
  - unfold tick_nohz_exit_exception, tick_nohz_exit_kernel, account_system_ticks.
    destruct u; [| assumption]. destruct (negb _); cbn [snd]; [assumption |].
    apply sa_emit, sa_set_per_cpu; [| percpu; reflexivity]. auto 10 with adaptive.
  - unfold tick_nohz_pre_schedule. destruct (tick_stopped _); [| assumption].
    apply sa_set_per_cpu; [| reflexivity].
    now apply sa_tick_nohz_flush_current_times.
  - unfold tick_nohz_post_schedule. destruct (tick_stopped _); [| assumption].
    destruct (is_idle_task e); [auto with adaptive |].
    now apply sa_tick_nohz_restart_sched_tick.
  - unfold get_cpu_idle_time_us, update_ts_time_stats.
    split_tests; cbn [snd]; try assumption; apply sa_put_ts; auto.
  - unfold get_cpu_iowait_time_us, update_ts_time_stats.
    split_tests; cbn [snd]; try assumption; apply sa_put_ts; auto.
Qed.

Lemma consistent_run_entry_point n ep st st' :
  Z.of_nat n < 2 ^ 31 ->
  adaptive_consistent n st -> entry_point_ok n ep ->
  run_entry_point ep st = Some st' -> adaptive_consistent n st'.
Proof.
  intros Hn Hinv Hok Hrun.
  destruct ep as [o | | | | | | | | | | | | | | |];
    [exact (consistent_run_op n Hn o st st' Hinv Hok Hrun) | ..];
    (apply (adaptive_consistent_same n st); [assumption |];
     eapply sa_run_entry_point; [| exact Hrun]; discriminate).
Qed.

(** X30.  The counter of adaptive CPUs counts the markers over every
    entry point of the file, not only the ones that write them.  On a
    machine with fewer than 2^31 CPUs, from a state in which
    [nr_cpus_user_nohz] is the number of CPUs whose structure has
    [user_nohz] set, every sequence of entry points that runs to its end,
    each on a CPU that exists, leads to such a state again, with the
    counter between 0 and the number of CPUs.  The entry points that set
    the tick up or take it down, the notifications, the interrupt entry,
    the low resolution tick, the hooks at the kernel boundary and around
    context switches and the accessors of the idle counters leave every
    marker and the counter as they are. *)
Theorem counter_counts_markers_everywhere (ncpus : nat) (eps : list entry_point)
    (st st' : kstate) :
  Z.of_nat ncpus < 2 ^ 31 ->
  adaptive_consistent ncpus st ->
  Forall (entry_point_ok ncpus) eps ->
  run_entry_points eps st = Some st' ->
  nr_cpus_user_nohz st' = count_user_nohz st'
  /\ 0 <= nr_cpus_user_nohz st' <= Z.of_nat ncpus
  /\ length (cpus st') = ncpus
  /\ ((forall ep, In ep eps -> forall o, ep <> EpOp o) ->
      marks st' = marks st /\ nr_cpus_user_nohz st' = nr_cpus_user_nohz st).
Proof.
  intros Hn Hinv Hok Hrun.
  assert (Hinv' : adaptive_consistent ncpus st').
  { revert st Hinv Hrun. induction Hok as [| ep eps Hep Hok IH]; intros st Hinv Hrun;
      cbn [run_entry_points] in Hrun.
    - now injection Hrun as <-.
    - destruct (run_entry_point ep st) as [st1 |] eqn:Hstep; [| discriminate].
      apply (IH st1); [| assumption].
      exact (consistent_run_entry_point ncpus ep st st1 Hn Hinv Hep Hstep). }
  destruct Hinv' as [Hlen Hnr].
  splits; try assumption.
  - rewrite Hnr. apply count_user_nohz_bounds.
  - rewrite Hnr, <- Hlen. apply count_user_nohz_bounds.
  - clear Hok Hinv Hlen Hnr. revert st Hrun.
    induction eps as [| ep eps IH]; intros st Hrun Hno; cbn [run_entry_points] in Hrun.
    + injection Hrun as <-. split; reflexivity.
    + destruct (run_entry_point ep st) as [st1 |] eqn:Hstep; [| discriminate].
      destruct (sa_run_entry_point ep st st1) as [Hm1 Hn1];
        [apply Hno; now left | assumption |].
      destruct (IH st1 Hrun) as [Hm2 Hn2]; [intros ep' Hin; apply Hno; now right |].
      split; congruence.
Qed.

Lemma counter_counts_markers_everywhere_witness :
  exists st',
    run_entry_points
      [EpOp (OpCanStopAdaptive 2 calm_env); EpSetupSchedTimer 2 calm_env;
       EpExitKernel 2; EpOp (OpIdleEnter 2 idle_env); EpCheckIdle 2 calm_env]
      (boot_state 4 1000000 0) = Some st'
    /\ nr_cpus_user_nohz st' = count_user_nohz st'
    /\ 0 <= nr_cpus_user_nohz st' <= 4.
Proof.
  destruct (run_entry_points
              [EpOp (OpCanStopAdaptive 2 calm_env); EpSetupSchedTimer 2 calm_env;
               EpExitKernel 2; EpOp (OpIdleEnter 2 idle_env); EpCheckIdle 2 calm_env]
              (boot_state 4 1000000 0)) as [st' |] eqn:Hrun;
    [| vm_compute in Hrun; discriminate].
  exists st'. split; [reflexivity |].
  assert (Hn : Z.of_nat 4 < 2 ^ 31) by (vm_compute; reflexivity).
  assert (Hinv : adaptive_consistent 4 (boot_state 4 1000000 0))
    by (split; vm_compute; reflexivity).
  assert (Hok : Forall (entry_point_ok 4)
                  [EpOp (OpCanStopAdaptive 2 calm_env); EpSetupSchedTimer 2 calm_env;
                   EpExitKernel 2; EpOp (OpIdleEnter 2 idle_env); EpCheckIdle 2 calm_env])
    by (repeat (apply List.Forall_cons || apply List.Forall_nil);
        cbn; try exact I; intros c [= <-]; lia).
  destruct (counter_counts_markers_everywhere 4 _ _ st' Hn Hinv Hok Hrun) as (H1 & H2 & _).
  split; assumption.
Defined.

(** ** The counter of adaptive CPUs in the states between entry points *)








